(** * libmediasoupclient: the synthesized remote SDP and the negotiation handlers

    A shallow embedding of [src/sdp/MediaSection.cpp], [src/sdp/RemoteSdp.cpp]
    and [src/Handler.cpp], with the properties of the media-section
    registry, of the session version, of the SCTP stream allocator and of
    the Send / Receive sequences.

    Conventions of the embedding.
    - [nlohmann::json] values are the inductive [json]; objects are
      association lists kept in key order, as [std::map] keeps them.
    - A C++ expression that can throw or hit undefined behaviour yields a
      [res]: [Ok v], [Throw e] (an exception derived from [std::exception])
      or [Undef] (an assertion of the json library or a dereferenced end
      iterator).
    - Member functions that mutate an object are computations of the state
      monad [M S]: a thrown exception keeps the state reached so far.
    - The transport engine, the SDP text format and [Sdp::Utils] are not
      part of these sources.  Their pure functions are section variables,
      and the outcomes of the engine calls of one operation are fields of a
      script record handed to that operation. *)

From Stdlib Require Import ZArith Lia.
From stdpp Require Import base option list strings gmap pretty.

Set Warnings "-register-all".

Open Scope string_scope.
Open Scope Z_scope.

(** ** Outcomes of fallible code *)

Inductive exn : Type :=
| JsonTypeError
| JsonOutOfRange
| BadOptionalAccess
| MscTypeError (msg : string)
| MscError (msg : string)
| InvalidIterator
| EngineError (call : string).

Inductive res (A : Type) : Type :=
| Ok (a : A)
| Throw (e : exn)
| Undef.
Arguments Ok {A} a.
Arguments Throw {A} e.
Arguments Undef {A}.

#[global] Instance res_ret : MRet res := fun A a => Ok a.
#[global] Instance res_bind : MBind res := fun A B f m =>
  match m with
  | Ok a => f a
  | Throw e => Throw e
  | Undef => Undef
  end.
#[global] Instance res_fmap : FMap res := fun A B f m =>
  match m with
  | Ok a => Ok (f a)
  | Throw e => Throw e
  | Undef => Undef
  end.

(** [mapM] over a list, left to right, stopping at the first failure. *)
Fixpoint res_map {A B : Type} (f : A -> res B) (l : list A) : res (list B) :=
  match l with
  | [] => Ok []
  | x :: l' => y ← f x; ys ← res_map f l'; Ok (y :: ys)
  end.

Fixpoint res_fold {A B : Type} (f : B -> A -> res B) (l : list A) (b : B) : res B :=
  match l with
  | [] => Ok b
  | x :: l' => b' ← f b x; res_fold f l' b'
  end.

(** ** JSON values *)

(** A C++ [double] or [float] that is not an infinity or a NaN: [mant * 2^expo]. *)
Record double : Type := Double { mant : Z; expo : Z }.

Inductive json : Type :=
| JNull
| JBool (b : bool)
| JInt (z : Z)
| JFloat (d : double)
| JStr (s : string)
| JArr (l : list json)
| JObj (o : list (string * json)).

Abbreviation jobject := (list (string * json)).

Module Obj.
  (** The members of a json object, ordered by key as in [std::map]. *)

Fixpoint find (k : string) (o : jobject) : option json :=
    match o with
    | [] => None
    | (k', v) :: o' => if String.eqb k k' then Some v else find k o'
    end.

Fixpoint set (k : string) (v : json) (o : jobject) : jobject :=
    match o with
    | [] => [(k, v)]
    | (k', v') :: o' =>
        match String.compare k k' with
        | Eq => (k, v) :: o'
        | Lt => (k, v) :: (k', v') :: o'
        | Gt => (k', v') :: set k v o'
        end
    end.

Fixpoint erase (k : string) (o : jobject) : jobject :=
    match o with
    | [] => []
    | (k', v) :: o' => if String.eqb k k' then erase k o' else (k', v) :: erase k o'
    end.

Definition contains (k : string) (o : jobject) : bool :=
    match find k o with Some _ => true | None => false end.

Definition of_list (l : list (string * json)) : jobject :=
    fold_left (fun o kv => set (fst kv) (snd kv) o) l [].
End Obj.

(** [j[key]] on a non-const json, read: a null becomes an object, a missing
    key is inserted with value null. *)
Definition j_ref (k : string) (j : json) : res (json * json) :=
  match j with
  | JNull => Ok (JNull, JObj [(k, JNull)])
  | JObj o =>
      match Obj.find k o with
      | Some v => Ok (v, j)
      | None => Ok (JNull, JObj (Obj.set k JNull o))
      end
  | _ => Throw JsonTypeError
  end.

(** [j[key] = v] on a non-const json. *)
Definition j_set (k : string) (v : json) (j : json) : res json :=
  match j with
  | JNull => Ok (JObj [(k, v)])
  | JObj o => Ok (JObj (Obj.set k v o))
  | _ => Throw JsonTypeError
  end.

(** [j[key]] on a const json: the key must be there. *)
Definition j_get (k : string) (j : json) : res json :=
  match j with
  | JObj o => match Obj.find k o with Some v => Ok v | None => Undef end
  | _ => Throw JsonTypeError
  end.

(** [j.at(key)]. *)
Definition j_at (k : string) (j : json) : res json :=
  match j with
  | JObj o => match Obj.find k o with Some v => Ok v | None => Throw JsonOutOfRange end
  | _ => Throw JsonTypeError
  end.

(** [j.find(key)]: [None] is the end iterator. *)
Definition j_find (k : string) (j : json) : option json :=
  match j with
  | JObj o => Obj.find k o
  | _ => None
  end.

Definition j_contains (k : string) (j : json) : bool :=
  match j_find k j with Some _ => true | None => false end.

(** [j[key_1]...[key_n] := f (j[key_1]...[key_n])] through non-const
    references. *)
Definition j_upd (k : string) (f : json -> res json) (j : json) : res json :=
  '(v, j') ← j_ref k j;
  v' ← f v;
  j_set k v' j'.

(** [j[idx] = v] on a non-const json: a null becomes an array, and an array
    that is too short is filled with nulls up to [idx]. *)
Definition arr_set (idx : nat) (v : json) (l : list json) : list json :=
  if decide (idx < length l)%nat then <[idx := v]> l
  else l ++ replicate (idx - length l) JNull ++ [v].

Definition j_set_idx (idx : nat) (v : json) (j : json) : res json :=
  match j with
  | JNull => Ok (JArr (arr_set idx v []))
  | JArr l => Ok (JArr (arr_set idx v l))
  | _ => Throw JsonTypeError
  end.

(** [j[idx]] on a non-const json, as a value. *)
Definition j_ref_idx (idx : nat) (j : json) : res json :=
  match j with
  | JNull => Ok JNull
  | JArr l => Ok (default JNull (l !! idx))
  | _ => Throw JsonTypeError
  end.

(** [j[idx]] on a const json. *)
Definition j_get_idx (idx : nat) (j : json) : res json :=
  match j with
  | JArr l => match l !! idx with Some v => Ok v | None => Undef end
  | _ => Throw JsonTypeError
  end.

Definition j_push_back (v : json) (j : json) : res json :=
  match j with
  | JNull => Ok (JArr [v])
  | JArr l => Ok (JArr (l ++ [v]))
  | _ => Throw JsonTypeError
  end.

Definition j_erase (k : string) (j : json) : res json :=
  match j with
  | JObj o => Ok (JObj (Obj.erase k o))
  | _ => Throw JsonTypeError
  end.

(** The elements a range-based [for] visits. *)
Definition j_items (j : json) : list json :=
  match j with
  | JNull => []
  | JArr l => l
  | JObj o => snd <$> o
  | _ => [j]
  end.

Definition j_size (j : json) : nat := length (j_items j).

Definition j_empty (j : json) : bool :=
  match j_items j with [] => true | _ => false end.

Definition j_is_string (j : json) : bool := match j with JStr _ => true | _ => false end.
Definition j_is_object (j : json) : bool := match j with JObj _ => true | _ => false end.
Definition j_is_array (j : json) : bool := match j with JArr _ => true | _ => false end.
Definition j_is_float (j : json) : bool := match j with JFloat _ => true | _ => false end.
Definition j_is_number (j : json) : bool :=
  match j with JInt _ | JFloat _ => true | _ => false end.

Definition get_string (j : json) : res string :=
  match j with JStr s => Ok s | _ => Throw JsonTypeError end.

Definition get_bool (j : json) : res bool :=
  match j with JBool b => Ok b | _ => Throw JsonTypeError end.

(** The integral part of a double, as [static_cast] to an integer takes it. *)
Definition double_trunc (d : double) : Z :=
  if 0 <=? expo d then mant d * 2 ^ expo d else Z.quot (mant d) (2 ^ (- expo d)).

(** [j.get<T>()] for an unsigned integer type [T] of [w] bits.  A double
    outside the range of [T] has no defined conversion. *)
Definition get_uint (w : Z) (j : json) : res Z :=
  match j with
  | JInt z => Ok (z mod 2 ^ w)
  | JBool b => Ok (if b then 1 else 0)
  | JFloat d =>
      let z := double_trunc d in
      if (0 <=? z) && (z <? 2 ^ w) then Ok z else Undef
  | _ => Throw JsonTypeError
  end.

(** [j.get<int>()] and [j.get<int64_t>()]: two's complement on [w] bits. *)
Definition wrap_signed (w : Z) (z : Z) : Z :=
  (z + 2 ^ (w - 1)) mod 2 ^ w - 2 ^ (w - 1).

Definition get_sint (w : Z) (j : json) : res Z :=
  match j with
  | JInt z => Ok (wrap_signed w z)
  | JBool b => Ok (if b then 1 else 0)
  | JFloat d =>
      let z := double_trunc d in
      if (- 2 ^ (w - 1) <=? z) && (z <? 2 ^ (w - 1)) then Ok z else Undef
  | _ => Throw JsonTypeError
  end.

(** Numeric equality of two doubles. *)
Definition double_eqb (x y : double) : bool :=
  let e := Z.min (expo x) (expo y) in
  mant x * 2 ^ (expo x - e) =? mant y * 2 ^ (expo y - e).

(** [a == b] on json values: numbers compare by value, everything else
    structurally. *)
Fixpoint j_eqb (a b : json) {struct a} : bool :=
  match a, b with
  | JNull, JNull => true
  | JBool x, JBool y => Bool.eqb x y
  | JInt x, JInt y => x =? y
  | JFloat x, JFloat y => double_eqb x y
  | JInt x, JFloat y => double_eqb (Double x 0) y
  | JFloat x, JInt y => double_eqb x (Double y 0)
  | JStr x, JStr y => String.eqb x y
  | JArr x, JArr y =>
      (fix go (x y : list json) : bool :=
         match x, y with
         | [], [] => true
         | u :: x', v :: y' => j_eqb u v && go x' y'
         | _, _ => false
         end) x y
  | JObj x, JObj y =>
      (fix go (x y : jobject) : bool :=
         match x, y with
         | [], [] => true
         | (k, u) :: x', (k', v) :: y' => String.eqb k k' && j_eqb u v && go x' y'
         | _, _ => false
         end) x y
  | _, _ => false
  end.

(** [j == n] for an integer literal. *)
Definition j_eq_int (j : json) (n : Z) : bool := j_eqb j (JInt n).

(** A range-based [for] over [auto&] elements: the body may change the
    element it visits, and threads an accumulator.  An array gives its
    elements, an object its values, null nothing, any other value itself. *)
Section JFor.
Context {A : Type} (body : A -> json -> res (A * json)).

Fixpoint for_list (acc : A) (l : list json) : res (A * list json) :=
    match l with
    | [] => Ok (acc, [])
    | x :: l' =>
        '(acc1, x') ← body acc x;
        '(acc2, l'') ← for_list acc1 l';
        Ok (acc2, x' :: l'')
    end.

Fixpoint for_members (acc : A) (o : jobject) : res (A * jobject) :=
    match o with
    | [] => Ok (acc, [])
    | (k, x) :: o' =>
        '(acc1, x') ← body acc x;
        '(acc2, o'') ← for_members acc1 o';
        Ok (acc2, (k, x') :: o'')
    end.

Definition j_for (acc : A) (j : json) : res (A * json) :=
    match j with
    | JNull => Ok (acc, JNull)
    | JArr l => '(acc', l') ← for_list acc l; Ok (acc', JArr l')
    | JObj o => '(acc', o') ← for_members acc o; Ok (acc', JObj o')
    | _ => body acc j
    end.
End JFor.

(** ** Strings *)

Definition ascii_tolower (c : Ascii.ascii) : Ascii.ascii :=
  let n := Ascii.nat_of_ascii c in
  if decide (65 <= n <= 90)%nat then Ascii.ascii_of_nat (n + 32) else c.

(** [std::transform(s.begin(), s.end(), s.begin(), ::tolower)]. *)
Fixpoint tolower (s : string) : string :=
  match s with
  | EmptyString => EmptyString
  | String c s' => String (ascii_tolower c) (tolower s')
  end.

(** [std::to_string] of an integer. *)
Definition to_string (z : Z) : string := pretty z.

(** The loops that build a separated list test [acc.empty()] to decide
    whether a separator is due. *)
Definition append_sep (sep : string) (acc item : string) : string :=
  if decide (acc = "") then item else acc +:+ sep +:+ item.

(** An object written as a braced list of key/value pairs. *)
Definition obj_lit (l : list (string * json)) : json := JObj (Obj.of_list l).

(** [j[key].push_back(v)]. *)
Definition j_push_at (k : string) (v : json) (j : json) : res json :=
  j_upd k (j_push_back v) j.

(** [j[idx] := f (j[idx])] through a non-const reference. *)
Definition j_upd_idx (idx : nat) (f : json -> res json) (j : json) : res json :=
  v ← j_ref_idx idx j;
  v' ← f v;
  j_set_idx idx v' j.

(** ** The state monad of member functions *)

Inductive sres (S A : Type) : Type :=
| SOk (a : A) (s : S)
| SThrow (e : exn) (s : S)
| SUndef.
Arguments SOk {S A} a s.
Arguments SThrow {S A} e s.
Arguments SUndef {S A}.

Definition M (S A : Type) : Type := S -> sres S A.

#[global] Instance M_ret {S} : MRet (M S) := fun A a s => SOk a s.
#[global] Instance M_bind {S} : MBind (M S) := fun A B f m s =>
  match m s with
  | SOk a s' => f a s'
  | SThrow e s' => SThrow e s'
  | SUndef => SUndef
  end.

Definition get_st {S} : M S S := fun s => SOk s s.
Definition modify {S} (f : S -> S) : M S unit := fun s => SOk tt (f s).
Definition throw {S A} (e : exn) : M S A := fun s => SThrow e s.
Definition undef {S A} : M S A := fun _ => SUndef.

(** A pure fallible expression evaluated in the current state. *)
Definition lift {S A} (r : res A) : M S A := fun s =>
  match r with
  | Ok a => SOk a s
  | Throw e => SThrow e s
  | Undef => SUndef
  end.

(** A member function of a sub-object run on a field of the state. *)
Definition zoom {S T A} (proj : S -> T) (inj : T -> S -> S) (m : M T A) : M S A := fun s =>
  match m (proj s) with
  | SOk a t => SOk a (inj t s)
  | SThrow e t => SThrow e (inj t s)
  | SUndef => SUndef
  end.

(** [try { body } catch (std::exception&) { handler }]. *)
Definition try_catch {S A} (body : M S A) (handler : exn -> M S A) : M S A := fun s =>
  match body s with
  | SThrow e s' => handler e s'
  | r => r
  end.

(** ** Media sections: [src/sdp/MediaSection.cpp] *)

Inductive variant : Type := AnswerVariant | OfferVariant.

Record MediaSection : Type := mkSection { section_variant : variant; mediaObject : json }.

Module Section.
Definition GetMid (ms : MediaSection) : res string :=
    v ← j_get "mid" (mediaObject ms); get_string v.

Definition IsClosed (ms : MediaSection) : res bool :=
    v ← j_get "port" (mediaObject ms); Ok (j_eq_int v 0).

Definition GetObject (ms : MediaSection) : json := mediaObject ms.

Definition SetIceParameters (iceParameters : json) (m : json) : res json :=
    ufrag ← j_get "usernameFragment" iceParameters;
    m ← j_set "iceUfrag" ufrag m;
    pwd ← j_get "password" iceParameters;
    j_set "icePwd" pwd m.

Definition Disable (m : json) : res json :=
    m ← j_set "direction" (JStr "inactive") m;
    m ← j_erase "ext" m;
    m ← j_erase "ssrcs" m;
    m ← j_erase "ssrcGroups" m;
    m ← j_erase "simulcast" m;
    j_erase "rids" m.

Definition Close (m : json) : res json :=
    m ← j_set "direction" (JStr "inactive") m;
    m ← j_set "port" (JInt 0) m;
    m ← j_erase "ext" m;
    m ← j_erase "ssrcs" m;
    m ← j_erase "ssrcGroups" m;
    m ← j_erase "simulcast" m;
    m ← j_erase "rids" m;
    j_erase "extmapAllowMixed" m.

  (** [AnswerMediaSection::SetDtlsRole] and [OfferMediaSection::SetDtlsRole]. *)
Definition SetDtlsRole (v : variant) (role : string) (m : json) : res json :=
    match v with
    | AnswerVariant =>
        if decide (role = "client") then j_set "setup" (JStr "active") m
        else if decide (role = "server") then j_set "setup" (JStr "passive") m
        else if decide (role = "auto") then j_set "setup" (JStr "actpass") m
        else Ok m
    | OfferVariant => j_set "setup" (JStr "actpass") m
    end.

  (** One entry of the candidates array. *)
Definition candidate_object (candidate : json) : res json :=
    o ← j_set "component" (JInt 1) (JObj []);
    v ← j_get "foundation" candidate; o ← j_set "foundation" v o;
    v ← j_get "ip" candidate; o ← j_set "ip" v o;
    v ← j_get "port" candidate; o ← j_set "port" v o;
    v ← j_get "priority" candidate; o ← j_set "priority" v o;
    v ← j_get "protocol" candidate; o ← j_set "transport" v o;
    v ← j_get "type" candidate; o ← j_set "type" v o;
    match j_find "tcpType" candidate with
    | Some _ => v ← j_get "tcpType" candidate; j_set "tcptype" v o
    | None => Ok o
    end.

  (** The constructor of the base class. *)
Definition init (iceParameters iceCandidates : json) : res json :=
    m ← SetIceParameters iceParameters JNull;
    m ← j_set "candidates" (JArr []) m;
    m ← res_fold (fun m candidate =>
                    o ← candidate_object candidate; j_push_at "candidates" o m)
                 (j_items iceCandidates) m;
    m ← j_set "endOfCandidates" (JStr "end-of-candidates") m;
    j_set "iceOptions" (JStr "renomination") m.

  (** [section->method()] through the pointer kept in the vector. *)
Definition apply (f : json -> res json) (ms : MediaSection) : res MediaSection :=
    m ← f (mediaObject ms); Ok (mkSection (section_variant ms) m).
End Section.

(** ** The remote description: [src/sdp/RemoteSdp.cpp] *)

Record MediaSectionIdx : Type := mkIdx { idx : nat; reuseMid : string }.

Record RemoteSdp : Type := mkRemoteSdp {
  iceParameters : json;
  iceCandidates : json;
  dtlsParameters : json;
  sctpParameters : json;
  mediaSections : list MediaSection;
  firstMid : string;
  midToIndex : gmap string nat;
  sdpObject : json
}.

Definition set_iceParameters (v : json) (r : RemoteSdp) : RemoteSdp :=
  mkRemoteSdp v (iceCandidates r) (dtlsParameters r) (sctpParameters r)
              (mediaSections r) (firstMid r) (midToIndex r) (sdpObject r).
Definition set_dtlsParameters (v : json) (r : RemoteSdp) : RemoteSdp :=
  mkRemoteSdp (iceParameters r) (iceCandidates r) v (sctpParameters r)
              (mediaSections r) (firstMid r) (midToIndex r) (sdpObject r).
Definition set_mediaSections (v : list MediaSection) (r : RemoteSdp) : RemoteSdp :=
  mkRemoteSdp (iceParameters r) (iceCandidates r) (dtlsParameters r) (sctpParameters r)
              v (firstMid r) (midToIndex r) (sdpObject r).
Definition set_firstMid (v : string) (r : RemoteSdp) : RemoteSdp :=
  mkRemoteSdp (iceParameters r) (iceCandidates r) (dtlsParameters r) (sctpParameters r)
              (mediaSections r) v (midToIndex r) (sdpObject r).
Definition set_midToIndex (v : gmap string nat) (r : RemoteSdp) : RemoteSdp :=
  mkRemoteSdp (iceParameters r) (iceCandidates r) (dtlsParameters r) (sctpParameters r)
              (mediaSections r) (firstMid r) v (sdpObject r).
Definition set_sdpObject (v : json) (r : RemoteSdp) : RemoteSdp :=
  mkRemoteSdp (iceParameters r) (iceCandidates r) (dtlsParameters r) (sctpParameters r)
              (mediaSections r) (firstMid r) (midToIndex r) v.

Module Sdp.
  (** [this->sdpObject := f (this->sdpObject)]. *)
Definition upd_sdpObject (f : json -> res json) : M RemoteSdp unit :=
    r ← get_st;
    o ← lift (f (sdpObject r));
    modify (set_sdpObject o).

  (** [this->midToIndex[mid]] read through [std::map::operator[]]: a missing
      key is inserted with index 0. *)
Definition index_of (mid : string) : M RemoteSdp nat :=
    r ← get_st;
    match midToIndex r !! mid with
    | Some i => mret i
    | None => _ ← modify (set_midToIndex (<[mid := 0%nat]> (midToIndex r))); mret 0%nat
    end.

  (** [this->mediaSections[idx]]: reading past the end is undefined. *)
Definition section_at (i : nat) : M RemoteSdp MediaSection :=
    r ← get_st;
    match mediaSections r !! i with
    | Some ms => mret ms
    | None => undef
    end.

Definition store_section (i : nat) (ms : MediaSection) : M RemoteSdp unit :=
    modify (fun r => set_mediaSections (<[i := ms]> (mediaSections r)) r).

  (** The constructor.  It takes the last fingerprint; with no fingerprint
      the index [numFingerprints - 1] is out of every array. *)
Definition new (iceParameters iceCandidates dtlsParameters sctpParameters : json)
    : res RemoteSdp :=
    let o := obj_lit
      [ ("version", JInt 0);
        ("origin", obj_lit
           [ ("address", JStr "0.0.0.0");
             ("ipVer", JInt 4);
             ("netType", JStr "IN");
             ("sessionId", JInt 10000);
             ("sessionVersion", JInt 0);
             ("username", JStr "libmediasoupclient") ]);
        ("name", JStr "-");
        ("timing", obj_lit [ ("start", JInt 0); ("stop", JInt 0) ]);
        ("media", JArr []) ] in
    o ← (match j_find "iceLite" iceParameters with
         | Some _ => j_set "icelite" (JStr "ice-lite") o
         | None => Ok o
         end);
    o ← j_set "msidSemantic"
              (obj_lit [ ("semantic", JStr "WMS"); ("token", JStr "*") ]) o;
    '(fps, dtls) ← j_ref "fingerprints" dtlsParameters;
    let numFingerprints := j_size fps in
    '(fp, fps) ← (match fps with
                  | JArr l =>
                      match last l with
                      | Some fp => Ok (fp, fps)
                      | None => Undef
                      end
                  | JNull => Undef
                  | _ => Throw JsonTypeError
                  end);
    '(algorithm, fp) ← j_ref "algorithm" fp;
    '(value, fp) ← j_ref "value" fp;
    fps ← j_set_idx (numFingerprints - 1) fp fps;
    dtls ← j_set "fingerprints" fps dtls;
    o ← j_set "fingerprint" (obj_lit [ ("type", algorithm); ("hash", value) ]) o;
    o ← j_set "groups" (JArr [ obj_lit [ ("type", JStr "BUNDLE"); ("mids", JStr "") ] ]) o;
    Ok (mkRemoteSdp iceParameters iceCandidates dtls sctpParameters [] "" ∅ o).

  (** The loop of [UpdateIceParameters] and [UpdateDtlsRole]: call the
      method on every section and store its object in the document. *)
Fixpoint update_sections (f : MediaSection -> res MediaSection) (n : nat) (i : nat)
    : M RemoteSdp unit :=
    match n with
    | O => mret tt
    | S n' =>
        ms ← section_at i;
        ms' ← lift (f ms);
        _ ← store_section i ms';
        _ ← upd_sdpObject (j_upd "media" (j_set_idx i (Section.GetObject ms')));
        update_sections f n' (S i)
    end.

Definition UpdateIceParameters (ice : json) : M RemoteSdp unit :=
    _ ← modify (set_iceParameters ice);
    _ ← (match j_find "iceLite" ice with
         | Some _ => upd_sdpObject (j_set "icelite" (JStr "ice-lite"))
         | None => mret tt
         end);
    r ← get_st;
    update_sections (Section.apply (Section.SetIceParameters ice))
                    (length (mediaSections r)) 0.

Definition UpdateDtlsRole (role : string) : M RemoteSdp unit :=
    r ← get_st;
    dtls ← lift (j_set "role" (JStr role) (dtlsParameters r));
    _ ← modify (set_dtlsParameters dtls);
    _ ← (match j_find "iceLite" (iceParameters r) with
         | Some _ => upd_sdpObject (j_set "icelite" (JStr "ice-lite"))
         | None => mret tt
         end);
    update_sections (fun ms => Section.apply (Section.SetDtlsRole (section_variant ms) role) ms)
                    (length (mediaSections r)) 0.

  (** The scan of [GetNextMediaSectionIdx], from index [i] on. *)
Fixpoint next_idx (i : nat) (l : list MediaSection) : res MediaSectionIdx :=
    match l with
    | [] => Ok (mkIdx i "")
    | ms :: l' =>
        closed ← Section.IsClosed ms;
        if closed : bool then mid ← Section.GetMid ms; Ok (mkIdx i mid)
        else next_idx (S i) l'
    end.

  (** The function body assigns to no member: it is a function of the state. *)
Definition GetNextMediaSectionIdx (r : RemoteSdp) : res MediaSectionIdx :=
    next_idx 0 (mediaSections r).

  (** The loop of [RegenerateBundleMids]. *)
Fixpoint bundle_mids (l : list MediaSection) (mids : string) : res string :=
    match l with
    | [] => Ok mids
    | ms :: l' =>
        closed ← Section.IsClosed ms;
        if closed : bool then bundle_mids l' mids
        else mid ← Section.GetMid ms; bundle_mids l' (append_sep " " mids mid)
    end.

Definition RegenerateBundleMids : M RemoteSdp unit :=
    r ← get_st;
    mids ← lift (bundle_mids (mediaSections r) "");
    upd_sdpObject (j_upd "groups" (j_upd_idx 0 (j_set "mids" (JStr mids)))).

Definition AddMediaSection (newMediaSection : MediaSection) : M RemoteSdp unit :=
    r ← get_st;
    _ ← (if decide (firstMid r = "")
         then mid ← lift (Section.GetMid newMediaSection); modify (set_firstMid mid)
         else mret tt);
    _ ← modify (fun r => set_mediaSections (mediaSections r ++ [newMediaSection]) r);
    mid ← lift (Section.GetMid newMediaSection);
    _ ← modify (fun r =>
          set_midToIndex (<[mid := (length (mediaSections r) - 1)%nat]> (midToIndex r)) r);
    _ ← upd_sdpObject (j_push_at "media" (Section.GetObject newMediaSection));
    RegenerateBundleMids.

Definition ReplaceMediaSection (newMediaSection : MediaSection) (reuseMid : string)
    : M RemoteSdp unit :=
    if decide (reuseMid ≠ "") then
      i ← index_of reuseMid;
      oldMediaSection ← section_at i;
      _ ← store_section i newMediaSection;
      oldMid ← lift (Section.GetMid oldMediaSection);
      _ ← modify (fun r => set_midToIndex (delete oldMid (midToIndex r)) r);
      newMid ← lift (Section.GetMid newMediaSection);
      _ ← modify (fun r => set_midToIndex (<[newMid := i]> (midToIndex r)) r);
      _ ← upd_sdpObject (j_upd "media" (j_set_idx i (Section.GetObject newMediaSection)));
      RegenerateBundleMids
    else
      newMid ← lift (Section.GetMid newMediaSection);
      i ← index_of newMid;
      _ ← section_at i;
      _ ← store_section i newMediaSection;
      r ← get_st;
      upd_sdpObject (j_upd "media" (j_set_idx (length (mediaSections r) - 1)
                                              (Section.GetObject newMediaSection))).

  (** The tail of [CreateAnswer]: a closed section is replaced, otherwise
      the new section is appended. *)
Definition commit_answer (mediaSection : MediaSection) (reuseMid : string)
    : M RemoteSdp unit :=
    if decide (reuseMid ≠ "") then ReplaceMediaSection mediaSection reuseMid
    else AddMediaSection mediaSection.

Definition DisableMediaSection (mid : string) : M RemoteSdp unit :=
    i ← index_of mid;
    ms ← section_at i;
    ms' ← lift (Section.apply Section.Disable ms);
    store_section i ms'.

Definition CloseMediaSection (mid : string) : M RemoteSdp unit :=
    i ← index_of mid;
    ms ← section_at i;
    r ← get_st;
    ms' ← lift (if decide (mid = firstMid r)
                then Section.apply Section.Disable ms
                else Section.apply Section.Close ms);
    _ ← store_section i ms';
    _ ← upd_sdpObject (j_upd "media" (j_set_idx i (Section.GetObject ms')));
    RegenerateBundleMids.

  (** [GetSdp] hands the document to [sdptransform::write], which is not
      part of these sources: the embedding returns the document written. *)
Definition GetSdp : M RemoteSdp json :=
    r ← get_st;
    '(origin, o) ← lift (j_ref "origin" (sdpObject r));
    '(sv, origin) ← lift (j_ref "sessionVersion" origin);
    version ← lift (get_uint 32 sv);
    let version := (version + 1) mod 2 ^ 32 in
    origin ← lift (j_set "sessionVersion" (JInt version) origin);
    o ← lift (j_set "origin" origin o);
    _ ← modify (set_sdpObject o);
    mret o.
End Sdp.

(** ** Collaborators outside these sources *)

(** The functions of the C++ library, of [sdptransform], of [Sdp::Utils] and
    of [ortc] that the code calls.  The code is modelled over any
    implementation of them. *)
Class Collaborators : Type := {
  (** [operator<<] of an output stream on a [float]. *)
  show_float : double -> string;
  (** [sdptransform::parse]. *)
  sdp_parse : string -> json;
  (** [sdptransform::write]. *)
  sdp_write : json -> string;
  (** [Sdp::Utils::extractDtlsParameters]. *)
  extractDtlsParameters : json -> res json;
  (** [Sdp::Utils::getCname]. *)
  getCname : json -> res string;
  (** [Sdp::Utils::getRtpEncodings]. *)
  getRtpEncodings : json -> res json;
  (** [Sdp::Utils::applyCodecParameters]: the answer media object it leaves. *)
  applyCodecParameters : json -> json -> res json;
  (** [ortc::validateSctpStreamParameters]: the parameters it leaves. *)
  validateSctpStreamParameters : json -> res json
}.

(** ** The constructors of the two kinds of section *)

(** [regex_replace(mimeType, "^(audio|video)/" icase, "")]. *)
Definition getCodecName (codec : json) : res string :=
  v ← j_get "mimeType" codec;
  mimeType ← get_string v;
  let prefix := tolower (String.substring 0 6 mimeType) in
  if decide (prefix = "audio/" ∨ prefix = "video/")
  then Ok (String.substring 6 (String.length mimeType - 6) mimeType)
  else Ok mimeType.

(** The key/value pairs [j.items()] visits. *)
Definition j_entries (j : json) : list (string * json) :=
  match j with
  | JNull => []
  | JArr l => imap (fun i x => (to_string (Z.of_nat i), x)) l
  | JObj o => o
  | _ => [("", j)]
  end.

(** A container with its elements replaced, position by position. *)
Definition j_rebuild (j : json) (l : list json) : json :=
  match j with
  | JArr _ => JArr l
  | JObj o => JObj (zip_with (fun kv x => (fst kv, x)) o l)
  | _ => default j (head l)
  end.

Section Formatting.
Context `{Collaborators}.

  (** The "config" string of an fmtp line. *)
Definition config_item (config : string) (item : string * json) : string :=
    let value :=
      match snd item with
      | JStr s => s
      | JFloat d => show_float d
      | JInt z => to_string (wrap_signed 64 z)
      | _ => ""
      end in
    append_sep ";" config (fst item +:+ "=" +:+ value).

Definition fmtp_config (codecParameters : json) : string :=
    fold_left config_item (j_entries codecParameters) "".

  (** [rtp["encoding"] = channels] when the codec has more than one channel. *)
Definition with_channels (codec rtp : json) : res json :=
    if j_contains "channels" codec then
      ch ← j_get "channels" codec;
      channels ← get_uint 8 ch;
      if 1 <? channels then j_set "encoding" (JInt channels) rtp else Ok rtp
    else Ok rtp.

Definition push_fmtp (payloadType : json) (config : string) (m : json) : res json :=
    if decide (config = "") then Ok m
    else
      fmtp ← j_set "config" (JStr config) (obj_lit [("payload", payloadType)]);
      j_push_at "fmtp" fmtp m.

  (** The loop that builds the "payloads" string. *)
Definition payloads_of (codecs : list json) (read : json -> res json) : res string :=
    res_fold (fun payloads codec =>
                v ← read codec;
                payloadType ← get_uint 8 v;
                Ok (append_sep " " payloads (to_string payloadType)))
             codecs "".

End Formatting.

Module Answer.
Section WithCollaborators.
Context `{Collaborators}.

    (** [find_if] over the codecs of the offer: the index of the first one
        with the payload type, and the codecs as the lambda leaves them. *)
Fixpoint find_codec (payloadType : json) (l : list json)
      : res (option nat * list json) :=
      match l with
      | [] => Ok (None, [])
      | c :: l' =>
          '(v, c) ← j_ref "payloadType" c;
          if j_eqb v payloadType then Ok (Some 0%nat, c :: l')
          else '(i, l') ← find_codec payloadType l'; Ok (option_map S i, c :: l')
      end.

Definition flag (b : bool) : json := JInt (if b then 1 else 0).

    (** The opus options: each one only if present in the options. *)
Definition opus_options (opts : json) (st : json * json) : res (json * json) :=
      let '(offerCodec, codecParameters) := st in
      '(offerCodec, codecParameters) ←
        (match j_find "opusStereo" opts with
         | Some v =>
             n ← get_sint 32 v;
             oc ← j_upd "parameters" (j_set "sprop-stereo" (flag (0 <? n))) offerCodec;
             cp ← j_set "stereo" (flag (0 <? n)) codecParameters;
             Ok (oc, cp)
         | None => Ok (offerCodec, codecParameters)
         end);
      '(offerCodec, codecParameters) ←
        (match j_find "opusFec" opts with
         | Some v =>
             b ← get_bool v;
             oc ← j_upd "parameters" (j_set "useinbandfec" (flag b)) offerCodec;
             cp ← j_set "useinbandfec" (flag b) codecParameters;
             Ok (oc, cp)
         | None => Ok (offerCodec, codecParameters)
         end);
      '(offerCodec, codecParameters) ←
        (match j_find "opusDtx" opts with
         | Some v =>
             b ← get_bool v;
             oc ← j_upd "parameters" (j_set "usedtx" (flag b)) offerCodec;
             cp ← j_set "usedtx" (flag b) codecParameters;
             Ok (oc, cp)
         | None => Ok (offerCodec, codecParameters)
         end);
      codecParameters ←
        (match j_find "opusMaxPlaybackRate" opts with
         | Some v => n ← get_uint 32 v; j_set "maxplaybackrate" (JInt n) codecParameters
         | None => Ok codecParameters
         end);
      codecParameters ←
        (match j_find "opusPtime" opts with
         | Some v => n ← get_uint 32 v; j_set "ptime" (JInt n) codecParameters
         | None => Ok codecParameters
         end);
      Ok (offerCodec, codecParameters).

Definition video_options (opts : json) (codecParameters : json) : res json :=
      codecParameters ←
        (match j_find "videoGoogleStartBitrate" opts with
         | Some v => n ← get_uint 32 v; j_set "x-google-start-bitrate" (JInt n) codecParameters
         | None => Ok codecParameters
         end);
      codecParameters ←
        (match j_find "videoGoogleMaxBitrate" opts with
         | Some v => n ← get_uint 32 v; j_set "x-google-max-bitrate" (JInt n) codecParameters
         | None => Ok codecParameters
         end);
      match j_find "videoGoogleMinBitrate" opts with
      | Some v => n ← get_uint 32 v; j_set "x-google-min-bitrate" (JInt n) codecParameters
      | None => Ok codecParameters
      end.

    (** The block guarded by [codecOptions != nullptr && !codecOptions->empty()]:
        the codec parameters, the codec and the offer parameters it leaves. *)
Definition codec_options (opts : json) (payloadType codecParameters codec off : json)
      : res (json * json * json) :=
      '(offerCodecs, off) ← j_ref "codecs" off;
      '(found, items) ← find_codec payloadType (j_items offerCodecs);
      i ← (match found with
           | Some i => Ok i
           | None =>
               match offerCodecs with
               | JArr _ | JObj _ => Undef
               | _ => Throw InvalidIterator
               end
           end);
      let offerCodec := default JNull (items !! i) in
      '(mt, codec) ← j_ref "mimeType" codec;
      mimeType ← get_string mt;
      let mimeType := tolower mimeType in
      '(offerCodec, codecParameters) ←
        (if decide (mimeType = "audio/opus") then
           opus_options opts (offerCodec, codecParameters)
         else if decide (mimeType = "video/vp8" ∨ mimeType = "video/vp9"
                         ∨ mimeType = "video/h264" ∨ mimeType = "video/h265") then
           cp ← video_options opts codecParameters; Ok (offerCodec, cp)
         else Ok (offerCodec, codecParameters));
      off ← j_set "codecs" (j_rebuild offerCodecs (<[i := offerCodec]> items)) off;
      Ok (codecParameters, codec, off).

    (** The body of the loop over the codecs of the answer parameters.  The
        state is the media object and the offer parameters. *)
Definition codec_body (codecOptions : option json) (st : json * json) (codec : json)
      : res ((json * json) * json) :=
      let '(m, off) := st in
      '(payloadType, codec) ← j_ref "payloadType" codec;
      name ← getCodecName codec;
      '(clockRate, codec) ← j_ref "clockRate" codec;
      rtp ← with_channels codec
            (obj_lit [("payload", payloadType); ("codec", JStr name); ("rate", clockRate)]);
      m ← j_push_at "rtp" rtp m;
      '(codecParameters, codec) ← j_ref "parameters" codec;
      '(codecParameters, codec, off) ←
        (match codecOptions with
         | Some opts =>
             if j_empty opts then Ok (codecParameters, codec, off)
             else codec_options opts payloadType codecParameters codec off
         | None => Ok (codecParameters, codec, off)
         end);
      m ← push_fmtp payloadType (fmtp_config codecParameters) m;
      '(fbs, codec) ← j_ref "rtcpFeedback" codec;
      '(m, fbs) ← j_for (fun m fb =>
                           '(t, fb) ← j_ref "type" fb;
                           '(p, fb) ← j_ref "parameter" fb;
                           m ← j_push_at "rtcpFb"
                                 (obj_lit [("payload", payloadType); ("type", t);
                                           ("subtype", p)]) m;
                           Ok (m, fb)) m fbs;
      codec ← j_set "rtcpFeedback" fbs codec;
      Ok ((m, off), codec).

    (** [find_if] over the extensions of the offer. *)
Fixpoint has_uri (uri : json) (localExts : list json) : res bool :=
      match localExts with
      | [] => Ok false
      | localExt :: l' =>
          u ← j_get "uri" localExt;
          if j_eqb u uri then Ok true else has_uri uri l'
      end.

    (** The body of the loop over the header extensions: an extension that
        the offer does not list is skipped. *)
Definition ext_body (offerMediaObject : json) (m : json) (ext : json)
      : res (json * json) :=
      localExts ← j_get "ext" offerMediaObject;
      match j_items localExts with
      | [] => Ok (m, ext)
      | items =>
          '(uri, ext) ← j_ref "uri" ext;
          found ← has_uri uri items;
          if found : bool then
            '(id, ext) ← j_ref "id" ext;
            m ← j_push_at "ext" (obj_lit [("uri", uri); ("value", id)]) m;
            Ok (m, ext)
          else Ok (m, ext)
      end.

    (** The simulcast block.  [ridsIt->is_array()] is evaluated as soon as
        "simulcast" is there and is an object, whether or not the lookup of
        "rids" found it. *)
Definition simulcast_block (offerMediaObject : json) (m : json) : res json :=
      let simulcastId := j_find "simulcast" offerMediaObject in
      let ridsIt := j_find "rids" offerMediaObject in
      match simulcastId with
      | None => Ok m
      | Some simulcast =>
          if j_is_object simulcast then
            match ridsIt with
            | None => Undef
            | Some rids =>
                if j_is_array rids then
                  m ← j_set "simulcast" (JObj []) m;
                  m ← j_upd "simulcast" (j_set "dir1" (JStr "recv")) m;
                  list1 ← j_get "list1" simulcast;
                  m ← j_upd "simulcast" (j_set "list1" list1) m;
                  m ← j_set "rids" (JArr []) m;
                  res_fold (fun m rid =>
                              d ← j_get "direction" rid;
                              if j_eqb d (JStr "send") then
                                id ← j_get "id" rid;
                                j_push_at "rids"
                                  (obj_lit [("id", id); ("direction", JStr "recv")]) m
                              else Ok m)
                           (j_items rids) m
                else Ok m
            end
          else Ok m
      end.

    (** The branch of the constructor for audio and video. *)
Definition media_branch (offerMediaObject : json) (codecOptions : option json)
        (m off ans : json) : res (json * json * json) :=
      m ← j_set "direction" (JStr "recvonly") m;
      m ← j_set "rtp" (JArr []) m;
      m ← j_set "rtcpFb" (JArr []) m;
      m ← j_set "fmtp" (JArr []) m;
      '(codecs, ans) ← j_ref "codecs" ans;
      '(st, codecs) ← j_for (codec_body codecOptions) (m, off) codecs;
      let '(m, off) := st in
      ans ← j_set "codecs" codecs ans;
      payloads ← payloads_of (j_items codecs)
                             (fun codec => fst <$> j_ref "payloadType" codec);
      m ← j_set "payloads" (JStr payloads) m;
      m ← j_set "ext" (JArr []) m;
      '(exts, ans) ← j_ref "headerExtensions" ans;
      '(m, exts) ← j_for (ext_body offerMediaObject) m exts;
      ans ← j_set "headerExtensions" exts ans;
      m ← (match j_find "extmapAllowMixed" offerMediaObject with
           | Some v =>
               if j_is_string v then j_set "extmapAllowMixed" (JStr "extmap-allow-mixed") m
               else Ok m
           | None => Ok m
           end);
      m ← simulcast_block offerMediaObject m;
      m ← j_set "rtcpMux" (JStr "rtcp-mux") m;
      m ← j_set "rtcpRsize" (JStr "rtcp-rsize") m;
      Ok (m, off, ans).

    (** [AnswerMediaSection::AnswerMediaSection]: the media object, and the
        offer and answer RTP parameters as the constructor leaves them.
        (When the constructor throws, the members it had already inserted
        in the parameters of the caller are not tracked.) *)
Definition new (iceParameters iceCandidates dtlsParameters sctpParameters : json)
        (offerMediaObject offerRtpParameters answerRtpParameters : json)
        (codecOptions : option json) : res (json * json * json) :=
      m ← Section.init iceParameters iceCandidates;
      t ← j_get "type" offerMediaObject;
      type ← get_string t;
      mid ← j_get "mid" offerMediaObject;
      m ← j_set "mid" mid m;
      m ← j_set "type" (JStr type) m;
      protocol ← j_get "protocol" offerMediaObject;
      m ← j_set "protocol" protocol m;
      m ← j_set "connection" (obj_lit [("ip", JStr "127.0.0.1"); ("version", JInt 4)]) m;
      m ← j_set "port" (JInt 7) m;
      role ← j_get "role" dtlsParameters;
      dtlsRole ← get_string role;
      m ← Section.SetDtlsRole AnswerVariant dtlsRole m;
      if decide (type = "audio" ∨ type = "video") then
        media_branch offerMediaObject codecOptions m offerRtpParameters answerRtpParameters
      else if decide (type = "application") then
        m ← j_set "payloads" (JStr "webrtc-datachannel") m;
        port ← j_get "port" sctpParameters;
        m ← j_set "sctpPort" port m;
        size ← j_get "maxMessageSize" sctpParameters;
        m ← j_set "maxMessageSize" size m;
        Ok (m, offerRtpParameters, answerRtpParameters)
      else Ok (m, offerRtpParameters, answerRtpParameters).
End WithCollaborators.
End Answer.

Module Offer.
Section WithCollaborators.
Context `{Collaborators}.

Definition codec_body (m : json) (codec : json) : res json :=
      payloadType ← j_get "payloadType" codec;
      name ← getCodecName codec;
      clockRate ← j_get "clockRate" codec;
      rtp ← with_channels codec
            (obj_lit [("payload", payloadType); ("codec", JStr name); ("rate", clockRate)]);
      m ← j_push_at "rtp" rtp m;
      codecParameters ← j_get "parameters" codec;
      m ← push_fmtp payloadType (fmtp_config codecParameters) m;
      fbs ← j_get "rtcpFeedback" codec;
      res_fold (fun m fb =>
                  t ← j_get "type" fb;
                  p ← j_get "parameter" fb;
                  j_push_at "rtcpFb"
                    (obj_lit [("payload", payloadType); ("type", t); ("subtype", p)]) m)
               (j_items fbs) m.

    (** The SSRC lines and the FID group of the first encoding. *)
Definition ssrc_block (offerRtpParameters : json) (streamId trackId : string)
        (m : json) : res json :=
      encodings ← j_get "encodings" offerRtpParameters;
      encoding ← j_get_idx 0 encodings;
      v ← j_get "ssrc" encoding;
      ssrc ← get_uint 32 v;
      rtxSsrc ← (match j_find "rtx" encoding with
                 | Some rtx =>
                     if j_contains "ssrc" rtx then
                       v ← j_get "ssrc" rtx; get_uint 32 v
                     else Ok 0
                 | None => Ok 0
                 end);
      m ← j_set "ssrcs" (JArr []) m;
      m ← j_set "ssrcGroups" (JArr []) m;
      rtcp ← j_get "rtcp" offerRtpParameters;
      match j_find "cname" rtcp with
      | Some (JStr cname) =>
          let msid := streamId +:+ " " +:+ trackId in
          m ← j_push_at "ssrcs" (obj_lit [("id", JInt ssrc); ("attribute", JStr "cname");
                                          ("value", JStr cname)]) m;
          m ← j_push_at "ssrcs" (obj_lit [("id", JInt ssrc); ("attribute", JStr "msid");
                                          ("value", JStr msid)]) m;
          if rtxSsrc =? 0 then Ok m
          else
            let ssrcs := to_string ssrc +:+ " " +:+ to_string rtxSsrc in
            m ← j_push_at "ssrcs" (obj_lit [("id", JInt rtxSsrc); ("attribute", JStr "cname");
                                            ("value", JStr cname)]) m;
            m ← j_push_at "ssrcs" (obj_lit [("id", JInt rtxSsrc); ("attribute", JStr "msid");
                                            ("value", JStr msid)]) m;
            j_push_at "ssrcGroups"
              (obj_lit [("semantics", JStr "FID"); ("ssrcs", JStr ssrcs)]) m
      | _ => Ok m
      end.

Definition media_branch (offerRtpParameters : json) (streamId trackId : string)
        (m : json) : res json :=
      m ← j_set "direction" (JStr "sendonly") m;
      m ← j_set "rtp" (JArr []) m;
      m ← j_set "rtcpFb" (JArr []) m;
      m ← j_set "fmtp" (JArr []) m;
      codecs ← j_get "codecs" offerRtpParameters;
      m ← res_fold codec_body (j_items codecs) m;
      codecs ← j_get "codecs" offerRtpParameters;
      payloads ← payloads_of (j_items codecs) (j_get "payloadType");
      m ← j_set "payloads" (JStr payloads) m;
      m ← j_set "ext" (JArr []) m;
      exts ← j_get "headerExtensions" offerRtpParameters;
      m ← res_fold (fun m ext =>
                      uri ← j_get "uri" ext;
                      id ← j_get "id" ext;
                      j_push_at "ext" (obj_lit [("uri", uri); ("value", id)]) m)
                   (j_items exts) m;
      m ← j_set "rtcpMux" (JStr "rtcp-mux") m;
      m ← j_set "rtcpRsize" (JStr "rtcp-rsize") m;
      ssrc_block offerRtpParameters streamId trackId m.

    (** [OfferMediaSection::OfferMediaSection].  The DTLS parameters are not
        used. *)
Definition new (iceParameters iceCandidates sctpParameters : json)
        (mid kind : string) (offerRtpParameters : json) (streamId trackId : string)
      : res json :=
      m ← Section.init iceParameters iceCandidates;
      m ← j_set "mid" (JStr mid) m;
      m ← j_set "type" (JStr kind) m;
      m ← j_set "protocol"
                (JStr (match sctpParameters with
                       | JNull => "UDP/TLS/RTP/SAVPF"
                       | _ => "UDP/DTLS/SCTP"
                       end)) m;
      m ← j_set "connection" (obj_lit [("ip", JStr "127.0.0.1"); ("version", JInt 4)]) m;
      m ← j_set "port" (JInt 7) m;
      m ← j_set "setup" (JStr "actpass") m;
      if decide (kind = "audio" ∨ kind = "video") then
        media_branch offerRtpParameters streamId trackId m
      else if decide (kind = "application") then
        m ← j_set "payloads" (JStr "webrtc-datachannel") m;
        port ← j_get "port" sctpParameters;
        m ← j_set "sctpPort" port m;
        size ← j_get "maxMessageSize" sctpParameters;
        j_set "maxMessageSize" size m
      else Ok m.
End WithCollaborators.
End Offer.

(** *** The operations of [RemoteSdp] that construct a section *)

Section Creation.
Context `{Collaborators}.

  (** [CreateAnswer] returns nothing; the embedding returns the offer and
      answer RTP parameters, which the constructor takes by reference. *)
Definition CreateAnswer (offerMediaObject : json) (reuseMid : string)
      (offerRtpParameters answerRtpParameters : json) (codecOptions : option json)
    : M RemoteSdp (json * json) :=
    r ← get_st;
    '(m, off, ans) ← lift (Answer.new (iceParameters r) (iceCandidates r)
                             (dtlsParameters r) (sctpParameters r)
                             offerMediaObject offerRtpParameters answerRtpParameters
                             codecOptions);
    _ ← Sdp.commit_answer (mkSection AnswerVariant m) reuseMid;
    mret (off, ans).

Definition SendSctpAssociation (offerMediaObject : json) : M RemoteSdp unit :=
    r ← get_st;
    '(m, _, _) ← lift (Answer.new (iceParameters r) (iceCandidates r)
                         (dtlsParameters r) (sctpParameters r)
                         offerMediaObject JNull JNull None);
    Sdp.AddMediaSection (mkSection AnswerVariant m).

Definition RecvSctpAssociation : M RemoteSdp unit :=
    r ← get_st;
    m ← lift (Offer.new (iceParameters r) (iceCandidates r) (sctpParameters r)
                "datachannel" "application" JNull "" "");
    Sdp.AddMediaSection (mkSection OfferVariant m).

Definition CreateOffer (mid kind : string) (offerRtpParameters : json)
      (streamId trackId : string) : M RemoteSdp unit :=
    r ← get_st;
    m ← lift (Offer.new (iceParameters r) (iceCandidates r) JNull
                mid kind offerRtpParameters streamId trackId);
    Sdp.AddMediaSection (mkSection OfferVariant m).
End Creation.

(** ** The handlers: [src/Handler.cpp] *)

(** [SctpNumStreamsOs] and [SctpNumStreamsMis]. *)
Definition SctpNumStreamsOs : Z := 1024.
Definition SctpNumStreamsMis : Z := 1024.

(** Types of the transport engine. *)
Inductive RtpTransceiverDirection : Type := kSendRecv | kSendOnly | kRecvOnly | kInactive.

Inductive Priority : Type := kVeryLow | kLow | kMedium | kHigh.

Definition Priority_value (p : Priority) : Z :=
  match p with kVeryLow => 0 | kLow => 1 | kMedium => 2 | kHigh => 3 end.

Record Track : Type := mkTrack { track_kind : string; track_id : string }.

Record RtpEncodingParameters : Type := mkEncoding {
  active : bool;
  rid : string;
  max_bitrate_bps : option Z;
  max_framerate : option double;
  scale_resolution_down_by : option double;
  network_priority : Priority
}.

Definition set_rid (r : string) (e : RtpEncodingParameters) : RtpEncodingParameters :=
  mkEncoding (active e) r (max_bitrate_bps e) (max_framerate e)
             (scale_resolution_down_by e) (network_priority e).

Record DataChannelInit : Type := mkInit {
  ordered : bool;
  maxRetransmitTime : option Z;
  maxRetransmits : option Z;
  protocol : string;
  negotiated : bool;
  id : Z
}.

(** What the handler can observe of a transceiver of the engine. *)
Record Transceiver : Type := mkTransceiver {
  tr_mid : option string;
  tr_direction : RtpTransceiverDirection;
  tr_track : option Track;
  tr_send_encodings : list RtpEncodingParameters
}.

(** The outcomes of the calls into the engine and into the listener during
    one operation of a handler. *)
Record Engine : Type := mkEngine {
  (** [AddTransceiver] returns a transceiver ([true]) or null. *)
  e_addTransceiver : bool;
  e_createOffer : res string;
  e_createAnswer : res string;
  (** [privateListener->OnConnect]. *)
  e_onConnect : res unit;
  e_setLocalDescription : res unit;
  e_setRemoteDescription : res unit;
  (** [GetLocalDescription]. *)
  e_localDescription : string;
  (** [transceiver->mid()] once the local description is set. *)
  e_mid : option string;
  (** [GetTransceivers] once the local description is set. *)
  e_transceivers : list Transceiver;
  e_createDataChannel : res unit
}.

Record Handler : Type := mkHandler {
  (** The transceivers of the peer connection, by handle. *)
  pc_transceivers : list Transceiver;
  (** The stream ids of the data channels the peer connection created. *)
  pc_dataChannels : list Z;
  remoteSdp : RemoteSdp;
  transportReady : bool;
  mapMidTransceiver : gmap string nat;
  sendingRtpParametersByKind : json;
  sendingRemoteRtpParametersByKind : json;
  nextSendSctpStreamId : Z;
  hasDataChannelMediaSection : bool
}.

Definition set_pc_transceivers (v : list Transceiver) (h : Handler) : Handler :=
  mkHandler v (pc_dataChannels h) (remoteSdp h) (transportReady h) (mapMidTransceiver h)
            (sendingRtpParametersByKind h) (sendingRemoteRtpParametersByKind h)
            (nextSendSctpStreamId h) (hasDataChannelMediaSection h).
Definition set_pc_dataChannels (v : list Z) (h : Handler) : Handler :=
  mkHandler (pc_transceivers h) v (remoteSdp h) (transportReady h) (mapMidTransceiver h)
            (sendingRtpParametersByKind h) (sendingRemoteRtpParametersByKind h)
            (nextSendSctpStreamId h) (hasDataChannelMediaSection h).
Definition set_remoteSdp (v : RemoteSdp) (h : Handler) : Handler :=
  mkHandler (pc_transceivers h) (pc_dataChannels h) v (transportReady h) (mapMidTransceiver h)
            (sendingRtpParametersByKind h) (sendingRemoteRtpParametersByKind h)
            (nextSendSctpStreamId h) (hasDataChannelMediaSection h).
Definition set_transportReady (v : bool) (h : Handler) : Handler :=
  mkHandler (pc_transceivers h) (pc_dataChannels h) (remoteSdp h) v (mapMidTransceiver h)
            (sendingRtpParametersByKind h) (sendingRemoteRtpParametersByKind h)
            (nextSendSctpStreamId h) (hasDataChannelMediaSection h).
Definition set_mapMidTransceiver (v : gmap string nat) (h : Handler) : Handler :=
  mkHandler (pc_transceivers h) (pc_dataChannels h) (remoteSdp h) (transportReady h) v
            (sendingRtpParametersByKind h) (sendingRemoteRtpParametersByKind h)
            (nextSendSctpStreamId h) (hasDataChannelMediaSection h).
Definition set_sendingRtpParametersByKind (v : json) (h : Handler) : Handler :=
  mkHandler (pc_transceivers h) (pc_dataChannels h) (remoteSdp h) (transportReady h)
            (mapMidTransceiver h) v (sendingRemoteRtpParametersByKind h)
            (nextSendSctpStreamId h) (hasDataChannelMediaSection h).
Definition set_sendingRemoteRtpParametersByKind (v : json) (h : Handler) : Handler :=
  mkHandler (pc_transceivers h) (pc_dataChannels h) (remoteSdp h) (transportReady h)
            (mapMidTransceiver h) (sendingRtpParametersByKind h) v
            (nextSendSctpStreamId h) (hasDataChannelMediaSection h).
Definition set_nextSendSctpStreamId (v : Z) (h : Handler) : Handler :=
  mkHandler (pc_transceivers h) (pc_dataChannels h) (remoteSdp h) (transportReady h)
            (mapMidTransceiver h) (sendingRtpParametersByKind h)
            (sendingRemoteRtpParametersByKind h) v (hasDataChannelMediaSection h).
Definition set_hasDataChannelMediaSection (v : bool) (h : Handler) : Handler :=
  mkHandler (pc_transceivers h) (pc_dataChannels h) (remoteSdp h) (transportReady h)
            (mapMidTransceiver h) (sendingRtpParametersByKind h)
            (sendingRemoteRtpParametersByKind h) (nextSendSctpStreamId h) v.

(** A path of [operator[]] through non-const references. *)
Inductive sel : Type := Key (k : string) | Idx (i : nat).

(** [j[s_1]...[s_n]] read: the value, and [j] with what the reads inserted. *)
Fixpoint j_path_ref (path : list sel) (j : json) : res (json * json) :=
  match path with
  | [] => Ok (j, j)
  | Key k :: p =>
      '(v, j) ← j_ref k j;
      '(x, v) ← j_path_ref p v;
      j ← j_set k v j;
      Ok (x, j)
  | Idx i :: p =>
      v ← j_ref_idx i j;
      '(x, v) ← j_path_ref p v;
      j ← j_set_idx i v j;
      Ok (x, j)
  end.

(** [j[s_1]...[s_n] = x]. *)
Fixpoint j_path_set (path : list sel) (x : json) (j : json) : res json :=
  match path with
  | [] => Ok x
  | Key k :: p => j_upd k (j_path_set p x) j
  | Idx i :: p => j_upd_idx i (j_path_set p x) j
  end.

(** [fillJsonRtpEncodingParameters]. *)
Definition fillJsonRtpEncodingParameters (jsonEncoding : json) (encoding : RtpEncodingParameters)
  : res json :=
  j ← j_set "active" (JBool (active encoding)) jsonEncoding;
  j ← (if decide (rid encoding = "") then Ok j else j_set "rid" (JStr (rid encoding)) j);
  j ← (match max_bitrate_bps encoding with
       | Some v => j_set "maxBitrate" (JInt v) j
       | None => Ok j
       end);
  j ← (match max_framerate encoding with
       | Some v => j_set "maxFramerate" (JFloat v) j
       | None => Ok j
       end);
  j ← (match scale_resolution_down_by encoding with
       | Some v => j_set "scaleResolutionDownBy" (JFloat v) j
       | None => Ok j
       end);
  j_set "networkPriority" (JInt (Priority_value (network_priority encoding))) j.

(** [f(j.front())] through the reference [front] returns. *)
Definition j_front_upd (f : json -> res json) (j : json) : res json :=
  match j with
  | JNull => Throw InvalidIterator
  | JArr [] => Undef
  | JArr (x :: l) => x' ← f x; Ok (JArr (x' :: l))
  | JObj [] => Undef
  | JObj ((k, x) :: o) => x' ← f x; Ok (JObj ((k, x') :: o))
  | _ => f j
  end.

(** The rids [Send] gives the encodings when there is more than one:
    "r0", "r1", ... with an index of type [uint8_t]. *)
Fixpoint assign_rids_from (i : Z) (l : list RtpEncodingParameters) : list RtpEncodingParameters :=
  match l with
  | [] => []
  | e :: l' => set_rid ("r" +:+ to_string i) e :: assign_rids_from ((i + 1) mod 2 ^ 8) l'
  end.

Definition assign_rids (encodings : option (list RtpEncodingParameters))
  : option (list RtpEncodingParameters) :=
  match encodings with
  | Some l => if decide (1 < length l)%nat then Some (assign_rids_from 0 l) else Some l
  | None => None
  end.

Section Handlers.
Context `{Collaborators}.

  (** The three ways [Send] fills [sendingRtpParameters["encodings"]]. *)
Definition populate_encodings (encodings : option (list RtpEncodingParameters))
      (offerMediaObject : json) : res json :=
    match encodings with
    | None | Some [] => getRtpEncodings offerMediaObject
    | Some [encoding] =>
        newEncodings ← getRtpEncodings offerMediaObject;
        j_front_upd (fun front => fillJsonRtpEncodingParameters front encoding) newEncodings
    | Some l =>
        res_fold (fun acc encoding =>
                    jsonEncoding ← fillJsonRtpEncodingParameters JNull encoding;
                    j_push_back jsonEncoding acc)
                 l (JArr [])
    end.

  (** The scalability mode of VP8 and H264 under simulcast. *)
Definition stamp_scalability (mimeType : string) (encodings : json) : res json :=
    let mimeType := tolower mimeType in
    if decide ((1 < j_size encodings)%nat
               ∧ (mimeType = "video/vp8" ∨ mimeType = "video/h264")) then
      snd <$> j_for (fun (_ : unit) encoding =>
                       e ← j_set "scalabilityMode" (JStr "S1T3") encoding; Ok (tt, e))
                    tt encodings
    else Ok encodings.

Variable E : Engine.

Definition on_remoteSdp {A} (m : M RemoteSdp A) : M Handler A :=
    zoom remoteSdp set_remoteSdp m.

  (** [this->sendingRtpParametersByKind := f (...)]. *)
Definition upd_sending (f : json -> res json) : M Handler unit :=
    h ← get_st;
    j ← lift (f (sendingRtpParametersByKind h));
    modify (set_sendingRtpParametersByKind j).

Definition upd_sending_remote (f : json -> res json) : M Handler unit :=
    h ← get_st;
    j ← lift (f (sendingRemoteRtpParametersByKind h));
    modify (set_sendingRemoteRtpParametersByKind j).

  (** A read through non-const references into [sendingRtpParametersByKind]. *)
Definition ref_sending (path : list sel) : M Handler json :=
    h ← get_st;
    '(v, j) ← lift (j_path_ref path (sendingRtpParametersByKind h));
    _ ← modify (set_sendingRtpParametersByKind j);
    mret v.

Definition ref_sending_remote (path : list sel) : M Handler json :=
    h ← get_st;
    '(v, j) ← lift (j_path_ref path (sendingRemoteRtpParametersByKind h));
    _ ← modify (set_sendingRemoteRtpParametersByKind j);
    mret v.

  (** [transceiver->...] on the transceiver with handle [t]. *)
Definition upd_transceiver (t : nat) (f : Transceiver -> Transceiver) : M Handler unit :=
    modify (fun h => set_pc_transceivers (alter f t (pc_transceivers h)) h).

Definition set_direction (d : RtpTransceiverDirection) (tr : Transceiver) : Transceiver :=
    mkTransceiver (tr_mid tr) d (tr_track tr) (tr_send_encodings tr).
Definition set_track (tk : option Track) (tr : Transceiver) : Transceiver :=
    mkTransceiver (tr_mid tr) (tr_direction tr) tk (tr_send_encodings tr).
Definition set_mid (m : option string) (tr : Transceiver) : Transceiver :=
    mkTransceiver m (tr_direction tr) (tr_track tr) (tr_send_encodings tr).

  (** [Handler::SetupTransport]; returns [localSdpObject], taken by
      reference. *)
Definition SetupTransport (localDtlsRole : string) (localSdpObject : json)
    : M Handler json :=
    let localSdpObject :=
      if j_empty localSdpObject then sdp_parse (e_localDescription E) else localSdpObject in
    dtlsParameters ← lift (extractDtlsParameters localSdpObject);
    dtlsParameters ← lift (j_set "role" (JStr localDtlsRole) dtlsParameters);
    let remoteDtlsRole := if decide (localDtlsRole = "client") then "server" else "client" in
    _ ← on_remoteSdp (Sdp.UpdateDtlsRole remoteDtlsRole);
    _ ← lift (e_onConnect E);
    _ ← modify (set_transportReady true);
    mret localSdpObject.

Record SendResult : Type := mkSendResult {
    send_localId : string;
    send_rtpSender : nat;
    send_rtpParameters : json
  }.

  (** The [try] block of [Send]. *)
Definition Send_offer (kind : string) (transceiver : nat) : M Handler string :=
    offer ← lift (e_createOffer E);
    let localSdpObject := sdp_parse offer in
    h ← get_st;
    _ ← (if transportReady h then mret localSdpObject
         else SetupTransport "server" localSdpObject);
    _ ← lift (e_setLocalDescription E);
    _ ← upd_transceiver transceiver (set_mid (e_mid E));
    localId ← (match e_mid E with
               | Some mid => mret mid
               | None => throw BadOptionalAccess
               end);
    _ ← upd_sending (j_path_set [Key kind; Key "mid"] (JStr localId));
    mret localId.

  (** The [catch] block of [Send]. *)
Definition Send_undo (transceiver : nat) (error : exn) : M Handler string :=
    _ ← upd_transceiver transceiver (set_direction kInactive);
    _ ← upd_transceiver transceiver (set_track None);
    throw error.

  (** [Send] up to the [try] statement: the slot and the handle of the new
      transceiver. *)
Definition Send_prepare (track : Track) (encodings : option (list RtpEncodingParameters))
    : M Handler (MediaSectionIdx * nat) :=
    h ← get_st;
    mediaSectionIdx ← lift (Sdp.GetNextMediaSectionIdx (remoteSdp h));
    let send_encodings := default [] encodings in
    transceiver ←
      (if e_addTransceiver E then
         _ ← modify (fun h => set_pc_transceivers
                       (pc_transceivers h
                        ++ [mkTransceiver None kSendRecv (Some track) send_encodings]) h);
         mret (length (pc_transceivers h))
       else throw (MscError "error creating transceiver"));
    _ ← upd_transceiver transceiver (set_direction kSendOnly);
    _ ← ref_sending [Key (track_kind track)];
    mret (mediaSectionIdx, transceiver).

  (** [Send] up to the end of the [try] statement: also the mid the engine
      gave the transceiver. *)
Definition Send_negotiate (track : Track) (encodings : option (list RtpEncodingParameters))
    : M Handler (MediaSectionIdx * nat * string) :=
    '(mediaSectionIdx, transceiver) ← Send_prepare track encodings;
    localId ← try_catch (Send_offer (track_kind track) transceiver) (Send_undo transceiver);
    mret (mediaSectionIdx, transceiver, localId).

  (** The RTP parameters are completed from the local description; returns
      the media object of the offer. *)
Definition Send_parameters (kind : string) (mediaSectionIdx : MediaSectionIdx)
      (encodings : option (list RtpEncodingParameters)) : M Handler json :=
    let localSdpObject := sdp_parse (e_localDescription E) in
    '(offerMediaObject, _) ←
      lift (j_path_ref [Key "media"; Idx (idx mediaSectionIdx)] localSdpObject);
    cname ← lift (getCname offerMediaObject);
    _ ← upd_sending (j_path_set [Key kind; Key "rtcp"; Key "cname"] (JStr cname));
    newEncodings ← lift (populate_encodings encodings offerMediaObject);
    _ ← upd_sending (j_path_set [Key kind; Key "encodings"] newEncodings);
    mt ← ref_sending [Key kind; Key "codecs"; Idx 0; Key "mimeType"];
    mimeType ← lift (get_string mt);
    stamped ← lift (stamp_scalability mimeType newEncodings);
    _ ← upd_sending (j_path_set [Key kind; Key "encodings"] stamped);
    mret offerMediaObject.

  (** The answer is created in the remote description, serialized and given
      to the engine. *)
Definition Send_answer (kind : string) (mediaSectionIdx : MediaSectionIdx)
      (offerMediaObject : json) (codecOptions : option json) : M Handler unit :=
    sendingRtpParameters ← ref_sending [Key kind];
    remoteRtpParameters ← ref_sending_remote [Key kind];
    '(off, ans) ← on_remoteSdp
                    (CreateAnswer offerMediaObject (reuseMid mediaSectionIdx)
                       sendingRtpParameters remoteRtpParameters codecOptions);
    _ ← upd_sending (j_set kind off);
    _ ← upd_sending_remote (j_set kind ans);
    answer ← on_remoteSdp Sdp.GetSdp;
    lift (e_setRemoteDescription E).

  (** The last statements of [Send], none of which can fail. *)
Definition Send_commit (kind localId : string) (transceiver : nat) : M Handler SendResult :=
    _ ← modify (fun h => set_mapMidTransceiver
                  (<[localId := transceiver]> (mapMidTransceiver h)) h);
    h ← get_st;
    mret (mkSendResult localId transceiver
            (default JNull (j_find kind (sendingRtpParametersByKind h)))).

Definition Send (track : option Track) (encodings : option (list RtpEncodingParameters))
      (codecOptions : option json) : M Handler SendResult :=
    match track with
    | None => throw (MscTypeError "missing track")
    | Some track =>
        let kind := track_kind track in
        let encodings := assign_rids encodings in
        '(mediaSectionIdx, transceiver, localId) ← Send_negotiate track encodings;
        offerMediaObject ← Send_parameters kind mediaSectionIdx encodings;
        _ ← Send_answer kind mediaSectionIdx offerMediaObject codecOptions;
        Send_commit kind localId transceiver
    end.

Record DataChannel : Type := mkDataChannel {
    dc_localId : string;
    dc_dataChannel : nat;
    dc_sctpStreamParameters : json
  }.

  (** [pc->CreateDataChannel(label, &dataChannelInit)]: the peer connection
      records the stream id it was given. *)
Definition CreateDataChannel (label : string) (init : DataChannelInit) : M Handler nat :=
    _ ← lift (e_createDataChannel E);
    h ← get_st;
    _ ← modify (set_pc_dataChannels (pc_dataChannels h ++ [id init]));
    mret (length (pc_dataChannels h)).

Definition with_stream_id (streamId : Z) (init : DataChannelInit) : DataChannelInit :=
    mkInit (ordered init) (maxRetransmitTime init) (maxRetransmits init) (protocol init)
           true streamId.

  (** [find_if] for the first media object of type "application". *)
Fixpoint find_application (media : list json) : res (option json) :=
    match media with
    | [] => Ok None
    | m :: media' =>
        t ← j_at "type" m;
        type ← get_string t;
        if decide (type = "application") then Ok (Some m) else find_application media'
    end.

Definition SendDataChannel (label : string) (dataChannelInit : DataChannelInit)
    : M Handler DataChannel :=
    h ← get_st;
    let streamId := nextSendSctpStreamId h in
    let dataChannelInit := with_stream_id streamId dataChannelInit in
    let sctpStreamParameters :=
      obj_lit [ ("streamId", JInt streamId);
                ("ordered", JBool (ordered dataChannelInit));
                ("protocol", JStr (protocol dataChannelInit)) ] in
    sctpStreamParameters ←
      lift (match maxRetransmitTime dataChannelInit with
            | Some v => j_set "maxPacketLifeTime" (JInt v) sctpStreamParameters
            | None => Ok sctpStreamParameters
            end);
    sctpStreamParameters ←
      lift (match maxRetransmits dataChannelInit with
            | Some v => j_set "maxRetransmits" (JInt v) sctpStreamParameters
            | None => Ok sctpStreamParameters
            end);
    sctpStreamParameters ← lift (validateSctpStreamParameters sctpStreamParameters);
    webrtcDataChannel ← CreateDataChannel label dataChannelInit;
    _ ← modify (fun h => set_nextSendSctpStreamId
                  ((nextSendSctpStreamId h + 1) mod SctpNumStreamsMis) h);
    h ← get_st;
    _ ← (if hasDataChannelMediaSection h then mret tt
         else
           offer ← lift (e_createOffer E);
           let localSdpObject := sdp_parse offer in
           h ← get_st;
           _ ← lift (Sdp.GetNextMediaSectionIdx (remoteSdp h));
           '(media, localSdpObject) ← lift (j_ref "media" localSdpObject);
           found ← lift (find_application (j_items media));
           offerMediaObject ← (match found with
                               | Some m => mret m
                               | None => throw (MscError
                                   "Missing 'application' media section in SDP offer")
                               end);
           _ ← (if transportReady h then mret localSdpObject
                else SetupTransport "server" localSdpObject);
           _ ← lift (e_setLocalDescription E);
           _ ← on_remoteSdp (SendSctpAssociation offerMediaObject);
           _ ← on_remoteSdp Sdp.GetSdp;
           _ ← lift (e_setRemoteDescription E);
           modify (set_hasDataChannelMediaSection true));
    mret (mkDataChannel (to_string streamId) webrtcDataChannel sctpStreamParameters).

Record RecvResult : Type := mkRecvResult {
    recv_localId : string;
    recv_rtpReceiver : nat;
    recv_track : option Track
  }.

  (** [find_if] for the media object of the answer with the mid. *)
Fixpoint find_media (localId : string) (media : list json) : res (option nat) :=
    match media with
    | [] => Ok None
    | m :: media' =>
        v ← j_get "mid" m;
        mid ← get_string v;
        if decide (mid = localId) then Ok (Some 0%nat)
        else option_map S <$> find_media localId media'
    end.

  (** [find_if] for the transceiver with the mid. *)
Fixpoint find_transceiver (localId : string) (l : list Transceiver) : option nat :=
    match l with
    | [] => None
    | t :: l' =>
        if decide (tr_mid t = Some localId) then Some 0%nat
        else option_map S (find_transceiver localId l')
    end.

  (** The last statements of [Receive], none of which can fail. *)
Definition Receive_commit (localId : string) (transceiver : nat) : M Handler RecvResult :=
    _ ← modify (fun h => set_mapMidTransceiver
                  (<[localId := transceiver]> (mapMidTransceiver h)) h);
    mret (mkRecvResult localId transceiver
            (tr_track (default (mkTransceiver None kInactive None [])
                         (e_transceivers E !! transceiver)))).

Definition Receive (id kind : string) (rtpParameters : json) : M Handler RecvResult :=
    h ← get_st;
    let localId :=
      match j_find "mid" rtpParameters with
      | Some (JStr mid) =>
          if decide (mid ≠ "") then mid
          else to_string (Z.of_nat (size (mapMidTransceiver h)))
      | _ => to_string (Z.of_nat (size (mapMidTransceiver h)))
      end in
    rtcp ← lift (j_get "rtcp" rtpParameters);
    cname ← lift (j_get "cname" rtcp);
    streamId ← lift (get_string cname);
    _ ← on_remoteSdp (CreateOffer localId kind rtpParameters streamId id);
    _ ← on_remoteSdp Sdp.GetSdp;
    _ ← lift (e_setRemoteDescription E);
    answer ← lift (e_createAnswer E);
    let localSdpObject := sdp_parse answer in
    '(media, localSdpObject) ← lift (j_ref "media" localSdpObject);
    found ← lift (find_media localId (j_items media));
    i ← (match found with
         | Some i => mret i
         | None =>
             match media with
             | JArr _ | JObj _ => undef
             | _ => throw InvalidIterator
             end
         end);
    let answerMediaObject := default JNull (j_items media !! i) in
    answerMediaObject ← lift (applyCodecParameters rtpParameters answerMediaObject);
    localSdpObject ← lift (j_set "media"
                             (j_rebuild media (<[i := answerMediaObject]> (j_items media)))
                             localSdpObject);
    h ← get_st;
    _ ← (if transportReady h then mret localSdpObject
         else SetupTransport "client" localSdpObject);
    _ ← lift (e_setLocalDescription E);
    _ ← modify (set_pc_transceivers (e_transceivers E));
    transceiver ← (match find_transceiver localId (e_transceivers E) with
                   | Some t => mret t
                   | None => throw (MscError "new RTCRtpTransceiver not found")
                   end);
    Receive_commit localId transceiver.

Definition ReceiveDataChannel (label : string) (dataChannelInit : DataChannelInit)
    : M Handler DataChannel :=
    h ← get_st;
    let streamId := nextSendSctpStreamId h in
    let dataChannelInit := with_stream_id streamId dataChannelInit in
    let sctpStreamParameters :=
      obj_lit [ ("streamId", JInt streamId);
                ("ordered", JBool (ordered dataChannelInit)) ] in
    sctpStreamParameters ← lift (validateSctpStreamParameters sctpStreamParameters);
    webrtcDataChannel ← CreateDataChannel label dataChannelInit;
    _ ← modify (fun h => set_nextSendSctpStreamId
                  ((nextSendSctpStreamId h + 1) mod SctpNumStreamsMis) h);
    h ← get_st;
    _ ← (if hasDataChannelMediaSection h then mret tt
         else
           _ ← on_remoteSdp RecvSctpAssociation;
           _ ← on_remoteSdp Sdp.GetSdp;
           _ ← lift (e_setRemoteDescription E);
           sdpAnswer ← lift (e_createAnswer E);
           h ← get_st;
           _ ← (if transportReady h then mret JNull
                else SetupTransport "client" (sdp_parse sdpAnswer));
           _ ← lift (e_setLocalDescription E);
           modify (set_hasDataChannelMediaSection true));
    mret (mkDataChannel (to_string streamId) webrtcDataChannel sctpStreamParameters).
End Handlers.


(** *** The operations on a transceiver the handler has registered *)

Definition set_active (b : bool) (e : RtpEncodingParameters) : RtpEncodingParameters :=
  mkEncoding b (rid e) (max_bitrate_bps e) (max_framerate e)
             (scale_resolution_down_by e) (network_priority e).

Definition set_send_encodings (l : list RtpEncodingParameters) (tr : Transceiver)
  : Transceiver :=
  mkTransceiver (tr_mid tr) (tr_direction tr) (tr_track tr) l.

(** [has && (encoding->active = b)] on the encoding of index [i]. *)
Definition set_layer (has : bool) (i : nat) (b : bool) (l : list RtpEncodingParameters)
  : list RtpEncodingParameters :=
  if has then alter (set_active b) i l else l.

(** The edit [SetMaxSpatialLayer] makes to the encodings of the sender. *)
Definition spatial_layers (spatialLayer : Z) (encodings : list RtpEncodingParameters)
  : list RtpEncodingParameters :=
  let hasLowEncoding := bool_decide (encodings ≠ []) in
  let hasMediumEncoding := bool_decide (1 < length encodings)%nat in
  let hasHighEncoding := bool_decide (2 < length encodings)%nat in
  let edit (low medium high : bool) :=
    set_layer hasHighEncoding 2 high
      (set_layer hasMediumEncoding 1 medium
         (set_layer hasLowEncoding 0 low encodings)) in
  if spatialLayer =? 1 then edit true false false
  else if spatialLayer =? 2 then edit true true false
  else if spatialLayer =? 3 then edit true true true
  else encodings.

Section Registered.
Context `{Collaborators}.
Variable E : Engine.

  (** [this->mapMidTransceiver.find(localId)] and the error every operation
      on a registered transceiver raises when the id is not in the map. *)
Definition find_registered (localId : string) : M Handler nat :=
    h ← get_st;
    match mapMidTransceiver h !! localId with
    | Some transceiver => mret transceiver
    | None => throw (MscError "associated RtpTransceiver not found")
    end.

  (** [transceiver->mid().value()]. *)
Definition transceiver_mid (transceiver : nat) : M Handler string :=
    h ← get_st;
    match pc_transceivers h !! transceiver with
    | Some tr =>
        match tr_mid tr with
        | Some mid => mret mid
        | None => throw BadOptionalAccess
        end
    | None => undef
    end.

  (** [SendHandler::StopSending].  [removeTrack] is what [pc->RemoveTrack]
      does to the transceiver. *)
Definition StopSending (removeTrack : Transceiver -> Transceiver) (localId : string)
    : M Handler unit :=
    transceiver ← find_registered localId;
    _ ← upd_transceiver transceiver (set_track None);
    _ ← upd_transceiver transceiver removeTrack;
    mid ← transceiver_mid transceiver;
    _ ← on_remoteSdp (Sdp.CloseMediaSection mid);
    offer ← lift (e_createOffer E);
    _ ← lift (e_setLocalDescription E);
    answer ← on_remoteSdp Sdp.GetSdp;
    lift (e_setRemoteDescription E).

  (** [SendHandler::ReplaceTrack]. *)
Definition ReplaceTrack (localId : string) (track : option Track) : M Handler unit :=
    transceiver ← find_registered localId;
    upd_transceiver transceiver (set_track track).

  (** [SendHandler::SetMaxSpatialLayer].  [setParameters] is the answer of
      [sender->SetParameters]: the message of the error, if any; the sender
      keeps the parameters it accepts. *)
Definition SetMaxSpatialLayer
      (setParameters : list RtpEncodingParameters -> option string)
      (localId : string) (spatialLayer : Z) : M Handler unit :=
    transceiver ← find_registered localId;
    h ← get_st;
    match pc_transceivers h !! transceiver with
    | Some tr =>
        let encodings := spatial_layers spatialLayer (tr_send_encodings tr) in
        match setParameters encodings with
        | None => upd_transceiver transceiver (set_send_encodings encodings)
        | Some message => throw (MscError message)
        end
    | None => undef
    end.

  (** [SendHandler::GetSenderStats] and [RecvHandler::GetReceiverStats];
      [stats] is the answer of [pc->GetStats]. *)
Definition GetSenderStats (stats : res json) (localId : string) : M Handler json :=
    _ ← find_registered localId;
    lift stats.

Definition GetReceiverStats (stats : res json) (localId : string) : M Handler json :=
    _ ← find_registered localId;
    lift stats.

  (** [SendHandler::RestartIce]. *)
Definition SendHandler_RestartIce (iceParameters : json) : M Handler unit :=
    _ ← on_remoteSdp (Sdp.UpdateIceParameters iceParameters);
    h ← get_st;
    if transportReady h then
      offer ← lift (e_createOffer E);
      _ ← lift (e_setLocalDescription E);
      answer ← on_remoteSdp Sdp.GetSdp;
      lift (e_setRemoteDescription E)
    else mret tt.

  (** [RecvHandler::StopReceiving]. *)
Definition StopReceiving (localId : string) : M Handler unit :=
    transceiver ← find_registered localId;
    mid ← transceiver_mid transceiver;
    _ ← on_remoteSdp (Sdp.CloseMediaSection mid);
    offer ← on_remoteSdp Sdp.GetSdp;
    _ ← lift (e_setRemoteDescription E);
    answer ← lift (e_createAnswer E);
    lift (e_setLocalDescription E).

  (** [RecvHandler::RestartIce]. *)
Definition RecvHandler_RestartIce (iceParameters : json) : M Handler unit :=
    _ ← on_remoteSdp (Sdp.UpdateIceParameters iceParameters);
    h ← get_st;
    if transportReady h then
      offer ← on_remoteSdp Sdp.GetSdp;
      _ ← lift (e_setRemoteDescription E);
      answer ← lift (e_createAnswer E);
      lift (e_setLocalDescription E)
    else mret tt.
End Registered.

(** ** Vocabulary of the statements *)

(** What every constructed section carries: an object with a string "mid"
    and a "port". *)
Definition section_wf (ms : MediaSection) : Prop :=
  ∃ o mid port, mediaObject ms = JObj o
    ∧ Obj.find "mid" o = Some (JStr mid) ∧ Obj.find "port" o = Some port.

(** The shape the constructor gives the document and every operation keeps. *)
Definition sdp_wf (sdp : json) : Prop :=
  ∃ m, sdp = JObj m
    ∧ (∃ l, Obj.find "media" m = Some (JArr l))
    ∧ (∃ g gs, Obj.find "groups" m = Some (JArr (JObj g :: gs)))
    ∧ (∃ og v, Obj.find "origin" m = Some (JObj og)
         ∧ Obj.find "sessionVersion" og = Some (JInt v) ∧ 0 <= v < 2 ^ 32).

Record doc_inv (r : RemoteSdp) : Prop := mk_doc_inv {
  inv_sections : Forall section_wf (mediaSections r);
  inv_sdp : sdp_wf (sdpObject r)
}.

(** Total readers of a section, equal to [IsClosed] and [GetMid] on
    well-formed sections. *)
Definition is_closed (ms : MediaSection) : bool :=
  match j_find "port" (mediaObject ms) with
  | Some v => j_eq_int v 0
  | None => false
  end.

Definition mid_of (ms : MediaSection) : string :=
  match j_find "mid" (mediaObject ms) with
  | Some (JStr s) => s
  | _ => ""
  end.

(** The mids of the sections that are not closed, in index order. *)
Definition open_mids (l : list MediaSection) : list string :=
  mid_of <$> filter (fun ms => is_closed ms = false) l.

(** [sdpObject["groups"][0]["mids"]]. *)
Definition bundle_of (sdp : json) : option string :=
  match j_find "groups" sdp with
  | Some (JArr (g :: _)) =>
      match j_find "mids" g with
      | Some (JStr s) => Some s
      | _ => None
      end
  | _ => None
  end.

(** [sdpObject["origin"]["sessionVersion"]]. *)
Definition session_version (sdp : json) : option Z :=
  match j_find "origin" sdp with
  | Some origin =>
      match j_find "sessionVersion" origin with
      | Some (JInt v) => Some v
      | _ => None
      end
  | None => None
  end.

(** The public operations on a document.  [OpAdd] stands for [CreateOffer],
    [SendSctpAssociation] and [RecvSctpAssociation], [OpAnswer] for
    [CreateAnswer]; the section they construct is the argument. *)
Inductive op : Type :=
| OpAdd (ms : MediaSection)
| OpAnswer (ms : MediaSection) (reuseMid : string)
| OpClose (mid : string)
| OpDisable (mid : string)
| OpUpdateIce (ice : json)
| OpUpdateDtlsRole (role : string)
| OpGetSdp.

Definition step (o : op) : M RemoteSdp unit :=
  match o with
  | OpAdd ms => Sdp.AddMediaSection ms
  | OpAnswer ms reuseMid => Sdp.commit_answer ms reuseMid
  | OpClose mid => Sdp.CloseMediaSection mid
  | OpDisable mid => Sdp.DisableMediaSection mid
  | OpUpdateIce ice => Sdp.UpdateIceParameters ice
  | OpUpdateDtlsRole role => Sdp.UpdateDtlsRole role
  | OpGetSdp => _ ← Sdp.GetSdp; mret tt
  end.

(** A sequence of operations, each of which completes. *)
Fixpoint run (ops : list op) : M RemoteSdp unit :=
  match ops with
  | [] => mret tt
  | o :: ops' => _ ← step o; run ops'
  end.

Definition is_serialize (o : op) : bool :=
  match o with OpGetSdp => true | _ => false end.

(** The state a computation leaves, whether it returns or throws. *)
Definition after {S A} (x : sres S A) : option S :=
  match x with SOk _ s | SThrow _ s => Some s | SUndef => None end.





(** ** Invariants and frames *)

Definition bundle_inv (r : RemoteSdp) : Prop :=
  bundle_of (sdpObject r)
  = Some (fold_left (append_sep " ") (open_mids (mediaSections r)) "").

Definition has_mid (ms : MediaSection) : Prop := ∃ mid, Section.GetMid ms = Ok mid.
Definition has_port (ms : MediaSection) : Prop := ∃ b, Section.IsClosed ms = Ok b.

(** [ms'] has the mid and the open or closed state of [ms]. *)
Definition same_slot (ms ms' : MediaSection) : Prop :=
  section_wf ms' ∧ is_closed ms' = is_closed ms ∧ mid_of ms' = mid_of ms.

(** What an operation that does not regenerate the bundle keeps. *)
Record frame (r r' : RemoteSdp) : Prop := mk_frame {
  frame_inv : doc_inv r';
  frame_open : open_mids (mediaSections r') = open_mids (mediaSections r);
  frame_bundle : bundle_of (sdpObject r') = bundle_of (sdpObject r);
  frame_version : session_version (sdpObject r') = session_version (sdpObject r);
  frame_length : length (mediaSections r') = length (mediaSections r)
}.

(** [m] leaves the observation [f] of the state as it found it, whether it
    returns or throws. *)
Definition keeps {S X A} (f : S → X) (m : M S A) : Prop :=
  ∀ s, match m s with
       | SOk _ s' | SThrow _ s' => f s' = f s
       | SUndef => True
       end.

(** If [m] throws, it leaves [f] as it found it. *)
Definition throws_keep {S X A} (f : S → X) (m : M S A) : Prop :=
  ∀ s e s', m s = SThrow e s' → f s' = f s.

(** What the operations on data channels do not read or write apart from
    the allocation itself. *)
Definition allocator (h : Handler) : list Z * Z :=
  (pc_dataChannels h, nextSendSctpStreamId h).


(** The transceivers keep their handles. *)
Definition transceiver_count (h : Handler) : nat := length (pc_transceivers h).

(** [j[k][f]] as a lookup. *)
Definition entry (k f : string) (j : json) : option json :=
  match j_find k j with
  | Some p => j_find f p
  | None => None
  end.

(** The constructor of the answer section changes the offer parameters at
    "codecs" only. *)
Definition same_but_codecs (off off' : json) : Prop :=
  ∀ k, k ≠ "codecs" → j_find k off' = j_find k off.

(** ** Concrete data for the examples *)

(** An implementation of the collaborators that is enough to run the code:
    the engine's descriptions are given as text that [sdp_parse] maps to a
    fixed local description with one audio section and one application
    section. *)
Definition ex_local_sdp : json :=
  obj_lit
    [ ("media", JArr
        [ obj_lit [ ("type", JStr "audio"); ("mid", JStr "0");
                    ("protocol", JStr "UDP/TLS/RTP/SAVPF");
                    ("ext", JArr []) ];
          obj_lit [ ("type", JStr "application"); ("mid", JStr "1");
                    ("protocol", JStr "UDP/DTLS/SCTP") ] ]) ].

Definition ex_collaborators : Collaborators := {|
  show_float := fun _ => "0";
  sdp_parse := fun _ => ex_local_sdp;
  sdp_write := fun _ => "v=0";
  extractDtlsParameters := fun _ => Ok (obj_lit [("role", JStr "auto")]);
  getCname := fun _ => Ok "cname";
  getRtpEncodings := fun _ => Ok (JArr [obj_lit [("ssrc", JInt 1111)]]);
  applyCodecParameters := fun _ answer => Ok answer;
  validateSctpStreamParameters := fun p => Ok p
|}.

Definition ex_ice : json :=
  obj_lit [ ("usernameFragment", JStr "ufrag"); ("password", JStr "pwd");
            ("iceLite", JBool true) ].

Definition ex_dtls : json :=
  obj_lit [ ("role", JStr "auto");
            ("fingerprints", JArr [ obj_lit [ ("algorithm", JStr "sha-256");
                                              ("value", JStr "AB:CD") ] ]) ].

Definition ex_sctp : json :=
  obj_lit [ ("port", JInt 5000); ("maxMessageSize", JInt 262144) ].

Definition ex_rtp : json :=
  obj_lit
    [ ("codecs", JArr [ obj_lit [ ("mimeType", JStr "audio/opus");
                                  ("payloadType", JInt 111);
                                  ("clockRate", JInt 48000);
                                  ("channels", JInt 2);
                                  ("parameters", obj_lit [("useinbandfec", JInt 1)]);
                                  ("rtcpFeedback", JArr []) ] ]);
      ("headerExtensions", JArr []);
      ("encodings", JArr [ obj_lit [("ssrc", JInt 1111)] ]);
      ("rtcp", obj_lit [("cname", JStr "cn")]) ].

(** A fresh document. *)
Definition ex_doc : RemoteSdp :=
  match Sdp.new ex_ice (JArr []) ex_dtls ex_sctp with
  | Ok r => r
  | _ => mkRemoteSdp JNull JNull JNull JNull [] "" ∅ JNull
  end.

(** The state a computation leaves, if it completes. *)
Definition final {S A} (x : sres S A) : option S :=
  match x with SOk _ s => Some s | _ => None end.

Definition value {S A} (x : sres S A) : option A :=
  match x with SOk a _ => Some a | _ => None end.

(** Two bare sections and a document that holds them. *)
Definition ex_section (mid : string) : MediaSection :=
  mkSection OfferVariant
    (obj_lit [ ("mid", JStr mid); ("port", JInt 7); ("direction", JStr "sendonly");
               ("ext", JArr []); ("ssrcs", JArr []) ]).

Definition ex_doc2 : RemoteSdp :=
  default ex_doc (final (run [OpAdd (ex_section "a"); OpAdd (ex_section "b")] ex_doc)).

Definition ex_doc3 : RemoteSdp :=
  default ex_doc (final (run [OpClose "b"; OpGetSdp] ex_doc2)).

(** A fresh document whose session version is [v]. *)
Definition ex_origin_at (v : Z) : json :=
  JObj [ ("address", JStr "0.0.0.0"); ("ipVer", JInt 4);
         ("netType", JStr "IN"); ("sessionId", JInt 10000);
         ("sessionVersion", JInt v);
         ("username", JStr "libmediasoupclient") ].

Definition ex_sdp_at (v : Z) : json :=
  JObj
    [ ("fingerprint", JObj [("hash", JStr "AB:CD"); ("type", JStr "sha-256")]);
      ("groups", JArr [JObj [("mids", JStr ""); ("type", JStr "BUNDLE")]]);
      ("icelite", JStr "ice-lite"); ("media", JArr []);
      ("msidSemantic", JObj [("semantic", JStr "WMS"); ("token", JStr "*")]);
      ("name", JStr "-");
      ("origin", ex_origin_at v);
      ("timing", JObj [("start", JInt 0); ("stop", JInt 0)]);
      ("version", JInt 0) ].

Definition ex_doc_at (v : Z) : RemoteSdp := set_sdpObject (ex_sdp_at v) ex_doc.

(** A send handler for audio, an engine that accepts everything and gives
    the new transceiver the mid "0", and engines that fail at one call. *)
Definition ex_handler : Handler :=
  mkHandler [] [] ex_doc false ∅
            (obj_lit [("audio", ex_rtp)]) (obj_lit [("audio", ex_rtp)]) 0 false.

Definition ex_engine : Engine :=
  mkEngine true (Ok "offer") (Ok "answer") (Ok tt) (Ok tt) (Ok tt) "local" (Some "0")
           [mkTransceiver (Some "0") kRecvOnly None []] (Ok tt).

Definition ex_engine_no_offer : Engine :=
  mkEngine true (Throw (EngineError "CreateOffer")) (Ok "answer") (Ok tt) (Ok tt) (Ok tt)
           "local" (Some "0") [] (Ok tt).


Definition ex_track : Track := mkTrack "audio" "track-1".

Definition ex_encoding (bitrate : option Z) : RtpEncodingParameters :=
  mkEncoding true "" bitrate None None kLow.

Definition ex_init : DataChannelInit := mkInit true None None "" false 0.


(** [o'] is [o] with the explicit fields of the caller's encoding laid over
    it: "active" and "networkPriority" always, "rid" if not empty, the three
    optional fields if set; every other member is the one of [o]. *)
Record overlaid (e : RtpEncodingParameters) (o o' : jobject) : Prop := mk_overlaid {
  ov_active : Obj.find "active" o' = Some (JBool (active e));
  ov_rid : Obj.find "rid" o'
           = if decide (rid e = "") then Obj.find "rid" o else Some (JStr (rid e));
  ov_maxBitrate : Obj.find "maxBitrate" o'
                  = match max_bitrate_bps e with
                    | Some v => Some (JInt v)
                    | None => Obj.find "maxBitrate" o
                    end;
  ov_maxFramerate : Obj.find "maxFramerate" o'
                    = match max_framerate e with
                      | Some v => Some (JFloat v)
                      | None => Obj.find "maxFramerate" o
                      end;
  ov_scale : Obj.find "scaleResolutionDownBy" o'
             = match scale_resolution_down_by e with
               | Some v => Some (JFloat v)
               | None => Obj.find "scaleResolutionDownBy" o
               end;
  ov_networkPriority : Obj.find "networkPriority" o'
                       = Some (JInt (Priority_value (network_priority e)));
  ov_other : ∀ k, k ∉ ["active"; "rid"; "maxBitrate"; "maxFramerate";
                        "scaleResolutionDownBy"; "networkPriority"] →
             Obj.find k o' = Obj.find k o
}.

(** [o'] is [o] with the scalability mode of simulcast on VP8 and H264. *)
Definition stamped (o o' : jobject) : Prop :=
  Obj.find "scalabilityMode" o' = Some (JStr "S1T3")
  ∧ ∀ k, k ≠ "scalabilityMode" → Obj.find k o' = Obj.find k o.


(** Offers for the simulcast block: with a "simulcast" object and "rids",
    with a "simulcast" object alone, and with a "simulcast" that is not an
    object. *)
Definition ex_offer_base : list (string * json) :=
  [ ("type", JStr "video"); ("mid", JStr "0"); ("protocol", JStr "UDP/TLS/RTP/SAVPF");
    ("ext", JArr []) ].

Definition ex_offer_simulcast : json :=
  obj_lit (ex_offer_base ++
    [ ("simulcast", obj_lit [("dir1", JStr "send"); ("list1", JStr "r0;r1")]);
      ("rids", JArr [ obj_lit [("id", JStr "r0"); ("direction", JStr "send")];
                      obj_lit [("id", JStr "r1"); ("direction", JStr "send")] ]) ]).

Definition ex_offer_no_rids : json :=
  obj_lit (ex_offer_base ++
    [ ("simulcast", obj_lit [("dir1", JStr "send"); ("list1", JStr "r0;r1")]) ]).

Definition ex_offer_odd_simulcast : json :=
  obj_lit (ex_offer_base ++ [ ("simulcast", JStr "send r0;r1") ]).

Definition ex_video_rtp : json :=
  obj_lit
    [ ("codecs", JArr [ obj_lit [ ("mimeType", JStr "video/VP8");
                                  ("payloadType", JInt 96);
                                  ("clockRate", JInt 90000);
                                  ("parameters", obj_lit []);
                                  ("rtcpFeedback", JArr []) ] ]);
      ("headerExtensions", JArr []);
      ("encodings", JArr [ obj_lit [("ssrc", JInt 2222)] ]);
      ("rtcp", obj_lit [("cname", JStr "cn")]) ].

(** ** Vocabulary of the further properties *)

(** [sdpObject["media"]] when it is an array. *)
Definition media_of (sdp : json) : option (list json) :=
  match j_find "media" sdp with
  | Some (JArr l) => Some l
  | _ => None
  end.

(** The document lists the objects of the sections, in order. *)
Definition mirrors (r : RemoteSdp) : Prop :=
  media_of (sdpObject r) = Some (mediaObject <$> mediaSections r).

(** The document has one media entry for each section. *)
Definition media_len (r : RemoteSdp) : Prop :=
  ∃ l, media_of (sdpObject r) = Some l ∧ length l = length (mediaSections r).

(** The map as [midToIndex[mid]] leaves it when it only reads: a missing
    key is there with index 0. *)
Definition map_read (mid : string) (mp : gmap string nat) : gmap string nat :=
  match mp !! mid with
  | Some _ => mp
  | None => <[mid := 0%nat]> mp
  end.

(** Every index in the map is the index of a section. *)
Definition map_in_range (r : RemoteSdp) : Prop :=
  ∀ mid i, midToIndex r !! mid = Some i → (i < length (mediaSections r))%nat.

(** The members of the remote description that no operation on sections
    writes. *)
Definition same_parameters (r r' : RemoteSdp) : Prop :=
  iceCandidates r' = iceCandidates r ∧ sctpParameters r' = sctpParameters r.

Definition is_disable (o : op) : bool :=
  match o with OpDisable _ => true | _ => false end.

(** The mids of the sections a sequence of operations appends, in order. *)
Fixpoint appended_mids (ops : list op) : list string :=
  match ops with
  | [] => []
  | OpAdd ms :: ops' => mid_of ms :: appended_mids ops'
  | OpAnswer ms reuseMid :: ops' =>
      if decide (reuseMid = "") then mid_of ms :: appended_mids ops'
      else appended_mids ops'
  | _ :: ops' => appended_mids ops'
  end.

(** What every operation keeps on a document built by the constructor. *)
Record reg_inv (r : RemoteSdp) : Prop := mk_reg_inv {
  reg_doc : doc_inv r;
  reg_bundle : bundle_inv r;
  reg_media : media_len r;
  reg_map : map_in_range r
}.

(** ** Concrete data for the further examples *)

Definition ex_ops : list op :=
  [ OpAdd (ex_section "a"); OpAdd (ex_section "b"); OpClose "b";
    OpUpdateDtlsRole "client"; OpGetSdp ].

Definition ex_doc4 : RemoteSdp := default ex_doc (final (run ex_ops ex_doc)).

Definition ex_ops_disable : list op :=
  [ OpAdd (ex_section "a"); OpAdd (ex_section "b"); OpDisable "b" ].

Definition ex_doc5 : RemoteSdp := default ex_doc (final (run ex_ops_disable ex_doc)).

Definition ex_doc6 : RemoteSdp :=
  default ex_doc
    (final (run (OpAdd (ex_section "") :: ex_ops ++ [OpAnswer (ex_section "c") "a"])
                ex_doc)).

(** The "setup" member a section has after [SetDtlsRole]: an offer section
    is always "actpass"; an answer section follows the role, and keeps what
    it had for a role that is none of the three. *)
Definition setup_for (v : variant) (role : string) (old : option json) : option json :=
  match v with
  | OfferVariant => Some (JStr "actpass")
  | AnswerVariant =>
      if decide (role = "client") then Some (JStr "active")
      else if decide (role = "server") then Some (JStr "passive")
      else if decide (role = "auto") then Some (JStr "actpass")
      else old
  end.

Definition ex_answer_section (mid : string) : MediaSection :=
  mkSection AnswerVariant
    (obj_lit [ ("mid", JStr mid); ("port", JInt 7); ("direction", JStr "recvonly");
               ("setup", JStr "actpass") ]).

Definition ex_doc7 : RemoteSdp :=
  default ex_doc
    (final (run [OpAdd (ex_section "a"); OpAnswer (ex_answer_section "b") ""] ex_doc)).

(** [m'] has the members of [m] except, possibly, at the keys of [K]. *)
Definition unchanged_off (K : list string) (m m' : json) : Prop :=
  ∀ k, k ∉ K → j_find k m' = j_find k m.

(** The audio media object of the local description of the examples. *)
Definition ex_offer_audio : json :=
  obj_lit [ ("type", JStr "audio"); ("mid", JStr "0");
            ("protocol", JStr "UDP/TLS/RTP/SAVPF"); ("ext", JArr []) ].

(** RTP parameters with two codecs, the second with a payload type that
    does not fit 8 bits. *)
Definition ex_two_codecs : json :=
  obj_lit
    [ ("codecs", JArr [ obj_lit [ ("mimeType", JStr "video/VP8");
                                  ("payloadType", JInt 96);
                                  ("clockRate", JInt 90000);
                                  ("parameters", obj_lit []);
                                  ("rtcpFeedback", JArr []) ];
                        obj_lit [ ("mimeType", JStr "video/rtx");
                                  ("payloadType", JInt 300);
                                  ("clockRate", JInt 90000);
                                  ("parameters", obj_lit [("apt", JInt 96)]);
                                  ("rtcpFeedback", JArr []) ] ]);
      ("headerExtensions", JArr []);
      ("encodings", JArr [ obj_lit [("ssrc", JInt 2222)] ]);
      ("rtcp", obj_lit [("cname", JStr "cn")]) ].

(** A handler with one registered sending transceiver of four encodings. *)
Definition ex_transceiver_four : Transceiver :=
  mkTransceiver (Some "0") kSendOnly (Some (mkTrack "video" "track-1"))
    [ mkEncoding false "r0" None None None kLow;
      mkEncoding false "r1" None None None kLow;
      mkEncoding true "r2" None None None kLow;
      mkEncoding true "r3" None None None kLow ].

Definition ex_handler_sending : Handler :=
  mkHandler [ex_transceiver_four] [] ex_doc7 true {[ "0" := 0%nat ]}
            (obj_lit [("audio", ex_rtp)]) (obj_lit [("audio", ex_rtp)]) 0 false.

(** The handler of the examples after one [Send] that returned. *)
Definition ex_handler_sent : Handler :=
  default ex_handler
    (final (@Send ex_collaborators ex_engine (Some ex_track) None None ex_handler)).

(** The calls into the engine that follow the serialization of the remote
    description in [StopReceiving] and in [RecvHandler::RestartIce]. *)
Definition answer_calls (E : Engine) : res unit :=
  _ ← e_setRemoteDescription E;
  _ ← e_createAnswer E;
  e_setLocalDescription E.

(** The engine [E] with another outcome of [privateListener->OnConnect]. *)
Definition with_onConnect (x : res unit) (E : Engine) : Engine :=
  mkEngine (e_addTransceiver E) (e_createOffer E) (e_createAnswer E) x
           (e_setLocalDescription E) (e_setRemoteDescription E) (e_localDescription E)
           (e_mid E) (e_transceivers E) (e_createDataChannel E).

(** The handler of the examples after one [Receive] that returned. *)
Definition ex_handler_received : Handler :=
  default ex_handler
    (final (@Receive ex_collaborators ex_engine "consumer-1" "audio" ex_rtp ex_handler)).

(** An engine that refuses the answer it is asked for. *)
Definition ex_engine_no_answer : Engine :=
  mkEngine true (Ok "offer") (Throw (EngineError "CreateAnswer")) (Ok tt) (Ok tt) (Ok tt)
           "local" (Some "0") [mkTransceiver (Some "0") kRecvOnly None []] (Ok tt).

(** [m] started in a state with [P] never leaves a state without [P],
    whether it returns or throws. *)
Definition stays {S A} (P : S → Prop) (m : M S A) : Prop :=
  ∀ s, P s → match m s with
             | SOk _ s' | SThrow _ s' => P s'
             | SUndef => True
             end.

(** [ms] is an open section of type "application" for the data channels,
    with the port and the message size of the SCTP parameters. *)
Definition application_section (sctpParameters : json) (ms : MediaSection) : Prop :=
  j_find "type" (mediaObject ms) = Some (JStr "application")
  ∧ j_find "payloads" (mediaObject ms) = Some (JStr "webrtc-datachannel")
  ∧ j_find "port" (mediaObject ms) = Some (JInt 7)
  ∧ j_find "direction" (mediaObject ms) = None
  ∧ ∃ port size,
      j_find "port" sctpParameters = Some port
      ∧ j_find "maxMessageSize" sctpParameters = Some size
      ∧ j_find "sctpPort" (mediaObject ms) = Some port
      ∧ j_find "maxMessageSize" (mediaObject ms) = Some size.

(** The two "ssrcs" entries of one SSRC: its cname and its msid. *)
Definition ssrc_lines (ssrc : Z) (cname msid : string) : list json :=
  [ obj_lit [("id", JInt ssrc); ("attribute", JStr "cname"); ("value", JStr cname)];
    obj_lit [("id", JInt ssrc); ("attribute", JStr "msid"); ("value", JStr msid)] ].

(** A send handler for video whose first codec is VP8, and a video track. *)
Definition ex_handler_video : Handler :=
  mkHandler [] [] ex_doc false ∅
            (obj_lit [("video", ex_video_rtp)]) (obj_lit [("video", ex_video_rtp)]) 0 false.

Definition ex_video_track : Track := mkTrack "video" "track-2".

(** * Properties *)

(** ** Objects *)

Module ObjFacts.
Lemma find_set_eq k v o : Obj.find k (Obj.set k v o) = Some v.
  Proof.
    induction o as [|[k' v'] o IH]; simpl.
    - by rewrite String.eqb_refl.
    - destruct (String.compare k k') eqn:E; simpl.
      + by rewrite String.eqb_refl.
      + by rewrite String.eqb_refl.
      + destruct (String.eqb_spec k k') as [->|_]; [|done].
        pose proof (String.compare_antisym k' k') as Ha.
        rewrite E in Ha. discriminate Ha.
  Qed.

Lemma find_set_ne k k2 v o : k ≠ k2 → Obj.find k (Obj.set k2 v o) = Obj.find k o.
  Proof.
    intros Hne. induction o as [|[k' v'] o IH]; simpl.
    - by destruct (String.eqb_spec k k2).
    - destruct (String.compare k2 k') eqn:E; simpl.
      + apply String.compare_eq_iff in E as <-.
        by destruct (String.eqb_spec k k2).
      + by destruct (String.eqb_spec k k2).
      + by rewrite IH.
  Qed.

Lemma find_erase_eq k o : Obj.find k (Obj.erase k o) = None.
  Proof.
    induction o as [|[k' v'] o IH]; simpl; [done|].
    destruct (String.eqb_spec k k') as [->|Hne]; [done|]. simpl.
    by destruct (String.eqb_spec k k').
  Qed.

Lemma find_erase_ne k k2 o : k ≠ k2 → Obj.find k (Obj.erase k2 o) = Obj.find k o.
  Proof.
    intros Hne. induction o as [|[k' v'] o IH]; simpl; [done|].
    destruct (String.eqb_spec k2 k') as [->|Hne2]; simpl.
    - by destruct (String.eqb_spec k k').
    - by rewrite IH.
  Qed.
End ObjFacts.

(** ** Sections *)

Lemma section_wf_readers ms :
  section_wf ms →
Section.IsClosed ms = Ok (is_closed ms) ∧ Section.GetMid ms = Ok (mid_of ms).
Proof.
  intros (o & mid & port & Ho & Hmid & Hport).
  unfold Section.IsClosed, Section.GetMid, is_closed, mid_of.
  rewrite Ho. simpl. rewrite Hmid, Hport. done.
Qed.

Lemma next_idx_spec l : 
  Forall section_wf l → ∀ i0,
  ∃ i mid, Sdp.next_idx i0 l = Ok (mkIdx i mid)
    ∧ ((∃ ms, (i0 ≤ i)%nat ∧ l !! (i - i0)%nat = Some ms
          ∧ Section.IsClosed ms = Ok true ∧ Section.GetMid ms = Ok mid
          ∧ ∀ j ms', (j < i - i0)%nat → l !! j = Some ms' → Section.IsClosed ms' = Ok false)
       ∨ (i = (i0 + length l)%nat ∧ mid = ""
          ∧ ∀ ms, ms ∈ l → Section.IsClosed ms = Ok false)).
Proof.
  induction 1 as [|ms l Hwf _ IH]; intros i0.
  - exists i0, "". split; [done|]. right. split; [simpl; lia|]. split; [done|].
    intros ms Hin. by apply elem_of_nil in Hin.
  - destruct (section_wf_readers ms Hwf) as [Hc Hm]. simpl. rewrite Hc. simpl.
    destruct (is_closed ms) eqn:Hclosed.
    + rewrite Hm. simpl. exists i0, (mid_of ms). split; [done|]. left.
      exists ms. replace (i0 - i0)%nat with 0%nat by lia.
      repeat split; try done. intros j ms' Hj. lia.
    + destruct (IH (S i0)) as (i & mid & -> & Hcase).
      exists i, mid. split; [done|].
      destruct Hcase as [(ms1 & Hle & Hl & Hc1 & Hm1 & Hlow)|(-> & -> & Hall)].
      * left. exists ms1. split; [lia|].
        replace (i - i0)%nat with (S (i - S i0)) by lia.
        repeat split; try done.
        intros [|j] ms' Hj Hl'; simpl in Hl'.
        -- by inversion Hl'; subst.
        -- apply (Hlow j); [lia|done].
      * right. split; [simpl; lia|]. split; [done|].
        intros ms' [->|Hin]%elem_of_cons; [done|by apply Hall].
Qed.

(** C4.  On a document whose sections are well formed,
    [GetNextMediaSectionIdx] returns a result, which is either the index and
    the mid of the closed section of lowest index, or, when no section is
    closed, the number of sections with an empty reusable mid.  (The
    function is a function of the state: it changes no member.) *)
Theorem GetNextMediaSectionIdx_lowest_closed (r : RemoteSdp) :
  Forall section_wf (mediaSections r) →
  ∃ i mid, Sdp.GetNextMediaSectionIdx r = Ok (mkIdx i mid)
    ∧ ((∃ ms, mediaSections r !! i = Some ms
          ∧ Section.IsClosed ms = Ok true ∧ Section.GetMid ms = Ok mid
          ∧ ∀ j ms', (j < i)%nat → mediaSections r !! j = Some ms' →
Section.IsClosed ms' = Ok false)
       ∨ (i = length (mediaSections r) ∧ mid = ""
          ∧ ∀ ms, ms ∈ mediaSections r → Section.IsClosed ms = Ok false)).
Proof.
  intros Hwf. destruct (next_idx_spec _ Hwf 0%nat) as (i & mid & Hrun & Hcase).
  exists i, mid. split; [done|].
  destruct Hcase as [(ms & _ & Hl & Hrest)|Hnone].
  - left. exists ms. by rewrite Nat.sub_0_r in Hl, Hrest.
  - by right.
Qed.

(** ** The document object *)

(** Symbolic execution of the monadic code. *)
Lemma run_bind {S A B} (m : M S A) (f : A → M S B) s :
  (m ≫= f) s
  = match m s with
    | SOk a s' => f a s'
    | SThrow e s' => SThrow e s'
    | SUndef => SUndef
    end.
Proof. reflexivity. Qed.

Lemma run_ret {S A} (a : A) (s : S) : (mret a : M S A) s = SOk a s.
Proof. reflexivity. Qed.

Lemma res_bind_eq {A B} (m : res A) (f : A → res B) :
  (m ≫= f) = match m with Ok a => f a | Throw e => Throw e | Undef => Undef end.
Proof. reflexivity. Qed.

Lemma res_bind_inv {A B} (m : res A) (f : A → res B) b :
  (m ≫= f) = Ok b → ∃ a, m = Ok a ∧ f a = Ok b.
Proof. rewrite res_bind_eq. destruct m; [eauto|done..]. Qed.

(** Splits a successful chain of binds into its steps. *)
Ltac res_inv H :=
  repeat (apply res_bind_inv in H;
          let a := fresh "a" in
          let Ha := fresh "Ha" in
          destruct H as (a & Ha & H);
          repeat match goal with
                 | p : (_ * _)%type |- _ => destruct p
                 end;
          cbv beta iota in H).

Ltac mrun :=
  repeat first [ rewrite run_bind | rewrite run_ret
               | progress cbn [get_st modify lift throw undef zoom try_catch
                    iceParameters iceCandidates dtlsParameters sctpParameters
                    mediaSections firstMid midToIndex sdpObject
                    set_iceParameters set_dtlsParameters set_mediaSections
                    set_firstMid set_midToIndex set_sdpObject] ].
Tactic Notation "mrun" "in" hyp(H) :=
  repeat first [ rewrite run_bind in H | rewrite run_ret in H
               | progress cbn [get_st modify lift throw undef zoom try_catch
                    iceParameters iceCandidates dtlsParameters sctpParameters
                    mediaSections firstMid midToIndex sdpObject
                    set_iceParameters set_dtlsParameters set_mediaSections
                    set_firstMid set_midToIndex set_sdpObject] in H ].

Lemma bind_SOk {S A B} (m : M S A) (f : A → M S B) s a s' :
  m s = SOk a s' → (m ≫= f) s = f a s'.
Proof. intros H. unfold mbind, M_bind. by rewrite H. Qed.

Lemma bind_inv {S A B} (m : M S A) (f : A → M S B) s b s' :
  (m ≫= f) s = SOk b s' → ∃ a s1, m s = SOk a s1 ∧ f a s1 = SOk b s'.
Proof.
  unfold mbind, M_bind. destruct (m s) as [a s1| |]; [|done..]. eauto.
Qed.

Lemma lift_inv {S A} (x : res A) (s : S) a s' :
  lift x s = SOk a s' → x = Ok a ∧ s' = s.
Proof. destruct x; simpl; intros H; by inversion H. Qed.

Lemma sdp_wf_set_other k v m :
  k ≠ "media" → k ≠ "groups" → k ≠ "origin" →
  sdp_wf (JObj m) → sdp_wf (JObj (Obj.set k v m)).
Proof.
  intros H1 H2 H3 (m' & [= <-] & Hmedia & Hgroups & Horigin).
  exists (Obj.set k v m). split; [done|].
  rewrite !ObjFacts.find_set_ne by done. done.
Qed.

Lemma j_find_set_ne k k2 v o : k ≠ k2 → j_find k (JObj (Obj.set k2 v o)) = j_find k (JObj o).
Proof. intros. simpl. by apply ObjFacts.find_set_ne. Qed.

Lemma bundle_of_set_other k v m :
  k ≠ "groups" → bundle_of (JObj (Obj.set k v m)) = bundle_of (JObj m).
Proof. intros. unfold bundle_of. by rewrite j_find_set_ne. Qed.

Lemma session_version_set_other k v m :
  k ≠ "origin" → session_version (JObj (Obj.set k v m)) = session_version (JObj m).
Proof. intros. unfold session_version. by rewrite j_find_set_ne. Qed.

(** Assigning to a member other than "groups" and "origin" keeps the shape,
    the bundle and the session version. *)
Lemma sdp_set_icelite sdp :
  sdp_wf sdp →
  ∃ sdp', j_set "icelite" (JStr "ice-lite") sdp = Ok sdp' ∧ sdp_wf sdp'
    ∧ bundle_of sdp' = bundle_of sdp ∧ session_version sdp' = session_version sdp.
Proof.
  intros Hwf. pose proof Hwf as (m & -> & _). eexists. split; [done|].
  split; [by apply sdp_wf_set_other|].
  by rewrite bundle_of_set_other, session_version_set_other.
Qed.

Lemma sdp_upd_media (f : json → res json) sdp :
  sdp_wf sdp →
  (∀ l, ∃ l', f (JArr l) = Ok (JArr l')) →
  ∃ sdp', j_upd "media" f sdp = Ok sdp' ∧ sdp_wf sdp'
    ∧ bundle_of sdp' = bundle_of sdp ∧ session_version sdp' = session_version sdp.
Proof.
  intros Hwf Hf. pose proof Hwf as (m & -> & [l Hmedia] & Hgroups & Horigin).
  destruct (Hf l) as [l' Hl'].
  exists (JObj (Obj.set "media" (JArr l') m)).
  unfold j_upd. simpl. rewrite Hmedia. simpl. rewrite Hl'. simpl.
  split; [done|]. split.
  - exists (Obj.set "media" (JArr l') m). split; [done|].
    rewrite ObjFacts.find_set_eq, !ObjFacts.find_set_ne by done. eauto.
  - by rewrite bundle_of_set_other, session_version_set_other.
Qed.

Lemma sdp_store_media i v sdp :
  sdp_wf sdp →
  ∃ sdp', j_upd "media" (j_set_idx i v) sdp = Ok sdp' ∧ sdp_wf sdp'
    ∧ bundle_of sdp' = bundle_of sdp ∧ session_version sdp' = session_version sdp.
Proof. intros. apply sdp_upd_media; [done|]. intros l. simpl. eauto. Qed.

Lemma sdp_push_media v sdp :
  sdp_wf sdp →
  ∃ sdp', j_push_at "media" v sdp = Ok sdp' ∧ sdp_wf sdp'
    ∧ bundle_of sdp' = bundle_of sdp ∧ session_version sdp' = session_version sdp.
Proof. intros. apply sdp_upd_media; [done|]. intros l. simpl. eauto. Qed.

Lemma sdp_store_mids s sdp :
  sdp_wf sdp →
  ∃ sdp', j_upd "groups" (j_upd_idx 0 (j_set "mids" (JStr s))) sdp = Ok sdp'
    ∧ sdp_wf sdp' ∧ bundle_of sdp' = Some s
    ∧ session_version sdp' = session_version sdp.
Proof.
  intros (m & -> & Hmedia & (g & gs & Hgroups) & Horigin).
  exists (JObj (Obj.set "groups" (JArr (JObj (Obj.set "mids" (JStr s) g) :: gs)) m)).
  unfold j_upd, j_upd_idx. simpl. rewrite Hgroups. simpl.
  split; [done|]. split; [|split].
  - eexists. split; [done|].
    rewrite ObjFacts.find_set_eq, !ObjFacts.find_set_ne by done. eauto.
  - unfold bundle_of. simpl. rewrite ObjFacts.find_set_eq. simpl.
    by rewrite ObjFacts.find_set_eq.
  - by rewrite session_version_set_other.
Qed.

(** ** [RegenerateBundleMids] *)

(** The string the loop of [RegenerateBundleMids] builds. *)
Lemma bundle_mids_fold l :
  Forall section_wf l → ∀ acc,
  Sdp.bundle_mids l acc = Ok (fold_left (append_sep " ") (open_mids l) acc).
Proof.
  induction 1 as [|ms l Hwf _ IH]; intros acc; [done|].
  destruct (section_wf_readers ms Hwf) as [Hc Hm]. simpl. rewrite Hc. simpl.
  unfold open_mids. rewrite filter_cons.
  destruct (is_closed ms) eqn:Hclosed.
  - rewrite decide_False by done. apply IH.
  - rewrite decide_True by done. rewrite Hm. simpl. apply IH.
Qed.

Lemma string_app_assoc (a b c : string) : (a +:+ b) +:+ c = a +:+ b +:+ c.
Proof.
  induction a as [|x a IH]; [done|].
  change (String x ((a +:+ b) +:+ c) = String x (a +:+ b +:+ c)). by f_equal.
Qed.

Lemma string_app_nonempty (a b : string) : a ≠ "" → a +:+ b ≠ "".
Proof. by destruct a. Qed.

Lemma fold_append_sep_cons sep l acc :
  acc ≠ "" → fold_left (append_sep sep) l acc = String.concat sep (acc :: l).
Proof.
  revert acc. induction l as [|m l IH]; intros acc Hacc; [done|].
  cbn [fold_left]. unfold append_sep at 2. rewrite decide_False by done.
  rewrite IH by by apply string_app_nonempty.
  destruct l as [|x l]; [done|].
  change (String.concat sep ((acc +:+ sep +:+ m) :: x :: l))
    with ((acc +:+ sep +:+ m) +:+ sep +:+ String.concat sep (x :: l)).
  change (String.concat sep (acc :: m :: x :: l))
    with (acc +:+ sep +:+ m +:+ sep +:+ String.concat sep (x :: l)).
  by rewrite !string_app_assoc.
Qed.

(** The separator test of the loops is the usual join as soon as the first
    item is not the empty string. *)
Lemma fold_append_sep_concat sep l :
  head l ≠ Some "" → fold_left (append_sep sep) l "" = String.concat sep l.
Proof.
  destruct l as [|m l]; [done|]. intros Hm. cbn [fold_left].
  unfold append_sep at 2. rewrite decide_True by done.
  apply fold_append_sep_cons. intros ->. by apply Hm.
Qed.


Lemma RegenerateBundleMids_run r :
  doc_inv r →
  ∃ sdp', Sdp.RegenerateBundleMids r = SOk tt (set_sdpObject sdp' r)
    ∧ sdp_wf sdp'
    ∧ bundle_of sdp' = Some (fold_left (append_sep " ") (open_mids (mediaSections r)) "")
    ∧ session_version sdp' = session_version (sdpObject r).
Proof.
  intros [Hsec Hsdp].
  destruct (sdp_store_mids (fold_left (append_sep " ") (open_mids (mediaSections r)) "")
              _ Hsdp) as (sdp' & Hrun & Hwf & Hb & Hv).
  exists sdp'. split; [|done].
  unfold Sdp.RegenerateBundleMids, Sdp.upd_sdpObject.
  mrun. rewrite (bundle_mids_fold _ Hsec). mrun. rewrite Hrun. done.
Qed.

(** ** Sections under the operations *)


Lemma section_wf_iff ms : section_wf ms ↔ has_mid ms ∧ has_port ms.
Proof.
  split.
  - intros Hwf. destruct (section_wf_readers ms Hwf) as [Hc Hm].
    split; eexists; eauto.
  - intros [[mid Hm] [b Hc]]. unfold Section.GetMid, Section.IsClosed in *.
    destruct (mediaObject ms) as [| | | | | |o] eqn:Ho; try done.
    simpl in *.
    destruct (Obj.find "mid" o) as [[]|] eqn:Hmid; try done.
    destruct (Obj.find "port" o) as [port|] eqn:Hport; try done.
    by exists o, s, port.
Qed.

Lemma bundle_mids_has_port l : ∀ acc s,
  Sdp.bundle_mids l acc = Ok s → Forall has_port l.
Proof.
  induction l as [|ms l IH]; intros acc s H; [done|].
  simpl in H. rewrite res_bind_eq in H.
  destruct (Section.IsClosed ms) as [b| |] eqn:Hc; try done.
  constructor; [by exists b|].
  destruct b; [by eapply IH|].
  rewrite res_bind_eq in H. destruct (Section.GetMid ms); try done. by eapply IH.
Qed.

Lemma RegenerateBundleMids_inv r r' :
  Forall has_mid (mediaSections r) → sdp_wf (sdpObject r) →
  Sdp.RegenerateBundleMids r = SOk tt r' →
  doc_inv r' ∧ bundle_inv r'
  ∧ mediaSections r' = mediaSections r ∧ midToIndex r' = midToIndex r
  ∧ firstMid r' = firstMid r
  ∧ session_version (sdpObject r') = session_version (sdpObject r).
Proof.
  intros Hmid Hsdp H.
  assert (Forall section_wf (mediaSections r)) as Hwf.
  { unfold Sdp.RegenerateBundleMids in H. mrun in H.
    destruct (Sdp.bundle_mids (mediaSections r) "") as [mids| |] eqn:Hb; try done.
    apply bundle_mids_has_port in Hb.
    apply Forall_forall. intros ms Hin. apply section_wf_iff.
    rewrite Forall_forall in Hmid, Hb. eauto. }
  destruct (RegenerateBundleMids_run r) as (sdp' & Hrun & Hwf' & Hb & Hv); [done|].
  rewrite Hrun in H. inversion H; subst r'; clear H.
  repeat split; try done.
Qed.

Lemma Disable_obj o :
Section.Disable (JObj o)
  = Ok (JObj (Obj.erase "rids" (Obj.erase "simulcast" (Obj.erase "ssrcGroups"
          (Obj.erase "ssrcs" (Obj.erase "ext"
             (Obj.set "direction" (JStr "inactive") o))))))).
Proof. reflexivity. Qed.

Lemma Close_obj o :
Section.Close (JObj o)
  = Ok (JObj (Obj.erase "extmapAllowMixed" (Obj.erase "rids" (Obj.erase "simulcast"
          (Obj.erase "ssrcGroups" (Obj.erase "ssrcs" (Obj.erase "ext"
             (Obj.set "port" (JInt 0)
                (Obj.set "direction" (JStr "inactive") o))))))))).
Proof. reflexivity. Qed.

(** Lookups through the updates of [Disable] and [Close]. *)
Ltac find_simpl :=
  repeat first
    [ rewrite ObjFacts.find_erase_ne by done
    | rewrite ObjFacts.find_set_ne by done
    | rewrite ObjFacts.find_set_eq
    | rewrite ObjFacts.find_erase_eq ].


Lemma apply_Disable ms :
  section_wf ms →
  ∃ ms', Section.apply Section.Disable ms = Ok ms' ∧ same_slot ms ms'.
Proof.
  intros (o & mid & port & Ho & Hmid & Hport). unfold Section.apply.
  rewrite Ho, Disable_obj. eexists. split; [done|].
  unfold same_slot, section_wf, is_closed, mid_of. rewrite Ho. simpl.
  split; [|by find_simpl].
  eexists _, mid, port. split; [done|]. by find_simpl.
Qed.

Lemma apply_Close ms :
  section_wf ms →
  ∃ ms', Section.apply Section.Close ms = Ok ms'
    ∧ section_wf ms' ∧ is_closed ms' = true ∧ mid_of ms' = mid_of ms.
Proof.
  intros (o & mid & port & Ho & Hmid & Hport). unfold Section.apply.
  rewrite Ho, Close_obj. eexists. split; [done|].
  unfold section_wf, is_closed, mid_of. rewrite Ho. simpl.
  split; [|by find_simpl].
  eexists _, mid, (JInt 0). split; [done|]. by find_simpl.
Qed.

Lemma apply_SetIceParameters ice ms ms' :
  section_wf ms →
Section.apply (Section.SetIceParameters ice) ms = Ok ms' → same_slot ms ms'.
Proof.
  intros (o & mid & port & Ho & Hmid & Hport). unfold Section.apply.
  rewrite Ho. unfold Section.SetIceParameters. rewrite !res_bind_eq.
  destruct (j_get "usernameFragment" ice) as [u| |]; try done. simpl.
  rewrite !res_bind_eq.
  destruct (j_get "password" ice) as [p| |]; try done. simpl.
  intros [=]; subst ms'. unfold same_slot, section_wf, is_closed, mid_of.
  rewrite Ho. simpl.
  split; [|by find_simpl].
  eexists _, mid, port. split; [done|]. by find_simpl.
Qed.

Lemma apply_SetDtlsRole role ms ms' :
  section_wf ms →
Section.apply (Section.SetDtlsRole (section_variant ms) role) ms = Ok ms' →
  same_slot ms ms'.
Proof.
  intros (o & mid & port & Ho & Hmid & Hport). unfold Section.apply.
  rewrite Ho. unfold Section.SetDtlsRole.
  assert (∀ v, same_slot ms (mkSection (section_variant ms) (JObj (Obj.set "setup" v o)))) as Hset.
  { intros v. unfold same_slot, section_wf, is_closed, mid_of. rewrite Ho. simpl.
    split; [|by find_simpl].
    eexists _, mid, port. split; [done|]. by find_simpl. }
  assert (same_slot ms (mkSection (section_variant ms) (JObj o))) as Hid.
  { unfold same_slot, section_wf, is_closed, mid_of. rewrite Ho. simpl.
    split; [|done]. by eexists _, mid, port. }
  destruct (section_variant ms); repeat case_decide; simpl; intros [=]; subst ms'; done.
Qed.

Lemma open_mids_insert l i ms ms' :
  l !! i = Some ms → is_closed ms' = is_closed ms → mid_of ms' = mid_of ms →
  open_mids (<[i := ms']> l) = open_mids l.
Proof.
  revert i. induction l as [|x l IH]; intros [|i] Hl Hc Hm; try done; simpl in *.
  - inversion Hl; subst x. unfold open_mids. rewrite !filter_cons.
    rewrite Hc. destruct (decide (is_closed ms = false)); [|done].
    by rewrite !fmap_cons, Hm.
  - unfold open_mids in *. rewrite !filter_cons.
    destruct (decide (is_closed x = false)); [|by apply IH].
    rewrite !fmap_cons. f_equal. by apply IH.
Qed.

Lemma Forall_insert_wf (l : list MediaSection) i ms' :
  Forall section_wf l → section_wf ms' → Forall section_wf (<[i := ms']> l).
Proof. intros. by apply Forall_insert. Qed.

(** ** The operations keep the invariants *)

Lemma index_of_run mid r :
  ∃ mp, Sdp.index_of mid r
        = SOk (default 0%nat (midToIndex r !! mid)) (set_midToIndex mp r).
Proof.
  unfold Sdp.index_of. mrun. destruct (midToIndex r !! mid) as [i|] eqn:Hi.
  - exists (midToIndex r). mrun. by destruct r.
  - eexists. mrun. done.
Qed.

Lemma section_at_inv i r ms r' :
  Sdp.section_at i r = SOk ms r' → mediaSections r !! i = Some ms ∧ r' = r.
Proof.
  unfold Sdp.section_at. mrun. destruct (mediaSections r !! i); mrun; [|done].
  by intros [= -> ->].
Qed.

Lemma section_at_run i r ms :
  mediaSections r !! i = Some ms → Sdp.section_at i r = SOk ms r.
Proof. intros H. unfold Sdp.section_at. mrun. by rewrite H. Qed.

Lemma upd_sdpObject_run f r sdp' :
  f (sdpObject r) = Ok sdp' → Sdp.upd_sdpObject f r = SOk tt (set_sdpObject sdp' r).
Proof. intros H. unfold Sdp.upd_sdpObject. mrun. by rewrite H. Qed.


Lemma frame_refl r : doc_inv r → frame r r.
Proof. by constructor. Qed.

Lemma frame_trans r1 r2 r3 : frame r1 r2 → frame r2 r3 → frame r1 r3.
Proof.
  intros [] []. constructor; try done; etrans; done.
Qed.

Lemma frame_bundle_inv r r' : frame r r' → bundle_inv r → bundle_inv r'.
Proof. intros [] H. unfold bundle_inv in *. congruence. Qed.

(** One round of the loop of [UpdateIceParameters] and [UpdateDtlsRole]. *)
Lemma update_sections_frame f :
  (∀ ms ms', section_wf ms → f ms = Ok ms' → same_slot ms ms') →
  ∀ n i r r', doc_inv r →
  Sdp.update_sections f n i r = SOk tt r' → frame r r'.
Proof.
  intros Hf. induction n as [|n IH]; intros i r r' Hinv H.
  - simpl in H. mrun in H. inversion H; subst. by apply frame_refl.
  - simpl in H. mrun in H.
    destruct (Sdp.section_at i r) as [ms r1| |] eqn:Hat; try done.
    apply section_at_inv in Hat as [Hms ->].
    destruct Hinv as [Hsec Hsdp].
    assert (section_wf ms) as Hwf.
    { rewrite Forall_forall in Hsec. apply Hsec. by eapply list_elem_of_lookup_2. }
    destruct (f ms) as [ms'| |] eqn:Hfms; mrun in H; try done.
    destruct (Hf _ _ Hwf Hfms) as (Hwf' & Hc & Hm).
    unfold Sdp.store_section in H. mrun in H.
    destruct (sdp_store_media i (Section.GetObject ms') _ Hsdp)
      as (sdp' & Hrun & Hsdp' & Hb & Hv).
    erewrite upd_sdpObject_run in H by exact Hrun. mrun in H.
    eapply frame_trans; [|eapply IH; [|exact H]].
    + constructor; mrun; try done.
      * constructor; mrun; [by apply Forall_insert_wf|done].
      * by eapply open_mids_insert.
      * by rewrite length_insert.
    + constructor; mrun; [by apply Forall_insert_wf|done].
Qed.

Lemma UpdateIceParameters_frame ice r r' :
  doc_inv r → Sdp.UpdateIceParameters ice r = SOk tt r' → frame r r'.
Proof.
  intros [Hsec Hsdp] H. unfold Sdp.UpdateIceParameters in H. mrun in H.
  destruct (j_find "iceLite" ice).
  - destruct (sdp_set_icelite _ Hsdp) as (sdp' & Hrun & Hsdp' & Hb & Hv).
    erewrite upd_sdpObject_run in H by exact Hrun. mrun in H.
    eapply frame_trans; [|eapply update_sections_frame; [| |exact H]].
    + by constructor; mrun.
    + intros ms ms' Hwf. by apply apply_SetIceParameters.
    + by constructor; mrun.
  - mrun in H.
    eapply frame_trans; [|eapply update_sections_frame; [| |exact H]].
    + by constructor; mrun.
    + intros ms ms' Hwf. by apply apply_SetIceParameters.
    + by constructor; mrun.
Qed.

Lemma UpdateDtlsRole_frame role r r' :
  doc_inv r → Sdp.UpdateDtlsRole role r = SOk tt r' → frame r r'.
Proof.
  intros [Hsec Hsdp] H. unfold Sdp.UpdateDtlsRole in H. mrun in H.
  destruct (j_set "role" (JStr role) (dtlsParameters r)) as [dtls| |]; mrun in H; try done.
  destruct (j_find "iceLite" (iceParameters r)).
  - destruct (sdp_set_icelite _ Hsdp) as (sdp' & Hrun & Hsdp' & Hb & Hv).
    erewrite upd_sdpObject_run in H by exact Hrun. mrun in H.
    eapply frame_trans; [|eapply update_sections_frame; [| |exact H]].
    + by constructor; mrun.
    + intros ms ms' Hwf. by apply apply_SetDtlsRole.
    + by constructor; mrun.
  - mrun in H.
    eapply frame_trans; [|eapply update_sections_frame; [| |exact H]].
    + by constructor; mrun.
    + intros ms ms' Hwf. by apply apply_SetDtlsRole.
    + by constructor; mrun.
Qed.

Lemma DisableMediaSection_frame mid r r' :
  doc_inv r → Sdp.DisableMediaSection mid r = SOk tt r' → frame r r'.
Proof.
  intros [Hsec Hsdp] H. unfold Sdp.DisableMediaSection in H.
  destruct (index_of_run mid r) as [mp Hidx].
  rewrite run_bind, Hidx in H. rewrite run_bind in H.
  destruct (Sdp.section_at _ _) as [ms r1| |] eqn:Hat; try done.
  apply section_at_inv in Hat as [Hms ->]. mrun in Hms.
  assert (section_wf ms) as Hwf.
  { rewrite Forall_forall in Hsec. apply Hsec. by eapply list_elem_of_lookup_2. }
  destruct (apply_Disable ms Hwf) as (ms' & Hrun & Hwf' & Hc & Hm).
  mrun in H. rewrite Hrun in H. unfold Sdp.store_section in H. mrun in H.
  inversion H; subst r'; clear H.
  constructor; mrun; try done.
  - constructor; mrun; [by apply Forall_insert_wf|done].
  - by eapply open_mids_insert.
  - by rewrite length_insert.
Qed.

Lemma j_ref_found k o v : Obj.find k o = Some v → j_ref k (JObj o) = Ok (v, JObj o).
Proof. intros H. simpl. by rewrite H. Qed.

Lemma GetSdp_run r :
  doc_inv r →
  ∃ sdp' v,
    Sdp.GetSdp r = SOk sdp' (set_sdpObject sdp' r)
    ∧ session_version (sdpObject r) = Some v ∧ 0 <= v < 2 ^ 32
    ∧ session_version sdp' = Some ((v + 1) mod 2 ^ 32)
    ∧ sdp_wf sdp'
    ∧ bundle_of sdp' = bundle_of (sdpObject r).
Proof.
  intros [Hsec (m & Hm & Hmedia & Hgroups & (og & v & Horigin & Hsv & Hv))].
  exists (JObj (Obj.set "origin"
                  (JObj (Obj.set "sessionVersion" (JInt ((v + 1) mod 2 ^ 32)) og)) m)), v.
  split; [|split; [|split; [|split; [|split]]]].
  - unfold Sdp.GetSdp. mrun. rewrite Hm.
    rewrite (j_ref_found _ _ _ Horigin). mrun.
    rewrite (j_ref_found _ _ _ Hsv). mrun.
    cbn [get_uint j_set]. rewrite (Z.mod_small v) by lia. mrun. done.
  - unfold session_version. rewrite Hm. cbn [j_find]. rewrite Horigin.
    cbn [j_find]. by rewrite Hsv.
  - done.
  - unfold session_version. simpl. rewrite ObjFacts.find_set_eq. simpl.
    by rewrite ObjFacts.find_set_eq.
  - eexists. split; [done|].
    rewrite ObjFacts.find_set_eq, !ObjFacts.find_set_ne by done.
    split; [done|]. split; [done|].
    eexists _, _. split; [done|]. rewrite ObjFacts.find_set_eq. split; [done|].
    apply Z.mod_pos_bound. lia.
  - rewrite Hm. by rewrite bundle_of_set_other.
Qed.

Lemma has_mid_of_wf ms : section_wf ms → has_mid ms.
Proof. intros H. by apply section_wf_iff in H as [? _]. Qed.

Lemma AddMediaSection_inv ms r r' :
  doc_inv r → Sdp.AddMediaSection ms r = SOk tt r' →
  doc_inv r' ∧ bundle_inv r'
  ∧ mediaSections r' = (mediaSections r ++ [ms])%list
  ∧ session_version (sdpObject r') = session_version (sdpObject r).
Proof.
  intros [Hsec Hsdp] H. unfold Sdp.AddMediaSection in H.
  rewrite run_bind in H. cbn [get_st] in H. rewrite run_bind in H.
  destruct (Section.GetMid ms) as [mid| |] eqn:Hmid.
  - assert (∃ fm, SOk tt (set_firstMid fm r)
        = (if decide (firstMid r = "")
           then mid ← lift (Ok mid); modify (set_firstMid mid)
           else mret tt) r) as [fm Hfm].
    { case_decide; mrun; [by eexists|]. exists (firstMid r). by destruct r. }
    rewrite <- Hfm in H. mrun in H.
    destruct (sdp_push_media (Section.GetObject ms) _ Hsdp)
      as (sdp' & Hrun & Hsdp' & Hb & Hv).
    erewrite upd_sdpObject_run in H by exact Hrun.
    apply RegenerateBundleMids_inv in H as (Hinv & Hbi & Hl & _ & _ & Hv'); mrun; [|  |done].
    + mrun in Hl. mrun in Hv'. do 3 (split; [done|]). congruence.
    + apply Forall_app. split.
      * eapply Forall_impl; [exact Hsec|]. apply has_mid_of_wf.
      * constructor; [|done]. by exists mid.
  - case_decide; mrun in H; done.
  - case_decide; mrun in H; done.
Qed.

Lemma ReplaceMediaSection_inv ms reuseMid r r' :
  reuseMid ≠ "" →
  doc_inv r → Sdp.ReplaceMediaSection ms reuseMid r = SOk tt r' →
  doc_inv r' ∧ bundle_inv r'
  ∧ mediaSections r' = <[default 0%nat (midToIndex r !! reuseMid) := ms]> (mediaSections r)
  ∧ session_version (sdpObject r') = session_version (sdpObject r).
Proof.
  intros Hne [Hsec Hsdp] H. unfold Sdp.ReplaceMediaSection in H.
  rewrite decide_True in H by done.
  destruct (index_of_run reuseMid r) as [mp Hidx].
  rewrite run_bind, Hidx in H. rewrite run_bind in H.
  destruct (Sdp.section_at _ _) as [old r1| |] eqn:Hat; try done.
  apply section_at_inv in Hat as [Hold ->]. mrun in Hold.
  unfold Sdp.store_section in H. mrun in H.
  destruct (Section.GetMid old) as [oldMid| |]; try done.
  mrun in H.
  destruct (Section.GetMid ms) as [newMid| |] eqn:Hmid; try done.
  mrun in H.
  destruct (sdp_store_media (default 0%nat (midToIndex r !! reuseMid))
              (Section.GetObject ms) _ Hsdp) as (sdp' & Hrun & Hsdp' & Hb & Hv).
  erewrite upd_sdpObject_run in H by exact Hrun.
  apply RegenerateBundleMids_inv in H as (Hinv & Hbi & Hl & _ & _ & Hv'); mrun; [| |done].
  - mrun in Hl. mrun in Hv'. do 3 (split; [done|]). congruence.
  - apply Forall_insert; [|by exists newMid].
    eapply Forall_impl; [exact Hsec|]. apply has_mid_of_wf.
Qed.

(** [CloseMediaSection] completes on a well-formed document as soon as the
    slot it reaches exists. *)
Lemma CloseMediaSection_run mid r ms :
  doc_inv r →
  mediaSections r !! default 0%nat (midToIndex r !! mid) = Some ms →
  ∃ r' ms',
    Sdp.CloseMediaSection mid r = SOk tt r'
    ∧ (if decide (mid = firstMid r)
       then Section.apply Section.Disable ms
       else Section.apply Section.Close ms) = Ok ms'
    ∧ mediaSections r' = <[default 0%nat (midToIndex r !! mid) := ms']> (mediaSections r)
    ∧ firstMid r' = firstMid r
    ∧ doc_inv r' ∧ bundle_inv r'
    ∧ session_version (sdpObject r') = session_version (sdpObject r).
Proof.
  intros [Hsec Hsdp] Hms.
  assert (section_wf ms) as Hwf.
  { rewrite Forall_forall in Hsec. apply Hsec. by eapply list_elem_of_lookup_2. }
  assert (∃ ms', (if decide (mid = firstMid r)
                  then Section.apply Section.Disable ms
                  else Section.apply Section.Close ms) = Ok ms' ∧ section_wf ms')
    as (ms' & Happ & Hwf').
  { case_decide.
    - destruct (apply_Disable ms Hwf) as (ms' & ? & ? & _). eauto.
    - destruct (apply_Close ms Hwf) as (ms' & ? & ? & _). eauto. }
  destruct (index_of_run mid r) as [mp Hidx].
  destruct (sdp_store_media (default 0%nat (midToIndex r !! mid))
              (Section.GetObject ms') _ Hsdp) as (sdp' & Hrun & Hsdp' & Hb & Hv).
  set (r1 := set_sdpObject sdp'
               (set_mediaSections (<[default 0%nat (midToIndex r !! mid) := ms']> (mediaSections r))
                  (set_midToIndex mp r))).
  assert (doc_inv r1) as Hinv1.
  { constructor; unfold r1; mrun; [by apply Forall_insert_wf|done]. }
  destruct (RegenerateBundleMids_run r1 Hinv1) as (sdp'' & Hreg & Hsdp'' & Hb'' & Hv'').
  exists (set_sdpObject sdp'' r1), ms'. split; [|split; [done|]].
  - unfold Sdp.CloseMediaSection. rewrite run_bind, Hidx. rewrite run_bind.
    rewrite (section_at_run _ _ ms) by (by mrun). mrun. rewrite Happ.
    unfold Sdp.store_section. mrun.
    erewrite upd_sdpObject_run by exact Hrun. exact Hreg.
  - unfold r1 in *. mrun. mrun in Hv''. mrun in Hb''.
    split; [done|]. split; [done|]. split.
    + constructor; mrun; [by apply Forall_insert_wf|done].
    + split; [exact Hb''|congruence].
Qed.

Lemma CloseMediaSection_inv mid r r' :
  doc_inv r → Sdp.CloseMediaSection mid r = SOk tt r' →
  doc_inv r' ∧ bundle_inv r'
  ∧ session_version (sdpObject r') = session_version (sdpObject r).
Proof.
  intros Hinv H.
  destruct (mediaSections r !! default 0%nat (midToIndex r !! mid)) as [ms|] eqn:Hms.
  - destruct (CloseMediaSection_run mid r ms Hinv Hms)
      as (r1 & ms' & Hrun & _ & _ & _ & ? & ? & ?).
    rewrite Hrun in H. inversion H; subst. done.
  - unfold Sdp.CloseMediaSection in H.
    destruct (index_of_run mid r) as [mp Hidx].
    rewrite run_bind, Hidx in H. rewrite run_bind in H.
    unfold Sdp.section_at in H. mrun in H. rewrite Hms in H. done.
Qed.

(** Every operation that completes keeps the shape of the document and the
    bundle list; only [GetSdp] changes the session version. *)
Lemma step_inv o r r' :
  doc_inv r → bundle_inv r → step o r = SOk tt r' →
  doc_inv r' ∧ bundle_inv r'
  ∧ (is_serialize o = false →
     session_version (sdpObject r') = session_version (sdpObject r)).
Proof.
  intros Hinv Hb H. destruct o as [ms|ms reuseMid|mid|mid|ice|role|]; simpl in H.
  - apply AddMediaSection_inv in H as (? & ? & _ & ?); done.
  - unfold Sdp.commit_answer in H. case_decide.
    + apply ReplaceMediaSection_inv in H as (? & ? & _ & ?); done.
    + apply AddMediaSection_inv in H as (? & ? & _ & ?); done.
  - apply CloseMediaSection_inv in H as (? & ? & ?); done.
  - apply DisableMediaSection_frame in H as Hf; [|done].
    split; [apply Hf|]. split; [by eapply frame_bundle_inv|]. intros _. apply Hf.
  - apply UpdateIceParameters_frame in H as Hf; [|done].
    split; [apply Hf|]. split; [by eapply frame_bundle_inv|]. intros _. apply Hf.
  - apply UpdateDtlsRole_frame in H as Hf; [|done].
    split; [apply Hf|]. split; [by eapply frame_bundle_inv|]. intros _. apply Hf.
  - destruct (GetSdp_run r Hinv) as (sdp' & v & Hrun & _ & _ & _ & Hsdp' & Hb').
    rewrite run_bind, Hrun in H. mrun in H. inversion H; subst r'; clear H.
    split; [|split; [|done]].
    + constructor; mrun; [apply Hinv|done].
    + unfold bundle_inv in *. mrun. congruence.
Qed.

Lemma run_inv ops : ∀ r r',
  doc_inv r → bundle_inv r → run ops r = SOk tt r' →
  doc_inv r' ∧ bundle_inv r'
  ∧ (forallb (fun o => negb (is_serialize o)) ops = true →
     session_version (sdpObject r') = session_version (sdpObject r)).
Proof.
  induction ops as [|o ops IH]; intros r r' Hinv Hb H; simpl in H.
  - mrun in H. inversion H; subst. done.
  - rewrite run_bind in H. destruct (step o r) as [[] r1| |] eqn:Hstep; try done.
    apply step_inv in Hstep as (Hinv1 & Hb1 & Hv1); [|done..].
    apply IH in H as (Hinv' & Hb' & Hv'); [|done..].
    split; [done|]. split; [done|]. simpl. intros [Ho Hops]%andb_true_iff.
    rewrite Hv' by done. apply Hv1. by destruct (is_serialize o).
Qed.

(** The constructor establishes the invariants. *)
Lemma new_inv ice cand dtls sctp r :
  Sdp.new ice cand dtls sctp = Ok r →
  doc_inv r ∧ bundle_inv r ∧ mediaSections r = []
  ∧ session_version (sdpObject r) = Some 0 ∧ firstMid r = "".
Proof.
  unfold Sdp.new. intros H.
  assert (∃ m g og, sdpObject r = JObj m
             ∧ Obj.find "media" m = Some (JArr [])
             ∧ Obj.find "groups" m = Some (JArr [JObj g])
             ∧ Obj.find "mids" g = Some (JStr "")
             ∧ Obj.find "origin" m = Some (JObj og)
             ∧ Obj.find "sessionVersion" og = Some (JInt 0)
             ∧ mediaSections r = [] ∧ firstMid r = "")
    as (m & g & og & Hm & Hmedia & Hgroups & Hmids & Horigin & Hsv & Hl & Hf).
  { destruct (j_find "iceLite" ice); res_inv H;
      repeat match goal with
             | Hx : Ok _ = Ok _ |- _ => inversion Hx; subst; clear Hx
             | Hx : j_set _ _ (JObj _) = Ok _ |- _ =>
                 cbn [j_set] in Hx; inversion Hx; subst; clear Hx
             | Hx : j_set _ _ (obj_lit _) = Ok _ |- _ =>
                 unfold obj_lit at 1 in Hx; cbn [j_set] in Hx;
                 inversion Hx; subst; clear Hx
             end;
      cbn [sdpObject mediaSections firstMid];
      eexists _, _, _; repeat split; reflexivity. }
  split; [|split; [|split; [done|split; [|done]]]].
  - constructor; [by rewrite Hl|]. rewrite Hm. eexists. split; [done|].
    split; [eauto|]. split; [by eexists _, _|].
    eexists _, 0. split; [exact Horigin|]. split; [done|lia].
  - unfold bundle_inv. rewrite Hm, Hl. unfold bundle_of. cbn [j_find].
    rewrite Hgroups. cbn [j_find]. by rewrite Hmids.
  - rewrite Hm. unfold session_version. cbn [j_find]. rewrite Horigin.
    cbn [j_find]. by rewrite Hsv.
Qed.

(** ** The registry of sections: the bundle group *)

(** The public operations that construct a section are [OpAdd] and
    [OpAnswer] of the section they constructed. *)
Lemma CreateOffer_step `{Collaborators} mid kind rtp streamId trackId r r' :
  CreateOffer mid kind rtp streamId trackId r = SOk tt r' →
  ∃ ms, step (OpAdd ms) r = SOk tt r'.
Proof.
  unfold CreateOffer. mrun. destruct (Offer.new _ _ _ _ _ _ _ _) as [m| |]; mrun; [|done..].
  intros Hadd. by eexists.
Qed.

Lemma RecvSctpAssociation_step `{Collaborators} r r' :
  RecvSctpAssociation r = SOk tt r' → ∃ ms, step (OpAdd ms) r = SOk tt r'.
Proof.
  unfold RecvSctpAssociation. mrun.
  destruct (Offer.new _ _ _ _ _ _ _ _) as [m| |]; mrun; [|done..].
  intros Hadd. by eexists.
Qed.

Lemma SendSctpAssociation_step `{Collaborators} offerMediaObject r r' :
  SendSctpAssociation offerMediaObject r = SOk tt r' →
  ∃ ms, step (OpAdd ms) r = SOk tt r'.
Proof.
  unfold SendSctpAssociation. mrun.
  destruct (Answer.new _ _ _ _ _ _ _ _) as [[[m off] ans]| |]; mrun; [|done..].
  intros Hadd. by eexists.
Qed.

Lemma CreateAnswer_step `{Collaborators} offerMediaObject reuseMid off ans opts r r' x :
  CreateAnswer offerMediaObject reuseMid off ans opts r = SOk x r' →
  ∃ ms, step (OpAnswer ms reuseMid) r = SOk tt r'.
Proof.
  unfold CreateAnswer. mrun.
  destruct (Answer.new _ _ _ _ _ _ _ _) as [[[m off'] ans']| |]; mrun; [|done..].
  destruct (Sdp.commit_answer _ _ _) as [[] r1| |] eqn:Hc; mrun; [|done..].
  intros [= <- <-]. by eexists.
Qed.

(** C1, as amended.  After any sequence of operations that complete on a
    freshly constructed document, the bundle group lists the mids of the
    sections that are not closed, in index order, separated by one space,
    provided the first of these mids is not the empty string. *)
Theorem bundle_lists_open_mids ice cand dtls sctp (r0 r : RemoteSdp) (ops : list op) :
  Sdp.new ice cand dtls sctp = Ok r0 →
  run ops r0 = SOk tt r →
  head (open_mids (mediaSections r)) ≠ Some "" →
  bundle_of (sdpObject r) = Some (String.concat " " (open_mids (mediaSections r))).
Proof.
  intros Hnew Hrun Hhead.
  apply new_inv in Hnew as (Hinv & Hb & _).
  destruct (run_inv ops r0 r Hinv Hb Hrun) as (_ & Hbundle & _).
  unfold bundle_inv in Hbundle. rewrite Hbundle.
  by rewrite fold_append_sep_concat.
Qed.

Lemma bundle_lists_open_mids_witness :
  Sdp.new ex_ice (JArr []) ex_dtls ex_sctp = Ok ex_doc
  ∧ run [OpClose "b"; OpGetSdp] ex_doc2 = SOk tt ex_doc3
  ∧ bundle_of (sdpObject ex_doc3) = Some "a".
Proof.
  split; [vm_compute; reflexivity|]. split; [vm_compute; reflexivity|].
  apply (bundle_lists_open_mids ex_ice (JArr []) ex_dtls ex_sctp ex_doc ex_doc3
           [OpAdd (ex_section "a"); OpAdd (ex_section "b"); OpClose "b"; OpGetSdp]).
  - vm_compute; reflexivity.
  - vm_compute; reflexivity.
  - vm_compute. discriminate.
Defined.

Section BundleExample.
#[local] Existing Instance ex_collaborators.

(** C1 as stated fails when the first open section has the empty mid: the
    test [mids.empty()] of [RegenerateBundleMids] then takes the list for
    empty and the next mid overwrites it. *)
Lemma bundle_mids_empty_mid_counterexample :
  Sdp.new ex_ice (JArr []) ex_dtls ex_sctp = Ok ex_doc
  ∧ ∃ r, (_ ← CreateOffer "" "audio" ex_rtp "cn" "t1";
          CreateOffer "a" "audio" ex_rtp "cn" "t2") ex_doc = SOk tt r
     ∧ Forall (fun ms => Section.IsClosed ms = Ok false) (mediaSections r)
     ∧ Section.GetMid <$> mediaSections r = [Ok ""; Ok "a"]
     ∧ bundle_of (sdpObject r) = Some "a"
     ∧ bundle_of (sdpObject r) ≠ Some (String.concat " " (open_mids (mediaSections r))).
Proof.
  split; [vm_compute; reflexivity|].
  eexists. split; [vm_compute; reflexivity|].
  split; [repeat constructor|]. split; [vm_compute; reflexivity|].
  split; [vm_compute; reflexivity|]. vm_compute. discriminate.
Qed.

End BundleExample.

(** C5, as amended.  On a well-formed document, closing the anchor mid (the
    first mid the document was given) completes and only disables the
    section it reaches: the port is kept, the direction becomes "inactive",
    the header extensions, SSRCs, SSRC groups, simulcast and RIDs are
    removed, every other member is unchanged.  So the section is closed
    afterwards exactly if it was closed before: a section that was open is
    not counted as closed afterwards, and one whose port was already 0
    still is. *)
Theorem CloseMediaSection_anchor_keeps_port (r : RemoteSdp) (ms : MediaSection) :
  doc_inv r →
  mediaSections r !! default 0%nat (midToIndex r !! firstMid r) = Some ms →
  ∃ r' ms',
    Sdp.CloseMediaSection (firstMid r) r = SOk tt r'
    ∧ mediaSections r'
      = <[default 0%nat (midToIndex r !! firstMid r) := ms']> (mediaSections r)
    ∧ j_find "port" (mediaObject ms') = j_find "port" (mediaObject ms)
    ∧ j_find "direction" (mediaObject ms') = Some (JStr "inactive")
    ∧ (∀ k, k ∈ ["ext"; "ssrcs"; "ssrcGroups"; "simulcast"; "rids"] →
         j_find k (mediaObject ms') = None)
    ∧ (∀ k, k ∉ ["direction"; "ext"; "ssrcs"; "ssrcGroups"; "simulcast"; "rids"] →
         j_find k (mediaObject ms') = j_find k (mediaObject ms))
    ∧ Section.IsClosed ms' = Section.IsClosed ms
    ∧ (Section.IsClosed ms = Ok false → Section.IsClosed ms' = Ok false)
    ∧ (Section.IsClosed ms = Ok true → Section.IsClosed ms' = Ok true).
Proof.
  intros Hinv Hms.
  destruct (CloseMediaSection_run (firstMid r) r ms Hinv Hms)
    as (r' & ms' & Hrun & Happ & Hsec & _).
  exists r', ms'. split; [done|]. split; [done|].
  rewrite decide_True in Happ by done.
  assert (section_wf ms) as (o & mid & port & Ho & Hmid & Hport).
  { destruct Hinv as [Hall _]. rewrite Forall_forall in Hall. apply Hall.
    by eapply list_elem_of_lookup_2. }
  unfold Section.apply in Happ. rewrite Ho, Disable_obj in Happ.
  cbn [mbind res_bind] in Happ. inversion Happ; subst ms'; clear Happ.
  unfold Section.IsClosed. cbn [mediaObject]. rewrite Ho. cbn [j_find j_get].
  split; [by find_simpl|]. split; [by find_simpl|]. split; [|split].
  - intros k Hk. repeat (apply elem_of_cons in Hk as [->|Hk]; [by find_simpl|]).
    by apply elem_of_nil in Hk.
  - intros k Hk.
    rewrite !not_elem_of_cons in Hk. destruct Hk as (? & ? & ? & ? & ? & ? & _).
    by find_simpl.
  - assert (Obj.find "port" (Obj.erase "rids" (Obj.erase "simulcast"
              (Obj.erase "ssrcGroups" (Obj.erase "ssrcs" (Obj.erase "ext"
                (Obj.set "direction" (JStr "inactive") o))))))
            = Obj.find "port" o) as -> by (by find_simpl).
    done.
Qed.

Lemma ex_doc2_inv : doc_inv ex_doc2.
Proof.
  destruct (new_inv ex_ice (JArr []) ex_dtls ex_sctp ex_doc) as (Hinv & Hb & _);
    [vm_compute; reflexivity|].
  eapply (run_inv [OpAdd (ex_section "a"); OpAdd (ex_section "b")] ex_doc ex_doc2 Hinv Hb).
  vm_compute; reflexivity.
Defined.

Lemma CloseMediaSection_anchor_keeps_port_witness :
  firstMid ex_doc2 = "a"
  ∧ mediaSections ex_doc2 !! default 0%nat (midToIndex ex_doc2 !! firstMid ex_doc2)
    = Some (ex_section "a")
  ∧ ∃ r' ms',
      Sdp.CloseMediaSection "a" ex_doc2 = SOk tt r'
      ∧ mediaSections r' !! 0%nat = Some ms'
      ∧ j_find "port" (mediaObject ms') = Some (JInt 7)
      ∧ Section.IsClosed ms' = Ok false.
Proof.
  split; [vm_compute; reflexivity|]. split; [vm_compute; reflexivity|].
  destruct (CloseMediaSection_anchor_keeps_port ex_doc2 (ex_section "a") ex_doc2_inv)
    as (r' & ms' & Hrun & Hsec & Hport & _ & _ & _ & _ & Hopen & _);
    [vm_compute; reflexivity|].
  exists r', ms'. split; [exact Hrun|]. split; [by rewrite Hsec|].
  split; [rewrite Hport; vm_compute; reflexivity|].
  apply Hopen. vm_compute; reflexivity.
Defined.

Section AnchorExample.
#[local] Existing Instance ex_collaborators.

(** C5 as stated fails when the anchor section was closed before.
    [CloseMediaSection] of a mid that is not in the map reads
    [midToIndex[mid]], which inserts index 0, and closes the section there:
    the anchor section gets port 0.  Closing the anchor mid afterwards keeps
    that port, so the section is counted as closed after the call. *)
Lemma CloseMediaSection_anchor_closed_counterexample :
  Sdp.new ex_ice (JArr []) ex_dtls ex_sctp = Ok ex_doc
  ∧ ∃ r r' ms',
      (_ ← CreateOffer "a" "audio" ex_rtp "cn" "t1";
       _ ← CreateOffer "b" "audio" ex_rtp "cn" "t2";
       Sdp.CloseMediaSection "zz") ex_doc = SOk tt r
      ∧ firstMid r = "a"
      ∧ Sdp.CloseMediaSection (firstMid r) r = SOk tt r'
      ∧ mediaSections r' !! default 0%nat (midToIndex r !! firstMid r) = Some ms'
      ∧ Section.GetMid ms' = Ok "a"
      ∧ j_find "port" (mediaObject ms') = Some (JInt 0)
      ∧ Section.IsClosed ms' = Ok true.
Proof.
  split; [vm_compute; reflexivity|].
  eexists _, _, _. split; [vm_compute; reflexivity|].
  split; [vm_compute; reflexivity|]. split; [vm_compute; reflexivity|].
  split; [vm_compute; reflexivity|].
  split; [vm_compute; reflexivity|]. split; vm_compute; reflexivity.
Qed.

End AnchorExample.

(** ** The session version *)

(** C6, as amended.  On a well-formed document [GetSdp] completes and emits
    the stored session version plus one modulo [2^32].  So of two consecutive
    calls, with any operations other than [GetSdp] in between, the second
    emits the version of the first plus one modulo [2^32], which is strictly
    greater unless the first emitted [2^32 - 1]. *)
Theorem GetSdp_increments_session_version (r1 : RemoteSdp) :
  doc_inv r1 → bundle_inv r1 →
  ∃ sdp1 r2 v1,
    Sdp.GetSdp r1 = SOk sdp1 r2
    ∧ session_version sdp1 = Some v1
    ∧ ∀ ops r3,
        forallb (fun o => negb (is_serialize o)) ops = true →
        run ops r2 = SOk tt r3 →
        ∃ sdp2 r4 v2,
          Sdp.GetSdp r3 = SOk sdp2 r4
          ∧ session_version sdp2 = Some v2
          ∧ v2 = (v1 + 1) mod 2 ^ 32
          ∧ (v1 < 2 ^ 32 - 1 → v1 < v2).
Proof.
  intros Hinv Hb.
  destruct (GetSdp_run r1 Hinv) as (sdp1 & v0 & Hrun1 & _ & Hv0 & Hv1 & Hwf1 & Hb1).
  exists sdp1, (set_sdpObject sdp1 r1), ((v0 + 1) mod 2 ^ 32).
  split; [done|]. split; [done|]. intros ops r3 Hops Hrun.
  assert (doc_inv (set_sdpObject sdp1 r1)) as Hinv2.
  { constructor; mrun; [apply Hinv|done]. }
  assert (bundle_inv (set_sdpObject sdp1 r1)) as Hb2.
  { unfold bundle_inv in *. mrun. congruence. }
  destruct (run_inv ops _ r3 Hinv2 Hb2 Hrun) as (Hinv3 & _ & Hv3).
  specialize (Hv3 Hops). mrun in Hv3.
  destruct (GetSdp_run r3 Hinv3) as (sdp2 & v & Hrun2 & Hv & _ & Hv2 & _).
  rewrite Hv3, Hv1 in Hv. inversion Hv; subst v; clear Hv.
  exists sdp2, (set_sdpObject sdp2 r3), (((v0 + 1) mod 2 ^ 32 + 1) mod 2 ^ 32).
  split; [done|]. split; [done|]. split; [done|].
  intros Hlt.
  pose proof (Z.mod_pos_bound (v0 + 1) (2 ^ 32) ltac:(lia)) as Hbound.
  rewrite (Z.mod_small ((v0 + 1) mod 2 ^ 32 + 1)); lia.
Qed.

Lemma ex_doc_inv : doc_inv ex_doc ∧ bundle_inv ex_doc.
Proof.
  destruct (new_inv ex_ice (JArr []) ex_dtls ex_sctp ex_doc) as (Hinv & Hb & _);
    [vm_compute; reflexivity|done].
Defined.

Lemma GetSdp_increments_session_version_witness :
  ∃ sdp1 r2,
    Sdp.GetSdp ex_doc = SOk sdp1 r2
    ∧ session_version sdp1 = Some 1
    ∧ ∃ r3 sdp2 r4,
        run [OpAdd (ex_section "a"); OpUpdateDtlsRole "client"] r2 = SOk tt r3
        ∧ Sdp.GetSdp r3 = SOk sdp2 r4
        ∧ session_version sdp2 = Some 2.
Proof.
  destruct (GetSdp_increments_session_version ex_doc (proj1 ex_doc_inv) (proj2 ex_doc_inv))
    as (sdp1 & r2 & v1 & Hrun1 & Hv1 & Hnext).
  assert (Sdp.GetSdp ex_doc
          = SOk (ex_sdp_at 1) (ex_doc_at 1)) as Hc by (vm_compute; reflexivity).
  rewrite Hc in Hrun1. inversion Hrun1; subst sdp1 r2; clear Hrun1.
  assert (v1 = 1) as -> by (vm_compute in Hv1; congruence).
  exists (ex_sdp_at 1), (ex_doc_at 1). split; [done|]. split; [done|].
  eexists. 
  destruct (Hnext [OpAdd (ex_section "a"); OpUpdateDtlsRole "client"]
              (default ex_doc (final (run [OpAdd (ex_section "a"); OpUpdateDtlsRole "client"]
                                         (ex_doc_at 1)))))
    as (sdp2 & r4 & v2 & Hrun2 & Hv2 & -> & _);
    [reflexivity|vm_compute; reflexivity|].
  exists sdp2, r4. split; [vm_compute; reflexivity|]. split; [exact Hrun2|exact Hv2].
Defined.

(** After [n] calls on a fresh document the stored session version is
    [n mod 2^32]. *)
Lemma GetSdp_at (v : Z) :
  0 <= v < 2 ^ 32 →
  Sdp.GetSdp (ex_doc_at v)
  = SOk (ex_sdp_at ((v + 1) mod 2 ^ 32)) (ex_doc_at ((v + 1) mod 2 ^ 32)).
Proof.
  intros Hv. unfold Sdp.GetSdp. mrun. unfold ex_doc_at at 1. mrun.
  change (j_ref "origin" (ex_sdp_at v)) with (Ok (ex_origin_at v, ex_sdp_at v)). mrun.
  change (j_ref "sessionVersion" (ex_origin_at v)) with (Ok (JInt v, ex_origin_at v)).
  mrun. cbn [get_uint]. rewrite (Z.mod_small v) by lia. mrun.
  change (j_set "sessionVersion" (JInt ((v + 1) mod 2 ^ 32)) (ex_origin_at v))
    with (Ok (ex_origin_at ((v + 1) mod 2 ^ 32))). mrun.
  change (j_set "origin" (ex_origin_at ((v + 1) mod 2 ^ 32)) (ex_sdp_at v))
    with (Ok (ex_sdp_at ((v + 1) mod 2 ^ 32))). mrun.
  reflexivity.
Qed.

Lemma run_GetSdp_n (n : nat) :
  run (replicate n OpGetSdp) (ex_doc_at 0) = SOk tt (ex_doc_at (Z.of_nat n mod 2 ^ 32)).
Proof.
  assert (∀ n v, 0 <= v < 2 ^ 32 →
            run (replicate n OpGetSdp) (ex_doc_at v)
            = SOk tt (ex_doc_at ((v + Z.of_nat n) mod 2 ^ 32))) as Hgen.
  { clear n. induction n as [|n IH]; intros v Hv.
    - simpl. mrun. rewrite Z.add_0_r, Z.mod_small by lia. done.
    - cbn [replicate run step]. rewrite !run_bind, (GetSdp_at v Hv). mrun.
      rewrite IH by (apply Z.mod_pos_bound; lia).
      do 2 f_equal. rewrite Zplus_mod_idemp_l. f_equal. lia. }
  rewrite (Hgen n 0) by lia. by rewrite Z.add_0_l.
Qed.

(** C6 as stated fails at the wrap-around of the 32-bit counter: the
    document reached after [2^32 - 2] calls emits [2^32 - 1] and then 0. *)
Lemma GetSdp_wraps_counterexample :
  Sdp.new ex_ice (JArr []) ex_dtls ex_sctp = Ok (ex_doc_at 0)
  ∧ run (replicate (Z.to_nat 4294967294) OpGetSdp) (ex_doc_at 0)
    = SOk tt (ex_doc_at 4294967294)
  ∧ ∃ sdp1 r2 sdp2 r3,
      Sdp.GetSdp (ex_doc_at 4294967294) = SOk sdp1 r2
      ∧ Sdp.GetSdp r2 = SOk sdp2 r3
      ∧ session_version sdp1 = Some 4294967295
      ∧ session_version sdp2 = Some 0
      ∧ ¬ (4294967295 < 0).
Proof.
  split; [vm_compute; reflexivity|]. split.
  - rewrite run_GetSdp_n. rewrite Z2Nat.id by lia. reflexivity.
  - eexists _, _, _, _. split; [apply GetSdp_at; lia|].
    split; [apply GetSdp_at; vm_compute; split; congruence|].
    split; [vm_compute; reflexivity|]. split; [vm_compute; reflexivity|lia].
Qed.

(** ** Frames of the handler operations *)


Section Frames.
Context {S X : Type} (f : S → X).

Lemma keeps_ret {A} (a : A) : keeps f (mret a).
  Proof. by intros s. Qed.

Lemma keeps_get : keeps f get_st.
  Proof. by intros s. Qed.

Lemma keeps_lift {A} (x : res A) : keeps f (lift x).
  Proof. intros s. by destruct x. Qed.

Lemma keeps_throw {A} e : keeps f (throw e : M S A).
  Proof. by intros s. Qed.

Lemma keeps_undef {A} : keeps f (undef : M S A).
  Proof. by intros s. Qed.

Lemma keeps_modify (g : S → S) : (∀ s, f (g s) = f s) → keeps f (modify g).
  Proof. intros Hg s. apply Hg. Qed.

Lemma keeps_bind {A B} (m : M S A) (k : A → M S B) :
    keeps f m → (∀ a, keeps f (k a)) → keeps f (m ≫= k).
  Proof.
    intros Hm Hk s. rewrite run_bind. specialize (Hm s).
    destruct (m s) as [a s1|e s1|]; [|done..].
    specialize (Hk a s1). destruct (k a s1); congruence.
  Qed.

Lemma keeps_try {A} (m : M S A) (h : exn → M S A) :
    keeps f m → (∀ e, keeps f (h e)) → keeps f (try_catch m h).
  Proof.
    intros Hm Hh s. unfold try_catch. specialize (Hm s).
    destruct (m s) as [a s1|e s1|]; [done| |done].
    specialize (Hh e s1). destruct (h e s1); congruence.
  Qed.

Lemma keeps_zoom {T A} (proj : S → T) (inj : T → S → S) (m : M T A) :
    (∀ t s, f (inj t s) = f s) → keeps f (zoom proj inj m).
  Proof.
    intros Hinj s. unfold zoom. destruct (m (proj s)); try done; apply Hinj.
  Qed.

Lemma throws_keep_of_keeps {A} (m : M S A) : keeps f m → throws_keep f m.
  Proof. intros Hm s e s' Hs. specialize (Hm s). by rewrite Hs in Hm. Qed.

Lemma throws_keep_bind {A B} (m : M S A) (k : A → M S B) :
    keeps f m → (∀ a, throws_keep f (k a)) → throws_keep f (m ≫= k).
  Proof.
    intros Hm Hk s e s'. rewrite run_bind. specialize (Hm s).
    destruct (m s) as [a s1|e1 s1|]; [|by intros [= <- <-]|done].
    intros Hthrow. rewrite <- Hm. by eapply Hk.
  Qed.

Lemma keeps_SOk {A} (m : M S A) s a s' : keeps f m → m s = SOk a s' → f s' = f s.
  Proof. intros Hm Hs. specialize (Hm s). by rewrite Hs in Hm. Qed.
End Frames.

(** Decomposes a frame goal along the structure of the code. *)
Ltac keeps_step :=
  first
    [ apply keeps_ret | apply keeps_get | apply keeps_lift | apply keeps_throw
    | apply keeps_undef
    | apply keeps_modify; by intros []
    | apply keeps_zoom; by intros ? []
    | apply keeps_try; [|intros ?]
    | apply keeps_bind; [|intros ?]
    | match goal with
      | |- keeps _ (match ?x with _ => _ end) => destruct x
      | |- keeps _ (let '(_, _) := ?x in _) => destruct x
      end ].

Ltac keeps_auto := repeat keeps_step.

Section HandlerFrames.
Context `{Collaborators} (E : Engine).



Lemma SetupTransport_keeps_map role sdp :
    keeps mapMidTransceiver (SetupTransport E role sdp).
  Proof. unfold SetupTransport, on_remoteSdp. keeps_auto. Qed.
End HandlerFrames.

(** ** The SCTP stream allocator *)

Section Allocator.
Context `{Collaborators}.




  (** The tail of a data channel call, after the allocation. *)
Lemma after_keeps {A} (m : M Handler A) h h' :
    keeps allocator m → after (m h) = Some h' → allocator h' = allocator h.
  Proof.
    intros Hm Hafter. specialize (Hm h). destruct (m h); simpl in Hafter; try done;
      by inversion Hafter; subst.
  Qed.






End Allocator.

(** ** Failed negotiations *)

Section Failures.
Context `{Collaborators} (E : Engine).

Lemma upd_sending_keeps {X} (f : Handler → X) g :
    (∀ j h, f (set_sendingRtpParametersByKind j h) = f h) → keeps f (upd_sending g).
  Proof. intros Hf. unfold upd_sending. keeps_auto. Qed.

Lemma ref_sending_keeps {X} (f : Handler → X) path :
    (∀ j h, f (set_sendingRtpParametersByKind j h) = f h) → keeps f (ref_sending path).
  Proof. intros Hf. unfold ref_sending. keeps_auto. Qed.

Lemma Send_negotiate_keeps_map track encodings :
    keeps mapMidTransceiver (Send_negotiate E track encodings).
  Proof.
    unfold Send_negotiate, Send_prepare, Send_offer, Send_undo, upd_transceiver,
      ref_sending, upd_sending.
    keeps_auto; apply SetupTransport_keeps_map.
  Qed.

Lemma Send_parameters_keeps_map kind i encodings :
    keeps mapMidTransceiver (Send_parameters E kind i encodings).
  Proof. unfold Send_parameters, ref_sending, upd_sending. keeps_auto. Qed.

Lemma Send_answer_keeps_map kind i offerMediaObject opts :
    keeps mapMidTransceiver (Send_answer E kind i offerMediaObject opts).
  Proof.
    unfold Send_answer, ref_sending, ref_sending_remote, upd_sending, upd_sending_remote,
      on_remoteSdp.
    keeps_auto.
  Qed.

Lemma Send_throws_keep_map track encodings opts :
    throws_keep mapMidTransceiver (Send E track encodings opts).
  Proof.
    unfold Send. destruct track as [track|]; [|by apply throws_keep_of_keeps, keeps_throw].
    apply throws_keep_bind; [apply Send_negotiate_keeps_map|]. intros [[i t] localId].
    apply throws_keep_bind; [apply Send_parameters_keeps_map|]. intros offerMediaObject.
    apply throws_keep_bind; [apply Send_answer_keeps_map|]. intros [].
    intros h e h' Hthrow. unfold Send_commit in Hthrow. mrun in Hthrow. done.
  Qed.



Lemma upd_transceiver_keeps_count t f : keeps transceiver_count (upd_transceiver t f).
  Proof.
    unfold upd_transceiver. apply keeps_modify. intros h.
    unfold transceiver_count. destruct h. cbn. apply length_alter.
  Qed.

Lemma Send_offer_keeps_count kind t : keeps transceiver_count (Send_offer E kind t).
  Proof.
    unfold Send_offer, upd_sending.
    keeps_auto; try apply upd_transceiver_keeps_count.
  Qed.

Lemma Send_prepare_inv track encodings h i t h1 :
    Send_prepare E track encodings h = SOk (i, t) h1 →
    t = length (pc_transceivers h)
    ∧ (t < length (pc_transceivers h1))%nat
    ∧ remoteSdp h1 = remoteSdp h ∧ transportReady h1 = transportReady h
    ∧ e_addTransceiver E = true
    ∧ Sdp.GetNextMediaSectionIdx (remoteSdp h) = Ok i.
  Proof.
    unfold Send_prepare, upd_transceiver, ref_sending. mrun.
    destruct (Sdp.GetNextMediaSectionIdx (remoteSdp h)) as [i'| |]; mrun; [|done..].
    destruct (e_addTransceiver E); mrun; [|done].
    destruct (j_path_ref _ _) as [[v j]| |]; mrun; [|done..].
    intros [= -> <- <-]. destruct h. cbn.
    rewrite length_alter, length_app. cbn. repeat split; try done. lia.
  Qed.

  (** C3.  Whenever [Send] reaches its [try] statement and the statements
      in it ([CreateOffer], the transport setup, [SetLocalDescription], the
      read of the mid) throw, [Send] throws the same exception, the
      mid-to-transceiver map is as before the call, and the transceiver that
      was added is inactive and has no track. *)
Theorem Send_rolls_back_transceiver (tk : Track)
      (encodings : option (list RtpEncodingParameters)) (opts : option json)
      (h h1 h2 : Handler) (i : MediaSectionIdx) (t : nat) (e : exn) :
    Send_prepare E tk (assign_rids encodings) h = SOk (i, t) h1 →
    Send_offer E (track_kind tk) t h1 = SThrow e h2 →
    ∃ h3 tr,
      Send E (Some tk) encodings opts h = SThrow e h3
      ∧ mapMidTransceiver h3 = mapMidTransceiver h
      ∧ t = length (pc_transceivers h)
      ∧ pc_transceivers h3 !! t = Some tr
      ∧ tr_direction tr = kInactive ∧ tr_track tr = None.
  Proof.
    intros Hprep Hoffer.
    pose proof (Send_prepare_inv _ _ _ _ _ _ Hprep) as (Ht & Hlt & _).
    pose proof (Send_offer_keeps_count (track_kind tk) t h1) as Hcount.
    rewrite Hoffer in Hcount. unfold transceiver_count in Hcount.
    destruct (pc_transceivers h2 !! t) as [tr0|] eqn:Htr;
      [|apply lookup_ge_None in Htr; lia].
    set (h3 := set_pc_transceivers
                 (alter (set_track None) t
                    (pc_transceivers
                       (set_pc_transceivers (alter (set_direction kInactive) t (pc_transceivers h2))
                          h2)))
                 (set_pc_transceivers (alter (set_direction kInactive) t (pc_transceivers h2)) h2)).
    assert (Send E (Some tk) encodings opts h = SThrow e h3) as Hsend.
    { unfold Send, Send_negotiate. rewrite !run_bind, Hprep. cbv beta iota.
      rewrite !run_bind. unfold try_catch. rewrite Hoffer.
      unfold Send_undo, upd_transceiver. mrun. done. }
    exists h3, (set_track None (set_direction kInactive tr0)).
    split; [done|]. split; [by eapply Send_throws_keep_map|]. split; [done|].
    split; [|done].
    unfold h3. destruct h2. cbn in *.
    by rewrite !list_lookup_alter_eq, Htr.
  Qed.

  (** What makes the [try] block throw: the engine rejects the offer, the
      transport setup throws, the engine rejects the local description, or
      the transceiver has no mid. *)
Lemma Send_offer_rejected kind t h e :
    (e_createOffer E = Throw e
     ∨ (∃ offer, e_createOffer E = Ok offer ∧ transportReady h = false
                 ∧ ∃ h', SetupTransport E "server" (sdp_parse offer) h = SThrow e h')
     ∨ (∃ offer, e_createOffer E = Ok offer
                 ∧ (transportReady h = true
                    ∨ ∃ o h', SetupTransport E "server" (sdp_parse offer) h = SOk o h')
                 ∧ (e_setLocalDescription E = Throw e
                    ∨ (e_setLocalDescription E = Ok tt ∧ e_mid E = None
                       ∧ e = BadOptionalAccess)))) →
    ∃ h', Send_offer E kind t h = SThrow e h'.
  Proof.
    unfold Send_offer, upd_transceiver.
    intros [Ho|[(offer & Ho & Hready & h' & Hs)|(offer & Ho & Hsetup & Hlocal)]];
      mrun; rewrite Ho; mrun.
    - by eexists.
    - rewrite Hready, Hs. by eexists.
    - assert (∃ o h1, (if transportReady h then mret (sdp_parse offer)
                       else SetupTransport E "server" (sdp_parse offer)) h = SOk o h1)
        as (o & h1 & ->).
      { destruct Hsetup as [->|(o & h' & Hs)]; [by eexists _, _|].
        destruct (transportReady h); eauto. }
      destruct Hlocal as [->|(-> & -> & ->)]; mrun; by eexists.
  Qed.

End Failures.

(** ** The encodings of the outgoing RTP parameters *)

Lemma fill_overlaid e o :
  ∃ o', fillJsonRtpEncodingParameters (JObj o) e = Ok (JObj o') ∧ overlaid e o o'.
Proof.
  unfold fillJsonRtpEncodingParameters. cbn [j_set]. rewrite !res_bind_eq.
  destruct e as [act r mb mf sc np]. cbn [active rid max_bitrate_bps max_framerate
    scale_resolution_down_by network_priority].
  destruct (decide (r = "")) as [->|Hr];
    destruct mb as [mb|]; destruct mf as [mf|]; destruct sc as [sc|];
    cbn [j_set]; rewrite ?res_bind_eq; cbn [j_set];
    (eexists; split; [reflexivity|]);
    (constructor; cbn [active rid max_bitrate_bps max_framerate
                      scale_resolution_down_by network_priority];
     rewrite ?decide_True by done; rewrite ?decide_False by done;
     [by find_simpl..|];
     intros k Hk; rewrite !not_elem_of_cons in Hk;
     destruct Hk as (? & ? & ? & ? & ? & ? & _); by find_simpl).
Qed.

Lemma fill_null e :
  ∃ o', fillJsonRtpEncodingParameters JNull e = Ok (JObj o') ∧ overlaid e [] o'.
Proof.
  destruct (fill_overlaid e []) as (o' & Hfill & Hov). exists o'. split; [|done].
  rewrite <- Hfill. unfold fillJsonRtpEncodingParameters. reflexivity.
Qed.

Lemma populate_many `{Collaborators} (l : list RtpEncodingParameters) (acc : list jobject) :
  ∃ os, res_fold (fun acc encoding =>
                    jsonEncoding ← fillJsonRtpEncodingParameters JNull encoding;
                    j_push_back jsonEncoding acc) l (JArr (JObj <$> acc))
        = Ok (JArr (JObj <$> (acc ++ os)%list))
      ∧ Forall2 (fun e o' => overlaid e [] o') l os.
Proof.
  revert acc. induction l as [|e l IH]; intros acc.
  - exists []. by rewrite app_nil_r.
  - destruct (fill_null e) as (o' & Hfill & Hov).
    destruct (IH (acc ++ [o'])%list) as (os & Hrun & Hall).
    exists (o' :: os). split; [|by constructor].
    cbn [res_fold]. rewrite res_bind_eq, Hfill. rewrite res_bind_eq.
    cbn [j_push_back].
    replace ((JObj <$> acc) ++ [JObj o'])%list with (JObj <$> (acc ++ [o'])%list)
      by (by rewrite fmap_app).
    replace (acc ++ o' :: os)%list with ((acc ++ [o']) ++ os)%list
      by (by rewrite <- (assoc_L app)).
    exact Hrun.
Qed.

(** The value [Send] gives [sendingRtpParameters["encodings"]] has
    three cases.  Without caller encodings it is what [getRtpEncodings]
    derived from the offer.  With exactly one, it is that list with the
    explicit fields of the caller's encoding laid over its first element.
    With more than one, it is the caller's encodings alone, whatever
    [getRtpEncodings] would give.  In particular one caller encoding with
    [maxBitrate = 500000] over a derived list of one element keeps the ssrc
    of that element and has [maxBitrate = 500000]. *)
Theorem populate_encodings_three_cases `{Collaborators}
    (encodings : option (list RtpEncodingParameters)) (offerMediaObject : json) :
  ((encodings = None ∨ encodings = Some []) →
     populate_encodings encodings offerMediaObject = getRtpEncodings offerMediaObject)
  ∧ (∀ e o rest,
       encodings = Some [e] →
       getRtpEncodings offerMediaObject = Ok (JArr (JObj o :: rest)) →
       ∃ o', populate_encodings encodings offerMediaObject = Ok (JArr (JObj o' :: rest))
             ∧ overlaid e o o')
  ∧ (∀ l, encodings = Some l → (1 < length l)%nat →
       ∃ os, populate_encodings encodings offerMediaObject = Ok (JArr (JObj <$> os))
             ∧ Forall2 (fun e o' => overlaid e [] o') l os)
  ∧ (∀ e o ssrc,
       encodings = Some [e] → max_bitrate_bps e = Some 500000 →
       getRtpEncodings offerMediaObject = Ok (JArr [JObj o]) →
       Obj.find "ssrc" o = Some ssrc →
       ∃ o', populate_encodings encodings offerMediaObject = Ok (JArr [JObj o'])
             ∧ Obj.find "ssrc" o' = Some ssrc
             ∧ Obj.find "maxBitrate" o' = Some (JInt 500000)).
Proof.
  assert (∀ e o rest,
       encodings = Some [e] →
       getRtpEncodings offerMediaObject = Ok (JArr (JObj o :: rest)) →
       ∃ o', populate_encodings encodings offerMediaObject = Ok (JArr (JObj o' :: rest))
             ∧ overlaid e o o') as Hone.
  { intros e o rest -> Hengine. destruct (fill_overlaid e o) as (o' & Hfill & Hov).
    exists o'. split; [|done]. unfold populate_encodings.
    rewrite res_bind_eq, Hengine. cbn [j_front_upd]. by rewrite res_bind_eq, Hfill. }
  split; [|split; [done|split]].
  - by intros [->| ->].
  - intros l -> Hlen. destruct l as [|e1 [|e2 l]]; cbn in Hlen; [lia..|].
    destruct (populate_many (e1 :: e2 :: l) []) as (os & Hrun & Hall).
    exists os. split; [|done]. exact Hrun.
  - intros e o ssrc He Hmb Hengine Hssrc.
    destruct (Hone e o [] He Hengine) as (o' & Hrun & Hov). exists o'.
    split; [done|]. split.
    + rewrite (ov_other _ _ _ Hov) by (rewrite !not_elem_of_cons; repeat split;
        try done; apply not_elem_of_nil). done.
    + by rewrite (ov_maxBitrate _ _ _ Hov), Hmb.
Qed.

Lemma stamp_list (os : list jobject) :
  ∃ os', for_list (fun (_ : unit) encoding =>
                     e ← j_set "scalabilityMode" (JStr "S1T3") encoding; Ok (tt, e))
                  tt (JObj <$> os)
         = Ok (tt, JObj <$> os')
       ∧ Forall2 stamped os os'.
Proof.
  induction os as [|o os (os' & Hrun & Hall)].
  - by exists [].
  - exists (Obj.set "scalabilityMode" (JStr "S1T3") o :: os'). split.
    + cbn [fmap list_fmap for_list j_set]. rewrite !res_bind_eq. cbn [fmap list_fmap] in Hrun.
      by rewrite Hrun.
    + constructor; [|done]. split; [by find_simpl|]. intros k Hk. by find_simpl.
Qed.

(** The scalability step.  When the mime type is that of VP8 or H264, in
    any letter case, and the encodings are more than one, every encoding is given the scalability mode
    "S1T3" and keeps its other members; with at most one encoding, or with
    any other codec, the encodings are left as they are. *)
Theorem stamp_scalability_simulcast `{Collaborators} (mimeType : string) (encodings : json) :
  (∀ os, encodings = JArr (JObj <$> os) → (1 < length os)%nat →
     (tolower mimeType = "video/vp8" ∨ tolower mimeType = "video/h264") →
     ∃ os', stamp_scalability mimeType encodings = Ok (JArr (JObj <$> os'))
            ∧ Forall2 stamped os os')
  ∧ (((j_size encodings ≤ 1)%nat
      ∨ ¬ (tolower mimeType = "video/vp8" ∨ tolower mimeType = "video/h264")) →
     stamp_scalability mimeType encodings = Ok encodings).
Proof.
  split.
  - intros os -> Hlen Hmime. destruct (stamp_list os) as (os' & Hrun & Hall).
    exists os'. split; [|done]. unfold stamp_scalability.
    rewrite decide_True.
    + cbn [j_for]. by rewrite res_bind_eq, Hrun.
    + split; [|done]. unfold j_size. cbn [j_items]. by rewrite length_fmap.
  - intros Hcase. unfold stamp_scalability. rewrite decide_False; [done|].
    intros [Hsize Hmime]. destruct Hcase; [lia|done].
Qed.

(** ** The simulcast block of the answer constructor *)

Lemma simulcast_block_cases offer m :
  Answer.simulcast_block offer m
  = match j_find "simulcast" offer with
    | Some (JObj s) =>
        match j_find "rids" offer with
        | None => Undef
        | Some (JArr l) => Answer.simulcast_block offer m
        | Some _ => Ok m
        end
    | _ => Ok m
    end.
Proof.
  unfold Answer.simulcast_block.
  destruct (j_find "simulcast" offer) as [[]|]; try done.
  destruct (j_find "rids" offer) as [[]|]; done.
Qed.

(** C10, as amended.  The simulcast block of the answer constructor reads
    the result of looking up "rids" exactly when the offer has a "simulcast"
    member that is an object: with such a member and no "rids" the block, and
    with it the construction of an audio or video section, has no defined
    result; with no "simulcast" member, or one that is not an object, the
    block returns the media object unchanged without looking at "rids"; and
    whenever the block changes the media object, the offer has a "simulcast"
    object and a "rids" array. *)
Theorem simulcast_block_reads_rids `{Collaborators} (offer m : json) :
  (∀ s, j_find "simulcast" offer = Some (JObj s) → j_find "rids" offer = None →
     Answer.simulcast_block offer m = Undef
     ∧ ∀ ice cand dtls sctp off ans opts type,
         j_find "type" offer = Some (JStr type) → type = "audio" ∨ type = "video" →
         ∀ x, Answer.new ice cand dtls sctp offer off ans opts ≠ Ok x)
  ∧ ((∀ s, j_find "simulcast" offer ≠ Some (JObj s)) →
     Answer.simulcast_block offer m = Ok m)
  ∧ (∀ m', Answer.simulcast_block offer m = Ok m' → m' ≠ m →
     ∃ s l, j_find "simulcast" offer = Some (JObj s)
            ∧ j_find "rids" offer = Some (JArr l)).
Proof.
  split; [|split].
  - intros s Hs Hr.
    assert (∀ m0, Answer.simulcast_block offer m0 = Undef) as Hundef.
    { intros m0. by rewrite simulcast_block_cases, Hs, Hr. }
    split; [done|].
    intros ice cand dtls sctp off ans opts type Htype Hkind x Hnew.
    unfold Answer.new in Hnew.
    assert (j_get "type" offer = Ok (JStr type)) as Hget.
    { destruct offer; try done. simpl in *. by rewrite Htype. }
    res_inv Hnew. rewrite Hget in Ha0. inversion Ha0; subst a0; clear Ha0.
    cbn [get_string] in Ha1. inversion Ha1; subst a1; clear Ha1.
    rewrite decide_True in Hnew by done.
    unfold Answer.media_branch in Hnew. res_inv Hnew.
    repeat match goal with
           | Hx : Answer.simulcast_block offer _ = Ok _ |- _ =>
               rewrite Hundef in Hx; discriminate Hx
           end.
  - intros Hnone. rewrite simulcast_block_cases.
    destruct (j_find "simulcast" offer) as [[]|]; try done. by destruct (Hnone o).
  - intros m' Hrun Hne. rewrite simulcast_block_cases in Hrun.
    destruct (j_find "simulcast" offer) as [[]|]; try (by inversion Hrun).
    destruct (j_find "rids" offer) as [[]|]; try (by inversion Hrun).
    by eexists _, _.
Qed.

Section SimulcastExamples.
#[local] Existing Instance ex_collaborators.

Lemma simulcast_block_reads_rids_witness :
  j_find "simulcast" ex_offer_no_rids
  = Some (JObj [("dir1", JStr "send"); ("list1", JStr "r0;r1")])
  ∧ j_find "rids" ex_offer_no_rids = None
  ∧ Answer.simulcast_block ex_offer_no_rids (JObj []) = Undef
  ∧ Answer.new ex_ice (JArr []) ex_dtls ex_sctp ex_offer_no_rids ex_video_rtp ex_video_rtp None
    = Undef.
Proof.
  split; [vm_compute; reflexivity|]. split; [vm_compute; reflexivity|].
  split; [|vm_compute; reflexivity].
  destruct (simulcast_block_reads_rids ex_offer_no_rids (JObj [])) as [Hread _].
  apply (Hread [("dir1", JStr "send"); ("list1", JStr "r0;r1")]);
    vm_compute; reflexivity.
Defined.

(** C10 as stated fails: an offer can contain "simulcast" and no "rids" and
    the constructor still completes, without reading the lookup of "rids",
    when "simulcast" is not an object.  With the object and the "rids" array
    the block is copied. *)
Lemma simulcast_not_object_counterexample :
  j_contains "simulcast" ex_offer_odd_simulcast = true
  ∧ j_contains "rids" ex_offer_odd_simulcast = false
  ∧ Answer.simulcast_block ex_offer_odd_simulcast (JObj []) = Ok (JObj [])
  ∧ (∃ m off ans,
       Answer.new ex_ice (JArr []) ex_dtls ex_sctp ex_offer_odd_simulcast
                  ex_video_rtp ex_video_rtp None = Ok (m, off, ans)
       ∧ j_find "simulcast" m = None ∧ j_find "rids" m = None)
  ∧ (∃ m off ans,
       Answer.new ex_ice (JArr []) ex_dtls ex_sctp ex_offer_simulcast
                  ex_video_rtp ex_video_rtp None = Ok (m, off, ans)
       ∧ j_find "simulcast" m
         = Some (JObj [("dir1", JStr "recv"); ("list1", JStr "r0;r1")])
       ∧ j_find "rids" m
         = Some (JArr [ JObj [("direction", JStr "recv"); ("id", JStr "r0")];
                        JObj [("direction", JStr "recv"); ("id", JStr "r1")] ])).
Proof.
  split; [vm_compute; reflexivity|]. split; [vm_compute; reflexivity|].
  split; [vm_compute; reflexivity|]. split.
  - eexists _, _, _. split; [vm_compute; reflexivity|]. split; vm_compute; reflexivity.
  - eexists _, _, _. split; [vm_compute; reflexivity|]. split; vm_compute; reflexivity.
Qed.

End SimulcastExamples.

(** ** Failed negotiations: what is kept and what is not *)


Section FailureExamples.
#[local] Existing Instance ex_collaborators.



Lemma Send_rolls_back_transceiver_witness :
  ∃ h1 h3 tr,
    Send_prepare ex_engine_no_offer ex_track (assign_rids None) ex_handler
    = SOk (mkIdx 0 "", 0%nat) h1
    ∧ Send_offer ex_engine_no_offer "audio" 0 h1 = SThrow (EngineError "CreateOffer") h1
    ∧ Send ex_engine_no_offer (Some ex_track) None None ex_handler
      = SThrow (EngineError "CreateOffer") h3
    ∧ mapMidTransceiver h3 = ∅
    ∧ pc_transceivers h3 !! 0%nat = Some tr
    ∧ tr_direction tr = kInactive ∧ tr_track tr = None.
Proof.
  set (h1 := default ex_handler
               (final (Send_prepare ex_engine_no_offer ex_track (assign_rids None)
                         ex_handler))).
  assert (Send_prepare ex_engine_no_offer ex_track (assign_rids None) ex_handler
          = SOk (mkIdx 0 "", 0%nat) h1) as Hprep by (vm_compute; reflexivity).
  assert (Send_offer ex_engine_no_offer (track_kind ex_track) 0 h1
          = SThrow (EngineError "CreateOffer") h1) as Hoffer by (vm_compute; reflexivity).
  destruct (Send_rolls_back_transceiver ex_engine_no_offer ex_track None None
              ex_handler h1 h1 (mkIdx 0 "") 0%nat (EngineError "CreateOffer") Hprep Hoffer)
    as (h3 & tr & Hsend & Hmap & _ & Htr & Hdir & Htrack).
  exists h1, h3, tr. split; [exact Hprep|]. split; [exact Hoffer|].
  split; [exact Hsend|]. split; [by rewrite Hmap|]. done.
Defined.


Lemma populate_encodings_three_cases_witness :
  getRtpEncodings ex_local_sdp = Ok (JArr [JObj [("ssrc", JInt 1111)]])
  ∧ ∃ o', populate_encodings (Some [ex_encoding (Some 500000)]) ex_local_sdp
          = Ok (JArr [JObj o'])
        ∧ Obj.find "ssrc" o' = Some (JInt 1111)
        ∧ Obj.find "maxBitrate" o' = Some (JInt 500000).
Proof.
  split; [reflexivity|].
  destruct (populate_encodings_three_cases (Some [ex_encoding (Some 500000)]) ex_local_sdp)
    as (_ & _ & _ & Hparticular).
  apply (Hparticular (ex_encoding (Some 500000)) [("ssrc", JInt 1111)] (JInt 1111));
    reflexivity.
Defined.

Lemma stamp_scalability_simulcast_witness :
  ∃ os',
    stamp_scalability "video/VP8" (JArr [JObj [("rid", JStr "r0")]; JObj [("rid", JStr "r1")]])
    = Ok (JArr (JObj <$> os'))
    ∧ Forall2 stamped [[("rid", JStr "r0")]; [("rid", JStr "r1")]] os'.
Proof.
  destruct (stamp_scalability_simulcast "video/VP8"
              (JArr [JObj [("rid", JStr "r0")]; JObj [("rid", JStr "r1")]])) as [Hstamp _].
  apply (Hstamp [[("rid", JStr "r0")]; [("rid", JStr "r1")]]).
  - reflexivity.
  - simpl. lia.
  - left. vm_compute; reflexivity.
Defined.

End FailureExamples.

Lemma GetNextMediaSectionIdx_lowest_closed_witness :
  Forall section_wf (mediaSections ex_doc3)
  ∧ Sdp.GetNextMediaSectionIdx ex_doc3 = Ok (mkIdx 1 "b")
  ∧ Sdp.GetNextMediaSectionIdx ex_doc2 = Ok (mkIdx 2 "").
Proof.
  assert (Forall section_wf (mediaSections ex_doc3)) as Hwf.
  { repeat constructor; eexists _, _, _; repeat split; vm_compute; reflexivity. }
  split; [exact Hwf|]. split; [|vm_compute; reflexivity].
  destruct (GetNextMediaSectionIdx_lowest_closed ex_doc3 Hwf) as (i & mid & Hrun & _).
  rewrite Hrun. vm_compute in Hrun. congruence.
Defined.

(** ** The encodings in the result of a successful [Send] *)

Lemma j_ref_find k j v j' :
  j_ref k j = Ok (v, j') →
  j_find k j' = Some v ∧ (∀ k2, k2 ≠ k → j_find k2 j' = j_find k2 j)
  ∧ (∀ x, j_find k j = Some x → v = x) ∧ (j_find k j = None → v = JNull).
Proof.
  destruct j as [| | | | | |o]; try done; cbn [j_ref].
  - intros [= <- <-]. cbn. rewrite String.eqb_refl. split; [done|]. split; [|done].
    intros k2 Hk2. by destruct (String.eqb_spec k2 k).
  - destruct (Obj.find k o) as [x|] eqn:Hx; intros [= <- <-]; cbn [j_find].
    + split; [done|]. split; [done|]. split; [|congruence].
      intros x0 Hx0. congruence.
    + split; [by find_simpl|]. split; [|split; [intros x0 Hx0; congruence|done]].
      intros k2 Hk2. by find_simpl.
Qed.

Lemma j_set_find k v j j' :
  j_set k v j = Ok j' →
  j_find k j' = Some v ∧ (∀ k2, k2 ≠ k → j_find k2 j' = j_find k2 j).
Proof.
  destruct j as [| | | | | |o]; try done; cbn [j_set]; intros [= <-]; cbn [j_find].
  - cbn. rewrite String.eqb_refl. split; [done|].
    intros k2 Hk2. by destruct (String.eqb_spec k2 k).
  - split; [by find_simpl|]. intros k2 Hk2. by find_simpl.
Qed.

Lemma j_upd_find k f j j' :
  j_upd k f j = Ok j' →
  ∃ v v', f v = Ok v' ∧ j_find k j' = Some v'
          ∧ (∀ x, j_find k j = Some x → v = x)
          ∧ (j_find k j = None → v = JNull)
          ∧ (∀ k2, k2 ≠ k → j_find k2 j' = j_find k2 j).
Proof.
  unfold j_upd. intros Hupd. res_inv Hupd.
  apply j_ref_find in Ha as (Hv & Hother & Hsame & Hnone).
  apply j_set_find in Hupd as (Hv' & Hother').
  exists j0, a. split; [done|]. split; [done|]. split; [done|]. split; [done|].
  intros k2 Hk2. by rewrite Hother', Hother.
Qed.

(** Writing [j[k][f] = v] and reading it back. *)
Lemma path_set_entry k f v j j' :
  j_path_set [Key k; Key f] v j = Ok j' →
  entry k f j' = Some v ∧ (∀ f2, f2 ≠ f → entry k f2 j' = entry k f2 j).
Proof.
  cbn [j_path_set]. intros Hset.
  apply j_upd_find in Hset as (p & p' & Hp & Hk & Hsame & Hnone & _).
  apply j_upd_find in Hp as (x & x' & [= <-] & Hf & _ & _ & Hother).
  unfold entry. rewrite Hk. split; [done|]. intros f2 Hf2. rewrite Hother by done.
  destruct (j_find k j) as [p0|] eqn:Hp0.
  - by rewrite (Hsame p0).
  - by rewrite Hnone.
Qed.

Lemma path_set_entry3 k f g v j j' f2 :
  j_path_set [Key k; Key f; Key g] v j = Ok j' → f2 ≠ f →
  entry k f2 j' = entry k f2 j.
Proof.
  cbn [j_path_set]. intros Hset Hf2.
  apply j_upd_find in Hset as (p & p' & Hp & Hk & Hsame & Hnone & _).
  apply j_upd_find in Hp as (x & x' & _ & _ & _ & _ & Hother).
  unfold entry. rewrite Hk, Hother by done.
  destruct (j_find k j) as [p0|] eqn:Hp0.
  - by rewrite (Hsame p0).
  - by rewrite Hnone.
Qed.

Lemma path_ref_key k rest j x j' :
  j_path_ref (Key k :: rest) j = Ok (x, j') →
  ∃ p p1 p', j_ref k j = Ok (p, p1) ∧ j_path_ref rest p = Ok (x, p')
             ∧ j_set k p' p1 = Ok j'.
Proof.
  cbn [j_path_ref]. intros Href.
  apply res_bind_inv in Href as ([p p1] & H1 & Href).
  apply res_bind_inv in Href as ([x' p'] & H2 & Href).
  apply res_bind_inv in Href as (j2 & H3 & Href).
  inversion Href; subst. by eexists _, _, _.
Qed.

(** A read below [j[k][g]] leaves the other members of [j[k]] alone. *)
Lemma path_ref_entry k g rest j v j' f2 :
  j_path_ref (Key k :: Key g :: rest) j = Ok (v, j') →
  f2 ≠ g → entry k f2 j' = entry k f2 j.
Proof.
  intros Href Hf2.
  apply path_ref_key in Href as (p & p1 & p' & Hk & Href & Hset).
  apply path_ref_key in Href as (c & c1 & c' & Hg & _ & Hsetg).
  apply j_ref_find in Hk as (_ & _ & Hsame & Hnone).
  apply j_set_find in Hset as (Hk' & _).
  apply j_ref_find in Hg as (_ & Hother & _).
  apply j_set_find in Hsetg as (_ & Hother').
  unfold entry. rewrite Hk', Hother', Hother by done.
  destruct (j_find k j) as [p0|] eqn:Hp0.
  - by rewrite (Hsame p0).
  - by rewrite Hnone.
Qed.

(** The reference [j[k]] itself. *)
Lemma path_ref_top k j v j' :
  j_path_ref [Key k] j = Ok (v, j') →
  j_find k j' = Some v ∧ (∀ f, j_find f v = entry k f j).
Proof.
  intros Href.
  apply path_ref_key in Href as (p & p1 & p' & Hk & Href & Hset).
  cbn [j_path_ref] in Href. inversion Href; subst; clear Href.
  apply j_ref_find in Hk as (_ & _ & Hsame & Hnone).
  apply j_set_find in Hset as (Hk' & _).
  split; [done|]. intros f. unfold entry.
  destruct (j_find k j) as [p0|] eqn:Hp0.
  - by rewrite (Hsame p0).
  - by rewrite Hnone.
Qed.

Section ForRel.
Context {A : Type} (R : A → A → Prop) (body : A → json → res (A * json)).
  Hypothesis R_refl : ∀ a, R a a.
  Hypothesis R_trans : ∀ a b c, R a b → R b c → R a c.
  Hypothesis body_rel : ∀ acc x acc' x', body acc x = Ok (acc', x') → R acc acc'.

Lemma for_list_rel l : ∀ acc acc' l',
    for_list body acc l = Ok (acc', l') → R acc acc'.
  Proof using R_refl R_trans body_rel.
    induction l as [|x l IH]; intros acc acc' l' Hfor; cbn [for_list] in Hfor.
    - inversion Hfor; subst. apply R_refl.
    - apply res_bind_inv in Hfor as ([acc1 x'] & Hbody & Hfor).
      apply res_bind_inv in Hfor as ([acc2 l''] & Hrest & Hfor).
      inversion Hfor; subst. eapply R_trans; [by eapply body_rel|by eapply IH].
  Qed.

Lemma for_members_rel o : ∀ acc acc' o',
    for_members body acc o = Ok (acc', o') → R acc acc'.
  Proof using R_refl R_trans body_rel.
    induction o as [|[k x] o IH]; intros acc acc' o' Hfor; cbn [for_members] in Hfor.
    - inversion Hfor; subst. apply R_refl.
    - apply res_bind_inv in Hfor as ([acc1 x'] & Hbody & Hfor).
      apply res_bind_inv in Hfor as ([acc2 o''] & Hrest & Hfor).
      inversion Hfor; subst. eapply R_trans; [by eapply body_rel|by eapply IH].
  Qed.

Lemma j_for_rel j acc acc' j' : j_for body acc j = Ok (acc', j') → R acc acc'.
  Proof using R_refl R_trans body_rel.
    destruct j; cbn [j_for]; try (by apply body_rel).
    - intros [= <- <-]. apply R_refl.
    - intros Hfor. apply res_bind_inv in Hfor as ([acc1 l'] & Hfor & [= <- <-]).
      by eapply for_list_rel.
    - intros Hfor. apply res_bind_inv in Hfor as ([acc1 o'] & Hfor & [= <- <-]).
      by eapply for_members_rel.
  Qed.
End ForRel.

Section AnswerFrame.
Context `{Collaborators}.

Lemma codec_options_frame opts payloadType cp codec off cp' codec' off' :
    Answer.codec_options opts payloadType cp codec off = Ok (cp', codec', off') →
    same_but_codecs off off'.
  Proof.
    unfold Answer.codec_options. intros Hrun.
    apply res_bind_inv in Hrun as ([offerCodecs off1] & Href & Hrun).
    apply j_ref_find in Href as (_ & Hother & _).
    res_inv Hrun. inversion Hrun; subst; clear Hrun.
    match goal with
    | Hset : j_set "codecs" _ off1 = Ok _ |- _ =>
        apply j_set_find in Hset as (_ & Hother')
    end.
    intros k Hk. by rewrite Hother', Hother.
  Qed.

Lemma codec_body_frame opts m off codec m' off' codec' :
    Answer.codec_body opts (m, off) codec = Ok ((m', off'), codec') →
    same_but_codecs off off'.
  Proof.
    unfold Answer.codec_body. intros Hrun. res_inv Hrun.
    inversion Hrun; subst; clear Hrun.
    match goal with
    | Hopt : match opts with Some _ => _ | None => _ end = Ok (_, _, off') |- _ =>
        destruct opts as [o|]; [destruct (j_empty o)|];
        try (inversion Hopt; subst; by intros k Hk);
        by eapply codec_options_frame
    end.
  Qed.

Lemma Answer_new_frame ice cand dtls sctp offer off ans opts m off' ans' :
    Answer.new ice cand dtls sctp offer off ans opts = Ok (m, off', ans') →
    same_but_codecs off off'.
  Proof.
    unfold Answer.new. intros Hrun. res_inv Hrun.
    repeat case_decide.
    - unfold Answer.media_branch in Hrun. res_inv Hrun.
      inversion Hrun; subst; clear Hrun.
      match goal with
      | Hfor : j_for (Answer.codec_body opts) (_, off) _ = Ok ((_, off'), _) |- _ =>
          apply (j_for_rel (fun st st' => same_but_codecs (snd st) (snd st'))) in Hfor;
          [exact Hfor|by intros [] k Hk| |]
      end.
      + intros [] [] [] H1 H2 k Hk. cbn in *. by rewrite H2, H1.
      + intros [m1 off1] x [m2 off2] x' Hbody. by eapply codec_body_frame.
    - res_inv Hrun. inversion Hrun; subst. by intros k Hk.
    - inversion Hrun; subst. by intros k Hk.
  Qed.
End AnswerFrame.

(** Case analysis on the next fallible step of a computation known to
    return. *)
Ltac mcase H :=
  mrun in H;
  match type of H with
  | context [lift ?x _] =>
      let Hx := fresh "Hstep" in
      destruct x eqn:Hx; mrun in H; try discriminate H
  end;
  repeat match goal with p : (_ * _)%type |- _ => destruct p end;
  cbv beta iota in H.

Section SendResult.
Context `{Collaborators} (E : Engine).

Lemma Send_parameters_encodings kind i encodings h offer h' :
    Send_parameters E kind i encodings h = SOk offer h' →
    ∃ newEncodings mt mimeType stamped,
      populate_encodings encodings offer = Ok newEncodings
      ∧ get_string mt = Ok mimeType
      ∧ stamp_scalability mimeType newEncodings = Ok stamped
      ∧ entry kind "encodings" (sendingRtpParametersByKind h') = Some stamped.
  Proof.
    unfold Send_parameters, upd_sending, ref_sending. intros Hrun.
    do 9 mcase Hrun.
    inversion Hrun; subst; clear Hrun. cbn [sendingRtpParametersByKind
      set_sendingRtpParametersByKind].
    eexists _, _, _, _. split; [done|]. split; [done|]. split; [done|].
    match goal with
    | Hset : j_path_set [Key kind; Key "encodings"] _ _ = Ok ?j |- entry _ _ ?j = _ =>
        by apply path_set_entry in Hset as [? _]
    end.
  Qed.

Lemma zoom_inv {S T A} (proj : S → T) (inj : T → S → S) (m : M T A) s a s' :
    zoom proj inj m s = SOk a s' → ∃ t, m (proj s) = SOk a t ∧ s' = inj t s.
  Proof.
    unfold zoom. destruct (m (proj s)) as [a' t| |]; [|done..].
    intros [= <- <-]. by eexists.
  Qed.

Lemma Send_answer_encodings kind i offer opts h h' :
    Send_answer E kind i offer opts h = SOk tt h' →
    ∃ off, j_find kind (sendingRtpParametersByKind h') = Some off
           ∧ j_find "encodings" off = entry kind "encodings" (sendingRtpParametersByKind h).
  Proof.
    unfold Send_answer, ref_sending, ref_sending_remote, upd_sending, upd_sending_remote,
      on_remoteSdp.
    intros Hrun. do 2 mcase Hrun. mrun in Hrun.
    destruct (zoom remoteSdp set_remoteSdp (CreateAnswer _ _ _ _ _) _)
      as [[off ans] h1| |] eqn:Hzoom; [|done..].
    apply zoom_inv in Hzoom as (r1 & Hcreate & ->).
    unfold CreateAnswer in Hcreate. mrun in Hcreate.
    destruct (Answer.new _ _ _ _ _ _ _ _) as [[[m off'] ans']| |] eqn:Hnew;
      mrun in Hcreate; [|done..].
    destruct (Sdp.commit_answer _ _ _) as [[] r2| |]; mrun in Hcreate; [|done..].
    inversion Hcreate; subst; clear Hcreate.
    apply Answer_new_frame in Hnew.
    do 2 mcase Hrun. mrun in Hrun.
    destruct (zoom remoteSdp set_remoteSdp Sdp.GetSdp _) as [sdp h2| |] eqn:Hzoom; [|done..].
    apply zoom_inv in Hzoom as (r3 & _ & ->).
    destruct (e_setRemoteDescription E) as [[]| |]; cbn [lift] in Hrun; [|done..].
    inversion Hrun; subst; clear Hrun.
    cbn [sendingRtpParametersByKind set_remoteSdp set_sendingRtpParametersByKind
         set_sendingRemoteRtpParametersByKind] in *.
    match goal with
    | Href : j_path_ref [Key kind] (sendingRtpParametersByKind h) = Ok _,
      Hset : j_set kind off _ = Ok _ |- _ =>
        apply path_ref_top in Href as (_ & Hentry);
        apply j_set_find in Hset as (Hk & _)
    end.
    exists off. split; [done|].
    etrans; [by apply Hnew | apply Hentry].
  Qed.

  (** In a [Send] that returns, the encodings of the RTP parameters it
      returns are those [populate_encodings] built from the caller's
      encodings (with their rids assigned) and the offer, as
      [stamp_scalability] left them. *)
Lemma Send_result_encodings track encodings opts h result h' :
    Send E (Some track) encodings opts h = SOk result h' →
    ∃ offerMediaObject newEncodings mimeType stamped,
      populate_encodings (assign_rids encodings) offerMediaObject = Ok newEncodings
      ∧ stamp_scalability mimeType newEncodings = Ok stamped
      ∧ j_find "encodings" (send_rtpParameters result) = Some stamped.
  Proof.
    unfold Send. intros Hrun.
    apply bind_inv in Hrun as ([[i t] localId] & h1 & _ & Hrun).
    apply bind_inv in Hrun as (offer & h2 & Hparams & Hrun).
    apply bind_inv in Hrun as ([] & h3 & Hanswer & Hrun).
    apply Send_parameters_encodings in Hparams
      as (newEncodings & mt & mimeType & stamped & Hpop & _ & Hstamp & Hentry).
    apply Send_answer_encodings in Hanswer as (off & Hoff & Henc).
    unfold Send_commit in Hrun. mrun in Hrun. inversion Hrun; subst; clear Hrun.
    cbn [send_rtpParameters sendingRtpParametersByKind set_mapMidTransceiver].
    exists offer, newEncodings, mimeType, stamped.
    split; [done|]. split; [done|]. rewrite Hoff.
    change (default JNull (Some off)) with off. by rewrite Henc.
  Qed.
End SendResult.

Section SendResultExample.
#[local] Existing Instance ex_collaborators.

  (** A [Send] that returns, with one encoding given by the caller. *)
Lemma Send_result_encodings_example :
    ∃ result h',
      Send ex_engine (Some ex_track) (Some [ex_encoding (Some 64000)]) None ex_handler
      = SOk result h'
      ∧ j_find "encodings" (send_rtpParameters result)
        = Some (JArr [JObj [("active", JBool true); ("maxBitrate", JInt 64000);
                            ("networkPriority", JInt 1); ("ssrc", JInt 1111)]])
      ∧ mapMidTransceiver h' !! "0" = Some 0%nat.
  Proof. eexists _, _. split; [vm_compute; reflexivity|]. split; vm_compute; reflexivity. Qed.
End SendResultExample.

(** ** The registry of sections: what each operation writes *)

Lemma media_of_other k sdp sdp' :
  (∀ k2, k2 ≠ k → j_find k2 sdp' = j_find k2 sdp) → k ≠ "media" →
  media_of sdp' = media_of sdp.
Proof. intros H Hk. unfold media_of. by rewrite H. Qed.

Lemma upd_sdpObject_inv f r r' :
  Sdp.upd_sdpObject f r = SOk tt r' →
  ∃ sdp', f (sdpObject r) = Ok sdp' ∧ r' = set_sdpObject sdp' r.
Proof.
  unfold Sdp.upd_sdpObject. mrun. destruct (f _); mrun; [|done..].
  intros [= <-]. eauto.
Qed.

Lemma RegenerateBundleMids_exact r r' :
  Sdp.RegenerateBundleMids r = SOk tt r' →
  ∃ sdp', r' = set_sdpObject sdp' r
    ∧ ∀ k, k ≠ "groups" → j_find k sdp' = j_find k (sdpObject r).
Proof.
  unfold Sdp.RegenerateBundleMids. mrun.
  destruct (Sdp.bundle_mids _ _) as [mids| |]; mrun; [|done..].
  intros H. apply upd_sdpObject_inv in H as (sdp' & Hupd & ->).
  apply j_upd_find in Hupd as (? & ? & _ & _ & _ & _ & Hother). eauto.
Qed.

Lemma index_of_exact mid r :
  Sdp.index_of mid r
  = SOk (default 0%nat (midToIndex r !! mid))
        (set_midToIndex (map_read mid (midToIndex r)) r).
Proof.
  unfold Sdp.index_of, map_read. mrun.
  destruct (midToIndex r !! mid); mrun; [by destruct r|done].
Qed.

(** The media array after [sdpObject["media"] := f (sdpObject["media"])]. *)
Lemma upd_media_exact f sdp sdp' l :
  j_upd "media" f sdp = Ok sdp' → media_of sdp = Some l →
  ∃ v, f (JArr l) = Ok v ∧ j_find "media" sdp' = Some v
       ∧ ∀ k, k ≠ "media" → j_find k sdp' = j_find k sdp.
Proof.
  intros Hupd Hl. apply j_upd_find in Hupd as (v & v' & Hf & Hk & Hsame & _ & Hother).
  unfold media_of in Hl. destruct (j_find "media" sdp) as [[]|] eqn:Hm; try done.
  inversion Hl; subst. rewrite (Hsame _ eq_refl) in Hf. eauto.
Qed.

Lemma AddMediaSection_exact ms r r' :
  Sdp.AddMediaSection ms r = SOk tt r' →
  ∃ mid sdp',
    Section.GetMid ms = Ok mid
    ∧ r' = mkRemoteSdp (iceParameters r) (iceCandidates r) (dtlsParameters r)
             (sctpParameters r) (mediaSections r ++ [ms])
             (if decide (firstMid r = "") then mid else firstMid r)
             (<[mid := length (mediaSections r)]> (midToIndex r)) sdp'
    ∧ (∀ l, media_of (sdpObject r) = Some l →
            media_of sdp' = Some (l ++ [mediaObject ms])%list)
    ∧ (∀ k, k ≠ "media" → k ≠ "groups" → j_find k sdp' = j_find k (sdpObject r)).
Proof.
  unfold Sdp.AddMediaSection. intros H.
  rewrite run_bind in H. cbn [get_st] in H. rewrite run_bind in H.
  destruct (Section.GetMid ms) as [mid| |] eqn:Hmid;
    [|case_decide; mrun in H; done..].
  assert ((if decide (firstMid r = "")
           then mid ← lift (Ok mid); modify (set_firstMid mid)
           else mret tt) r
          = SOk tt (set_firstMid (if decide (firstMid r = "") then mid else firstMid r) r))
    as Hfm.
  { case_decide; mrun; [done|]. by destruct r. }
  rewrite Hfm in H. mrun in H.
  destruct (Sdp.upd_sdpObject _ _) as [[] r1| |] eqn:Hupd; [|done..].
  apply upd_sdpObject_inv in Hupd as (sdp1 & Hpush & ->). mrun in Hpush.
  apply RegenerateBundleMids_exact in H as (sdp' & -> & Hgroups). mrun in Hgroups.
  exists mid, sdp'. split; [done|]. split.
  - unfold set_sdpObject. mrun. rewrite length_app. cbn [length].
    by replace (length (mediaSections r) + 1 - 1)%nat with (length (mediaSections r)) by lia.
  - split.
    + intros l Hl. unfold j_push_at in Hpush.
      apply (upd_media_exact _ _ _ l) in Hpush as (v & Hv & Hk & _); [|done].
      cbn [j_push_back] in Hv. inversion Hv; subst v.
      unfold media_of. rewrite Hgroups by done. by rewrite Hk.
    + intros k Hk1 Hk2. rewrite Hgroups by done.
      unfold j_push_at in Hpush. apply j_upd_find in Hpush as (? & ? & _ & _ & _ & _ & Ho).
      by apply Ho.
Qed.

Lemma store_media_exact i v sdp sdp' l :
  j_upd "media" (j_set_idx i v) sdp = Ok sdp' → media_of sdp = Some l →
  media_of sdp' = Some (arr_set i v l)
  ∧ ∀ k, k ≠ "media" → j_find k sdp' = j_find k sdp.
Proof.
  intros Hupd Hl. apply (upd_media_exact _ _ _ l) in Hupd as (x & Hx & Hk & Ho); [|done].
  cbn [j_set_idx] in Hx. inversion Hx; subst x. unfold media_of. by rewrite Hk.
Qed.

Lemma arr_set_insert i (v : json) (l : list json) :
  (i < length l)%nat → arr_set i v l = <[i := v]> l.
Proof. intros Hi. unfold arr_set. by rewrite decide_True. Qed.

Lemma ReplaceMediaSection_exact ms reuseMid r r' :
  reuseMid ≠ "" →
  Sdp.ReplaceMediaSection ms reuseMid r = SOk tt r' →
  ∃ old oldMid newMid sdp',
    mediaSections r !! default 0%nat (midToIndex r !! reuseMid) = Some old
    ∧ Section.GetMid old = Ok oldMid ∧ Section.GetMid ms = Ok newMid
    ∧ r' = mkRemoteSdp (iceParameters r) (iceCandidates r) (dtlsParameters r)
             (sctpParameters r)
             (<[default 0%nat (midToIndex r !! reuseMid) := ms]> (mediaSections r))
             (firstMid r)
             (<[newMid := default 0%nat (midToIndex r !! reuseMid)]>
                (delete oldMid (map_read reuseMid (midToIndex r)))) sdp'
    ∧ (∀ l, media_of (sdpObject r) = Some l →
            media_of sdp'
            = Some (arr_set (default 0%nat (midToIndex r !! reuseMid)) (mediaObject ms) l))
    ∧ (∀ k, k ≠ "media" → k ≠ "groups" → j_find k sdp' = j_find k (sdpObject r)).
Proof.
  intros Hne H. unfold Sdp.ReplaceMediaSection in H. rewrite decide_True in H by done.
  rewrite run_bind, index_of_exact in H. rewrite run_bind in H.
  destruct (Sdp.section_at _ _) as [old r1| |] eqn:Hat; try done.
  apply section_at_inv in Hat as [Hold ->]. mrun in Hold.
  unfold Sdp.store_section in H. mrun in H.
  destruct (Section.GetMid old) as [oldMid| |] eqn:Holdmid; try done. mrun in H.
  destruct (Section.GetMid ms) as [newMid| |] eqn:Hmid; try done. mrun in H.
  destruct (Sdp.upd_sdpObject _ _) as [[] r1| |] eqn:Hupd; [|done..].
  apply upd_sdpObject_inv in Hupd as (sdp1 & Hstore & ->). mrun in Hstore.
  apply RegenerateBundleMids_exact in H as (sdp' & -> & Hgroups). mrun in Hgroups.
  exists old, oldMid, newMid, sdp'. do 3 (split; [done|]). split; [done|]. split.
  - intros l Hl. apply (store_media_exact _ _ _ _ l) in Hstore as [Hm _]; [|done].
    by rewrite (media_of_other "groups" sdp1).
  - intros k Hk1 Hk2. rewrite Hgroups by done.
    apply j_upd_find in Hstore as (? & ? & _ & _ & _ & _ & Ho). by apply Ho.
Qed.

Lemma CloseMediaSection_exact mid r r' :
  Sdp.CloseMediaSection mid r = SOk tt r' →
  ∃ ms ms' sdp',
    mediaSections r !! default 0%nat (midToIndex r !! mid) = Some ms
    ∧ (if decide (mid = firstMid r)
       then Section.apply Section.Disable ms
       else Section.apply Section.Close ms) = Ok ms'
    ∧ r' = mkRemoteSdp (iceParameters r) (iceCandidates r) (dtlsParameters r)
             (sctpParameters r)
             (<[default 0%nat (midToIndex r !! mid) := ms']> (mediaSections r))
             (firstMid r) (map_read mid (midToIndex r)) sdp'
    ∧ (∀ l, media_of (sdpObject r) = Some l →
            media_of sdp'
            = Some (arr_set (default 0%nat (midToIndex r !! mid)) (mediaObject ms') l))
    ∧ (∀ k, k ≠ "media" → k ≠ "groups" → j_find k sdp' = j_find k (sdpObject r)).
Proof.
  intros H. unfold Sdp.CloseMediaSection in H.
  rewrite run_bind, index_of_exact in H. rewrite run_bind in H.
  destruct (Sdp.section_at _ _) as [ms r1| |] eqn:Hat; try done.
  apply section_at_inv in Hat as [Hms ->]. mrun in Hms. mrun in H.
  destruct (if decide (mid = firstMid r) then _ else _) as [ms'| |] eqn:Happ;
    mrun in H; try done.
  unfold Sdp.store_section in H. mrun in H.
  destruct (Sdp.upd_sdpObject _ _) as [[] r1| |] eqn:Hupd; [|done..].
  apply upd_sdpObject_inv in Hupd as (sdp1 & Hstore & ->). mrun in Hstore.
  apply RegenerateBundleMids_exact in H as (sdp' & -> & Hgroups). mrun in Hgroups.
  exists ms, ms', sdp'. do 2 (split; [done|]). split; [done|]. split.
  - intros l Hl. apply (store_media_exact _ _ _ _ l) in Hstore as [Hm _]; [|done].
    by rewrite (media_of_other "groups" sdp1).
  - intros k Hk1 Hk2. rewrite Hgroups by done.
    apply j_upd_find in Hstore as (? & ? & _ & _ & _ & _ & Ho). by apply Ho.
Qed.

Lemma DisableMediaSection_exact mid r r' :
  Sdp.DisableMediaSection mid r = SOk tt r' →
  ∃ ms ms',
    mediaSections r !! default 0%nat (midToIndex r !! mid) = Some ms
    ∧ Section.apply Section.Disable ms = Ok ms'
    ∧ r' = mkRemoteSdp (iceParameters r) (iceCandidates r) (dtlsParameters r)
             (sctpParameters r)
             (<[default 0%nat (midToIndex r !! mid) := ms']> (mediaSections r))
             (firstMid r) (map_read mid (midToIndex r)) (sdpObject r).
Proof.
  intros H. unfold Sdp.DisableMediaSection in H.
  rewrite run_bind, index_of_exact in H. rewrite run_bind in H.
  destruct (Sdp.section_at _ _) as [ms r1| |] eqn:Hat; try done.
  apply section_at_inv in Hat as [Hms ->]. mrun in Hms. mrun in H.
  destruct (Section.apply Section.Disable ms) as [ms'| |] eqn:Happ; mrun in H; try done.
  unfold Sdp.store_section in H. mrun in H. inversion H; subst r'; clear H.
  by exists ms, ms'.
Qed.

Lemma GetSdp_exact r sdp r' :
  Sdp.GetSdp r = SOk sdp r' →
  r' = set_sdpObject sdp r
  ∧ ∀ k, k ≠ "origin" → j_find k sdp = j_find k (sdpObject r).
Proof.
  unfold Sdp.GetSdp. intros H. mrun in H.
  destruct (j_ref "origin" (sdpObject r)) as [[origin o]| |] eqn:Ho; mrun in H; try done.
  destruct (j_ref "sessionVersion" origin) as [[sv origin']| |]; mrun in H; try done.
  destruct (get_uint 32 sv) as [v| |]; mrun in H; try done.
  destruct (j_set "sessionVersion" _ origin') as [origin''| |]; mrun in H; try done.
  destruct (j_set "origin" origin'' o) as [o'| |] eqn:Hset; mrun in H; try done.
  inversion H; subst. split; [done|]. intros k Hk.
  apply j_ref_find in Ho as (_ & Hother & _).
  apply j_set_find in Hset as (_ & Hother').
  by rewrite Hother', Hother.
Qed.

(** The loop of [UpdateIceParameters] and [UpdateDtlsRole] on the sections
    [i], ..., [i + n - 1], on a document with one media entry for each
    section. *)
Lemma update_sections_exact f n : ∀ i r r' l,
  media_of (sdpObject r) = Some l → length l = length (mediaSections r) →
  Sdp.update_sections f n i r = SOk tt r' →
  ∃ secs l' sdp',
    r' = mkRemoteSdp (iceParameters r) (iceCandidates r) (dtlsParameters r)
           (sctpParameters r) secs (firstMid r) (midToIndex r) sdp'
    ∧ media_of sdp' = Some l'
    ∧ length secs = length (mediaSections r) ∧ length l' = length l
    ∧ (∀ j, (i ≤ j < i + n)%nat →
         ∃ ms ms', mediaSections r !! j = Some ms ∧ f ms = Ok ms'
                   ∧ secs !! j = Some ms' ∧ l' !! j = Some (mediaObject ms'))
    ∧ (∀ j, ¬ (i ≤ j < i + n)%nat →
         secs !! j = mediaSections r !! j ∧ l' !! j = l !! j)
    ∧ (∀ k, k ≠ "media" → j_find k sdp' = j_find k (sdpObject r)).
Proof.
  induction n as [|n IH]; intros i r r' l Hl Hlen H.
  - simpl in H. mrun in H. inversion H; subst r'; clear H.
    exists (mediaSections r), l, (sdpObject r). split; [by destruct r|].
    do 3 (split; [done|]). split; [intros j Hj; lia|]. done.
  - simpl in H. mrun in H.
    destruct (Sdp.section_at i r) as [ms r1| |] eqn:Hat; try done.
    apply section_at_inv in Hat as [Hms ->].
    destruct (f ms) as [ms'| |] eqn:Hfms; mrun in H; try done.
    unfold Sdp.store_section in H. mrun in H.
    destruct (Sdp.upd_sdpObject _ _) as [[] r1| |] eqn:Hupd; [|done..].
    apply upd_sdpObject_inv in Hupd as (sdp1 & Hstore & ->). mrun in Hstore.
    apply (store_media_exact _ _ _ _ l) in Hstore as [Hm1 Ho1]; [|done].
    assert (i < length l)%nat as Hi by (rewrite Hlen; by eapply lookup_lt_Some).
    rewrite arr_set_insert in Hm1 by done.
    apply (IH _ _ _ (<[i := Section.GetObject ms']> l)) in H
      as (secs & l' & sdp' & -> & Hm' & Hlsecs & Hll & Hin & Hout & Ho); mrun;
      [|done|by rewrite !length_insert].
    mrun in Hlsecs. mrun in Hin. mrun in Hout. mrun in Ho.
    rewrite length_insert in Hlsecs. rewrite length_insert in Hll.
    exists secs, l', sdp'. split; [done|]. do 3 (split; [done|]). split; [|split].
    + intros j Hj. destruct (decide (j = i)) as [->|Hne].
      * destruct (Hout i) as [Hs Hl']; [lia|].
        exists ms, ms'. split; [done|]. split; [done|].
        rewrite Hs, Hl'. rewrite !list_lookup_insert_eq by (done || by eapply lookup_lt_Some).
        done.
      * destruct (Hin j) as (msj & msj' & Hj1 & Hj2 & Hj3 & Hj4); [lia|].
        rewrite list_lookup_insert_ne in Hj1 by done. by exists msj, msj'.
    + intros j Hj. destruct (Hout j) as [Hs Hl']; [lia|].
      rewrite Hs, Hl'. rewrite !list_lookup_insert_ne by lia. done.
    + intros k Hk. by rewrite Ho, Ho1.
Qed.

(** The optional "icelite" line of [UpdateIceParameters], [UpdateDtlsRole]. *)
Lemma icelite_exact ice r r' :
  (match j_find "iceLite" ice with
   | Some _ => Sdp.upd_sdpObject (j_set "icelite" (JStr "ice-lite"))
   | None => mret tt
   end) r = SOk tt r' →
  ∃ sdp', r' = set_sdpObject sdp' r
    ∧ (∀ k, k ≠ "icelite" → j_find k sdp' = j_find k (sdpObject r))
    ∧ j_find "icelite" sdp'
      = (if j_contains "iceLite" ice then Some (JStr "ice-lite")
         else j_find "icelite" (sdpObject r)).
Proof.
  unfold j_contains. destruct (j_find "iceLite" ice) as [v|].
  - intros H. apply upd_sdpObject_inv in H as (sdp' & Hset & ->).
    apply j_set_find in Hset as [Hk Ho]. eauto.
  - mrun. intros [= <-]. exists (sdpObject r). split; [by destruct r|done].
Qed.

Lemma UpdateIceParameters_exact ice r r' l :
  media_of (sdpObject r) = Some l → length l = length (mediaSections r) →
  Sdp.UpdateIceParameters ice r = SOk tt r' →
  ∃ secs l' sdp',
    r' = mkRemoteSdp ice (iceCandidates r) (dtlsParameters r) (sctpParameters r)
           secs (firstMid r) (midToIndex r) sdp'
    ∧ media_of sdp' = Some l'
    ∧ length secs = length (mediaSections r) ∧ length l' = length l
    ∧ (∀ j ms, mediaSections r !! j = Some ms →
         ∃ ms', Section.apply (Section.SetIceParameters ice) ms = Ok ms'
                ∧ secs !! j = Some ms' ∧ l' !! j = Some (mediaObject ms'))
    ∧ (∀ k, k ≠ "media" → k ≠ "icelite" → j_find k sdp' = j_find k (sdpObject r))
    ∧ j_find "icelite" sdp'
      = (if j_contains "iceLite" ice then Some (JStr "ice-lite")
         else j_find "icelite" (sdpObject r)).
Proof.
  intros Hl Hlen H. unfold Sdp.UpdateIceParameters in H. mrun in H.
  destruct ((match j_find "iceLite" ice with
             | Some _ => Sdp.upd_sdpObject (j_set "icelite" (JStr "ice-lite"))
             | None => mret tt
             end) (set_iceParameters ice r)) as [[] r1| |] eqn:Hlite; [|done..].
  apply icelite_exact in Hlite as (sdp1 & -> & Ho1 & Hlite). mrun in Ho1. mrun in Hlite.
  mrun in H.
  apply (update_sections_exact _ _ _ _ _ l) in H
    as (secs & l' & sdp' & -> & Hm' & Hlsecs & Hll & Hin & _ & Ho); mrun;
    [|by rewrite (media_of_other "icelite" (sdpObject r) sdp1)|done].
  mrun in Hlsecs. mrun in Hin. mrun in Ho.
  exists secs, l', sdp'. split; [done|]. do 3 (split; [done|]). split; [|split].
  - intros j ms Hms. destruct (Hin j) as (ms0 & ms' & Hj1 & Hj2 & Hj3 & Hj4).
    { split; [lia|]. apply lookup_lt_Some in Hms. lia. }
    rewrite Hms in Hj1. inversion Hj1; subst ms0. by exists ms'.
  - intros k Hk1 Hk2. by rewrite Ho, Ho1.
  - by rewrite Ho, Hlite.
Qed.

Lemma UpdateDtlsRole_exact role r r' l :
  media_of (sdpObject r) = Some l → length l = length (mediaSections r) →
  Sdp.UpdateDtlsRole role r = SOk tt r' →
  ∃ dtls secs l' sdp',
    j_set "role" (JStr role) (dtlsParameters r) = Ok dtls
    ∧ r' = mkRemoteSdp (iceParameters r) (iceCandidates r) dtls (sctpParameters r)
             secs (firstMid r) (midToIndex r) sdp'
    ∧ media_of sdp' = Some l'
    ∧ length secs = length (mediaSections r) ∧ length l' = length l
    ∧ (∀ j ms, mediaSections r !! j = Some ms →
         ∃ ms', Section.apply (Section.SetDtlsRole (section_variant ms) role) ms = Ok ms'
                ∧ secs !! j = Some ms' ∧ l' !! j = Some (mediaObject ms'))
    ∧ (∀ k, k ≠ "media" → k ≠ "icelite" → j_find k sdp' = j_find k (sdpObject r)).
Proof.
  intros Hl Hlen H. unfold Sdp.UpdateDtlsRole in H. mrun in H.
  destruct (j_set "role" (JStr role) (dtlsParameters r)) as [dtls| |] eqn:Hdtls;
    mrun in H; [|done..].
  destruct ((match j_find "iceLite" (iceParameters r) with
             | Some _ => Sdp.upd_sdpObject (j_set "icelite" (JStr "ice-lite"))
             | None => mret tt
             end) (set_dtlsParameters dtls r)) as [[] r1| |] eqn:Hlite; [|done..].
  apply icelite_exact in Hlite as (sdp1 & -> & Ho1 & Hlite). mrun in Ho1. mrun in Hlite.
  apply (update_sections_exact _ _ _ _ _ l) in H
    as (secs & l' & sdp' & -> & Hm' & Hlsecs & Hll & Hin & _ & Ho); mrun;
    [|by rewrite (media_of_other "icelite" (sdpObject r) sdp1)|done].
  mrun in Hlsecs. mrun in Hin. mrun in Ho.
  exists dtls, secs, l', sdp'. split; [done|]. split; [done|].
  do 3 (split; [done|]). split.
  - intros j ms Hms. destruct (Hin j) as (ms0 & ms' & Hj1 & Hj2 & Hj3 & Hj4).
    { split; [lia|]. apply lookup_lt_Some in Hms. lia. }
    rewrite Hms in Hj1. inversion Hj1; subst ms0. by exists ms'.
  - intros k Hk1 Hk2. by rewrite Ho, Ho1.
Qed.

(** ** The registry of sections: further invariants *)

Lemma map_read_in_range mid (mp : gmap string nat) (l : list MediaSection) :
  (default 0%nat (mp !! mid) < length l)%nat →
  (∀ k i, mp !! k = Some i → (i < length l)%nat) →
  ∀ k i, map_read mid mp !! k = Some i → (i < length l)%nat.
Proof.
  intros Hidx Hmp k i. unfold map_read. destruct (mp !! mid) as [i0|] eqn:Hmid.
  - apply Hmp.
  - destruct (decide (k = mid)) as [->|Hne].
    + rewrite lookup_insert_eq. intros [= <-]. exact Hidx.
    + rewrite lookup_insert_ne by done. apply Hmp.
Qed.

Lemma step_reg_inv o r r' : reg_inv r → step o r = SOk tt r' → reg_inv r'.
Proof.
  intros [Hdoc Hb (l & Hl & Hlen) Hmap] Hstep.
  destruct (step_inv o r r' Hdoc Hb Hstep) as (Hdoc' & Hb' & _).
  constructor; [done|done|..]; destruct o as [ms|ms reuseMid|mid|mid|ice|role|];
    cbn [step] in Hstep.
  - apply AddMediaSection_exact in Hstep as (mid & sdp' & _ & -> & Hm & _).
    exists (l ++ [mediaObject ms])%list. split; [by apply Hm|]. mrun.
    rewrite !length_app. cbn [length]. lia.
  - unfold Sdp.commit_answer in Hstep. case_decide.
    + apply ReplaceMediaSection_exact in Hstep
        as (old & oldMid & newMid & sdp' & Hold & _ & _ & -> & Hm & _); [|done].
      eexists. split; [by apply Hm|]. mrun. apply lookup_lt_Some in Hold.
      rewrite arr_set_insert by lia. by rewrite !length_insert.
    + apply AddMediaSection_exact in Hstep as (mid & sdp' & _ & -> & Hm & _).
      exists (l ++ [mediaObject ms])%list. split; [by apply Hm|]. mrun.
      rewrite !length_app. cbn [length]. lia.
  - apply CloseMediaSection_exact in Hstep as (ms & ms' & sdp' & Hms & _ & -> & Hm & _).
    eexists. split; [by apply Hm|]. mrun. apply lookup_lt_Some in Hms.
    rewrite arr_set_insert by lia. by rewrite !length_insert.
  - apply DisableMediaSection_exact in Hstep as (ms & ms' & Hms & _ & ->).
    exists l. split; [done|]. mrun. by rewrite length_insert.
  - apply (UpdateIceParameters_exact _ _ _ l) in Hstep
      as (secs & l' & sdp' & -> & Hm & Hls & Hll & _); [|done..].
    exists l'. split; [done|]. mrun. congruence.
  - apply (UpdateDtlsRole_exact _ _ _ l) in Hstep
      as (dtls & secs & l' & sdp' & _ & -> & Hm & Hls & Hll & _); [|done..].
    exists l'. split; [done|]. mrun. congruence.
  - mrun in Hstep. destruct (Sdp.GetSdp r) as [sdp r1| |] eqn:Hget; mrun in Hstep; [|done..].
    inversion Hstep; subst r1; clear Hstep.
    apply GetSdp_exact in Hget as [-> Ho].
    exists l. split; [|done]. mrun. by rewrite (media_of_other "origin" (sdpObject r)).
  - apply AddMediaSection_exact in Hstep as (mid & sdp' & _ & -> & _).
    intros k i. unfold map_in_range in Hmap. mrun. rewrite length_app. cbn [length].
    destruct (decide (k = mid)) as [->|Hne].
    + rewrite lookup_insert_eq. intros [= <-]. lia.
    + rewrite lookup_insert_ne by done. intros Hk. apply Hmap in Hk. lia.
  - unfold Sdp.commit_answer in Hstep. case_decide.
    + apply ReplaceMediaSection_exact in Hstep
        as (old & oldMid & newMid & sdp' & Hold & _ & _ & -> & _); [|done].
      apply lookup_lt_Some in Hold.
      intros k i. mrun. rewrite length_insert.
      destruct (decide (k = newMid)) as [->|Hne].
      * rewrite lookup_insert_eq. by intros [= <-].
      * rewrite lookup_insert_ne by done. intros Hk.
        apply lookup_delete_Some in Hk as [_ Hk].
        by eapply map_read_in_range.
    + apply AddMediaSection_exact in Hstep as (mid & sdp' & _ & -> & _).
      intros k i. unfold map_in_range in Hmap. mrun. rewrite length_app. cbn [length].
      destruct (decide (k = mid)) as [->|Hne].
      * rewrite lookup_insert_eq. intros [= <-]. lia.
      * rewrite lookup_insert_ne by done. intros Hk. apply Hmap in Hk. lia.
  - apply CloseMediaSection_exact in Hstep as (ms & ms' & sdp' & Hms & _ & -> & _).
    apply lookup_lt_Some in Hms. intros k i. mrun. rewrite length_insert.
    by eapply map_read_in_range.
  - apply DisableMediaSection_exact in Hstep as (ms & ms' & Hms & _ & ->).
    apply lookup_lt_Some in Hms. intros k i. mrun. rewrite length_insert.
    by eapply map_read_in_range.
  - apply (UpdateIceParameters_exact _ _ _ l) in Hstep
      as (secs & l' & sdp' & -> & Hm & Hls & Hll & _); [|done..].
    intros k i. mrun. rewrite Hls. apply Hmap.
  - apply (UpdateDtlsRole_exact _ _ _ l) in Hstep
      as (dtls & secs & l' & sdp' & _ & -> & Hm & Hls & Hll & _); [|done..].
    intros k i. mrun. rewrite Hls. apply Hmap.
  - mrun in Hstep. destruct (Sdp.GetSdp r) as [sdp r1| |] eqn:Hget; mrun in Hstep; [|done..].
    inversion Hstep; subst r1; clear Hstep.
    apply GetSdp_exact in Hget as [-> Ho]. intros k i. mrun. apply Hmap.
Qed.

Lemma run_reg_inv ops : ∀ r r', reg_inv r → run ops r = SOk tt r' → reg_inv r'.
Proof.
  induction ops as [|o ops IH]; intros r r' Hinv Hrun; cbn [run] in Hrun.
  - mrun in Hrun. by inversion Hrun; subst.
  - rewrite run_bind in Hrun.
    destruct (step o r) as [[] r1| |] eqn:Hstep; [|done..].
    eapply IH; [|exact Hrun]. by eapply step_reg_inv.
Qed.

(** Follows the assignments [j[k] = v] back to the first value. *)
Ltac find_back :=
  repeat match goal with
         | Hx : ∀ k2, k2 ≠ ?k → j_find k2 ?x = j_find k2 _ |- context [j_find ?k1 ?x] =>
             rewrite (Hx k1) by done
         end.

Lemma new_exact ice cand dtls sctp r :
  Sdp.new ice cand dtls sctp = Ok r →
  mediaSections r = [] ∧ midToIndex r = ∅ ∧ firstMid r = ""
  ∧ iceParameters r = ice ∧ iceCandidates r = cand ∧ sctpParameters r = sctp
  ∧ media_of (sdpObject r) = Some []
  ∧ j_find "icelite" (sdpObject r)
    = (if j_contains "iceLite" ice then Some (JStr "ice-lite") else None).
Proof.
  unfold Sdp.new. intros H. cbv zeta in H. res_inv H. inversion H; subst r; clear H.
  cbn [mediaSections midToIndex firstMid iceParameters iceCandidates sctpParameters sdpObject].
  do 6 (split; [done|]).
  unfold media_of, j_contains.
  destruct (j_find "iceLite" ice);
    repeat match goal with
           | Hx : j_set ?k _ _ = Ok _ |- _ => apply j_set_find in Hx as [? ?]
           | Hx : Ok _ = Ok _ |- _ => inversion Hx; subst; clear Hx
           end;
    (split; [by find_back|]); find_back; done.
Qed.

Lemma new_reg_inv ice cand dtls sctp r : Sdp.new ice cand dtls sctp = Ok r → reg_inv r.
Proof.
  intros Hnew. pose proof (new_inv _ _ _ _ _ Hnew) as (Hdoc & Hb & _).
  apply new_exact in Hnew as (Hsec & Hmap & _ & _ & _ & _ & Hmedia & _).
  constructor; [done|done|..].
  - exists []. by rewrite Hsec.
  - intros k i. by rewrite Hmap.
Qed.

Lemma reachable_reg_inv ice cand dtls sctp r0 ops r :
  Sdp.new ice cand dtls sctp = Ok r0 → run ops r0 = SOk tt r → reg_inv r.
Proof. intros Hnew Hrun. eapply run_reg_inv; [|exact Hrun]. by eapply new_reg_inv. Qed.

(** ** The document and the sections *)

Lemma mirrors_of_lookup secs (l : list json) :
  length l = length secs →
  (∀ j ms, secs !! j = Some ms → l !! j = Some (mediaObject ms)) →
  l = mediaObject <$> secs.
Proof.
  intros Hlen Hin. apply list_eq. intros j. rewrite list_lookup_fmap.
  destruct (secs !! j) as [ms|] eqn:Hj.
  - by apply Hin.
  - apply lookup_ge_None in Hj. apply lookup_ge_None. by rewrite Hlen.
Qed.

Lemma UpdateIceParameters_mirrors ice r r' :
  media_len r → Sdp.UpdateIceParameters ice r = SOk tt r' → mirrors r'.
Proof.
  intros (l & Hl & Hlen) Hstep. unfold mirrors.
  apply (UpdateIceParameters_exact _ _ _ l) in Hstep
    as (secs & l' & sdp' & -> & Hm & Hls & Hll & Hin & _); [|done..].
  mrun. rewrite Hm. f_equal. apply mirrors_of_lookup; [congruence|].
  intros j ms' Hj. destruct (lookup_lt_is_Some_2 (mediaSections r) j) as [ms Hms].
  { rewrite <- Hls. by eapply lookup_lt_Some. }
  destruct (Hin j ms Hms) as (ms0 & _ & Hs & Hl'). congruence.
Qed.

Lemma UpdateDtlsRole_mirrors role r r' :
  media_len r → Sdp.UpdateDtlsRole role r = SOk tt r' → mirrors r'.
Proof.
  intros (l & Hl & Hlen) Hstep. unfold mirrors.
  apply (UpdateDtlsRole_exact _ _ _ l) in Hstep
    as (dtls & secs & l' & sdp' & _ & -> & Hm & Hls & Hll & Hin & _); [|done..].
  mrun. rewrite Hm. f_equal. apply mirrors_of_lookup; [congruence|].
  intros j ms' Hj. destruct (lookup_lt_is_Some_2 (mediaSections r) j) as [ms Hms].
  { rewrite <- Hls. by eapply lookup_lt_Some. }
  destruct (Hin j ms Hms) as (ms0 & _ & Hs & Hl'). congruence.
Qed.

Lemma step_mirrors o r r' :
  reg_inv r → mirrors r → step o r = SOk tt r' →
  is_disable o = false → mirrors r'.
Proof.
  intros [_ _ Hlen _] Hmir Hstep Hno.
  unfold mirrors in *.
  destruct o as [ms|ms reuseMid|mid|mid|ice|role|]; cbn [step] in Hstep; try done.
  - apply AddMediaSection_exact in Hstep as (mid & sdp' & _ & -> & Hm & _).
    mrun. rewrite (Hm _ Hmir). by rewrite fmap_app.
  - unfold Sdp.commit_answer in Hstep. case_decide.
    + apply ReplaceMediaSection_exact in Hstep
        as (old & oldMid & newMid & sdp' & Hold & _ & _ & -> & Hm & _); [|done].
      mrun. rewrite (Hm _ Hmir). apply lookup_lt_Some in Hold.
      rewrite arr_set_insert by (by rewrite length_fmap).
      by rewrite list_fmap_insert.
    + apply AddMediaSection_exact in Hstep as (mid & sdp' & _ & -> & Hm & _).
      mrun. rewrite (Hm _ Hmir). by rewrite fmap_app.
  - apply CloseMediaSection_exact in Hstep as (ms & ms' & sdp' & Hms & _ & -> & Hm & _).
    mrun. rewrite (Hm _ Hmir). apply lookup_lt_Some in Hms.
    rewrite arr_set_insert by (by rewrite length_fmap).
    by rewrite list_fmap_insert.
  - by eapply UpdateIceParameters_mirrors.
  - by eapply UpdateDtlsRole_mirrors.
  - mrun in Hstep. destruct (Sdp.GetSdp r) as [sdp r1| |] eqn:Hget; mrun in Hstep; [|done..].
    inversion Hstep; subst r1; clear Hstep.
    apply GetSdp_exact in Hget as [-> Ho]. mrun.
    by rewrite (media_of_other "origin" (sdpObject r)).
Qed.

(** X1.  On a document built by the constructor, after any sequence of
    operations that complete and among which there is no
    [DisableMediaSection], the "media" array of the document is the list of
    the objects of the sections, in the order of the sections. *)
Theorem document_mirrors_sections ice cand dtls sctp (r0 r : RemoteSdp) (ops : list op) :
  Sdp.new ice cand dtls sctp = Ok r0 →
  run ops r0 = SOk tt r →
  forallb (fun o => negb (is_disable o)) ops = true →
  media_of (sdpObject r) = Some (mediaObject <$> mediaSections r).
Proof.
  intros Hnew Hrun Hops.
  assert (reg_inv r0 ∧ mirrors r0) as [Hinv Hmir].
  { split; [by eapply new_reg_inv|].
    apply new_exact in Hnew as (Hsec & _ & _ & _ & _ & _ & Hmedia & _).
    unfold mirrors. by rewrite Hsec. }
  clear Hnew. revert r0 Hinv Hmir Hrun.
  induction ops as [|o ops IH]; intros r0 Hinv Hmir Hrun; cbn [run] in Hrun.
  - mrun in Hrun. by inversion Hrun; subst.
  - rewrite run_bind in Hrun.
    destruct (step o r0) as [[] r1| |] eqn:Hstep; [|done..].
    cbn [forallb] in Hops. apply andb_prop in Hops as [Ho Hops].
    apply negb_true_iff in Ho.
    apply (IH Hops r1); [by eapply step_reg_inv| |done].
    by eapply step_mirrors.
Qed.

Lemma document_mirrors_sections_witness :
  Sdp.new ex_ice (JArr []) ex_dtls ex_sctp = Ok ex_doc
  ∧ run ex_ops ex_doc = SOk tt ex_doc4
  ∧ media_of (sdpObject ex_doc4) = Some (mediaObject <$> mediaSections ex_doc4).
Proof.
  split; [vm_compute; reflexivity|]. split; [vm_compute; reflexivity|].
  apply (document_mirrors_sections ex_ice (JArr []) ex_dtls ex_sctp ex_doc ex_doc4 ex_ops).
  - vm_compute; reflexivity.
  - vm_compute; reflexivity.
  - reflexivity.
Defined.

Lemma DisableMediaSection_run mid r ms :
  doc_inv r →
  mediaSections r !! default 0%nat (midToIndex r !! mid) = Some ms →
  ∃ ms', Section.apply Section.Disable ms = Ok ms' ∧ same_slot ms ms'
    ∧ Sdp.DisableMediaSection mid r
      = SOk tt (mkRemoteSdp (iceParameters r) (iceCandidates r) (dtlsParameters r)
                  (sctpParameters r)
                  (<[default 0%nat (midToIndex r !! mid) := ms']> (mediaSections r))
                  (firstMid r) (map_read mid (midToIndex r)) (sdpObject r)).
Proof.
  intros [Hsec _] Hms.
  assert (section_wf ms) as Hwf.
  { rewrite Forall_forall in Hsec. apply Hsec. by eapply list_elem_of_lookup_2. }
  destruct (apply_Disable ms Hwf) as (ms' & Happ & Hslot).
  exists ms'. split; [done|]. split; [done|].
  unfold Sdp.DisableMediaSection. rewrite run_bind, index_of_exact. rewrite run_bind.
  rewrite (section_at_run _ _ ms) by (by mrun). mrun. rewrite Happ.
  unfold Sdp.store_section. by mrun.
Qed.

(** X2.  [DisableMediaSection] writes the section and not the document.  On
    a well-formed document whose slot for the mid exists, it completes, the
    section of the slot gets the direction "inactive" and keeps its port and
    its mid, and the document object, with its "media" entry for the slot,
    is the one from before the call. *)
Theorem DisableMediaSection_keeps_document (r : RemoteSdp) (mid : string) (ms : MediaSection) :
  doc_inv r →
  mediaSections r !! default 0%nat (midToIndex r !! mid) = Some ms →
  ∃ r' ms',
    Sdp.DisableMediaSection mid r = SOk tt r'
    ∧ sdpObject r' = sdpObject r
    ∧ mediaSections r'
      = <[default 0%nat (midToIndex r !! mid) := ms']> (mediaSections r)
    ∧ j_find "direction" (mediaObject ms') = Some (JStr "inactive")
    ∧ j_find "port" (mediaObject ms') = j_find "port" (mediaObject ms)
    ∧ j_find "mid" (mediaObject ms') = j_find "mid" (mediaObject ms).
Proof.
  intros Hinv Hms.
  destruct (DisableMediaSection_run mid r ms Hinv Hms) as (ms' & Happ & _ & Hrun).
  eexists _, ms'. split; [exact Hrun|]. split; [done|]. split; [done|].
  assert (section_wf ms) as (o & m & port & Ho & _).
  { destruct Hinv as [Hsec _]. rewrite Forall_forall in Hsec. apply Hsec.
    by eapply list_elem_of_lookup_2. }
  unfold Section.apply in Happ. rewrite Ho, Disable_obj in Happ.
  cbn [mbind res_bind] in Happ. inversion Happ; subst ms'; clear Happ.
  cbn [mediaObject]. rewrite Ho. cbn [j_find].
  split; [by find_simpl|]. split; by find_simpl.
Qed.

Lemma DisableMediaSection_keeps_document_witness :
  mediaSections ex_doc2 !! default 0%nat (midToIndex ex_doc2 !! "b") = Some (ex_section "b")
  ∧ ∃ r' ms',
      Sdp.DisableMediaSection "b" ex_doc2 = SOk tt r'
      ∧ sdpObject r' = sdpObject ex_doc2
      ∧ mediaSections r' !! 1%nat = Some ms'
      ∧ j_find "direction" (mediaObject ms') = Some (JStr "inactive")
      ∧ media_of (sdpObject r') = Some (mediaObject <$> mediaSections ex_doc2).
Proof.
  split; [vm_compute; reflexivity|].
  destruct (DisableMediaSection_keeps_document ex_doc2 "b" (ex_section "b") ex_doc2_inv)
    as (r' & ms' & Hrun & Hsdp & Hsec & Hdir & _); [vm_compute; reflexivity|].
  exists r', ms'. split; [exact Hrun|]. split; [exact Hsdp|].
  split; [by rewrite Hsec|]. split; [exact Hdir|].
  rewrite Hsdp. vm_compute; reflexivity.
Defined.

(** X3.  [UpdateIceParameters] and [UpdateDtlsRole] write every media entry
    of the document from its section.  On a document built by the
    constructor, after any operations that complete (a
    [DisableMediaSection] among them or not), when either of the two
    completes the "media" array is the list of the objects of the sections. *)
Theorem update_rewrites_media ice cand dtls sctp (r0 r : RemoteSdp) (ops : list op) :
  Sdp.new ice cand dtls sctp = Ok r0 →
  run ops r0 = SOk tt r →
  (∀ ice' r', Sdp.UpdateIceParameters ice' r = SOk tt r' →
     media_of (sdpObject r') = Some (mediaObject <$> mediaSections r'))
  ∧ (∀ role r', Sdp.UpdateDtlsRole role r = SOk tt r' →
       media_of (sdpObject r') = Some (mediaObject <$> mediaSections r')).
Proof.
  intros Hnew Hrun.
  pose proof (reachable_reg_inv _ _ _ _ _ _ _ Hnew Hrun) as [_ _ Hlen _].
  split.
  - intros ice' r' Hstep. by eapply UpdateIceParameters_mirrors.
  - intros role r' Hstep. by eapply UpdateDtlsRole_mirrors.
Qed.

Lemma update_rewrites_media_witness :
  Sdp.new ex_ice (JArr []) ex_dtls ex_sctp = Ok ex_doc
  ∧ run ex_ops_disable ex_doc = SOk tt ex_doc5
  ∧ media_of (sdpObject ex_doc5) ≠ Some (mediaObject <$> mediaSections ex_doc5)
  ∧ ∃ r', Sdp.UpdateDtlsRole "client" ex_doc5 = SOk tt r'
          ∧ media_of (sdpObject r') = Some (mediaObject <$> mediaSections r').
Proof.
  split; [vm_compute; reflexivity|]. split; [vm_compute; reflexivity|].
  split; [vm_compute; discriminate|].
  destruct (update_rewrites_media ex_ice (JArr []) ex_dtls ex_sctp ex_doc ex_doc5
              ex_ops_disable) as [_ Hrole]; [vm_compute; reflexivity..|].
  eexists. split; [vm_compute; reflexivity|].
  apply (Hrole "client"). vm_compute; reflexivity.
Defined.

(** ** Lookups through the map of mids *)

(** X4.  On a document built by the constructor, after any operations that
    complete: every index in the map of mids is the index of a section; so
    [CloseMediaSection] and [DisableMediaSection] complete for every mid,
    known or not, as soon as there is a section, and index the empty vector
    of sections (which is undefined) when there is none. *)
Theorem CloseMediaSection_defined ice cand dtls sctp (r0 r : RemoteSdp) (ops : list op)
    (mid : string) :
  Sdp.new ice cand dtls sctp = Ok r0 →
  run ops r0 = SOk tt r →
  (∀ k i, midToIndex r !! k = Some i → (i < length (mediaSections r))%nat)
  ∧ (mediaSections r ≠ [] →
     (∃ r', Sdp.CloseMediaSection mid r = SOk tt r')
     ∧ (∃ r', Sdp.DisableMediaSection mid r = SOk tt r'))
  ∧ (mediaSections r = [] →
     Sdp.CloseMediaSection mid r = SUndef ∧ Sdp.DisableMediaSection mid r = SUndef).
Proof.
  intros Hnew Hrun.
  pose proof (reachable_reg_inv _ _ _ _ _ _ _ Hnew Hrun) as [Hdoc _ _ Hmap].
  split; [exact Hmap|]. split.
  - intros Hne.
    assert (default 0%nat (midToIndex r !! mid) < length (mediaSections r))%nat as Hlt.
    { destruct (midToIndex r !! mid) as [i|] eqn:Hi; cbn [default].
      - by eapply Hmap.
      - destruct (mediaSections r); [done|cbn; lia]. }
    apply lookup_lt_is_Some_2 in Hlt as [ms Hms]. split.
    + destruct (CloseMediaSection_run mid r ms Hdoc Hms) as (r' & _ & Hclose & _). eauto.
    + destruct (DisableMediaSection_run mid r ms Hdoc Hms) as (ms' & _ & _ & Hdis). eauto.
  - intros Hempty.
    assert (midToIndex r !! mid = None) as Hnone.
    { destruct (midToIndex r !! mid) as [i|] eqn:Hi; [|done].
      apply Hmap in Hi. rewrite Hempty in Hi. cbn in Hi. lia. }
    unfold Sdp.CloseMediaSection, Sdp.DisableMediaSection.
    rewrite !run_bind, index_of_exact, Hnone. cbn [default].
    unfold Sdp.section_at. mrun. by rewrite Hempty.
Qed.

Lemma CloseMediaSection_defined_witness :
  Sdp.new ex_ice (JArr []) ex_dtls ex_sctp = Ok ex_doc
  ∧ run ex_ops ex_doc = SOk tt ex_doc4
  ∧ midToIndex ex_doc4 !! "unknown" = None
  ∧ (∃ r', Sdp.CloseMediaSection "unknown" ex_doc4 = SOk tt r')
  ∧ Sdp.CloseMediaSection "unknown" ex_doc = SUndef.
Proof.
  split; [vm_compute; reflexivity|]. split; [vm_compute; reflexivity|].
  split; [vm_compute; reflexivity|].
  destruct (CloseMediaSection_defined ex_ice (JArr []) ex_dtls ex_sctp ex_doc ex_doc4
              ex_ops "unknown") as (_ & Hsome & _); [vm_compute; reflexivity..|].
  split; [apply Hsome; vm_compute; discriminate|].
  vm_compute; reflexivity.
Defined.

(** X5.  [CloseMediaSection] reads the map with [operator[]]: a mid that is
    not in the map is inserted with index 0, so on a well-formed document
    with a first section, closing an unknown mid (other than the anchor mid)
    closes the first section, whatever its mid: its port becomes 0, its mid
    stays, the other sections are untouched, and the unknown mid is left in
    the map at index 0. *)
Theorem CloseMediaSection_unknown_mid_closes_first (r : RemoteSdp) (mid : string)
    (ms0 : MediaSection) (rest : list MediaSection) :
  doc_inv r →
  midToIndex r !! mid = None →
  mediaSections r = ms0 :: rest →
  mid ≠ firstMid r →
  ∃ r' ms0',
    Sdp.CloseMediaSection mid r = SOk tt r'
    ∧ mediaSections r' = ms0' :: rest
    ∧ Section.IsClosed ms0' = Ok true
    ∧ Section.GetMid ms0' = Section.GetMid ms0
    ∧ midToIndex r' = <[mid := 0%nat]> (midToIndex r).
Proof.
  intros Hdoc Hnone Hsec Hne.
  assert (mediaSections r !! default 0%nat (midToIndex r !! mid) = Some ms0) as Hms.
  { by rewrite Hnone, Hsec. }
  destruct (CloseMediaSection_run mid r ms0 Hdoc Hms)
    as (r' & ms0' & Hrun & Happ & _).
  pose proof Hrun as Hexact.
  apply CloseMediaSection_exact in Hexact as (ms & ms' & sdp' & Hms1 & Happ1 & -> & _).
  rewrite Hms in Hms1. inversion Hms1; subst ms; clear Hms1.
  rewrite Happ in Happ1. inversion Happ1; subst ms'; clear Happ1.
  rewrite decide_False in Happ by done.
  assert (section_wf ms0) as Hwf.
  { destruct Hdoc as [Hall _]. rewrite Hsec in Hall. by inversion Hall. }
  destruct (apply_Close ms0 Hwf) as (ms1 & Happ1 & Hwf1 & Hclosed & Hmid).
  rewrite Happ in Happ1. inversion Happ1; subst ms1; clear Happ1.
  exists (mkRemoteSdp (iceParameters r) (iceCandidates r) (dtlsParameters r)
            (sctpParameters r)
            (<[default 0%nat (midToIndex r !! mid) := ms0']> (mediaSections r))
            (firstMid r) (map_read mid (midToIndex r)) sdp'), ms0'.
  split; [done|]. mrun. rewrite Hnone, Hsec. cbn [default]. split; [done|].
  destruct (section_wf_readers ms0' Hwf1) as [Hc Hm].
  destruct (section_wf_readers ms0 Hwf) as [_ Hm0].
  split; [by rewrite Hc, Hclosed|]. split; [by rewrite Hm, Hm0, Hmid|].
  unfold map_read. by rewrite Hnone.
Qed.

Lemma CloseMediaSection_unknown_mid_closes_first_witness :
  midToIndex ex_doc2 !! "zz" = None
  ∧ mediaSections ex_doc2 = [ex_section "a"; ex_section "b"]
  ∧ firstMid ex_doc2 = "a"
  ∧ ∃ r' ms0',
      Sdp.CloseMediaSection "zz" ex_doc2 = SOk tt r'
      ∧ mediaSections r' = [ms0'; ex_section "b"]
      ∧ Section.IsClosed ms0' = Ok true
      ∧ Section.GetMid ms0' = Ok "a"
      ∧ midToIndex r' !! "zz" = Some 0%nat.
Proof.
  split; [vm_compute; reflexivity|]. split; [vm_compute; reflexivity|].
  split; [vm_compute; reflexivity|].
  destruct (CloseMediaSection_unknown_mid_closes_first ex_doc2 "zz" (ex_section "a")
              [ex_section "b"] ex_doc2_inv)
    as (r' & ms0' & Hrun & Hsec & Hclosed & Hmid & Hmap);
    [vm_compute; reflexivity|vm_compute; reflexivity|vm_compute; discriminate|].
  exists r', ms0'. split; [exact Hrun|]. split; [exact Hsec|]. split; [exact Hclosed|].
  split; [rewrite Hmid; vm_compute; reflexivity|].
  rewrite Hmap. apply lookup_insert_eq.
Defined.

Lemma ReplaceMediaSection_run ms reuseMid r old :
  reuseMid ≠ "" → doc_inv r → section_wf ms →
  mediaSections r !! default 0%nat (midToIndex r !! reuseMid) = Some old →
  ∃ r', Sdp.ReplaceMediaSection ms reuseMid r = SOk tt r'.
Proof.
  intros Hne [Hsec Hsdp] Hwf Hold.
  assert (section_wf old) as Hwfold.
  { rewrite Forall_forall in Hsec. apply Hsec. by eapply list_elem_of_lookup_2. }
  destruct (section_wf_readers old Hwfold) as [_ Holdmid].
  destruct (section_wf_readers ms Hwf) as [_ Hmid].
  destruct (sdp_store_media (default 0%nat (midToIndex r !! reuseMid))
              (Section.GetObject ms) _ Hsdp) as (sdp' & Hrun & Hsdp' & _).
  unfold Sdp.ReplaceMediaSection. rewrite decide_True by done.
  rewrite run_bind, index_of_exact. rewrite run_bind.
  rewrite (section_at_run _ _ old) by (by mrun).
  unfold Sdp.store_section. mrun. rewrite Holdmid. mrun. rewrite Hmid. mrun.
  erewrite upd_sdpObject_run by exact Hrun.
  match goal with
  | |- ∃ r', Sdp.RegenerateBundleMids ?r1 = _ =>
      destruct (RegenerateBundleMids_run r1) as (sdp'' & Hreg & _)
  end.
  - constructor; mrun; [by apply Forall_insert_wf|done].
  - eauto.
Qed.

(** X6.  The slot of a closed section is the one the next answer takes.  On
    a well-formed document where a mid other than the anchor and the empty
    string is that of the section at its index in the map, and every section
    before it is open: [CloseMediaSection] completes,
    [GetNextMediaSectionIdx] then returns that index with that mid, and
    committing an answer section with that reusable mid puts it at that
    index, with the closed mid erased from the map and the new one entered
    at the index; the number of sections is as before. *)
Theorem closed_slot_is_reused (r : RemoteSdp) (mid : string) (i : nat)
    (ms new : MediaSection) :
  doc_inv r →
  midToIndex r !! mid = Some i →
  mediaSections r !! i = Some ms →
  Section.GetMid ms = Ok mid →
  mid ≠ firstMid r → mid ≠ "" →
  (∀ j ms', (j < i)%nat → mediaSections r !! j = Some ms' →
            Section.IsClosed ms' = Ok false) →
  section_wf new →
  ∃ r1 r2 newMid,
    Sdp.CloseMediaSection mid r = SOk tt r1
    ∧ Sdp.GetNextMediaSectionIdx r1 = Ok (mkIdx i mid)
    ∧ Section.GetMid new = Ok newMid
    ∧ Sdp.commit_answer new mid r1 = SOk tt r2
    ∧ mediaSections r2 = <[i := new]> (mediaSections r)
    ∧ midToIndex r2 = <[newMid := i]> (delete mid (midToIndex r)).
Proof.
  intros Hdoc Hi Hms Hmid Hanchor Hne Hlow Hnew.
  assert (mediaSections r !! default 0%nat (midToIndex r !! mid) = Some ms) as Hslot.
  { by rewrite Hi. }
  destruct (CloseMediaSection_run mid r ms Hdoc Hslot)
    as (r1 & ms' & Hclose & Happ & _ & _ & Hdoc1 & _).
  pose proof Hclose as Hexact.
  apply CloseMediaSection_exact in Hexact as (ms0 & ms0' & sdp1 & Hms0 & Happ0 & -> & _).
  rewrite Hslot in Hms0. inversion Hms0; subst ms0; clear Hms0.
  rewrite Happ in Happ0. inversion Happ0; subst ms0'; clear Happ0.
  rewrite decide_False in Happ by done. rewrite Hi in *. cbn [default] in *.
  assert (map_read mid (midToIndex r) = midToIndex r) as Hread.
  { unfold map_read. by rewrite Hi. }
  rewrite Hread in *.
  assert (section_wf ms) as Hwf.
  { destruct Hdoc as [Hall _]. rewrite Forall_forall in Hall. apply Hall.
    by eapply list_elem_of_lookup_2. }
  destruct (apply_Close ms Hwf) as (ms1 & Happ1 & Hwf1 & Hclosed & Hmid1).
  rewrite Happ in Happ1. inversion Happ1; subst ms1; clear Happ1.
  destruct (section_wf_readers ms' Hwf1) as [Hc' Hm'].
  destruct (section_wf_readers ms Hwf) as [_ Hm].
  assert (Section.GetMid ms' = Ok mid) as Hmid' by (by rewrite Hm', Hmid1, <- Hm).
  assert (i < length (mediaSections r))%nat as Hlt by (by eapply lookup_lt_Some).
  set (r1 := mkRemoteSdp (iceParameters r) (iceCandidates r) (dtlsParameters r)
               (sctpParameters r) (<[i := ms']> (mediaSections r)) (firstMid r)
               (midToIndex r) sdp1) in *.
  assert (mediaSections r1 !! i = Some ms') as Hat.
  { unfold r1. mrun. by rewrite list_lookup_insert_eq. }
  assert (Sdp.GetNextMediaSectionIdx r1 = Ok (mkIdx i mid)) as Hnext.
  { unfold Sdp.GetNextMediaSectionIdx.
    destruct (next_idx_spec (mediaSections r1) (inv_sections _ Hdoc1) 0%nat)
      as (i' & mid' & Hrun & Hcase).
    rewrite Hrun. rewrite !Nat.sub_0_r in Hcase.
    destruct Hcase as [(msx & _ & Hx & Hcx & Hmx & Hlowx)|(_ & _ & Hall)].
    - destruct (Nat.lt_trichotomy i' i) as [Hlt'|[->|Hgt]].
      + unfold r1 in Hx. mrun in Hx. rewrite list_lookup_insert_ne in Hx by lia.
        rewrite (Hlow i' msx Hlt' Hx) in Hcx. done.
      + rewrite Hat in Hx. inversion Hx; subst msx. congruence.
      + specialize (Hlowx i ms').
        rewrite Hlowx in Hc' by done. by rewrite Hclosed in Hc'.
    - rewrite (Hall ms') in Hc' by (by eapply list_elem_of_lookup_2).
      by rewrite Hclosed in Hc'. }
  destruct (section_wf_readers new Hnew) as [_ Hnewmid].
  assert (mediaSections r1 !! default 0%nat (midToIndex r1 !! mid) = Some ms') as Hslot1.
  { unfold r1. mrun. rewrite Hi. cbn [default]. by rewrite list_lookup_insert_eq. }
  destruct (ReplaceMediaSection_run new mid r1 ms' Hne Hdoc1 Hnew Hslot1) as [r2 Hrep].
  pose proof Hrep as Hexact.
  apply ReplaceMediaSection_exact in Hexact
    as (old & oldMid & newMid & sdp2 & Hold & Holdmid & Hnm & -> & _); [|done].
  rewrite Hslot1 in Hold. inversion Hold; subst old; clear Hold.
  rewrite Hmid' in Holdmid. inversion Holdmid; subst oldMid; clear Holdmid.
  eexists r1, _, newMid. split; [done|]. split; [done|]. split; [done|]. split.
  - unfold Sdp.commit_answer. rewrite decide_True by done. exact Hrep.
  - unfold r1. mrun. rewrite Hi. cbn [default]. rewrite list_insert_insert_eq.
    split; [done|]. by rewrite Hread.
Qed.

Lemma closed_slot_is_reused_witness :
  ∃ r1 r2,
    Sdp.CloseMediaSection "b" ex_doc2 = SOk tt r1
    ∧ Sdp.GetNextMediaSectionIdx r1 = Ok (mkIdx 1 "b")
    ∧ Sdp.commit_answer (ex_section "c") "b" r1 = SOk tt r2
    ∧ mediaSections r2 = [ex_section "a"; ex_section "c"]
    ∧ midToIndex r2 !! "c" = Some 1%nat ∧ midToIndex r2 !! "b" = None.
Proof.
  destruct (closed_slot_is_reused ex_doc2 "b" 1%nat (ex_section "b") (ex_section "c")
              ex_doc2_inv)
    as (r1 & r2 & newMid & Hclose & Hnext & Hnm & Hcommit & Hsec & Hmap);
    [vm_compute; reflexivity|vm_compute; reflexivity|vm_compute; reflexivity
    |vm_compute; discriminate|discriminate| | |].
  - intros [|j] ms' Hj Hms; [|lia]. vm_compute in Hms. inversion Hms; subst ms'.
    vm_compute; reflexivity.
  - eexists _, _, _. repeat split; vm_compute; reflexivity.
  - vm_compute in Hnm. inversion Hnm; subst newMid; clear Hnm.
    exists r1, r2. split; [exact Hclose|]. split; [exact Hnext|].
    split; [exact Hcommit|]. split; [rewrite Hsec; vm_compute; reflexivity|].
    rewrite Hmap. split; [apply lookup_insert_eq|].
    rewrite lookup_insert_ne by done. apply lookup_delete_eq.
Defined.

(** ** The anchor mid *)

Lemma GetMid_mid_of ms mid : Section.GetMid ms = Ok mid → mid_of ms = mid.
Proof.
  unfold Section.GetMid, mid_of. intros H. res_inv H.
  destruct (mediaObject ms) as [| | | | | |o]; try done. cbn [j_get j_find] in *.
  destruct (Obj.find "mid" o) as [v|]; try done. inversion Ha; subst a.
  destruct v; try done. cbn in H. by inversion H.
Qed.

Lemma update_sections_keeps_firstMid f n : ∀ i, keeps firstMid (Sdp.update_sections f n i).
Proof.
  induction n as [|n IH]; intros i; cbn [Sdp.update_sections];
    unfold Sdp.section_at, Sdp.store_section, Sdp.upd_sdpObject; keeps_auto; apply IH.
Qed.

Lemma step_firstMid o r r' :
  step o r = SOk tt r' →
  firstMid r'
  = (if decide (firstMid r = "")
     then default "" (head (filter (λ m, m ≠ "") (appended_mids [o])))
     else firstMid r).
Proof.
  assert (∀ ms, Sdp.AddMediaSection ms r = SOk tt r' →
            firstMid r'
            = (if decide (firstMid r = "")
               then default "" (head (filter (λ m, m ≠ "") [mid_of ms]))
               else firstMid r)) as Hadd.
  { intros ms Hstep.
    apply AddMediaSection_exact in Hstep as (mid & sdp' & Hmid & -> & _).
    apply GetMid_mid_of in Hmid as ->. mrun. case_decide; [|done].
    rewrite filter_cons. case_decide; [done|]. rewrite filter_nil. cbn.
    destruct (decide (mid_of ms = "")); [done|]. done. }
  intros Hstep.
  destruct o as [ms|ms reuseMid|mid|mid|ice|role|]; cbn [step appended_mids] in *.
  - by apply Hadd.
  - unfold Sdp.commit_answer in Hstep. destruct (decide (reuseMid = "")) as [->|Hne].
    + rewrite decide_False in Hstep by (intros Hx; by apply Hx). by apply Hadd.
    + rewrite decide_True in Hstep by done.
      apply ReplaceMediaSection_exact in Hstep
        as (old & oldMid & newMid & sdp' & _ & _ & _ & -> & _); [|done].
      mrun. by case_decide.
  - apply CloseMediaSection_exact in Hstep as (ms & ms' & sdp' & _ & _ & -> & _).
    mrun. by case_decide.
  - apply DisableMediaSection_exact in Hstep as (ms & ms' & _ & _ & ->).
    mrun. by case_decide.
  - unfold Sdp.UpdateIceParameters in Hstep. mrun in Hstep.
    destruct ((match j_find "iceLite" ice with
               | Some _ => Sdp.upd_sdpObject (j_set "icelite" (JStr "ice-lite"))
               | None => mret tt
               end) (set_iceParameters ice r)) as [[] r1| |] eqn:Hlite; [|done..].
    apply icelite_exact in Hlite as (sdp1 & -> & _). mrun in Hstep.
    pose proof (update_sections_keeps_firstMid
                  (Section.apply (Section.SetIceParameters ice))
                  (length (mediaSections r)) 0
                  (set_sdpObject sdp1 (set_iceParameters ice r))) as Hk.
    rewrite Hstep in Hk. mrun in Hk. rewrite Hk. by case_decide.
  - unfold Sdp.UpdateDtlsRole in Hstep. mrun in Hstep.
    destruct (j_set "role" (JStr role) (dtlsParameters r)) as [dtls| |];
      mrun in Hstep; [|done..].
    destruct ((match j_find "iceLite" (iceParameters r) with
               | Some _ => Sdp.upd_sdpObject (j_set "icelite" (JStr "ice-lite"))
               | None => mret tt
               end) (set_dtlsParameters dtls r)) as [[] r1| |] eqn:Hlite; [|done..].
    apply icelite_exact in Hlite as (sdp1 & -> & _).
    pose proof (update_sections_keeps_firstMid
                  (fun ms => Section.apply (Section.SetDtlsRole (section_variant ms) role) ms)
                  (length (mediaSections r)) 0
                  (set_sdpObject sdp1 (set_dtlsParameters dtls r))) as Hk.
    rewrite Hstep in Hk. mrun in Hk. rewrite Hk. by case_decide.
  - mrun in Hstep. destruct (Sdp.GetSdp r) as [sdp r1| |] eqn:Hget; mrun in Hstep; [|done..].
    inversion Hstep; subst r1; clear Hstep.
    apply GetSdp_exact in Hget as [-> _]. mrun. by case_decide.
Qed.

Lemma appended_mids_cons o ops :
  appended_mids (o :: ops) = (appended_mids [o] ++ appended_mids ops)%list.
Proof. destruct o; cbn [appended_mids]; try done. by case_decide. Qed.

Lemma run_firstMid ops : ∀ r r',
  run ops r = SOk tt r' →
  firstMid r'
  = (if decide (firstMid r = "")
     then default "" (head (filter (λ m, m ≠ "") (appended_mids ops)))
     else firstMid r).
Proof.
  induction ops as [|o ops IH]; intros r r' Hrun; cbn [run] in Hrun.
  - mrun in Hrun. inversion Hrun; subst. by case_decide.
  - rewrite run_bind in Hrun.
    destruct (step o r) as [[] r1| |] eqn:Hstep; [|done..].
    apply IH in Hrun. apply step_firstMid in Hstep.
    rewrite appended_mids_cons, filter_app.
    destruct (decide (firstMid r = "")) as [Hempty|Hset].
    + rewrite Hrun, Hstep.
      destruct (filter (λ m, m ≠ "") (appended_mids [o])) as [|m l] eqn:Hf.
      * by rewrite decide_True.
      * cbn. rewrite decide_False; [done|].
        assert (m ∈ filter (λ m, m ≠ "") (appended_mids [o])) as Hin
          by (rewrite Hf; apply list_elem_of_here).
        by apply list_elem_of_filter in Hin as [Hm _].
    + rewrite Hrun, Hstep. by rewrite decide_False.
Qed.

(** X7.  The anchor mid is the first mid, other than the empty string, of a
    section that was appended.  On a document built by the constructor,
    after any operations that complete, [firstMid] is that mid (the empty
    string if there is none): no operation changes it once it is set,
    whatever happens to the section that brought it. *)
Theorem firstMid_is_first_appended ice cand dtls sctp (r0 r : RemoteSdp) (ops : list op) :
  Sdp.new ice cand dtls sctp = Ok r0 →
  run ops r0 = SOk tt r →
  firstMid r = default "" (head (filter (λ m, m ≠ "") (appended_mids ops))).
Proof.
  intros Hnew Hrun. apply run_firstMid in Hrun.
  apply new_exact in Hnew as (_ & _ & Hfirst & _).
  by rewrite Hrun, Hfirst.
Qed.

Lemma firstMid_is_first_appended_witness :
  Sdp.new ex_ice (JArr []) ex_dtls ex_sctp = Ok ex_doc
  ∧ run (OpAdd (ex_section "") :: ex_ops ++ [OpAnswer (ex_section "c") "a"]) ex_doc
    = SOk tt ex_doc6
  ∧ firstMid ex_doc6 = "a"
  ∧ Section.GetMid <$> mediaSections ex_doc6 = [Ok ""; Ok "c"; Ok "b"].
Proof.
  split; [vm_compute; reflexivity|]. split; [vm_compute; reflexivity|].
  split; [|vm_compute; reflexivity].
  rewrite (firstMid_is_first_appended ex_ice (JArr []) ex_dtls ex_sctp ex_doc ex_doc6
             (OpAdd (ex_section "") :: ex_ops ++ [OpAnswer (ex_section "c") "a"]));
    vm_compute; reflexivity.
Defined.

(** ** [UpdateIceParameters] and [UpdateDtlsRole] *)

Lemma update_sections_run f :
  (∀ ms, section_wf ms → ∃ ms', f ms = Ok ms' ∧ section_wf ms') →
  ∀ n i r, doc_inv r → (i + n ≤ length (mediaSections r))%nat →
  ∃ r', Sdp.update_sections f n i r = SOk tt r'.
Proof.
  intros Hf. induction n as [|n IH]; intros i r [Hsec Hsdp] Hle.
  - eexists. cbn [Sdp.update_sections]. by mrun.
  - destruct (lookup_lt_is_Some_2 (mediaSections r) i) as [ms Hms]; [lia|].
    assert (section_wf ms) as Hwf.
    { rewrite Forall_forall in Hsec. apply Hsec. by eapply list_elem_of_lookup_2. }
    destruct (Hf ms Hwf) as (ms' & Hfms & Hwf').
    destruct (sdp_store_media i (Section.GetObject ms') _ Hsdp)
      as (sdp' & Hrun & Hsdp' & _).
    cbn [Sdp.update_sections]. rewrite run_bind, (section_at_run _ _ ms) by done.
    mrun. rewrite Hfms. unfold Sdp.store_section. mrun.
    erewrite upd_sdpObject_run by exact Hrun. mrun.
    apply IH.
    + constructor; mrun; [by apply Forall_insert_wf|done].
    + mrun. rewrite length_insert. lia.
Qed.

Lemma SetIceParameters_run ice u p ms :
  section_wf ms →
  j_find "usernameFragment" ice = Some u → j_find "password" ice = Some p →
  ∃ ms', Section.apply (Section.SetIceParameters ice) ms = Ok ms' ∧ section_wf ms'
    ∧ j_find "iceUfrag" (mediaObject ms') = Some u
    ∧ j_find "icePwd" (mediaObject ms') = Some p
    ∧ ∀ k, k ≠ "iceUfrag" → k ≠ "icePwd" →
        j_find k (mediaObject ms') = j_find k (mediaObject ms).
Proof.
  intros (o & mid & port & Ho & Hmid & Hport) Hu Hp.
  destruct ice as [| | | | | |i]; try done. cbn [j_find] in Hu, Hp.
  unfold Section.apply, Section.SetIceParameters. rewrite Ho. cbn [j_get].
  rewrite Hu, Hp. cbn [mbind res_bind j_set]. eexists. split; [done|].
  cbn [mediaObject j_find]. split.
  - eexists _, mid, port. split; [done|]. by find_simpl.
  - split; [by find_simpl|]. split; [by find_simpl|].
    intros k Hk1 Hk2. by find_simpl.
Qed.

(** X8.  On a document built by the constructor, after any operations that
    complete, [UpdateIceParameters] with parameters that have a
    "usernameFragment" and a "password" completes, stores the parameters,
    gives every section these two as "iceUfrag" and "icePwd" and changes no
    other member of a section; and with an object that lacks either of the
    two, as soon as there is a section, it reads a missing key of a const
    object, which is undefined. *)
Theorem UpdateIceParameters_sets_credentials ice cand dtls sctp (r0 r : RemoteSdp)
    (ops : list op) (ice' : list (string * json)) :
  Sdp.new ice cand dtls sctp = Ok r0 →
  run ops r0 = SOk tt r →
  (∀ u p, Obj.find "usernameFragment" ice' = Some u → Obj.find "password" ice' = Some p →
     ∃ r', Sdp.UpdateIceParameters (JObj ice') r = SOk tt r'
       ∧ iceParameters r' = JObj ice'
       ∧ length (mediaSections r') = length (mediaSections r)
       ∧ ∀ j ms, mediaSections r !! j = Some ms →
           ∃ ms', mediaSections r' !! j = Some ms'
             ∧ j_find "iceUfrag" (mediaObject ms') = Some u
             ∧ j_find "icePwd" (mediaObject ms') = Some p
             ∧ ∀ k, k ≠ "iceUfrag" → k ≠ "icePwd" →
                 j_find k (mediaObject ms') = j_find k (mediaObject ms))
  ∧ ((Obj.find "usernameFragment" ice' = None ∨ Obj.find "password" ice' = None) →
     mediaSections r ≠ [] →
     Sdp.UpdateIceParameters (JObj ice') r = SUndef).
Proof.
  intros Hnew Hrun.
  pose proof (reachable_reg_inv _ _ _ _ _ _ _ Hnew Hrun) as [Hdoc _ (l & Hl & Hlen) _].
  split.
  - intros u p Hu Hp.
    assert (∃ r', Sdp.UpdateIceParameters (JObj ice') r = SOk tt r') as [r' Hupd].
    { unfold Sdp.UpdateIceParameters. mrun.
      assert (∃ r1, (match j_find "iceLite" (JObj ice') with
                     | Some _ => Sdp.upd_sdpObject (j_set "icelite" (JStr "ice-lite"))
                     | None => mret tt
                     end) (set_iceParameters (JObj ice') r) = SOk tt r1
                    ∧ doc_inv r1 ∧ mediaSections r1 = mediaSections r)
        as (r1 & -> & Hdoc1 & Hsec1).
      { destruct Hdoc as [Hsec Hsdp]. destruct (j_find "iceLite" (JObj ice')).
        - destruct (sdp_set_icelite _ Hsdp) as (sdp' & Hset & Hwf' & _).
          eexists. split; [by apply upd_sdpObject_run|]. split; [|done].
          constructor; mrun; done.
        - eexists. split; [by mrun|]. split; [|done]. constructor; mrun; done. }
      mrun. rewrite Hsec1.
      apply update_sections_run; [|done|rewrite Hsec1; lia].
      intros ms Hwf.
      destruct (SetIceParameters_run (JObj ice') u p ms Hwf) as (ms' & ? & ? & _); eauto. }
    exists r'. split; [done|].
    apply (UpdateIceParameters_exact _ _ _ l) in Hupd
      as (secs & l' & sdp' & -> & _ & Hls & _ & Hin & _); [|done..].
    mrun. split; [done|]. split; [done|].
    intros j ms Hms. destruct (Hin j ms Hms) as (ms' & Happ & Hs & _).
    exists ms'. split; [done|].
    assert (section_wf ms) as Hwf.
    { destruct Hdoc as [Hall _]. rewrite Forall_forall in Hall. apply Hall.
      by eapply list_elem_of_lookup_2. }
    destruct (SetIceParameters_run (JObj ice') u p ms Hwf) as (ms1 & Happ1 & _ & Hrest);
      [done..|].
    rewrite Happ in Happ1. inversion Happ1; subst ms1. exact Hrest.
  - intros Hmissing Hne.
    destruct (mediaSections r) as [|ms secs] eqn:Hsecs; [done|].
    assert (section_wf ms) as (o & mid & port & Ho & _).
    { destruct Hdoc as [Hall _]. rewrite Hsecs in Hall. by inversion Hall. }
    unfold Sdp.UpdateIceParameters. mrun.
    assert (∃ r1, (match j_find "iceLite" (JObj ice') with
                   | Some _ => Sdp.upd_sdpObject (j_set "icelite" (JStr "ice-lite"))
                   | None => mret tt
                   end) (set_iceParameters (JObj ice') r) = SOk tt r1
                  ∧ mediaSections r1 = mediaSections r)
      as (r1 & -> & Hsec1).
    { destruct Hdoc as [Hsec Hsdp]. destruct (j_find "iceLite" (JObj ice')).
      - destruct (sdp_set_icelite _ Hsdp) as (sdp' & Hset & Hwf' & _).
        eexists. split; [by apply upd_sdpObject_run|]. done.
      - eexists. split; [by mrun|]. done. }
    mrun. rewrite Hsec1, Hsecs. cbn [length Sdp.update_sections].
    rewrite run_bind. rewrite (section_at_run _ _ ms) by (by rewrite Hsec1, Hsecs).
    mrun. unfold Section.apply, Section.SetIceParameters. rewrite Ho. cbn [j_get].
    destruct Hmissing as [-> | Hp]; [done|].
    destruct (Obj.find "usernameFragment" ice'); cbn [mbind res_bind j_set];
      by rewrite ?Hp.
Qed.

Lemma UpdateIceParameters_sets_credentials_witness :
  Sdp.new ex_ice (JArr []) ex_dtls ex_sctp = Ok ex_doc
  ∧ run [OpAdd (ex_section "a"); OpAdd (ex_section "b")] ex_doc = SOk tt ex_doc2
  ∧ (∃ r' ms',
       Sdp.UpdateIceParameters
         (JObj [("password", JStr "p2"); ("usernameFragment", JStr "u2")]) ex_doc2
       = SOk tt r'
       ∧ mediaSections r' !! 1%nat = Some ms'
       ∧ j_find "iceUfrag" (mediaObject ms') = Some (JStr "u2")
       ∧ j_find "icePwd" (mediaObject ms') = Some (JStr "p2")
       ∧ j_find "mid" (mediaObject ms') = Some (JStr "b"))
  ∧ Sdp.UpdateIceParameters (JObj [("password", JStr "p2")]) ex_doc2 = SUndef.
Proof.
  split; [vm_compute; reflexivity|]. split; [vm_compute; reflexivity|].
  split.
  - destruct (UpdateIceParameters_sets_credentials ex_ice (JArr []) ex_dtls ex_sctp
                ex_doc ex_doc2 [OpAdd (ex_section "a"); OpAdd (ex_section "b")]
                [("password", JStr "p2"); ("usernameFragment", JStr "u2")])
      as [Hset _]; [vm_compute; reflexivity..|].
    destruct (Hset (JStr "u2") (JStr "p2")) as (r' & Hrun & _ & _ & Hsec);
      [reflexivity..|].
    destruct (Hsec 1%nat (ex_section "b")) as (ms' & Hms' & Hu & Hp & Hrest);
      [vm_compute; reflexivity|].
    exists r', ms'. split; [exact Hrun|]. split; [exact Hms'|].
    split; [exact Hu|]. split; [exact Hp|]. rewrite Hrest by done.
    vm_compute; reflexivity.
  - destruct (UpdateIceParameters_sets_credentials ex_ice (JArr []) ex_dtls ex_sctp
                ex_doc ex_doc2 [OpAdd (ex_section "a"); OpAdd (ex_section "b")]
                [("password", JStr "p2")])
      as [_ Hundef]; [vm_compute; reflexivity..|].
    apply Hundef; [by left|vm_compute; discriminate].
Defined.

Lemma SetDtlsRole_run role ms :
  section_wf ms →
  ∃ ms', Section.apply (Section.SetDtlsRole (section_variant ms) role) ms = Ok ms'
    ∧ section_wf ms'
    ∧ section_variant ms' = section_variant ms
    ∧ j_find "setup" (mediaObject ms')
      = setup_for (section_variant ms) role (j_find "setup" (mediaObject ms))
    ∧ ∀ k, k ≠ "setup" → j_find k (mediaObject ms') = j_find k (mediaObject ms).
Proof.
  intros (o & mid & port & Ho & Hmid & Hport).
  unfold Section.apply, Section.SetDtlsRole, setup_for. rewrite Ho.
  destruct (section_variant ms); repeat case_decide; cbn [j_set mbind res_bind];
    (eexists; split; [done|]); cbn [mediaObject section_variant j_find];
    (split; [eexists _, mid, port; split; [done|]; by find_simpl|]);
    (split; [done|]); (split; [by find_simpl|]); intros k Hk; by find_simpl.
Qed.

Lemma step_dtls_object o r r' :
  reg_inv r → (∃ d, dtlsParameters r = JObj d) → step o r = SOk tt r' →
  ∃ d, dtlsParameters r' = JObj d.
Proof.
  intros [_ _ (l & Hl & Hlen) _] Hd Hstep.
  destruct o as [ms|ms reuseMid|mid|mid|ice|role|]; cbn [step] in Hstep.
  - by apply AddMediaSection_exact in Hstep as (mid & sdp' & _ & -> & _).
  - unfold Sdp.commit_answer in Hstep. case_decide.
    + by apply ReplaceMediaSection_exact in Hstep
        as (old & oldMid & newMid & sdp' & _ & _ & _ & -> & _).
    + by apply AddMediaSection_exact in Hstep as (mid & sdp' & _ & -> & _).
  - by apply CloseMediaSection_exact in Hstep as (ms & ms' & sdp' & _ & _ & -> & _).
  - by apply DisableMediaSection_exact in Hstep as (ms & ms' & _ & _ & ->).
  - by apply (UpdateIceParameters_exact _ _ _ l) in Hstep
      as (secs & l' & sdp' & -> & _); [|done..].
  - apply (UpdateDtlsRole_exact _ _ _ l) in Hstep
      as (dtls & secs & l' & sdp' & Hset & -> & _); [|done..].
    destruct Hd as [d Hd]. rewrite Hd in Hset. cbn in Hset. inversion Hset. by eexists.
  - mrun in Hstep. destruct (Sdp.GetSdp r) as [sdp r1| |] eqn:Hget; mrun in Hstep; [|done..].
    inversion Hstep; subst r1; clear Hstep.
    by apply GetSdp_exact in Hget as [-> _].
Qed.

Lemma reachable_dtls_object ice cand dtls sctp r0 ops r :
  Sdp.new ice cand dtls sctp = Ok r0 → run ops r0 = SOk tt r →
  ∃ d, dtlsParameters r = JObj d.
Proof.
  intros Hnew Hrun.
  assert (reg_inv r0 ∧ ∃ d, dtlsParameters r0 = JObj d) as [Hinv Hd].
  { split; [by eapply new_reg_inv|].
    unfold Sdp.new in Hnew. cbv zeta in Hnew. res_inv Hnew.
    inversion Hnew; subst r0. cbn [dtlsParameters].
    match goal with
    | Hx : j_set "fingerprints" _ ?j = Ok ?d |- ∃ _, ?d = _ =>
        destruct j; try done; cbn in Hx; inversion Hx; by eexists
    end. }
  clear Hnew. revert r0 Hinv Hd Hrun.
  induction ops as [|o ops IH]; intros r0 Hinv Hd Hrun; cbn [run] in Hrun.
  - mrun in Hrun. by inversion Hrun; subst.
  - rewrite run_bind in Hrun.
    destruct (step o r0) as [[] r1| |] eqn:Hstep; [|done..].
    apply (IH r1); [by eapply step_reg_inv|by eapply step_dtls_object|done].
Qed.

(** X9.  On a document built by the constructor, after any operations that
    complete, [UpdateDtlsRole] completes for every role.  It stores the role
    in the DTLS parameters; every offer section gets the setup "actpass";
    every answer section gets "active", "passive" or "actpass" for the roles
    "client", "server" and "auto", and keeps its setup for any other role;
    no other member of a section changes. *)
Theorem UpdateDtlsRole_sets_setup ice cand dtls sctp (r0 r : RemoteSdp) (ops : list op)
    (role : string) :
  Sdp.new ice cand dtls sctp = Ok r0 →
  run ops r0 = SOk tt r →
  ∃ r', Sdp.UpdateDtlsRole role r = SOk tt r'
    ∧ j_find "role" (dtlsParameters r') = Some (JStr role)
    ∧ (∀ k, k ≠ "role" → j_find k (dtlsParameters r') = j_find k (dtlsParameters r))
    ∧ length (mediaSections r') = length (mediaSections r)
    ∧ ∀ j ms, mediaSections r !! j = Some ms →
        ∃ ms', mediaSections r' !! j = Some ms'
          ∧ section_variant ms' = section_variant ms
          ∧ j_find "setup" (mediaObject ms')
            = setup_for (section_variant ms) role (j_find "setup" (mediaObject ms))
          ∧ ∀ k, k ≠ "setup" → j_find k (mediaObject ms') = j_find k (mediaObject ms).
Proof.
  intros Hnew Hrun.
  pose proof (reachable_reg_inv _ _ _ _ _ _ _ Hnew Hrun) as [Hdoc _ (l & Hl & Hlen) _].
  destruct (reachable_dtls_object _ _ _ _ _ _ _ Hnew Hrun) as [d Hd].
  assert (∃ r', Sdp.UpdateDtlsRole role r = SOk tt r') as [r' Hupd].
  { unfold Sdp.UpdateDtlsRole. mrun. rewrite Hd. cbn [j_set]. mrun.
    assert (∃ r1, (match j_find "iceLite" (iceParameters r) with
                   | Some _ => Sdp.upd_sdpObject (j_set "icelite" (JStr "ice-lite"))
                   | None => mret tt
                   end) (set_dtlsParameters (JObj (Obj.set "role" (JStr role) d)) r)
                  = SOk tt r1
                  ∧ doc_inv r1 ∧ mediaSections r1 = mediaSections r)
      as (r1 & -> & Hdoc1 & Hsec1).
    { destruct Hdoc as [Hsec Hsdp]. destruct (j_find "iceLite" (iceParameters r)).
      - destruct (sdp_set_icelite _ Hsdp) as (sdp' & Hset & Hwf' & _).
        eexists. split; [by apply upd_sdpObject_run|]. split; [|done].
        constructor; mrun; done.
      - eexists. split; [by mrun|]. split; [|done]. constructor; mrun; done. }
    apply update_sections_run; [|done|rewrite Hsec1; lia].
    intros ms Hwf. destruct (SetDtlsRole_run role ms Hwf) as (ms' & ? & ? & _); eauto. }
  exists r'. split; [done|].
  apply (UpdateDtlsRole_exact _ _ _ l) in Hupd
    as (dtls' & secs & l' & sdp' & Hset & -> & _ & Hls & _ & Hin & _); [|done..].
  mrun. apply j_set_find in Hset as [Hrole Hother].
  split; [done|]. split; [done|]. split; [done|].
  intros j ms Hms. destruct (Hin j ms Hms) as (ms' & Happ & Hs & _).
  exists ms'. split; [done|].
  assert (section_wf ms) as Hwf.
  { destruct Hdoc as [Hall _]. rewrite Forall_forall in Hall. apply Hall.
    by eapply list_elem_of_lookup_2. }
  destruct (SetDtlsRole_run role ms Hwf) as (ms1 & Happ1 & _ & Hrest).
  rewrite Happ in Happ1. inversion Happ1; subst ms1. exact Hrest.
Qed.

Lemma UpdateDtlsRole_sets_setup_witness :
  Sdp.new ex_ice (JArr []) ex_dtls ex_sctp = Ok ex_doc
  ∧ run [OpAdd (ex_section "a"); OpAnswer (ex_answer_section "b") ""] ex_doc
    = SOk tt ex_doc7
  ∧ ∃ r' ms0 ms1,
      Sdp.UpdateDtlsRole "server" ex_doc7 = SOk tt r'
      ∧ mediaSections r' = [ms0; ms1]
      ∧ j_find "setup" (mediaObject ms0) = Some (JStr "actpass")
      ∧ j_find "setup" (mediaObject ms1) = Some (JStr "passive")
      ∧ j_find "role" (dtlsParameters r') = Some (JStr "server").
Proof.
  split; [vm_compute; reflexivity|]. split; [vm_compute; reflexivity|].
  destruct (UpdateDtlsRole_sets_setup ex_ice (JArr []) ex_dtls ex_sctp ex_doc ex_doc7
              [OpAdd (ex_section "a"); OpAnswer (ex_answer_section "b") ""] "server")
    as (r' & Hrun & Hrole & _ & Hlen & Hsec); [vm_compute; reflexivity..|].
  destruct (Hsec 0%nat (ex_section "a")) as (ms0 & Hms0 & _ & Hs0 & _);
    [vm_compute; reflexivity|].
  destruct (Hsec 1%nat (ex_answer_section "b")) as (ms1 & Hms1 & _ & Hs1 & _);
    [vm_compute; reflexivity|].
  exists r', ms0, ms1. split; [exact Hrun|]. split.
  - destruct (mediaSections r') as [|x [|y [|z l]]]; cbn in Hlen; try done.
    cbn in Hms0, Hms1. congruence.
  - split; [exact Hs0|]. split; [exact Hs1|exact Hrole].
Defined.

(** ** The constructor of the remote description *)

Lemma last_insert_id {A} (l : list A) x :
  last l = Some x → <[(length l - 1)%nat := x]> l = l.
Proof.
  intros Hlast. apply list_insert_id. rewrite last_lookup in Hlast.
  by replace (length l - 1)%nat with (Nat.pred (length l)) by lia.
Qed.

(** X10.  The constructor takes the last fingerprint of the DTLS
    parameters.  With a "fingerprints" array whose last element is an object
    with "algorithm" and "value", it completes with these two as "type" and
    "hash" of the fingerprint of the document, an empty bundle list, session
    version 0, no section, and DTLS parameters that read as the ones given;
    with an empty "fingerprints" array it indexes the array at
    [numFingerprints - 1], out of its range, which is undefined. *)
Theorem new_takes_last_fingerprint (ice cand sctp : json) (d : list (string * json))
    (fps : list json) :
  Obj.find "fingerprints" d = Some (JArr fps) →
  (fps = [] → Sdp.new ice cand (JObj d) sctp = Undef)
  ∧ (∀ fp a v,
       last fps = Some (JObj fp) →
       Obj.find "algorithm" fp = Some a → Obj.find "value" fp = Some v →
       ∃ r, Sdp.new ice cand (JObj d) sctp = Ok r
         ∧ j_find "fingerprint" (sdpObject r) = Some (obj_lit [("type", a); ("hash", v)])
         ∧ bundle_of (sdpObject r) = Some ""
         ∧ session_version (sdpObject r) = Some 0
         ∧ mediaSections r = []
         ∧ ∀ k, j_find k (dtlsParameters r) = Obj.find k d).
Proof.
  intros Hfps. split.
  - intros ->. unfold Sdp.new. cbv zeta.
    destruct (j_find "iceLite" ice); cbn [j_set mbind res_bind obj_lit];
      rewrite (j_ref_found _ _ _ Hfps); done.
  - intros fp a v Hlast Ha Hv.
    assert (∃ r, Sdp.new ice cand (JObj d) sctp = Ok r
                 ∧ j_find "fingerprint" (sdpObject r)
                   = Some (obj_lit [("type", a); ("hash", v)])
                 ∧ ∀ k, j_find k (dtlsParameters r) = Obj.find k d)
      as (r & Hnew & Hfp & Hdtls).
    { unfold Sdp.new. cbv zeta.
      destruct (j_find "iceLite" ice); cbn [j_set mbind res_bind obj_lit];
        rewrite (j_ref_found _ _ _ Hfps); cbn [mbind res_bind]; rewrite Hlast;
        cbn [mbind res_bind]; rewrite (j_ref_found _ _ _ Ha); cbn [mbind res_bind];
        rewrite (j_ref_found _ _ _ Hv); cbn [mbind res_bind j_set_idx j_set j_size j_items];
        (eexists; split; [reflexivity|]); cbn [sdpObject dtlsParameters j_find];
        (split; [by find_simpl|]);
        intros k; (destruct (decide (k = "fingerprints")) as [->|Hk];
          [rewrite ObjFacts.find_set_eq, Hfps; f_equal; f_equal;
           change (j_size (JArr fps)) with (length fps);
           rewrite arr_set_insert
             by (destruct fps; [done|cbn [length]; lia]);
           by apply last_insert_id
          |by find_simpl]). }
    exists r. split; [done|]. split; [done|].
    apply new_inv in Hnew as (_ & Hb & Hsec & Hv0 & _).
    unfold bundle_inv in Hb. rewrite Hsec in Hb. by rewrite Hb, Hv0.
Qed.

Lemma new_takes_last_fingerprint_witness :
  (∃ r, Sdp.new ex_ice (JArr [])
          (JObj [ ("fingerprints",
                   JArr [ JObj [("algorithm", JStr "sha-1"); ("value", JStr "00:11")];
                          JObj [("algorithm", JStr "sha-256"); ("value", JStr "AB:CD")] ]);
                  ("role", JStr "auto") ]) ex_sctp = Ok r
        ∧ j_find "fingerprint" (sdpObject r)
          = Some (JObj [("hash", JStr "AB:CD"); ("type", JStr "sha-256")]))
  ∧ Sdp.new ex_ice (JArr []) (JObj [("fingerprints", JArr []); ("role", JStr "auto")])
            ex_sctp = Undef.
Proof.
  split.
  - destruct (new_takes_last_fingerprint ex_ice (JArr []) ex_sctp
                [ ("fingerprints",
                   JArr [ JObj [("algorithm", JStr "sha-1"); ("value", JStr "00:11")];
                          JObj [("algorithm", JStr "sha-256"); ("value", JStr "AB:CD")] ]);
                  ("role", JStr "auto") ]
                [ JObj [("algorithm", JStr "sha-1"); ("value", JStr "00:11")];
                  JObj [("algorithm", JStr "sha-256"); ("value", JStr "AB:CD")] ])
      as [_ Hlast]; [reflexivity|].
    destruct (Hlast [("algorithm", JStr "sha-256"); ("value", JStr "AB:CD")]
                (JStr "sha-256") (JStr "AB:CD")) as (r & Hnew & Hfp & _);
      [reflexivity..|].
    exists r. split; [exact Hnew|exact Hfp].
  - destruct (new_takes_last_fingerprint ex_ice (JArr []) ex_sctp
                [("fingerprints", JArr []); ("role", JStr "auto")] [])
      as [Hempty _]; [reflexivity|].
    by apply Hempty.
Defined.

(** ** The constructors of the sections *)

Lemma unchanged_off_refl K m : unchanged_off K m m.
Proof. by intros k Hk. Qed.

Lemma unchanged_off_trans K m1 m2 m3 :
  unchanged_off K m1 m2 → unchanged_off K m2 m3 → unchanged_off K m1 m3.
Proof. intros H1 H2 k Hk. by rewrite H2, H1. Qed.

Lemma unchanged_off_weaken K K' m m' :
  K ⊆ K' → unchanged_off K m m' → unchanged_off K' m m'.
Proof. intros Hsub H k Hk. apply H. intros Hin. apply Hk. by apply Hsub. Qed.

Lemma unchanged_off_singleton k K m m' :
  k ∈ K → unchanged_off [k] m m' → unchanged_off K m m'.
Proof.
  intros Hin H k2 Hk2. apply H. intros Hx. apply list_elem_of_singleton in Hx as ->. done.
Qed.

(** Closes [k ∈ [k1; ...; kn]] for a key of the list. *)
Ltac in_list := repeat first [apply list_elem_of_here | apply list_elem_of_further].

Lemma j_set_unchanged k v m m' : j_set k v m = Ok m' → unchanged_off [k] m m'.
Proof.
  intros Hset k2 Hk2. apply j_set_find in Hset as [_ Ho]. apply Ho.
  intros ->. apply Hk2. apply list_elem_of_here.
Qed.

Lemma j_upd_unchanged k f m m' : j_upd k f m = Ok m' → unchanged_off [k] m m'.
Proof.
  intros Hupd k2 Hk2. apply j_upd_find in Hupd as (? & ? & _ & _ & _ & _ & Ho).
  apply Ho. intros ->. apply Hk2. apply list_elem_of_here.
Qed.

Lemma j_push_at_unchanged k v m m' : j_push_at k v m = Ok m' → unchanged_off [k] m m'.
Proof. apply j_upd_unchanged. Qed.

Lemma res_fold_rel {A B} (R : B → B → Prop) (f : B → A → res B) l :
  (∀ b, R b b) → (∀ a b c, R a b → R b c → R a c) →
  (∀ b x b', f b x = Ok b' → R b b') →
  ∀ b b', res_fold f l b = Ok b' → R b b'.
Proof.
  intros Hrefl Htrans Hf. induction l as [|x l IH]; intros b b' Hfold;
    cbn [res_fold] in Hfold.
  - inversion Hfold; subst. apply Hrefl.
  - apply res_bind_inv in Hfold as (b1 & Hstep & Hfold).
    eapply Htrans; [by eapply Hf|by eapply IH].
Qed.

Lemma res_fold_unchanged {A} K (f : json → A → res json) l m m' :
  (∀ b x b', f b x = Ok b' → unchanged_off K b b') →
  res_fold f l m = Ok m' → unchanged_off K m m'.
Proof.
  intros Hf. apply (res_fold_rel (unchanged_off K)); [|exact (unchanged_off_trans K)|done].
  apply unchanged_off_refl.
Qed.

(** One step of [res_inv]. *)
Ltac res_step H :=
  apply res_bind_inv in H;
  let a := fresh "a" in
  let Ha := fresh "Ha" in
  destruct H as (a & Ha & H);
  repeat match goal with
         | p : (_ * _)%type |- _ => destruct p
         end;
  cbv beta iota in H.

(** Closes [k ∉ [k1; ...; kn]] for strings that differ. *)
Ltac not_in_list :=
  let Hin := fresh "Hin" in
  intros Hin;
  repeat (apply elem_of_cons in Hin as [Hin|Hin];
          [first [ discriminate Hin
                 | subst;
                   match goal with
                   | Hk : _ ∉ _ |- _ => by (apply Hk; in_list)
                   | Hk : _ ≠ _ |- _ => by apply Hk
                   end ]|]);
  by apply elem_of_nil in Hin.

(** Turns the assignments of a chain into frames. *)
Ltac to_frames :=
  repeat match goal with
         | Hx : j_set ?k _ ?m = Ok ?m' |- _ =>
             let Hf := fresh "Hframe" in
             let Hv := fresh "Hval" in
             pose proof (j_set_unchanged _ _ _ _ Hx) as Hf;
             apply j_set_find in Hx as [Hv _]
         | Hx : j_push_at ?k _ ?m = Ok ?m' |- _ =>
             apply j_push_at_unchanged in Hx
         end.

(** Reads a member back through the frames of a chain. *)
Ltac frame_back :=
  repeat match goal with
         | Hx : unchanged_off ?K _ ?x |- context [j_find ?k ?x] =>
             rewrite (Hx k) by not_in_list
         end.

Section ConstructorFrames.
Context `{Collaborators}.

Lemma push_fmtp_unchanged payloadType config m m' :
    push_fmtp payloadType config m = Ok m' → unchanged_off ["fmtp"] m m'.
  Proof.
    unfold push_fmtp. case_decide.
    - intros [= <-]. apply unchanged_off_refl.
    - intros Hrun. res_step Hrun. by eapply j_push_at_unchanged.
  Qed.

Lemma Offer_codec_body_unchanged m codec m' :
    Offer.codec_body m codec = Ok m' → unchanged_off ["rtp"; "fmtp"; "rtcpFb"] m m'.
  Proof.
    unfold Offer.codec_body. intros Hrun. do 8 res_step Hrun.
    apply (res_fold_unchanged ["rtp"; "fmtp"; "rtcpFb"]) in Hrun.
    - repeat match goal with
             | Hx : push_fmtp _ _ _ = Ok _ |- _ => apply push_fmtp_unchanged in Hx
             end.
      to_frames. intros k Hk. rewrite (Hrun k Hk). frame_back. done.
    - intros b x b' Hb. do 2 res_step Hb. apply j_push_at_unchanged in Hb.
      eapply unchanged_off_singleton; [|exact Hb]. in_list.
  Qed.

Lemma SetIceParameters_fields ice m m' :
    Section.SetIceParameters ice m = Ok m' →
    unchanged_off ["iceUfrag"; "icePwd"] m m'
    ∧ Some <$> j_get "usernameFragment" ice = Ok (j_find "iceUfrag" m')
    ∧ Some <$> j_get "password" ice = Ok (j_find "icePwd" m').
  Proof.
    unfold Section.SetIceParameters. intros Hrun. do 3 res_step Hrun.
    rewrite Ha, Ha1. cbn [fmap res_fmap]. to_frames.
    split; [|split].
    - intros k Hk. by frame_back.
    - frame_back. by rewrite Hval0.
    - by rewrite Hval.
  Qed.

Lemma init_fields ice cand m :
    Section.init ice cand = Ok m →
    unchanged_off ["iceUfrag"; "icePwd"; "candidates"; "endOfCandidates"; "iceOptions"]
                  JNull m
    ∧ Some <$> j_get "usernameFragment" ice = Ok (j_find "iceUfrag" m)
    ∧ Some <$> j_get "password" ice = Ok (j_find "icePwd" m)
    ∧ j_find "endOfCandidates" m = Some (JStr "end-of-candidates")
    ∧ j_find "iceOptions" m = Some (JStr "renomination").
  Proof.
    unfold Section.init. intros Hrun. do 4 res_step Hrun.
    apply SetIceParameters_fields in Ha as (Hice & Hu & Hp).
    apply (res_fold_unchanged ["candidates"]) in Ha1.
    2:{ intros b x b' Hb. res_step Hb. by eapply j_push_at_unchanged. }
    to_frames. rewrite Hu, Hp. split; [|split; [|split; [|split]]].
    - intros k Hk. by frame_back.
    - f_equal. by frame_back.
    - f_equal. by frame_back.
    - by frame_back.
    - done.
  Qed.

Lemma Offer_ssrc_block_unchanged rtp streamId trackId m m' :
    Offer.ssrc_block rtp streamId trackId m = Ok m' →
    unchanged_off ["ssrcs"; "ssrcGroups"] m m'.
  Proof.
    unfold Offer.ssrc_block. intros Hrun. do 8 res_step Hrun.
    assert (unchanged_off ["ssrcs"; "ssrcGroups"] a5 m') as Hlast.
    { destruct (j_find "cname" a6) as [[]|]; try (inversion Hrun; subst; by intros k Hk).
      do 2 res_step Hrun. destruct (a3 =? 0).
      - inversion Hrun; subst. to_frames. intros k Hk. by frame_back.
      - do 2 res_step Hrun. to_frames. intros k Hk. by frame_back. }
    to_frames. intros k Hk. rewrite (Hlast k Hk). by frame_back.
  Qed.

Lemma Offer_media_branch_fields rtp streamId trackId m m' :
    Offer.media_branch rtp streamId trackId m = Ok m' →
    unchanged_off ["direction"; "rtp"; "rtcpFb"; "fmtp"; "payloads"; "ext"; "rtcpMux";
                   "rtcpRsize"; "ssrcs"; "ssrcGroups"] m m'
    ∧ j_find "direction" m' = Some (JStr "sendonly")
    ∧ j_find "rtcpMux" m' = Some (JStr "rtcp-mux")
    ∧ j_find "rtcpRsize" m' = Some (JStr "rtcp-rsize").
  Proof.
    unfold Offer.media_branch. intros Hrun. do 14 res_step Hrun.
    apply Offer_ssrc_block_unchanged in Hrun.
    apply (res_fold_unchanged ["rtp"; "fmtp"; "rtcpFb"]) in Ha4;
      [|intros b x b'; apply Offer_codec_body_unchanged].
    apply (res_fold_unchanged ["ext"]) in Ha10.
    2:{ intros b x b' Hb. do 2 res_step Hb. by eapply j_push_at_unchanged. }
    to_frames. split; [|split; [|split]].
    - intros k Hk. by frame_back.
    - by frame_back.
    - by frame_back.
    - by frame_back.
  Qed.

  (** What the constructor of an offer section sets before the branch on
      the kind, and what the branches add. *)
Lemma Offer_new_fields ice cand sctp mid kind rtp streamId trackId m :
    Offer.new ice cand sctp mid kind rtp streamId trackId = Ok m →
    j_find "mid" m = Some (JStr mid)
    ∧ j_find "type" m = Some (JStr kind)
    ∧ j_find "port" m = Some (JInt 7)
    ∧ j_find "setup" m = Some (JStr "actpass")
    ∧ j_find "protocol" m
      = Some (JStr (match sctp with JNull => "UDP/TLS/RTP/SAVPF" | _ => "UDP/DTLS/SCTP" end))
    ∧ j_find "connection" m
      = Some (obj_lit [("ip", JStr "127.0.0.1"); ("version", JInt 4)])
    ∧ j_find "direction" m
      = (if decide (kind = "audio" ∨ kind = "video") then Some (JStr "sendonly") else None)
    ∧ j_find "endOfCandidates" m = Some (JStr "end-of-candidates")
    ∧ j_find "iceOptions" m = Some (JStr "renomination").
  Proof.
    unfold Offer.new. intros Hrun. do 7 res_step Hrun.
    apply init_fields in Ha as (Hinit & _ & _ & Heoc & Hopt).
    assert (unchanged_off ["direction"; "rtp"; "rtcpFb"; "fmtp"; "payloads"; "ext";
                           "rtcpMux"; "rtcpRsize"; "ssrcs"; "ssrcGroups"; "sctpPort";
                           "maxMessageSize"] a5 m
            ∧ j_find "direction" m
              = (if decide (kind = "audio" ∨ kind = "video")
                 then Some (JStr "sendonly") else j_find "direction" a5))
      as [Hbranch Hdir].
    { destruct (decide (kind = "audio" ∨ kind = "video")) as [Hk|Hk].
      - apply Offer_media_branch_fields in Hrun as (Hf & Hd & _). split; [|done].
        intros k Hk'. apply Hf. intros Hin. apply Hk'.
        repeat (apply elem_of_cons in Hin as [->|Hin]; [in_list|]).
        by apply elem_of_nil in Hin.
      - case_decide.
        + do 4 res_step Hrun. to_frames. split; [|by frame_back].
          intros k Hk'. by frame_back.
        + inversion Hrun; subst. split; [|done]. by intros k Hk'. }
    to_frames. rewrite Hdir.
    repeat split; by frame_back.
  Qed.

Lemma j_for_unchanged K (body : json → json → res (json * json)) m j m' j' :
    (∀ b x b' x', body b x = Ok (b', x') → unchanged_off K b b') →
    j_for body m j = Ok (m', j') → unchanged_off K m m'.
  Proof.
    intros Hbody. apply (j_for_rel (unchanged_off K)); [|exact (unchanged_off_trans K)|done].
    apply unchanged_off_refl.
  Qed.

Lemma Answer_codec_body_unchanged opts m off codec m' off' codec' :
    Answer.codec_body opts (m, off) codec = Ok ((m', off'), codec') →
    unchanged_off ["rtp"; "fmtp"; "rtcpFb"] m m'.
  Proof.
    unfold Answer.codec_body. intros Hrun. do 11 res_step Hrun.
    inversion Hrun; subst; clear Hrun.
    match goal with
    | Hx : j_for _ _ _ = Ok (m', _) |- _ =>
        apply (j_for_unchanged ["rtcpFb"]) in Hx
    end.
    2:{ intros b x b' x' Hb. do 3 res_step Hb. inversion Hb; subst.
        by eapply j_push_at_unchanged. }
    repeat match goal with
           | Hx : push_fmtp _ _ _ = Ok _ |- _ => apply push_fmtp_unchanged in Hx
           end.
    to_frames. intros k Hk. by frame_back.
  Qed.

Lemma Answer_ext_body_unchanged offer m ext m' ext' :
    Answer.ext_body offer m ext = Ok (m', ext') → unchanged_off ["ext"] m m'.
  Proof.
    unfold Answer.ext_body. intros Hrun. res_step Hrun.
    destruct (j_items a); [inversion Hrun; subst; by intros k Hk|].
    do 2 res_step Hrun. destruct a0.
    - do 2 res_step Hrun. inversion Hrun; subst. by eapply j_push_at_unchanged.
    - inversion Hrun; subst. by intros k Hk.
  Qed.

Lemma Answer_simulcast_block_unchanged offer m m' :
    Answer.simulcast_block offer m = Ok m' → unchanged_off ["simulcast"; "rids"] m m'.
  Proof.
    unfold Answer.simulcast_block. intros Hrun.
    destruct (j_find "simulcast" offer) as [simulcast|];
      [|inversion Hrun; subst; by intros k Hk].
    destruct (j_is_object simulcast); [|inversion Hrun; subst; by intros k Hk].
    destruct (j_find "rids" offer) as [rids|]; [|done].
    destruct (j_is_array rids); [|inversion Hrun; subst; by intros k Hk].
    do 5 res_step Hrun.
    apply (res_fold_unchanged ["rids"]) in Hrun.
    2:{ intros b x b' Hb. res_step Hb. destruct (j_eqb _ _).
        - res_step Hb. by eapply j_push_at_unchanged.
        - inversion Hb; subst. by intros k Hk. }
    repeat match goal with
           | Hx : j_upd ?k _ _ = Ok _ |- _ => apply j_upd_unchanged in Hx
           end.
    to_frames. intros k Hk. rewrite (Hrun k) by not_in_list. by frame_back.
  Qed.

Lemma Answer_media_branch_fields offer opts m off ans m' off' ans' :
    Answer.media_branch offer opts m off ans = Ok (m', off', ans') →
    unchanged_off ["direction"; "rtp"; "rtcpFb"; "fmtp"; "payloads"; "ext";
                   "extmapAllowMixed"; "simulcast"; "rids"; "rtcpMux"; "rtcpRsize"] m m'
    ∧ j_find "direction" m' = Some (JStr "recvonly")
    ∧ j_find "rtcpMux" m' = Some (JStr "rtcp-mux")
    ∧ j_find "rtcpRsize" m' = Some (JStr "rtcp-rsize").
  Proof.
    unfold Answer.media_branch. intros Hrun. do 17 res_step Hrun.
    inversion Hrun; subst; clear Hrun.
    repeat match goal with
           | Hx : j_for (Answer.codec_body _) (_, _) _ = Ok _ |- _ =>
               apply (j_for_rel (λ st st', unchanged_off ["rtp"; "fmtp"; "rtcpFb"]
                                              (fst st) (fst st'))) in Hx;
               [cbn [fst] in Hx
               |intros []; apply unchanged_off_refl
               |intros [] [] []; apply unchanged_off_trans
               |intros [] ? [] ?; apply Answer_codec_body_unchanged]
           | Hx : j_for (Answer.ext_body _) _ _ = Ok _ |- _ =>
               apply (j_for_unchanged ["ext"]) in Hx;
               [|intros ? ? ? ?; apply Answer_ext_body_unchanged]
           | Hx : Answer.simulcast_block _ _ = Ok _ |- _ =>
               apply Answer_simulcast_block_unchanged in Hx
           | Hx : match j_find "extmapAllowMixed" offer with _ => _ end = Ok _ |- _ =>
               destruct (j_find "extmapAllowMixed" offer) as [v|];
               [destruct (j_is_string v)|];
               try (inversion Hx; subst; clear Hx)
           end;
      to_frames; (split; [|split; [|split]]); try (by frame_back);
      intros k Hk; by frame_back.
  Qed.

  (** What the constructor of an answer section sets before the branch on
      the type, and the direction the branches leave. *)
Lemma Answer_new_fields ice cand dtls sctp offer off ans opts m off' ans' :
    Answer.new ice cand dtls sctp offer off ans opts = Ok (m, off', ans') →
    ∃ type role,
      j_find "type" offer = Some (JStr type)
      ∧ j_find "role" dtls = Some (JStr role)
      ∧ j_find "mid" m = j_find "mid" offer
      ∧ j_find "type" m = Some (JStr type)
      ∧ j_find "protocol" m = j_find "protocol" offer
      ∧ j_find "port" m = Some (JInt 7)
      ∧ j_find "setup" m = setup_for AnswerVariant role None
      ∧ j_find "connection" m
        = Some (obj_lit [("ip", JStr "127.0.0.1"); ("version", JInt 4)])
      ∧ j_find "direction" m
        = (if decide (type = "audio" ∨ type = "video")
           then Some (JStr "recvonly") else None).
  Proof.
    unfold Answer.new. intros Hrun. do 13 res_step Hrun.
    apply init_fields in Ha as (Hinit & _).
    assert (∀ k j v, j_get k j = Ok v → j_find k j = Some v) as Hget.
    { intros k j v. destruct j; try done. cbn. by destruct (Obj.find k o); intros [= ->]. }
    assert (∀ j s, get_string j = Ok s → j = JStr s) as Hstr.
    { intros j s. destruct j; try done. by intros [= ->]. }
    apply Hget in Ha0, Ha2, Ha5, Ha9.
    apply Hstr in Ha1 as ->. apply Hstr in Ha10 as ->.
    exists a1, a10. split; [done|]. split; [done|].
    assert (unchanged_off ["setup"] a8 a11
            ∧ j_find "setup" a11 = setup_for AnswerVariant a10 (j_find "setup" a8))
      as [Hsetup Hsetupv].
    { unfold Section.SetDtlsRole, setup_for in *.
      repeat case_decide; try (inversion Ha11; subst; split; [by intros k Hk|done]);
        to_frames; split; try done; intros k Hk; by frame_back. }
    assert (unchanged_off ["direction"; "rtp"; "rtcpFb"; "fmtp"; "payloads"; "ext";
                           "extmapAllowMixed"; "simulcast"; "rids"; "rtcpMux";
                           "rtcpRsize"; "sctpPort"; "maxMessageSize"] a11 m
            ∧ j_find "direction" m
              = (if decide (a1 = "audio" ∨ a1 = "video")
                 then Some (JStr "recvonly") else j_find "direction" a11))
      as [Hbranch Hdir].
    { destruct (decide (a1 = "audio" ∨ a1 = "video")) as [Hk|Hk].
      - apply Answer_media_branch_fields in Hrun as (Hf & Hd & _). split; [|done].
        intros k Hk'. apply Hf. intros Hin. apply Hk'.
        repeat (apply elem_of_cons in Hin as [->|Hin]; [in_list|]).
        by apply elem_of_nil in Hin.
      - case_decide.
        + do 5 res_step Hrun. inversion Hrun; subst. to_frames.
          split; [|by frame_back]. intros k Hk'. by frame_back.
        + inversion Hrun; subst. split; [|done]. by intros k Hk'. }
    to_frames. rewrite Hdir.
    assert (j_find "setup" a8 = None) as Hnone by (by frame_back).
    rewrite Hnone in Hsetupv.
    repeat split; try (by frame_back).
    - frame_back. by rewrite Ha2.
    - frame_back. by rewrite Ha5.
  Qed.
End ConstructorFrames.

(** ** The operations that construct a section *)

Lemma j_find_get k j v : j_find k j = Some v → j_get k j = Ok v.
Proof. destruct j; try done. cbn. by intros ->. Qed.

Section Constructing.
Context `{Collaborators}.

  (** X11.  A section that [CreateOffer] adds is found again under its mid.
      When [CreateOffer] completes, the sections are those from before
      followed by one offer section; this section has the mid given, is
      open (port 7), has the setup "actpass" and the protocol
      "UDP/TLS/RTP/SAVPF", and is "sendonly" when the kind is "audio" or
      "video"; the map sends the mid to the index of this section; the
      anchor mid is set to this mid if it was empty and is unchanged
      otherwise; and the "media" array of the document has the object of
      the section as a new last element. *)
Theorem CreateOffer_registers_section (mid kind : string) (offerRtpParameters : json)
      (streamId trackId : string) (r r' : RemoteSdp) :
    CreateOffer mid kind offerRtpParameters streamId trackId r = SOk tt r' →
    ∃ ms,
      mediaSections r' = (mediaSections r ++ [ms])%list
      ∧ section_variant ms = OfferVariant
      ∧ Section.GetMid ms = Ok mid
      ∧ Section.IsClosed ms = Ok false
      ∧ j_find "setup" (mediaObject ms) = Some (JStr "actpass")
      ∧ j_find "protocol" (mediaObject ms) = Some (JStr "UDP/TLS/RTP/SAVPF")
      ∧ j_find "direction" (mediaObject ms)
        = (if decide (kind = "audio" ∨ kind = "video")
           then Some (JStr "sendonly") else None)
      ∧ midToIndex r' = <[mid := length (mediaSections r)]> (midToIndex r)
      ∧ midToIndex r' !! mid = Some (length (mediaSections r))
      ∧ firstMid r' = (if decide (firstMid r = "") then mid else firstMid r)
      ∧ ∀ l, media_of (sdpObject r) = Some l →
             media_of (sdpObject r') = Some (l ++ [mediaObject ms])%list.
  Proof.
    unfold CreateOffer. intros Hrun. mrun in Hrun.
    destruct (Offer.new _ _ _ _ _ _ _ _) as [m| |] eqn:Hnew; mrun in Hrun; [|done..].
    apply Offer_new_fields in Hnew as (Hmid & _ & Hport & Hsetup & Hproto & _ & Hdir & _).
    apply AddMediaSection_exact in Hrun as (mid' & sdp' & Hmid' & -> & Hmedia & _).
    exists (mkSection OfferVariant m). cbn [mediaObject section_variant].
    unfold Section.GetMid, Section.IsClosed in *. cbn [mediaObject] in *.
    rewrite (j_find_get _ _ _ Hmid) in Hmid'. cbn in Hmid'. inversion Hmid'; subst mid'.
    rewrite (j_find_get _ _ _ Hmid), (j_find_get _ _ _ Hport). mrun.
    repeat split; try done. apply lookup_insert_eq.
  Qed.

  (** X12.  [CreateAnswer] puts the answer section in the slot of the
      reusable mid, or at the end when that mid is empty.  When it
      completes, the new section is an answer section with the mid, the type
      and the protocol of the offer media object, open (port 7), "recvonly"
      for "audio" and "video", with the setup of the DTLS role of the remote
      description; the offer RTP parameters it hands back differ from those
      given at "codecs" only. *)
Theorem CreateAnswer_commits_section (offerMediaObject : json) (reuseMid : string)
      (offerRtpParameters answerRtpParameters : json) (codecOptions : option json)
      (r r' : RemoteSdp) (off ans : json) :
    CreateAnswer offerMediaObject reuseMid offerRtpParameters answerRtpParameters
                 codecOptions r = SOk (off, ans) r' →
    ∃ ms type role,
      section_variant ms = AnswerVariant
      ∧ j_find "type" offerMediaObject = Some (JStr type)
      ∧ j_find "role" (dtlsParameters r) = Some (JStr role)
      ∧ j_find "mid" (mediaObject ms) = j_find "mid" offerMediaObject
      ∧ j_find "type" (mediaObject ms) = Some (JStr type)
      ∧ j_find "type" (mediaObject ms) = j_find "type" offerMediaObject
      ∧ j_find "protocol" (mediaObject ms) = j_find "protocol" offerMediaObject
      ∧ Section.IsClosed ms = Ok false
      ∧ j_find "setup" (mediaObject ms) = setup_for AnswerVariant role None
      ∧ j_find "direction" (mediaObject ms)
        = (if decide (type = "audio" ∨ type = "video")
           then Some (JStr "recvonly") else None)
      ∧ mediaSections r'
        = (if decide (reuseMid = "") then (mediaSections r ++ [ms])%list
           else <[default 0%nat (midToIndex r !! reuseMid) := ms]> (mediaSections r))
      ∧ (∀ k, k ≠ "codecs" → j_find k off = j_find k offerRtpParameters).
  Proof.
    unfold CreateAnswer. intros Hrun. mrun in Hrun.
    destruct (Answer.new _ _ _ _ _ _ _ _) as [[[m off1] ans1]| |] eqn:Hnew;
      mrun in Hrun; [|done..].
    destruct (Sdp.commit_answer _ _ _) as [[] r1| |] eqn:Hcommit; mrun in Hrun; [|done..].
    inversion Hrun; subst; clear Hrun.
    pose proof (Answer_new_frame _ _ _ _ _ _ _ _ _ _ _ Hnew) as Hframe.
    apply Answer_new_fields in Hnew
      as (type & role & Htype & Hrole & Hmid & Htype' & Hproto & Hport & Hsetup & _ & Hdir).
    exists (mkSection AnswerVariant m), type, role. cbn [mediaObject section_variant].
    do 5 (split; [done|]). split; [congruence|]. split; [done|]. split.
    { unfold Section.IsClosed. cbn [mediaObject]. by rewrite (j_find_get _ _ _ Hport). }
    do 2 (split; [done|]). split; [|exact Hframe].
    unfold Sdp.commit_answer in Hcommit. destruct (decide (reuseMid = "")) as [->|Hne].
    - rewrite decide_False in Hcommit by (intros Hx; by apply Hx).
      by apply AddMediaSection_exact in Hcommit as (mid' & sdp' & _ & -> & _).
    - rewrite decide_True in Hcommit by done.
      by apply ReplaceMediaSection_exact in Hcommit
        as (old & oldMid & newMid & sdp' & _ & _ & _ & -> & _).
  Qed.
End Constructing.

Section ConstructingExamples.
#[local] Existing Instance ex_collaborators.

Lemma CreateOffer_registers_section_witness :
  ∃ r' ms,
    CreateOffer "m1" "audio" ex_rtp "cn" "t1" ex_doc2 = SOk tt r'
    ∧ mediaSections r' = [ex_section "a"; ex_section "b"; ms]
    ∧ Section.GetMid ms = Ok "m1"
    ∧ Section.IsClosed ms = Ok false
    ∧ j_find "direction" (mediaObject ms) = Some (JStr "sendonly")
    ∧ midToIndex r' !! "m1" = Some 2%nat
    ∧ firstMid r' = "a".
Proof.
  eexists.
  match goal with
  | |- ∃ ms, ?run = SOk tt ?r' ∧ _ =>
      assert (run = SOk tt r') as Hrun by (vm_compute; reflexivity)
  end.
  destruct (CreateOffer_registers_section _ _ _ _ _ _ _ Hrun)
    as (ms & Hsec & _ & Hmid & Hclosed & _ & _ & Hdir & _ & Hidx & Hfirst & _).
  exists ms. split; [exact Hrun|]. split; [exact Hsec|]. split; [exact Hmid|].
  split; [exact Hclosed|]. split; [exact Hdir|]. split; [exact Hidx|exact Hfirst].
Defined.

Lemma CreateAnswer_commits_section_witness :
  ∃ off ans r' ms,
    CreateAnswer ex_offer_audio "b" ex_rtp ex_rtp None ex_doc2 = SOk (off, ans) r'
    ∧ mediaSections r' = [ex_section "a"; ms]
    ∧ section_variant ms = AnswerVariant
    ∧ j_find "mid" (mediaObject ms) = Some (JStr "0")
    ∧ j_find "type" (mediaObject ms) = Some (JStr "audio")
    ∧ j_find "direction" (mediaObject ms) = Some (JStr "recvonly")
    ∧ j_find "setup" (mediaObject ms) = Some (JStr "actpass").
Proof.
  eexists _, _, _.
  match goal with
  | |- ∃ ms, ?run = SOk ?x ?r' ∧ _ =>
      assert (run = SOk x r') as Hrun by (vm_compute; reflexivity)
  end.
  destruct (CreateAnswer_commits_section _ _ _ _ _ _ _ _ _ Hrun)
    as (ms & type & role & Hvar & Htype & Hrole & Hmid & Hmstype & _ & _ & _ & Hsetup
        & Hdir & Hsec & _).
  vm_compute in Htype. inversion Htype; subst type; clear Htype.
  vm_compute in Hrole. inversion Hrole; subst role; clear Hrole.
  exists ms. split; [exact Hrun|]. split; [exact Hsec|]. split; [exact Hvar|].
  split; [exact Hmid|]. split; [exact Hmstype|]. split; [exact Hdir|exact Hsetup].
Defined.

End ConstructingExamples.

(** ** The lines a section is given *)

Lemma pretty_N_go_nonempty x s : s ≠ "" → pretty_N_go x s ≠ "".
Proof.
  revert s. induction (N.lt_wf_0 x) as [x _ IH]; intros s Hs.
  assert (x = 0 ∨ 0 < x)%N as [->|Hx] by lia.
  - by rewrite pretty_N_go_0.
  - rewrite pretty_N_go_step by done. apply IH; [by apply N.div_lt|done].
Qed.

Lemma to_string_nonempty z : to_string z ≠ "".
Proof.
  unfold to_string, pretty, pretty_Z. destruct z as [|p|p]; [done| |done].
  unfold pretty, pretty_positive, pretty, pretty_N. rewrite decide_False by done.
  rewrite pretty_N_go_step by lia. by apply pretty_N_go_nonempty.
Qed.

(** The loop that builds "payloads" is the join with single spaces: no
    number prints as the empty string. *)
Lemma payloads_of_concat codecs (read : json → res json) pts :
  Forall2 (λ codec pt, ∃ v, read codec = Ok v ∧ get_uint 8 v = Ok pt) codecs pts →
  payloads_of codecs read = Ok (String.concat " " (to_string <$> pts)).
Proof.
  unfold payloads_of. intros Hall.
  assert (∀ acc,
    res_fold (λ payloads codec,
                v ← read codec; payloadType ← get_uint 8 v;
                Ok (append_sep " " payloads (to_string payloadType))) codecs acc
    = Ok (fold_left (append_sep " ") (to_string <$> pts) acc)) as Hfold.
  { induction Hall as [|codec pt codecs pts (v & Hread & Hpt) _ IH]; intros acc; [done|].
    cbn [res_fold fmap list_fmap fold_left]. rewrite Hread. cbn [mbind res_bind].
    rewrite Hpt. cbn [mbind res_bind]. apply IH. }
  rewrite Hfold. f_equal. apply fold_append_sep_concat.
  destruct pts as [|pt pts]; [done|]. cbn. intros [= Hx]. by apply to_string_nonempty in Hx.
Qed.

Section Lines.
Context `{Collaborators}.

Lemma Offer_media_branch_payloads rtp streamId trackId m m' :
    Offer.media_branch rtp streamId trackId m = Ok m' →
    ∃ codecs payloads,
      j_get "codecs" rtp = Ok codecs
      ∧ payloads_of (j_items codecs) (j_get "payloadType") = Ok payloads
      ∧ j_find "payloads" m' = Some (JStr payloads).
  Proof.
    unfold Offer.media_branch. intros Hrun. do 14 res_step Hrun.
    apply Offer_ssrc_block_unchanged in Hrun.
    apply (res_fold_unchanged ["ext"]) in Ha10.
    2:{ intros b x b' Hb. do 2 res_step Hb. by eapply j_push_at_unchanged. }
    exists a5, a6. split; [done|]. split; [done|].
    to_frames. by frame_back.
  Qed.

  (** X13.  The "payloads" member of an offer section for "audio" or
      "video" lists the payload types of the codecs of the RTP parameters,
      in their order, in decimal and separated by single spaces, each read
      as an 8-bit unsigned integer (so modulo 256). *)
Theorem Offer_new_payloads ice cand sctp (mid kind : string) (rtp : json)
      (streamId trackId : string) (m codecs : json) (ps : list Z) :
    Offer.new ice cand sctp mid kind rtp streamId trackId = Ok m →
    kind = "audio" ∨ kind = "video" →
    j_find "codecs" rtp = Some codecs →
    Forall2 (λ codec p, j_find "payloadType" codec = Some (JInt p)) (j_items codecs) ps →
    j_find "payloads" m
    = Some (JStr (String.concat " " ((λ p, to_string (p mod 256)) <$> ps))).
  Proof.
    unfold Offer.new. intros Hrun Hkind Hcodecs Hps. do 7 res_step Hrun.
    rewrite decide_True in Hrun by done.
    apply Offer_media_branch_payloads in Hrun as (codecs' & payloads & Hc & Hp & ->).
    rewrite (j_find_get _ _ _ Hcodecs) in Hc. inversion Hc; subst codecs'.
    rewrite (payloads_of_concat _ _ ((λ p, p mod 256) <$> ps)) in Hp.
    - inversion Hp. by rewrite <- list_fmap_compose.
    - apply Forall2_fmap_r. eapply Forall2_impl; [exact Hps|].
      intros codec p Hpt. exists (JInt p). split; [by apply j_find_get|done].
  Qed.
End Lines.

Section LinesExamples.
#[local] Existing Instance ex_collaborators.

Lemma Offer_new_payloads_witness :
  ∃ m, Offer.new ex_ice (JArr []) JNull "m1" "video" ex_two_codecs "cn" "t1" = Ok m
       ∧ j_find "payloads" m = Some (JStr "96 44").
Proof.
  eexists.
  match goal with
  | |- ?run = Ok ?m ∧ _ => assert (run = Ok m) as Hrun by (vm_compute; reflexivity)
  end.
  split; [exact Hrun|].
  rewrite (Offer_new_payloads _ _ _ _ _ _ _ _ _
             (default JNull (j_find "codecs" ex_two_codecs)) [96; 300] Hrun);
    [vm_compute; reflexivity|by right|vm_compute; reflexivity|].
  repeat constructor.
Defined.

End LinesExamples.

(** ** Operations on a registered transceiver *)

Section RegisteredFacts.
Context `{Collaborators} (E : Engine).

Lemma find_registered_run localId h :
    find_registered localId h
    = match mapMidTransceiver h !! localId with
      | Some t => SOk t h
      | None => SThrow (MscError "associated RtpTransceiver not found") h
      end.
  Proof. unfold find_registered. mrun. by destruct (mapMidTransceiver h !! localId). Qed.

  (** X14.  Every operation on a registered transceiver looks the local id
      up in the map first: for an id that is not in the map, each of them
      throws the error "associated RtpTransceiver not found" and leaves the
      handler as it was, whatever the engine would answer. *)
Theorem unregistered_localId_is_rejected (h : Handler) (localId : string)
      (removeTrack : Transceiver → Transceiver) (track : option Track)
      (setParameters : list RtpEncodingParameters → option string)
      (spatialLayer : Z) (stats : res json) :
    mapMidTransceiver h !! localId = None →
    let error := MscError "associated RtpTransceiver not found" in
    StopSending E removeTrack localId h = SThrow error h
    ∧ ReplaceTrack localId track h = SThrow error h
    ∧ SetMaxSpatialLayer setParameters localId spatialLayer h = SThrow error h
    ∧ GetSenderStats stats localId h = SThrow error h
    ∧ StopReceiving E localId h = SThrow error h
    ∧ GetReceiverStats stats localId h = SThrow error h.
  Proof.
    intros Hnone error.
    unfold StopSending, ReplaceTrack, SetMaxSpatialLayer, GetSenderStats, StopReceiving,
      GetReceiverStats.
    rewrite !run_bind, !find_registered_run, Hnone. done.
  Qed.
End RegisteredFacts.

Section RegisteredExamples.
#[local] Existing Instance ex_collaborators.

Lemma unregistered_localId_is_rejected_witness :
  mapMidTransceiver ex_handler !! "7" = None
  ∧ StopSending ex_engine (λ tr, tr) "7" ex_handler
    = SThrow (MscError "associated RtpTransceiver not found") ex_handler
  ∧ StopReceiving ex_engine "7" ex_handler
    = SThrow (MscError "associated RtpTransceiver not found") ex_handler.
Proof.
  split; [reflexivity|].
  destruct (unregistered_localId_is_rejected ex_engine ex_handler "7" (λ tr, tr) None
              (λ _, None) 1 (Ok JNull)) as (Hstop & _ & _ & _ & Hrecv & _);
    [reflexivity|].
  split; [exact Hstop|exact Hrecv].
Defined.

End RegisteredExamples.

Lemma set_layer_lookup has i b (l : list RtpEncodingParameters) j e :
  (has = true ↔ (i < length l)%nat) →
  l !! j = Some e →
  set_layer has i b l !! j = Some (if decide (j = i) then set_active b e else e).
Proof.
  intros Hhas Hj. unfold set_layer. destruct has.
  - destruct (decide (j = i)) as [->|Hne].
    + by rewrite list_lookup_alter_eq, Hj.
    + by rewrite list_lookup_alter_ne.
  - rewrite decide_False; [done|]. intros ->.
    apply lookup_lt_Some in Hj. apply Hhas in Hj. done.
Qed.

Lemma set_layer_length has i b (l : list RtpEncodingParameters) :
  length (set_layer has i b l) = length l.
Proof. unfold set_layer. destruct has; [apply length_alter|done]. Qed.

Lemma spatial_layers_lookup s (l : list RtpEncodingParameters) i e :
  l !! i = Some e →
  spatial_layers s l !! i
  = Some (if decide ((s = 1 ∨ s = 2 ∨ s = 3) ∧ (i < 3)%nat)
          then set_active (bool_decide (Z.of_nat i < s)) e else e).
Proof.
  intros Hi. unfold spatial_layers.
  assert (∀ low medium high,
    set_layer (bool_decide (2 < length l)%nat) 2 high
      (set_layer (bool_decide (1 < length l)%nat) 1 medium
         (set_layer (bool_decide (l ≠ [])) 0 low l)) !! i
    = Some (match i with
            | 0%nat => set_active low e
            | 1%nat => set_active medium e
            | 2%nat => set_active high e
            | _ => e
            end)) as Hedit.
  { intros low medium high.
    erewrite set_layer_lookup; [|rewrite !set_layer_length; by rewrite bool_decide_eq_true|].
    2:{ erewrite set_layer_lookup;
          [|rewrite !set_layer_length; by rewrite bool_decide_eq_true|].
        2:{ apply set_layer_lookup; [|done]. rewrite bool_decide_eq_true.
            destruct l; cbn; split; (done || lia). }
        reflexivity. }
    destruct i as [|[|[|i]]]; repeat case_decide; try done; lia. }
  destruct (Z.eqb_spec s 1) as [->|H1]; [|destruct (Z.eqb_spec s 2) as [->|H2];
    [|destruct (Z.eqb_spec s 3) as [->|H3]]]; rewrite ?Hedit.
  - destruct i as [|[|[|i]]]; repeat case_decide; try (done || lia);
      exfalso; naive_solver lia.
  - destruct i as [|[|[|i]]]; repeat case_decide; try (done || lia);
      exfalso; naive_solver lia.
  - destruct i as [|[|[|i]]]; repeat case_decide; try (done || lia);
      exfalso; naive_solver lia.
  - rewrite Hi. rewrite decide_False; [done|]. intros [[?|[?|?]] _]; done.
Qed.

Lemma spatial_layers_length s (l : list RtpEncodingParameters) :
  length (spatial_layers s l) = length l.
Proof.
  unfold spatial_layers. repeat case_match; by rewrite ?set_layer_length.
Qed.

(** X15.  [SetMaxSpatialLayer] on a registered transceiver hands the sender
    its encodings with only the flags "active" of the first three edited:
    for a spatial layer [s] of 1, 2 or 3, the encoding of index [i < 3] is
    active exactly when [i < s]; the encodings from the fourth on, and all
    of them for any other value of [s], are as they were.  If the sender
    accepts them the transceiver has them afterwards and nothing else in the
    handler changes; if it refuses, the operation throws an error with the
    message of the sender and the handler is as before. *)
Theorem SetMaxSpatialLayer_activates_lower_layers (h : Handler) (localId : string)
    (t : nat) (tr : Transceiver)
    (setParameters : list RtpEncodingParameters → option string) (s : Z) :
  mapMidTransceiver h !! localId = Some t →
  pc_transceivers h !! t = Some tr →
  let encodings := spatial_layers s (tr_send_encodings tr) in
  length encodings = length (tr_send_encodings tr)
  ∧ (∀ i e, tr_send_encodings tr !! i = Some e →
       encodings !! i
       = Some (if decide ((s = 1 ∨ s = 2 ∨ s = 3) ∧ (i < 3)%nat)
               then set_active (bool_decide (Z.of_nat i < s)) e else e))
  ∧ (setParameters encodings = None →
     SetMaxSpatialLayer setParameters localId s h
     = SOk tt (set_pc_transceivers
                 (<[t := set_send_encodings encodings tr]> (pc_transceivers h)) h))
  ∧ (∀ message, setParameters encodings = Some message →
       SetMaxSpatialLayer setParameters localId s h = SThrow (MscError message) h).
Proof.
  intros Hreg Htr encodings. split; [apply spatial_layers_length|].
  split; [intros i e; apply spatial_layers_lookup|].
  unfold SetMaxSpatialLayer. rewrite run_bind, find_registered_run, Hreg. mrun.
  rewrite Htr. fold encodings. split.
  - intros ->. unfold upd_transceiver, modify. unfold set_pc_transceivers. do 2 f_equal.
    apply list_eq. intros j. destruct (decide (j = t)) as [->|Hne].
    + rewrite list_lookup_alter_eq, Htr.
      by rewrite list_lookup_insert_eq by (by eapply lookup_lt_Some).
    + by rewrite list_lookup_alter_ne, list_lookup_insert_ne.
  - by intros message ->.
Qed.

Lemma SetMaxSpatialLayer_activates_lower_layers_witness :
  mapMidTransceiver ex_handler_sending !! "0" = Some 0%nat
  ∧ ∃ h' tr',
      SetMaxSpatialLayer (λ _, None) "0" 2 ex_handler_sending = SOk tt h'
      ∧ pc_transceivers h' !! 0%nat = Some tr'
      ∧ active <$> tr_send_encodings tr' = [true; true; false; true]
      ∧ rid <$> tr_send_encodings tr' = ["r0"; "r1"; "r2"; "r3"].
Proof.
  split; [reflexivity|].
  destruct (SetMaxSpatialLayer_activates_lower_layers ex_handler_sending "0" 0%nat
              ex_transceiver_four (λ _, None) 2) as (_ & _ & Hrun & _);
    [reflexivity..|].
  eexists _, _. split; [by apply Hrun|]. split; [reflexivity|].
  split; vm_compute; reflexivity.
Defined.

(** ** Stopping and restarting *)

Section Stopping.
Context `{Collaborators} (E : Engine).

Lemma transceiver_mid_inv t h mid h' :
    transceiver_mid t h = SOk mid h' →
    h' = h ∧ ∃ tr, pc_transceivers h !! t = Some tr ∧ tr_mid tr = Some mid.
  Proof.
    unfold transceiver_mid. mrun. destruct (pc_transceivers h !! t) as [tr|]; [|done].
    destruct (tr_mid tr) as [m|] eqn:Hm; mrun; [|done].
    intros [= <- <-]. eauto.
  Qed.

  (** The tail shared by the operations that close a section: the section
      is closed in the remote description, which is then serialized. *)
Lemma close_and_serialize mid r r1 sdp r2 :
    doc_inv r →
    Sdp.CloseMediaSection mid r = SOk tt r1 → Sdp.GetSdp r1 = SOk sdp r2 →
    ∃ ms ms' v,
      mediaSections r !! default 0%nat (midToIndex r !! mid) = Some ms
      ∧ mediaSections r2 = <[default 0%nat (midToIndex r !! mid) := ms']> (mediaSections r)
      ∧ Section.GetMid ms' = Section.GetMid ms
      ∧ Section.IsClosed ms'
        = (if decide (mid = firstMid r) then Section.IsClosed ms else Ok true)
      ∧ session_version (sdpObject r) = Some v
      ∧ session_version (sdpObject r2) = Some ((v + 1) mod 2 ^ 32).
  Proof.
    intros Hdoc Hclose Hget.
    pose proof (CloseMediaSection_inv _ _ _ Hdoc Hclose) as (Hdoc1 & _ & Hv1).
    apply CloseMediaSection_exact in Hclose as (ms & ms' & sdp1 & Hms & Happ & -> & _).
    destruct (GetSdp_run _ Hdoc1) as (sdp' & v & Hrun & Hv & _ & Hv' & _).
    rewrite Hrun in Hget. inversion Hget; subst sdp' r2; clear Hget.
    mrun in Hv. mrun in Hv1.
    exists ms, ms', v. split; [done|]. split; [done|].
    assert (section_wf ms) as Hwf.
    { destruct Hdoc as [Hall _]. rewrite Forall_forall in Hall. apply Hall.
      by eapply list_elem_of_lookup_2. }
    destruct (section_wf_readers ms Hwf) as [Hc Hm]. rewrite Hc, Hm.
    assert (section_wf ms' ∧ mid_of ms' = mid_of ms
            ∧ is_closed ms' = (if decide (mid = firstMid r) then is_closed ms else true))
      as (Hwf' & Hmid' & Hclosed').
    { case_decide.
      - destruct (apply_Disable ms Hwf) as (ms1 & Happ1 & ? & ? & ?).
        rewrite Happ in Happ1. by inversion Happ1; subst.
      - destruct (apply_Close ms Hwf) as (ms1 & Happ1 & ? & ? & ?).
        rewrite Happ in Happ1. by inversion Happ1; subst. }
    destruct (section_wf_readers ms' Hwf') as [Hc' Hm']. rewrite Hc', Hm', Hmid', Hclosed'.
    split; [done|]. split; [by case_decide|]. split; [congruence|done].
  Qed.

  (** X16.  [StopSending] never takes the local id out of the map of
      transceivers, whether it returns or throws.  When it returns on a
      well-formed remote description, the transceiver has no track and is as
      [RemoveTrack] left it; the section its mid leads to is closed (port 0),
      or only disabled when the mid is the anchor mid, and keeps its mid;
      and the session version of the document is one more (modulo [2^32]). *)
Theorem StopSending_closes_and_keeps_entry (removeTrack : Transceiver → Transceiver)
      (localId : string) :
    keeps mapMidTransceiver (StopSending E removeTrack localId)
    ∧ ∀ h h',
        doc_inv (remoteSdp h) →
        StopSending E removeTrack localId h = SOk tt h' →
        ∃ t tr mid ms ms' v,
          mapMidTransceiver h' !! localId = Some t
          ∧ pc_transceivers h !! t = Some tr
          ∧ pc_transceivers h' !! t = Some (removeTrack (set_track None tr))
          ∧ tr_mid (removeTrack (set_track None tr)) = Some mid
          ∧ mediaSections (remoteSdp h)
              !! default 0%nat (midToIndex (remoteSdp h) !! mid) = Some ms
          ∧ mediaSections (remoteSdp h')
            = <[default 0%nat (midToIndex (remoteSdp h) !! mid) := ms']>
                (mediaSections (remoteSdp h))
          ∧ Section.GetMid ms' = Section.GetMid ms
          ∧ Section.IsClosed ms'
            = (if decide (mid = firstMid (remoteSdp h))
               then Section.IsClosed ms else Ok true)
          ∧ session_version (sdpObject (remoteSdp h)) = Some v
          ∧ session_version (sdpObject (remoteSdp h')) = Some ((v + 1) mod 2 ^ 32).
  Proof.
    split.
    - unfold StopSending, find_registered, upd_transceiver, transceiver_mid, on_remoteSdp.
      keeps_auto.
    - intros h h' Hdoc Hrun. unfold StopSending in Hrun.
      rewrite run_bind, find_registered_run in Hrun.
      destruct (mapMidTransceiver h !! localId) as [t|] eqn:Hreg; [|done].
      unfold upd_transceiver in Hrun. mrun in Hrun.
      destruct (transceiver_mid t _) as [mid h1| |] eqn:Hmid; [|done..].
      apply transceiver_mid_inv in Hmid as (-> & tr1 & Htr1 & Hmid).
      cbn [pc_transceivers set_pc_transceivers] in Htr1.
      rewrite !list_lookup_alter_eq in Htr1.
      destruct (pc_transceivers h !! t) as [tr|] eqn:Htr; [|done].
      cbn in Htr1. inversion Htr1; subst tr1; clear Htr1.
      rewrite run_bind in Hrun.
      destruct (on_remoteSdp (Sdp.CloseMediaSection mid) _) as [[] h1| |] eqn:Hclose;
        [|done..].
      apply zoom_inv in Hclose as (r1 & Hclose & ->).
      cbn [remoteSdp set_pc_transceivers] in Hclose. mrun in Hrun.
      destruct (e_createOffer E) as [offer| |]; mrun in Hrun; [|done..].
      destruct (e_setLocalDescription E) as [[]| |]; mrun in Hrun; [|done..].
      rewrite ?run_bind in Hrun.
      destruct (on_remoteSdp Sdp.GetSdp _) as [sdp h2| |] eqn:Hget; [|done..].
      apply zoom_inv in Hget as (r2 & Hget & ->).
      cbn [remoteSdp set_remoteSdp set_pc_transceivers] in Hget.
      destruct (e_setRemoteDescription E) as [[]| |]; mrun in Hrun; [|done..].
      inversion Hrun; subst h'; clear Hrun.
      destruct (close_and_serialize _ _ _ _ _ Hdoc Hclose Hget)
        as (ms & ms' & v & ? & ? & ? & ? & ? & ?).
      exists t, tr, mid, ms, ms', v.
      cbn [mapMidTransceiver pc_transceivers remoteSdp set_remoteSdp set_pc_transceivers].
      split; [done|]. split; [done|]. split.
      { by rewrite !list_lookup_alter_eq, Htr. }
      done.
  Qed.
End Stopping.

(** Checks the shape of a concrete document by evaluation. *)
Ltac solve_doc_inv :=
  constructor;
  [ apply Forall_lookup_2; intros i ms Hms; vm_compute in Hms;
    repeat (destruct i as [|i]; [inversion Hms; subst ms; clear Hms;
                                 eexists _, _, _; repeat split; vm_compute; reflexivity|]);
    discriminate Hms
  | eexists; split; [vm_compute; reflexivity|];
    split; [eexists; vm_compute; reflexivity|];
    split; [eexists _, _; vm_compute; reflexivity|];
    eexists _, _; split; [vm_compute; reflexivity|];
    split; [vm_compute; reflexivity|]; lia ].

Section StoppingExamples.
#[local] Existing Instance ex_collaborators.

Lemma ex_handler_sent_inv : doc_inv (remoteSdp ex_handler_sent).
Proof. solve_doc_inv. Qed.

Lemma StopSending_closes_and_keeps_entry_witness :
  Send ex_engine (Some ex_track) None None ex_handler
  = SOk (mkSendResult "0" 0%nat
           (default JNull (j_find "audio" (sendingRtpParametersByKind ex_handler_sent))))
        ex_handler_sent
  ∧ ∃ h' ms',
      StopSending ex_engine (λ tr, tr) "0" ex_handler_sent = SOk tt h'
      ∧ mapMidTransceiver h' !! "0" = Some 0%nat
      ∧ mediaSections (remoteSdp h') = [ms']
      ∧ Section.GetMid ms' = Ok "0"
      ∧ Section.IsClosed ms' = Ok false
      ∧ j_find "direction" (mediaObject ms') = Some (JStr "inactive")
      ∧ session_version (sdpObject (remoteSdp ex_handler_sent)) = Some 1
      ∧ session_version (sdpObject (remoteSdp h')) = Some 2.
Proof.
  split; [vm_compute; reflexivity|].
  eexists.
  match goal with
  | |- ∃ ms', ?run = SOk tt ?h' ∧ _ =>
      assert (run = SOk tt h') as Hrun by (vm_compute; reflexivity)
  end.
  destruct (StopSending_closes_and_keeps_entry ex_engine (λ tr, tr) "0") as [_ Hstop].
  destruct (Hstop _ _ ex_handler_sent_inv Hrun)
    as (t & tr & mid & ms & ms' & v & Hreg & _ & _ & _ & _ & Hsec & _).
  eexists. split; [exact Hrun|].
  repeat split; vm_compute; reflexivity.
Defined.

End StoppingExamples.
(** ** Stopping a receiver *)

Section StopReceivingFacts.
Context (E : Engine).

  (** X17.  [StopReceiving] changes the remote description before it asks
      the engine for anything.  For a registered local id whose transceiver
      has a mid, on a well-formed remote description where that mid leads
      to a section, the outcome of the call is the outcome of the three
      calls into the engine (set the remote description, create the
      answer, set the local description); whatever that is, a throw
      included, the handler is left with the section closed (or only
      disabled, for the anchor mid), the session version one more (modulo
      [2^32]) and nothing else changed: the local id stays in the map. *)
Theorem StopReceiving_closes_before_engine (h : Handler) (localId mid : string)
      (t : nat) (tr : Transceiver) (ms : MediaSection) :
    doc_inv (remoteSdp h) →
    mapMidTransceiver h !! localId = Some t →
    pc_transceivers h !! t = Some tr →
    tr_mid tr = Some mid →
    mediaSections (remoteSdp h) !! default 0%nat (midToIndex (remoteSdp h) !! mid)
      = Some ms →
    ∃ r' ms' v,
      StopReceiving E localId h = lift (answer_calls E) (set_remoteSdp r' h)
      ∧ mediaSections r'
        = <[default 0%nat (midToIndex (remoteSdp h) !! mid) := ms']>
            (mediaSections (remoteSdp h))
      ∧ Section.GetMid ms' = Section.GetMid ms
      ∧ Section.IsClosed ms'
        = (if decide (mid = firstMid (remoteSdp h)) then Section.IsClosed ms else Ok true)
      ∧ session_version (sdpObject (remoteSdp h)) = Some v
      ∧ session_version (sdpObject r') = Some ((v + 1) mod 2 ^ 32).
  Proof.
    intros Hdoc Hreg Htr Hmid Hms.
    destruct (CloseMediaSection_run mid _ ms Hdoc Hms)
      as (r1 & ms1 & Hclose & _ & _ & _ & Hdoc1 & _).
    destruct (GetSdp_run _ Hdoc1) as (sdp' & v1 & Hget & _).
    destruct (close_and_serialize _ _ _ _ _ Hdoc Hclose Hget)
      as (ms0 & ms' & v & Hms0 & Hsecs & Hmid' & Hclosed & Hv & Hv').
    rewrite Hms in Hms0. inversion Hms0; subst ms0; clear Hms0.
    exists (set_sdpObject sdp' r1), ms', v. split; [|done].
    unfold StopReceiving. rewrite run_bind, find_registered_run, Hreg.
    unfold transceiver_mid. mrun. rewrite Htr, Hmid. mrun.
    unfold on_remoteSdp. mrun. unfold zoom at 1. rewrite Hclose. mrun.
    unfold zoom. cbn [set_remoteSdp remoteSdp]. rewrite Hget.
    cbn [set_remoteSdp remoteSdp].
    unfold answer_calls.
    destruct (e_setRemoteDescription E) as [[]| |]; mrun; [|done..].
    destruct (e_createAnswer E) as [answer| |]; mrun; [|done..].
    by destruct (e_setLocalDescription E) as [[]| |].
  Qed.
End StopReceivingFacts.

Section StopReceivingExamples.
#[local] Existing Instance ex_collaborators.

Lemma ex_handler_received_inv : doc_inv (remoteSdp ex_handler_received).
Proof. solve_doc_inv. Qed.

(** The engine refuses to create the answer: [StopReceiving] throws, and
    the section of the receiver is disabled all the same. *)
Lemma StopReceiving_closes_before_engine_witness :
  ∃ h' ms',
    StopReceiving ex_engine_no_answer "0" ex_handler_received
    = SThrow (EngineError "CreateAnswer") h'
    ∧ mediaSections (remoteSdp h') = [ms']
    ∧ Section.GetMid ms' = Ok "0"
    ∧ Section.IsClosed ms' = Ok false
    ∧ mapMidTransceiver h' !! "0" = Some 0%nat
    ∧ session_version (sdpObject (remoteSdp ex_handler_received)) = Some 1
    ∧ session_version (sdpObject (remoteSdp h')) = Some 2.
Proof.
  destruct (StopReceiving_closes_before_engine ex_engine_no_answer ex_handler_received
              "0" "0" 0%nat (mkTransceiver (Some "0") kRecvOnly None [])
              (default (ex_section "") (mediaSections (remoteSdp ex_handler_received) !! 0%nat)))
    as (r' & ms' & v & Hrun & Hsecs & Hmid & Hclosed & Hv & Hv');
    [exact ex_handler_received_inv|vm_compute; reflexivity..|].
  exists (set_remoteSdp r' ex_handler_received), ms'.
  split; [rewrite Hrun; reflexivity|]. cbn [remoteSdp set_remoteSdp].
  split; [rewrite Hsecs; vm_compute; reflexivity|].
  split; [rewrite Hmid; vm_compute; reflexivity|].
  split; [rewrite Hclosed; vm_compute; reflexivity|].
  split; [vm_compute; reflexivity|].
  split; [vm_compute; reflexivity|].
  rewrite Hv'. vm_compute in Hv. inversion Hv; subst v. reflexivity.
Defined.

End StopReceivingExamples.
(** ** Restarting ICE *)

Lemma update_sections_keeps_ice f n : ∀ i, keeps iceParameters (Sdp.update_sections f n i).
Proof.
  induction n as [|n IH]; intros i; cbn [Sdp.update_sections].
  - apply keeps_ret.
  - unfold Sdp.section_at, Sdp.store_section, Sdp.upd_sdpObject. keeps_auto. apply IH.
Qed.

Lemma UpdateIceParameters_stores ice r r' :
  Sdp.UpdateIceParameters ice r = SOk tt r' → iceParameters r' = ice.
Proof.
  unfold Sdp.UpdateIceParameters. rewrite run_bind. cbn [modify]. intros Hrun.
  eapply (keeps_SOk iceParameters) in Hrun; [by rewrite Hrun; destruct r|].
  unfold Sdp.upd_sdpObject. keeps_auto; apply update_sections_keeps_ice.
Qed.

Section RestartIceFacts.
Context (E : Engine).

  (** The update of the ICE parameters and, on a ready transport, the
      serialization that follows it. *)
Lemma restart_tail ice r r1 :
    doc_inv r → Sdp.UpdateIceParameters ice r = SOk tt r1 →
    iceParameters r1 = ice
    ∧ session_version (sdpObject r1) = session_version (sdpObject r)
    ∧ ∃ sdp v,
        Sdp.GetSdp r1 = SOk sdp (set_sdpObject sdp r1)
        ∧ session_version (sdpObject r) = Some v
        ∧ session_version sdp = Some ((v + 1) mod 2 ^ 32).
  Proof.
    intros Hdoc Hupd. pose proof (UpdateIceParameters_stores _ _ _ Hupd) as Hice.
    apply UpdateIceParameters_frame in Hupd as [Hdoc1 _ _ Hv _]; [|done].
    split; [done|]. split; [done|].
    destruct (GetSdp_run _ Hdoc1) as (sdp & v & Hget & Hv1 & _ & Hv' & _).
    exists sdp, v. split; [done|]. split; [congruence|done].
  Qed.

  (** X18.  [RestartIce], of the sending and of the receiving handler, asks
      nothing of the engine before the transport is ready: the outcome is
      then the same whatever the engine would answer.  When it returns, on
      a well-formed remote description, the remote description holds the
      new ICE parameters, the rest of the handler is as it was, and the
      session version is one more (modulo [2^32]) if the transport was
      ready and unchanged if it was not. *)
Theorem RestartIce_renegotiates_when_ready (iceParameters' : json) (h : Handler) :
    (transportReady h = false →
     ∀ E', SendHandler_RestartIce E' iceParameters' h
           = SendHandler_RestartIce E iceParameters' h
           ∧ RecvHandler_RestartIce E' iceParameters' h
             = RecvHandler_RestartIce E iceParameters' h)
    ∧ ∀ h',
        doc_inv (remoteSdp h) →
        SendHandler_RestartIce E iceParameters' h = SOk tt h'
        ∨ RecvHandler_RestartIce E iceParameters' h = SOk tt h' →
        iceParameters (remoteSdp h') = iceParameters'
        ∧ h' = set_remoteSdp (remoteSdp h') h
        ∧ ∃ v, session_version (sdpObject (remoteSdp h)) = Some v
               ∧ session_version (sdpObject (remoteSdp h'))
                 = Some (if transportReady h then (v + 1) mod 2 ^ 32 else v).
  Proof.
    split.
    - intros Hready E'.
      unfold SendHandler_RestartIce, RecvHandler_RestartIce, on_remoteSdp.
      rewrite !run_bind. unfold zoom at 1 3 5 7.
      destruct (Sdp.UpdateIceParameters iceParameters' (remoteSdp h)) as [[] r1| |];
        [|done..].
      mrun. cbn [transportReady set_remoteSdp]. by rewrite Hready.
    - intros h' Hdoc Hrun.
      assert (∃ r1, Sdp.UpdateIceParameters iceParameters' (remoteSdp h) = SOk tt r1
                    ∧ (if transportReady h
                       then ∃ sdp, Sdp.GetSdp r1 = SOk sdp (set_sdpObject sdp r1)
                                   ∧ h' = set_remoteSdp (set_sdpObject sdp r1) h
                       else h' = set_remoteSdp r1 h)) as (r1 & Hupd & Hh').
      { unfold SendHandler_RestartIce, RecvHandler_RestartIce, on_remoteSdp in Hrun.
        rewrite !run_bind in Hrun. unfold zoom at 1 3 in Hrun.
        destruct (Sdp.UpdateIceParameters iceParameters' (remoteSdp h)) as [[] r1| |] eqn:Hupd;
          [|by destruct Hrun..].
        exists r1. split; [done|]. mrun in Hrun.
        cbn [transportReady set_remoteSdp] in Hrun.
        destruct (restart_tail _ _ _ Hdoc Hupd) as (_ & _ & sdp & v & Hget & _).
        destruct (transportReady h); [|by destruct Hrun as [[= <-]|[= <-]]].
        exists sdp. split; [done|].
        destruct Hrun as [Hrun|Hrun].
        - destruct (e_createOffer E) as [offer| |]; mrun in Hrun; [|done..].
          destruct (e_setLocalDescription E) as [[]| |]; mrun in Hrun; [|done..].
          unfold zoom in Hrun. cbn [remoteSdp set_remoteSdp] in Hrun.
          rewrite Hget in Hrun. cbn [remoteSdp set_remoteSdp] in Hrun.
          destruct (e_setRemoteDescription E) as [[]| |]; mrun in Hrun; [|done..].
          by inversion Hrun.
        - mrun in Hrun. unfold zoom in Hrun. cbn [remoteSdp set_remoteSdp] in Hrun.
          rewrite Hget in Hrun. cbn [remoteSdp set_remoteSdp] in Hrun.
          destruct (e_setRemoteDescription E) as [[]| |]; mrun in Hrun; [|done..].
          destruct (e_createAnswer E) as [answer| |]; mrun in Hrun; [|done..].
          destruct (e_setLocalDescription E) as [[]| |]; mrun in Hrun; [|done..].
          by inversion Hrun. }
      destruct (restart_tail _ _ _ Hdoc Hupd) as (Hice & Hv1 & sdp & v & Hget & Hv & Hv').
      destruct (transportReady h).
      + destruct Hh' as (sdp1 & Hget1 & ->). rewrite Hget in Hget1.
        inversion Hget1; subst sdp1. cbn [remoteSdp set_remoteSdp].
        split; [by destruct r1|]. split; [done|]. exists v. split; [done|].
        by destruct r1.
      + subst h'. cbn [remoteSdp set_remoteSdp]. split; [done|]. split; [done|].
        exists v. split; [done|]. by rewrite Hv1.
  Qed.
End RestartIceFacts.

Section RestartIceExamples.
#[local] Existing Instance ex_collaborators.

(** Before the transport is ready the engine that refuses every offer is
    not asked; after a [Receive] the restart is negotiated. *)
Lemma RestartIce_renegotiates_when_ready_witness :
  let ice := obj_lit [("usernameFragment", JStr "u2"); ("password", JStr "p2")] in
  SendHandler_RestartIce ex_engine_no_offer ice ex_handler
  = SendHandler_RestartIce ex_engine ice ex_handler
  ∧ ∃ h',
      RecvHandler_RestartIce ex_engine ice ex_handler_received = SOk tt h'
      ∧ transportReady ex_handler_received = true
      ∧ iceParameters (remoteSdp h') = ice
      ∧ session_version (sdpObject (remoteSdp ex_handler_received)) = Some 1
      ∧ session_version (sdpObject (remoteSdp h')) = Some 2.
Proof.
  intros ice.
  destruct (RestartIce_renegotiates_when_ready ex_engine ice ex_handler) as [Hnot _].
  destruct (RestartIce_renegotiates_when_ready ex_engine ice ex_handler_received)
    as [_ Hready].
  split; [apply (Hnot eq_refl ex_engine_no_offer)|].
  eexists.
  match goal with
  | |- ?run = SOk tt ?h' ∧ _ =>
      assert (run = SOk tt h') as Hrun by (vm_compute; reflexivity)
  end.
  destruct (Hready _ ex_handler_received_inv (or_intror Hrun)) as (Hice & _ & v & Hv & Hv').
  split; [exact Hrun|]. split; [reflexivity|]. split; [exact Hice|].
  split; [vm_compute; reflexivity|].
  rewrite Hv'. vm_compute in Hv. inversion Hv; subst v. reflexivity.
Defined.

End RestartIceExamples.
(** ** What [Send] and [Receive] leave when they return *)

Lemma find_transceiver_spec localId l t :
  find_transceiver localId l = Some t →
  ∃ tr, l !! t = Some tr ∧ tr_mid tr = Some localId
        ∧ ∀ j tr', (j < t)%nat → l !! j = Some tr' → tr_mid tr' ≠ Some localId.
Proof.
  revert t. induction l as [|x l IH]; intros t; cbn [find_transceiver]; [done|].
  case_decide as Hx.
  - intros [= <-]. exists x. split; [done|]. split; [done|]. intros j tr' Hj. lia.
  - destruct (find_transceiver localId l) as [t'|]; [|done]. intros [= <-].
    destruct (IH t' eq_refl) as (tr & Htr & Hmid & Hfirst).
    exists tr. split; [done|]. split; [done|].
    intros [|j] tr' Hj Hl; cbn in Hl.
    + by inversion Hl; subst.
    + apply (Hfirst j); [lia|done].
Qed.

Lemma update_sections_keeps_slots f n :
  ∀ i, keeps (λ r, (midToIndex r, length (mediaSections r))) (Sdp.update_sections f n i).
Proof.
  induction n as [|n IH]; intros i; cbn [Sdp.update_sections].
  - apply keeps_ret.
  - unfold Sdp.section_at, Sdp.store_section, Sdp.upd_sdpObject.
    apply keeps_bind; [keeps_auto|intros ms].
    apply keeps_bind; [keeps_auto|intros ms'].
    apply keeps_bind.
    { apply keeps_modify. intros []. cbn. by rewrite length_insert. }
    intros _. apply keeps_bind; [keeps_auto|intros _]. apply IH.
Qed.

Lemma UpdateDtlsRole_keeps_slots role :
  keeps (λ r, (midToIndex r, length (mediaSections r))) (Sdp.UpdateDtlsRole role).
Proof.
  unfold Sdp.UpdateDtlsRole, Sdp.upd_sdpObject. keeps_auto; apply update_sections_keeps_slots.
Qed.

Section Returned.
Context `{Collaborators} (E : Engine).

  (** What [SetupTransport] leaves when it returns. *)
Lemma SetupTransport_returns role sdp h x h' :
    SetupTransport E role sdp h = SOk x h' →
    transportReady h' = true
    ∧ mapMidTransceiver h' = mapMidTransceiver h
    ∧ pc_transceivers h' = pc_transceivers h
    ∧ sendingRtpParametersByKind h' = sendingRtpParametersByKind h
    ∧ midToIndex (remoteSdp h') = midToIndex (remoteSdp h)
    ∧ length (mediaSections (remoteSdp h')) = length (mediaSections (remoteSdp h)).
  Proof.
    unfold SetupTransport, on_remoteSdp. intros Hrun. do 2 mcase Hrun.
    rewrite ?run_bind in Hrun.
    destruct (zoom remoteSdp set_remoteSdp (Sdp.UpdateDtlsRole _) _) as [[] h1| |] eqn:Hzoom;
      [|done..].
    apply zoom_inv in Hzoom as (r1 & Hrole & ->).
    apply (keeps_SOk _ _ _ _ _ (UpdateDtlsRole_keeps_slots _)) in Hrole.
    inversion Hrole as [[Hmap Hlen]].
    mcase Hrun. inversion Hrun; subst; clear Hrun.
    by cbn.
  Qed.

  (** [CreateOffer] appends a section and registers its mid. *)
Lemma CreateOffer_appends mid kind rtp streamId trackId r r' :
    CreateOffer mid kind rtp streamId trackId r = SOk tt r' →
    length (mediaSections r') = S (length (mediaSections r))
    ∧ midToIndex r' = <[mid := length (mediaSections r)]> (midToIndex r).
  Proof.
    unfold CreateOffer. intros Hrun. mrun in Hrun.
    destruct (Offer.new _ _ _ _ _ _ _ _) as [m| |] eqn:Hnew; mrun in Hrun; [|done..].
    apply Offer_new_fields in Hnew as (Hmid & _).
    apply AddMediaSection_exact in Hrun as (mid' & sdp' & Hmid' & -> & _).
    unfold Section.GetMid in Hmid'. cbn [mediaObject] in Hmid'.
    rewrite (j_find_get _ _ _ Hmid) in Hmid'. cbn in Hmid'. inversion Hmid'; subst mid'.
    cbn [mediaSections midToIndex]. rewrite length_app. cbn [length].
    split; [lia|done].
  Qed.

  (** X20.  When [Receive] returns, the local id is the "mid" of the RTP
      parameters if that is a non-empty string and the decimal size of the
      map of transceivers otherwise; the engine has a transceiver with this
      mid, the first such is the receiver returned and the map sends the
      local id to it; the transport is ready; and the remote description
      has one section more, at the end, to which the local id leads: a
      closed slot is never reused for a receiver. *)
Theorem Receive_registers_transceiver (id kind : string) (rtpParameters : json)
      (h h' : Handler) (result : RecvResult) :
    Receive E id kind rtpParameters h = SOk result h' →
    let localId := recv_localId result in
    localId = match j_find "mid" rtpParameters with
              | Some (JStr mid) =>
                  if decide (mid ≠ "") then mid
                  else to_string (Z.of_nat (size (mapMidTransceiver h)))
              | _ => to_string (Z.of_nat (size (mapMidTransceiver h)))
              end
    ∧ (∃ tr, pc_transceivers h' !! recv_rtpReceiver result = Some tr
             ∧ tr_mid tr = Some localId
             ∧ recv_track result = tr_track tr
             ∧ ∀ j tr', (j < recv_rtpReceiver result)%nat →
                 pc_transceivers h' !! j = Some tr' → tr_mid tr' ≠ Some localId)
    ∧ pc_transceivers h' = e_transceivers E
    ∧ mapMidTransceiver h' = <[localId := recv_rtpReceiver result]> (mapMidTransceiver h)
    ∧ transportReady h' = true
    ∧ length (mediaSections (remoteSdp h')) = S (length (mediaSections (remoteSdp h)))
    ∧ midToIndex (remoteSdp h') !! localId = Some (length (mediaSections (remoteSdp h))).
  Proof.
    unfold Receive, on_remoteSdp. intros Hrun. rewrite run_bind in Hrun. cbn [get_st] in Hrun.
    set (localId := match j_find "mid" rtpParameters with
                    | Some (JStr mid) =>
                        if decide (mid ≠ "") then mid
                        else to_string (Z.of_nat (size (mapMidTransceiver h)))
                    | _ => to_string (Z.of_nat (size (mapMidTransceiver h)))
                    end) in *.
    do 3 mcase Hrun. rewrite ?run_bind in Hrun.
    destruct (zoom remoteSdp set_remoteSdp (CreateOffer _ _ _ _ _) _) as [[] h1| |] eqn:Hzoom;
      [|done..].
    apply zoom_inv in Hzoom as (r1 & Hoffer & ->). rewrite ?run_bind in Hrun.
    destruct (zoom remoteSdp set_remoteSdp Sdp.GetSdp _) as [sdp h2| |] eqn:Hzoom;
      [|done..].
    apply zoom_inv in Hzoom as (r2 & Hget & ->).
    cbn [remoteSdp set_remoteSdp] in Hget.
    do 4 mcase Hrun. mrun in Hrun.
    destruct a4 as [i|]; [|by destruct j]. mrun in Hrun.
    do 2 mcase Hrun. mrun in Hrun.
    cbn [transportReady set_remoteSdp] in Hrun.
    apply CreateOffer_appends in Hoffer as [Hlen1 Hidx1].
    apply GetSdp_exact in Hget as [-> _].
    set (h2 := set_remoteSdp (set_sdpObject sdp r1) (set_remoteSdp r1 h)) in *.
    assert (∃ x h3,
              (if transportReady h then mret a5 else SetupTransport E "client" a5) h2
              = SOk x h3
              ∧ transportReady h3 = true
              ∧ mapMidTransceiver h3 = mapMidTransceiver h
              ∧ midToIndex (remoteSdp h3) = midToIndex r1
              ∧ length (mediaSections (remoteSdp h3)) = length (mediaSections r1))
      as (x & h3 & Hsetup & Hready & Hmap & Hidx & Hlen).
    { destruct (transportReady h) eqn:Hr.
      - eexists _, _. split; [done|]. by destruct r1.
      - destruct (SetupTransport E "client" a5 h2) as [x h3| |] eqn:Hs; [|done..].
        apply SetupTransport_returns in Hs as (? & ? & _ & _ & ? & ?).
        eexists _, _. split; [done|]. subst h2. by destruct r1. }
    rewrite Hsetup in Hrun. mcase Hrun. mrun in Hrun.
    destruct (find_transceiver localId (e_transceivers E)) as [t|] eqn:Hfind; [|done].
    mrun in Hrun. unfold Receive_commit in Hrun. mrun in Hrun.
    inversion Hrun; subst result h'; clear Hrun.
    cbn [recv_localId recv_rtpReceiver recv_track pc_transceivers mapMidTransceiver
         transportReady remoteSdp set_mapMidTransceiver set_pc_transceivers].
    apply find_transceiver_spec in Hfind as (tr & Htr & Hmid & Hfirst).
    split; [done|]. split.
    { exists tr. by rewrite Htr. }
    split; [done|]. split; [by rewrite Hmap|]. split; [done|].
    split; [congruence|]. rewrite Hidx, Hidx1. apply lookup_insert_eq.
  Qed.

Lemma Send_parameters_mid kind i encodings h offer h' :
    Send_parameters E kind i encodings h = SOk offer h' →
    entry kind "mid" (sendingRtpParametersByKind h')
    = entry kind "mid" (sendingRtpParametersByKind h)
    ∧ h' = set_sendingRtpParametersByKind (sendingRtpParametersByKind h') h.
  Proof.
    unfold Send_parameters, upd_sending, ref_sending. intros Hrun.
    do 9 mcase Hrun.
    inversion Hrun; subst; clear Hrun. cbn [sendingRtpParametersByKind
      set_sendingRtpParametersByKind] in *.
    split; [|done].
    apply (path_set_entry3 _ _ _ _ _ _ "mid") in Hstep1; [|done].
    apply path_set_entry in Hstep3 as [_ Hstep3].
    apply (path_ref_entry _ _ _ _ _ _ "mid") in Hstep4; [|done].
    apply path_set_entry in Hstep7 as [_ Hstep7].
    by rewrite Hstep7, Hstep4, Hstep3, Hstep1.
  Qed.

  (** The members of the offer RTP parameters [Send_answer] leaves in
      [sendingRtpParametersByKind], apart from the codecs. *)
Lemma Send_answer_member kind i offer opts h h' k :
    Send_answer E kind i offer opts h = SOk tt h' → k ≠ "codecs" →
    ∃ off, j_find kind (sendingRtpParametersByKind h') = Some off
           ∧ j_find k off = entry kind k (sendingRtpParametersByKind h).
  Proof.
    unfold Send_answer, ref_sending, ref_sending_remote, upd_sending, upd_sending_remote,
      on_remoteSdp.
    intros Hrun Hk. do 2 mcase Hrun. mrun in Hrun.
    destruct (zoom remoteSdp set_remoteSdp (CreateAnswer _ _ _ _ _) _)
      as [[off ans] h1| |] eqn:Hzoom; [|done..].
    apply zoom_inv in Hzoom as (r1 & Hcreate & ->).
    unfold CreateAnswer in Hcreate. mrun in Hcreate.
    destruct (Answer.new _ _ _ _ _ _ _ _) as [[[m off'] ans']| |] eqn:Hnew;
      mrun in Hcreate; [|done..].
    destruct (Sdp.commit_answer _ _ _) as [[] r2| |]; mrun in Hcreate; [|done..].
    inversion Hcreate; subst; clear Hcreate.
    apply Answer_new_frame in Hnew.
    do 2 mcase Hrun. mrun in Hrun.
    destruct (zoom remoteSdp set_remoteSdp Sdp.GetSdp _) as [sdp h2| |] eqn:Hzoom; [|done..].
    apply zoom_inv in Hzoom as (r3 & _ & ->).
    destruct (e_setRemoteDescription E) as [[]| |]; cbn [lift] in Hrun; [|done..].
    inversion Hrun; subst; clear Hrun.
    cbn [sendingRtpParametersByKind set_remoteSdp set_sendingRtpParametersByKind
         set_sendingRemoteRtpParametersByKind] in *.
    match goal with
    | Href : j_path_ref [Key kind] (sendingRtpParametersByKind h) = Ok _,
      Hset : j_set kind off _ = Ok _ |- _ =>
        apply path_ref_top in Href as (_ & Hentry);
        apply j_set_find in Hset as (Hfound & _)
    end.
    exists off. split; [done|].
    etrans; [by apply Hnew | apply Hentry].
  Qed.

Lemma Send_prepare_returns track encodings h i t h1 :
    Send_prepare E track encodings h = SOk (i, t) h1 →
    t = length (pc_transceivers h)
    ∧ pc_transceivers h1
      = (pc_transceivers h
         ++ [mkTransceiver None kSendOnly (Some track) (default [] encodings)])%list
    ∧ mapMidTransceiver h1 = mapMidTransceiver h
    ∧ transportReady h1 = transportReady h.
  Proof.
    unfold Send_prepare, upd_transceiver, ref_sending. intros Hrun.
    mcase Hrun. destruct (e_addTransceiver E); mrun in Hrun; [|done].
    mcase Hrun. inversion Hrun; subst; clear Hrun.
    cbn [pc_transceivers mapMidTransceiver transportReady set_pc_transceivers
         set_sendingRtpParametersByKind].
    split; [done|]. split; [|done].
    rewrite alter_app_r_alt by done. rewrite Nat.sub_diag. done.
  Qed.

Lemma Send_offer_returns kind t h localId h1 :
    Send_offer E kind t h = SOk localId h1 →
    e_mid E = Some localId
    ∧ pc_transceivers h1 = alter (set_mid (e_mid E)) t (pc_transceivers h)
    ∧ mapMidTransceiver h1 = mapMidTransceiver h
    ∧ transportReady h1 = true
    ∧ entry kind "mid" (sendingRtpParametersByKind h1) = Some (JStr localId).
  Proof.
    unfold Send_offer, upd_transceiver, upd_sending. intros Hrun.
    mcase Hrun. mrun in Hrun.
    assert (∃ x h2,
              (if transportReady h then mret (sdp_parse a)
               else SetupTransport E "server" (sdp_parse a)) h = SOk x h2
              ∧ transportReady h2 = true
              ∧ mapMidTransceiver h2 = mapMidTransceiver h
              ∧ pc_transceivers h2 = pc_transceivers h
              ∧ sendingRtpParametersByKind h2 = sendingRtpParametersByKind h)
      as (x & h2 & Hsetup & Hready & Hmap & Htrs & Hsending).
    { destruct (transportReady h) eqn:Hr.
      - by eexists _, _.
      - destruct (SetupTransport E "server" (sdp_parse a) h) as [x h2| |] eqn:Hs; [|done..].
        apply SetupTransport_returns in Hs as (? & ? & ? & ? & _).
        by eexists _, _. }
    rewrite Hsetup in Hrun. mcase Hrun. mrun in Hrun.
    destruct (e_mid E) as [mid|] eqn:Hmid; mrun in Hrun; [|done].
    mcase Hrun. inversion Hrun; subst; clear Hrun.
    cbn [pc_transceivers mapMidTransceiver transportReady sendingRtpParametersByKind
         set_pc_transceivers set_sendingRtpParametersByKind] in *.
    split; [done|]. split; [by rewrite Htrs|]. split; [done|]. split; [done|].
    match goal with
    | Hset : j_path_set [Key kind; Key "mid"] _ _ = Ok _ |- _ =>
        by apply path_set_entry in Hset as [? _]
    end.
  Qed.

  (** X19.  When [Send] returns, the engine has given the new transceiver a
      mid, which is the local id returned; the sender returned is the
      transceiver [Send] added, which is send-only, has the track and the
      encodings given (with their rids assigned) and this mid; the map
      sends the local id to it; the transport is ready; and the RTP
      parameters returned are those kept for the kind of the track and have
      the local id as "mid". *)
Theorem Send_registers_transceiver (track : Track)
      (encodings : option (list RtpEncodingParameters)) (codecOptions : option json)
      (h h' : Handler) (result : SendResult) :
    Send E (Some track) encodings codecOptions h = SOk result h' →
    e_mid E = Some (send_localId result)
    ∧ send_rtpSender result = length (pc_transceivers h)
    ∧ pc_transceivers h'
      = (pc_transceivers h
         ++ [mkTransceiver (e_mid E) kSendOnly (Some track)
               (default [] (assign_rids encodings))])%list
    ∧ mapMidTransceiver h'
      = <[send_localId result := send_rtpSender result]> (mapMidTransceiver h)
    ∧ transportReady h' = true
    ∧ j_find (track_kind track) (sendingRtpParametersByKind h')
      = Some (send_rtpParameters result)
    ∧ j_find "mid" (send_rtpParameters result) = Some (JStr (send_localId result)).
  Proof.
    unfold Send. intros Hrun.
    apply bind_inv in Hrun as ([[i t] localId] & h1 & Hneg & Hrun).
    apply bind_inv in Hrun as (offer & h2 & Hparams & Hrun).
    apply bind_inv in Hrun as ([] & h3 & Hanswer & Hrun).
    unfold Send_negotiate in Hneg.
    apply bind_inv in Hneg as ([i0 t0] & h0 & Hprep & Hneg).
    apply Send_prepare_returns in Hprep as (-> & Htrs0 & Hmap0 & _).
    unfold try_catch in Hneg. rewrite run_bind in Hneg.
    destruct (Send_offer E (track_kind track) _ h0) as [lid h0'|e h0'|] eqn:Hoffer;
      [|unfold Send_undo, upd_transceiver in Hneg; mrun in Hneg; done|done].
    mrun in Hneg. inversion Hneg; subst; clear Hneg.
    apply Send_offer_returns in Hoffer as (Hmid & Htrs1 & Hmap1 & Hready1 & Hentry1).
    apply Send_parameters_mid in Hparams as (Hentry2 & Hh2).
    pose proof (Send_answer_member _ _ _ _ _ _ "mid" Hanswer) as (off & Hoff & Hoffmid);
      [done|].
    assert (keeps (λ s, (pc_transceivers s, mapMidTransceiver s, transportReady s))
              (Send_answer E (track_kind track) i offer codecOptions)) as Hkeeps.
    { unfold Send_answer, ref_sending, ref_sending_remote, upd_sending, upd_sending_remote,
        on_remoteSdp. keeps_auto. }
    apply (keeps_SOk _ _ _ _ _ Hkeeps) in Hanswer. inversion Hanswer as [[Htrs3 Hmap3 Hready3]].
    unfold Send_commit in Hrun. mrun in Hrun. inversion Hrun; subst result h'; clear Hrun.
    cbn [send_localId send_rtpSender send_rtpParameters pc_transceivers mapMidTransceiver
         transportReady sendingRtpParametersByKind set_mapMidTransceiver].
    rewrite Hoff. change (default JNull (Some off)) with off.
    rewrite Htrs3, Hmap3, Hready3, Hh2.
    cbn [pc_transceivers mapMidTransceiver transportReady set_sendingRtpParametersByKind].
    split; [done|]. split; [done|]. split.
    { rewrite Htrs1, Htrs0. rewrite alter_app_r_alt by done. by rewrite Nat.sub_diag. }
    split; [by rewrite Hmap1, Hmap0|]. split; [done|]. split; [done|].
    by rewrite Hoffmid, Hentry2, Hentry1.
  Qed.
End Returned.

Section ReturnedExamples.
#[local] Existing Instance ex_collaborators.

(** RTP parameters without a "mid" on a handler with an empty map: the
    local id is "0". *)
Lemma Receive_registers_transceiver_witness :
  Receive ex_engine "consumer-1" "audio" ex_rtp ex_handler
  = SOk (mkRecvResult "0" 0%nat None) ex_handler_received
  ∧ j_find "mid" ex_rtp = None
  ∧ mapMidTransceiver ex_handler_received = <["0" := 0%nat]> ∅
  ∧ transportReady ex_handler_received = true
  ∧ length (mediaSections (remoteSdp ex_handler_received)) = 1%nat
  ∧ midToIndex (remoteSdp ex_handler_received) !! "0" = Some 0%nat.
Proof.
  assert (Receive ex_engine "consumer-1" "audio" ex_rtp ex_handler
          = SOk (mkRecvResult "0" 0%nat None) ex_handler_received) as Hrun
    by (vm_compute; reflexivity).
  destruct (Receive_registers_transceiver ex_engine _ _ _ _ _ _ Hrun)
    as (_ & _ & _ & Hmap & Hready & Hlen & Hidx).
  split; [exact Hrun|]. split; [reflexivity|].
  split; [exact Hmap|]. split; [exact Hready|]. split; [exact Hlen|exact Hidx].
Defined.

(** Two encodings: the transceiver has them with the rids "r0" and "r1". *)
Lemma Send_registers_transceiver_witness :
  ∃ result h',
    Send ex_engine (Some ex_track) (Some [ex_encoding None; ex_encoding (Some 64000)]) None
         ex_handler = SOk result h'
    ∧ send_localId result = "0"
    ∧ send_rtpSender result = 0%nat
    ∧ pc_transceivers h'
      = [mkTransceiver (Some "0") kSendOnly (Some ex_track)
           [set_rid "r0" (ex_encoding None); set_rid "r1" (ex_encoding (Some 64000))]]
    ∧ mapMidTransceiver h' = <["0" := 0%nat]> ∅
    ∧ transportReady h' = true
    ∧ j_find "mid" (send_rtpParameters result) = Some (JStr "0").
Proof.
  eexists _, _.
  match goal with
  | |- ?run = SOk ?result ?h' ∧ _ =>
      assert (run = SOk result h') as Hrun by (vm_compute; reflexivity)
  end.
  destruct (Send_registers_transceiver ex_engine _ _ _ _ _ _ Hrun)
    as (_ & Hsender & Htrs & Hmap & Hready & _ & Hmid).
  split; [exact Hrun|]. split; [reflexivity|]. split; [exact Hsender|].
  split; [exact Htrs|]. split; [exact Hmap|]. split; [exact Hready|exact Hmid].
Defined.

End ReturnedExamples.
(** ** The transport is set up once *)

Section Stays.
Context {S : Type} (P : S → Prop).

Lemma stays_bind {A B} (m : M S A) (k : A → M S B) :
    stays P m → (∀ a, stays P (k a)) → stays P (m ≫= k).
  Proof.
    intros Hm Hk s Hs. rewrite run_bind. specialize (Hm s Hs).
    destruct (m s) as [a s1|e s1|]; [|done..]. by apply Hk.
  Qed.

Lemma stays_try {A} (m : M S A) (h : exn → M S A) :
    stays P m → (∀ e, stays P (h e)) → stays P (try_catch m h).
  Proof.
    intros Hm Hh s Hs. unfold try_catch. specialize (Hm s Hs).
    destruct (m s) as [a s1|e s1|]; [done| |done]. by apply Hh.
  Qed.
End Stays.

Lemma stays_keeps {S X A} (f : S → X) (v : X) (m : M S A) :
  keeps f m → stays (λ s, f s = v) m.
Proof. intros Hm s Hs. specialize (Hm s). destruct (m s); congruence. Qed.

Section Ready.
Context `{Collaborators} (E : Engine).

Lemma SetupTransport_ready role sdp :
    stays (λ h, transportReady h = true) (SetupTransport E role sdp).
  Proof.
    unfold SetupTransport, on_remoteSdp.
    repeat (apply stays_bind;
            [solve [apply (stays_keeps transportReady); keeps_auto]|intros ?]).
    apply stays_bind; [by intros s Hs|intros ?].
    apply (stays_keeps transportReady); keeps_auto.
  Qed.
End Ready.

Ltac stays_step :=
  first
    [ solve [apply (stays_keeps transportReady); keeps_auto]
    | apply SetupTransport_ready
    | apply stays_try; [|intros ?]
    | apply stays_bind; [|intros ?]
    | match goal with
      | |- stays _ (match ?x with _ => _ end) => destruct x
      | |- stays _ (let '(_, _) := ?x in _) => destruct x
      end ].

Section SetUpOnce.
Context `{Collaborators} (E : Engine).

Lemma Send_ready track encodings codecOptions :
    stays (λ h, transportReady h = true) (Send E track encodings codecOptions).
  Proof.
    unfold Send, Send_negotiate, Send_prepare, Send_offer, Send_undo, Send_parameters,
      Send_answer, Send_commit, upd_transceiver, upd_sending, upd_sending_remote,
      ref_sending, ref_sending_remote, on_remoteSdp.
    repeat stays_step.
  Qed.

Lemma Receive_ready id kind rtp :
    stays (λ h, transportReady h = true) (Receive E id kind rtp).
  Proof.
    unfold Receive, Receive_commit, on_remoteSdp. repeat stays_step.
  Qed.

Lemma SendDataChannel_ready label init :
    stays (λ h, transportReady h = true) (SendDataChannel E label init).
  Proof.
    unfold SendDataChannel, CreateDataChannel, on_remoteSdp. repeat stays_step.
  Qed.

Lemma ReceiveDataChannel_ready label init :
    stays (λ h, transportReady h = true) (ReceiveDataChannel E label init).
  Proof.
    unfold ReceiveDataChannel, CreateDataChannel, on_remoteSdp. repeat stays_step.
  Qed.
End SetUpOnce.

Lemma bind_ext_at {S A B} (m m' : M S A) (k k' : A → M S B) s :
  m s = m' s → (∀ a s', m s = SOk a s' → k a s' = k' a s') →
  (m ≫= k) s = (m' ≫= k') s.
Proof.
  intros Hm Hk. rewrite !run_bind, <- Hm.
  destruct (m s) as [a s'| |] eqn:Hms; [|done..]. by apply Hk.
Qed.

(** One step that both computations make alike and that keeps the flag. *)
Ltac ext_keep :=
  first
    [ rewrite !(run_bind get_st); cbn [get_st]; cbv zeta
    | apply bind_ext_at; [reflexivity|];
      let a := fresh "a" in
      let s' := fresh "s" in
      let Hm := fresh "Hm" in
      intros a s' Hm;
      apply (keeps_SOk transportReady) in Hm; [|solve [keeps_auto]];
      repeat match goal with p : (_ * _)%type |- _ => destruct p end ].

(** The flag is set where both computations read it: they go on alike. *)
Ltac ext_done :=
  match goal with
  | |- context [transportReady ?s] =>
      replace (transportReady s) with true by congruence
  end;
  reflexivity.

Section Independent.
Context `{Collaborators} (E : Engine) (x : res unit).

Lemma Receive_once id kind rtp h :
    transportReady h = true →
    Receive (with_onConnect x E) id kind rtp h = Receive E id kind rtp h.
  Proof.
    intros Hready. unfold Receive, on_remoteSdp.
    repeat ext_keep. ext_done.
  Qed.

Lemma Send_offer_once kind t h :
    transportReady h = true →
    Send_offer (with_onConnect x E) kind t h = Send_offer E kind t h.
  Proof.
    intros Hready. unfold Send_offer, upd_transceiver, upd_sending.
    repeat ext_keep. ext_done.
  Qed.

Lemma Send_once track encodings codecOptions h :
    transportReady h = true →
    Send (with_onConnect x E) track encodings codecOptions h
    = Send E track encodings codecOptions h.
  Proof.
    intros Hready. unfold Send. destruct track as [track|]; [|done]. cbv zeta.
    apply bind_ext_at; [|intros [[i t] lid] s' _; reflexivity].
    unfold Send_negotiate.
    apply bind_ext_at; [reflexivity|]. intros [i t] s1 Hprep.
    apply Send_prepare_returns in Hprep as (_ & _ & _ & Hr1).
    apply bind_ext_at; [|intros; reflexivity].
    unfold try_catch. rewrite Send_offer_once by congruence. reflexivity.
  Qed.

Lemma SendDataChannel_once label init h :
    transportReady h = true →
    SendDataChannel (with_onConnect x E) label init h = SendDataChannel E label init h.
  Proof.
    intros Hready. unfold SendDataChannel, CreateDataChannel, on_remoteSdp.
    repeat ext_keep.
    apply bind_ext_at; [|intros; reflexivity].
    destruct (hasDataChannelMediaSection _); [reflexivity|].
    repeat ext_keep. ext_done.
  Qed.

Lemma ReceiveDataChannel_once label init h :
    transportReady h = true →
    ReceiveDataChannel (with_onConnect x E) label init h = ReceiveDataChannel E label init h.
  Proof.
    intros Hready. unfold ReceiveDataChannel, CreateDataChannel, on_remoteSdp.
    repeat ext_keep.
    apply bind_ext_at; [|intros; reflexivity].
    destruct (hasDataChannelMediaSection _); [reflexivity|].
    repeat ext_keep. ext_done.
  Qed.

  (** X21.  The transport is set up once.  [Send], [Receive],
      [SendDataChannel] and [ReceiveDataChannel] never clear the flag
      [transportReady], whether they return or throw; and on a handler
      whose transport is ready none of them calls [OnConnect]: the outcome
      is the same whatever the listener would answer. *)
Theorem transport_is_set_up_once (track : option Track)
      (encodings : option (list RtpEncodingParameters)) (codecOptions : option json)
      (id kind : string) (rtpParameters : json) (label : string) (init : DataChannelInit) :
    let ready := λ h, transportReady h = true in
    (stays ready (Send E track encodings codecOptions)
     ∧ stays ready (Receive E id kind rtpParameters)
     ∧ stays ready (SendDataChannel E label init)
     ∧ stays ready (ReceiveDataChannel E label init))
    ∧ ∀ h, ready h →
        Send (with_onConnect x E) track encodings codecOptions h
        = Send E track encodings codecOptions h
        ∧ Receive (with_onConnect x E) id kind rtpParameters h
          = Receive E id kind rtpParameters h
        ∧ SendDataChannel (with_onConnect x E) label init h
          = SendDataChannel E label init h
        ∧ ReceiveDataChannel (with_onConnect x E) label init h
          = ReceiveDataChannel E label init h.
  Proof.
    intros ready. split.
    - split; [apply Send_ready|]. split; [apply Receive_ready|].
      split; [apply SendDataChannel_ready|apply ReceiveDataChannel_ready].
    - intros h Hready.
      split; [by apply Send_once|]. split; [by apply Receive_once|].
      split; [by apply SendDataChannel_once|by apply ReceiveDataChannel_once].
  Qed.
End Independent.

Section IndependentExamples.
#[local] Existing Instance ex_collaborators.

(** On the fresh handler [Receive] throws what the listener throws from
    [OnConnect]; after a [Receive] that returned the transport is ready and
    [ReceiveDataChannel] returns with the same listener. *)
Lemma transport_is_set_up_once_witness :
  let E' := with_onConnect (Throw (EngineError "OnConnect")) ex_engine in
  transportReady ex_handler = false
  ∧ (∃ h', Receive E' "consumer-1" "audio" ex_rtp ex_handler
           = SThrow (EngineError "OnConnect") h')
  ∧ transportReady ex_handler_received = true
  ∧ ∃ channel h',
      ReceiveDataChannel E' "" ex_init ex_handler_received = SOk channel h'
      ∧ transportReady h' = true.
Proof.
  intros E'.
  destruct (transport_is_set_up_once ex_engine (Throw (EngineError "OnConnect")) None None
              None "consumer-2" "audio" ex_rtp "" ex_init)
    as [(_ & _ & _ & Hstays) Honce].
  destruct (Honce ex_handler_received eq_refl) as (_ & _ & _ & Hrecv).
  split; [reflexivity|]. split; [eexists; vm_compute; reflexivity|].
  split; [reflexivity|].
  specialize (Hstays ex_handler_received eq_refl).
  fold E' in Hrecv. rewrite Hrecv.
  destruct (ReceiveDataChannel ex_engine "" ex_init ex_handler_received)
    as [channel h'| |] eqn:Hrun; [by exists channel, h'|..];
    vm_compute in Hrun; discriminate Hrun.
Defined.

End IndependentExamples.
(** ** The media section of the data channels *)

(** Peels the statements of a computation that returned, down to the last. *)
Ltac peel H :=
  repeat (apply bind_inv in H as (? & ? & _ & H);
          repeat match goal with p : (_ * _)%type |- _ => destruct p end;
          cbv beta iota in H).

Section DataChannelSection.
Context `{Collaborators} (E : Engine).

  (** The block that negotiates the section sets the flag as its last
      statement. *)
Lemma negotiated_block_sets_flag (block : M Handler unit) k s (x : DataChannel) s' :
    (∀ s1 s2, block s1 = SOk tt s2 → hasDataChannelMediaSection s2 = true) →
    ((h ← get_st; _ ← (if hasDataChannelMediaSection h then mret tt else block); mret k) s
     = SOk x s') →
    hasDataChannelMediaSection s' = true.
  Proof.
    intros Hblock Hrun. mrun in Hrun.
    destruct (hasDataChannelMediaSection s) eqn:Hflag; mrun in Hrun.
    - by inversion Hrun; subst.
    - destruct (block s) as [[] s2| |] eqn:Hb; [|done..]. mrun in Hrun.
      inversion Hrun; subst. by eapply Hblock.
  Qed.

Lemma SendDataChannel_returns_flag label init h channel h' :
    SendDataChannel E label init h = SOk channel h' →
    hasDataChannelMediaSection h' = true.
  Proof.
    unfold SendDataChannel. intros Hrun.
    do 6 (apply bind_inv in Hrun as (? & ? & _ & Hrun)).
    eapply negotiated_block_sets_flag; [|exact Hrun].
    intros s1 s2 Hblock. peel Hblock. by inversion Hblock.
  Qed.

Lemma ReceiveDataChannel_returns_flag label init h channel h' :
    ReceiveDataChannel E label init h = SOk channel h' →
    hasDataChannelMediaSection h' = true.
  Proof.
    unfold ReceiveDataChannel. intros Hrun.
    do 4 (apply bind_inv in Hrun as (? & ? & _ & Hrun)).
    eapply negotiated_block_sets_flag; [|exact Hrun].
    intros s1 s2 Hblock. peel Hblock. by inversion Hblock.
  Qed.

Lemma throws_keep_last {S X A B} (f : S → X) (m : M S A) (b : B) :
    throws_keep f m → throws_keep f (m ≫= λ _, mret b).
  Proof.
    intros Hm s e s'. rewrite run_bind.
    destruct (m s) as [a s1|e1 s1|] eqn:Hs; [done| |done].
    intros [= <- <-]. by eapply Hm.
  Qed.

Lemma SendDataChannel_throws_flag label init :
    throws_keep hasDataChannelMediaSection (SendDataChannel E label init).
  Proof.
    unfold SendDataChannel, CreateDataChannel, on_remoteSdp, SetupTransport.
    repeat (apply throws_keep_bind; [solve [keeps_auto]|intros ?]).
    apply throws_keep_last.
    destruct (hasDataChannelMediaSection _); [apply throws_keep_of_keeps, keeps_ret|].
    repeat (apply throws_keep_bind; [solve [keeps_auto]|intros ?];
            repeat match goal with
                   | |- throws_keep _ (let '(_, _) := ?x in _) => destruct x
                   end).
    by intros s e s'.
  Qed.

Lemma ReceiveDataChannel_throws_flag label init :
    throws_keep hasDataChannelMediaSection (ReceiveDataChannel E label init).
  Proof.
    unfold ReceiveDataChannel, CreateDataChannel, on_remoteSdp, SetupTransport.
    repeat (apply throws_keep_bind; [solve [keeps_auto]|intros ?]).
    apply throws_keep_last.
    destruct (hasDataChannelMediaSection _); [apply throws_keep_of_keeps, keeps_ret|].
    repeat (apply throws_keep_bind; [solve [keeps_auto]|intros ?];
            repeat match goal with
                   | |- throws_keep _ (let '(_, _) := ?x in _) => destruct x
                   end).
    by intros s e s'.
  Qed.
End DataChannelSection.

(** One step that both computations make alike and that keeps the flag of
    the data channel section. *)
Ltac ext_flag :=
  first
    [ rewrite !(run_bind get_st); cbn [get_st]; cbv zeta
    | apply bind_ext_at; [reflexivity|];
      let a := fresh "a" in
      let s' := fresh "s" in
      let Hm := fresh "Hm" in
      intros a s' Hm;
      apply (keeps_SOk (λ h, (hasDataChannelMediaSection h, remoteSdp h, transportReady h)))
        in Hm; [|solve [keeps_auto]] ].

Ltac ext_flag_done :=
  match goal with
  | |- context [hasDataChannelMediaSection ?s] =>
      replace (hasDataChannelMediaSection s) with true by congruence
  end;
  reflexivity.

(** With the flag set, the block that negotiates the section is skipped. *)
Lemma stays_flag_read (P : Handler → Prop) (block : M Handler unit) (k : DataChannel) :
  (∀ s, P s → hasDataChannelMediaSection s = true) →
  stays P (h ← get_st; _ ← (if hasDataChannelMediaSection h then mret tt else block); mret k).
Proof. intros HP s Hs. mrun. rewrite (HP s Hs). by mrun. Qed.

Ltac stays_flag :=
  repeat first
    [ apply stays_flag_read; by intros ? [= ? ? ?]
    | apply stays_bind;
      [ solve [apply (stays_keeps
                        (λ h, (hasDataChannelMediaSection h, remoteSdp h, transportReady h)));
               keeps_auto]
      | intros ? ] ].

Section NegotiatedOnce.
Context `{Collaborators} (E E' : Engine).
  Hypothesis same_channels : e_createDataChannel E' = e_createDataChannel E.

Lemma SendDataChannel_negotiated label init h :
    hasDataChannelMediaSection h = true →
    SendDataChannel E' label init h = SendDataChannel E label init h
    ∧ ∀ h', after (SendDataChannel E label init h) = Some h' →
            remoteSdp h' = remoteSdp h ∧ transportReady h' = transportReady h.
  Proof using same_channels.
    intros Hflag. split.
    - unfold SendDataChannel, CreateDataChannel. rewrite same_channels.
      repeat ext_flag. ext_flag_done.
    - intros h' Hafter.
      assert (stays (λ s, (hasDataChannelMediaSection s, remoteSdp s, transportReady s)
                          = (true, remoteSdp h, transportReady h))
                (SendDataChannel E label init)) as Hstays.
      { unfold SendDataChannel, CreateDataChannel. stays_flag. }
      specialize (Hstays h). cbv beta in Hstays. rewrite Hflag in Hstays.
      specialize (Hstays eq_refl).
      destruct (SendDataChannel E label init h); cbn [after] in Hafter; [| |done];
        inversion Hafter; subst; by inversion Hstays.
  Qed.

Lemma ReceiveDataChannel_negotiated label init h :
    hasDataChannelMediaSection h = true →
    ReceiveDataChannel E' label init h = ReceiveDataChannel E label init h
    ∧ ∀ h', after (ReceiveDataChannel E label init h) = Some h' →
            remoteSdp h' = remoteSdp h ∧ transportReady h' = transportReady h.
  Proof using same_channels.
    intros Hflag. split.
    - unfold ReceiveDataChannel, CreateDataChannel. rewrite same_channels.
      repeat ext_flag. ext_flag_done.
    - intros h' Hafter.
      assert (stays (λ s, (hasDataChannelMediaSection s, remoteSdp s, transportReady s)
                          = (true, remoteSdp h, transportReady h))
                (ReceiveDataChannel E label init)) as Hstays.
      { unfold ReceiveDataChannel, CreateDataChannel. stays_flag. }
      specialize (Hstays h). cbv beta in Hstays. rewrite Hflag in Hstays.
      specialize (Hstays eq_refl).
      destruct (ReceiveDataChannel E label init h); cbn [after] in Hafter; [| |done];
        inversion Hafter; subst; by inversion Hstays.
  Qed.
End NegotiatedOnce.

Section NegotiatedOnceFacts.
Context `{Collaborators} (E : Engine).

  (** X22.  The media section of the data channels is negotiated once.
      [SendDataChannel] and [ReceiveDataChannel] leave the flag
      [hasDataChannelMediaSection] set when they return and as it was when
      they throw, so that a failed negotiation is tried again by the next
      call.  Once the flag is set they ask the engine for the channel only:
      the outcome does not depend on any other answer of the engine, and
      the remote description and the state of the transport are left as
      they were, whether the call returns or throws. *)
Theorem data_channel_section_is_negotiated_once (label : string)
      (init : DataChannelInit) (h : Handler) :
    (∀ channel h',
       SendDataChannel E label init h = SOk channel h'
       ∨ ReceiveDataChannel E label init h = SOk channel h' →
       hasDataChannelMediaSection h' = true)
    ∧ (∀ e h',
         SendDataChannel E label init h = SThrow e h'
         ∨ ReceiveDataChannel E label init h = SThrow e h' →
         hasDataChannelMediaSection h' = hasDataChannelMediaSection h)
    ∧ (hasDataChannelMediaSection h = true →
       (∀ E', e_createDataChannel E' = e_createDataChannel E →
              SendDataChannel E' label init h = SendDataChannel E label init h
              ∧ ReceiveDataChannel E' label init h = ReceiveDataChannel E label init h)
       ∧ ∀ h',
           after (SendDataChannel E label init h) = Some h'
           ∨ after (ReceiveDataChannel E label init h) = Some h' →
           remoteSdp h' = remoteSdp h ∧ transportReady h' = transportReady h).
  Proof.
    split; [|split].
    - intros channel h' [Hrun|Hrun].
      + by eapply SendDataChannel_returns_flag.
      + by eapply ReceiveDataChannel_returns_flag.
    - intros e h' [Hrun|Hrun].
      + by eapply SendDataChannel_throws_flag.
      + by eapply ReceiveDataChannel_throws_flag.
    - intros Hflag. split.
      + intros E' HE'. split.
        * by apply SendDataChannel_negotiated.
        * by apply ReceiveDataChannel_negotiated.
      + intros h' [Hafter|Hafter].
        * by apply (SendDataChannel_negotiated E E eq_refl label init h Hflag).
        * by apply (ReceiveDataChannel_negotiated E E eq_refl label init h Hflag).
  Qed.
End NegotiatedOnceFacts.

Section NegotiatedOnceExamples.
#[local] Existing Instance ex_collaborators.

(** The first channel negotiates the section; the second is created with
    an engine that refuses every offer, and leaves the remote description
    alone. *)
Lemma data_channel_section_is_negotiated_once_witness :
  let h1 := default ex_handler
              (final (SendDataChannel ex_engine "" ex_init ex_handler_sent)) in
  hasDataChannelMediaSection ex_handler_sent = false
  ∧ hasDataChannelMediaSection h1 = true
  ∧ ∃ channel h2,
      SendDataChannel ex_engine_no_offer "" ex_init h1 = SOk channel h2
      ∧ dc_localId channel = "1"
      ∧ remoteSdp h2 = remoteSdp h1.
Proof.
  intros h1.
  assert (∃ channel, SendDataChannel ex_engine "" ex_init ex_handler_sent = SOk channel h1)
    as [channel1 Hrun1] by (eexists; vm_compute; reflexivity).
  destruct (data_channel_section_is_negotiated_once ex_engine "" ex_init ex_handler_sent)
    as (Hreturns & _).
  pose proof (Hreturns _ _ (or_introl Hrun1)) as Hflag.
  destruct (data_channel_section_is_negotiated_once ex_engine_no_offer "" ex_init h1)
    as (_ & _ & Honce).
  destruct (Honce Hflag) as [_ Hsame].
  split; [reflexivity|]. split; [exact Hflag|].
  eexists _, _.
  match goal with
  | |- ?run = SOk ?c ?h' ∧ _ =>
      assert (run = SOk c h') as Hrun2 by (vm_compute; reflexivity)
  end.
  split; [exact Hrun2|]. split; [reflexivity|].
  apply Hsame. left. rewrite Hrun2. reflexivity.
Defined.

End NegotiatedOnceExamples.
(** ** The candidates of a section *)

Lemma j_get_find k j v : j_get k j = Ok v → j_find k j = Some v.
Proof.
  destruct j as [| | | | | |o]; try done. cbn [j_get j_find].
  by destruct (Obj.find k o) as [x|]; [intros [= <-]|].
Qed.

Lemma candidate_object_fields c o :
  Section.candidate_object c = Ok o →
  j_find "component" o = Some (JInt 1)
  ∧ (∀ k, k ∈ ["foundation"; "ip"; "port"; "priority"; "type"] →
          j_find k o = j_find k c ∧ is_Some (j_find k c))
  ∧ j_find "transport" o = j_find "protocol" c
  ∧ is_Some (j_find "protocol" c)
  ∧ j_find "tcptype" o = j_find "tcpType" c
  ∧ (∀ k, k ∉ ["component"; "foundation"; "ip"; "port"; "priority"; "transport";
               "type"; "tcptype"] → j_find k o = None).
Proof.
  unfold Section.candidate_object. intros Hrun. do 13 res_step Hrun.
  repeat match goal with
         | Hx : j_get _ c = Ok _ |- _ => apply j_get_find in Hx
         end.
  assert (j_find "tcptype" o = j_find "tcpType" c ∧ unchanged_off ["tcptype"] a11 o)
    as [Htcp Hlast].
  { destruct (j_find "tcpType" c) as [t|] eqn:Ht.
    - do 1 res_step Hrun. apply j_get_find in Ha12. to_frames.
      split; [congruence|done].
    - inversion Hrun; subst o. split; [|apply unchanged_off_refl].
      to_frames. by frame_back. }
  to_frames. split; [by frame_back|]. split.
  { intros k Hk.
    repeat (apply elem_of_cons in Hk as [->|Hk]; [frame_back; split; [congruence|eauto]|]).
    by apply elem_of_nil in Hk. }
  split; [frame_back; congruence|]. split; [eauto|]. split; [done|].
  intros k Hk. by frame_back.
Qed.

(** What a candidate object has of the candidate it is made from. *)
Lemma candidates_fold cands : ∀ m m' objs,
  j_find "candidates" m = Some (JArr objs) →
  res_fold (λ m candidate, o ← Section.candidate_object candidate;
                           j_push_at "candidates" o m) cands m = Ok m' →
  ∃ objs', j_find "candidates" m' = Some (JArr (objs ++ objs'))
           ∧ Forall2 (λ c o, Section.candidate_object c = Ok o) cands objs'.
Proof.
  induction cands as [|c cands IH]; intros m m' objs Hm Hfold; cbn [res_fold] in Hfold.
  - inversion Hfold; subst. exists []. by rewrite app_nil_r.
  - res_step Hfold. res_step Ha. unfold j_push_at in Ha.
    apply j_upd_find in Ha as (v & v' & Hpush & Hfound & Hsame & _).
    rewrite (Hsame _ Hm) in Hpush. cbn [j_push_back] in Hpush. inversion Hpush; subst v'.
    destruct (IH _ _ _ Hfound Hfold) as (objs' & Hm' & Hall).
    exists (a0 :: objs'). rewrite <- app_assoc in Hm'. split; [done|]. by constructor.
Qed.

(** X23.  The constructor of a section lists the ICE candidates in
    order.  When it completes, "candidates" is an array with one object for
    each candidate given; the object has "component" 1, the "foundation",
    "ip", "port", "priority" and "type" of the candidate, its "protocol" as
    "transport", its "tcpType", if it has one, as "tcptype", and no other
    member; and each candidate has the six members read. *)
Theorem init_lists_candidates (iceParameters iceCandidates m : json) :
  Section.init iceParameters iceCandidates = Ok m →
  ∃ objs,
    j_find "candidates" m = Some (JArr objs)
    ∧ length objs = length (j_items iceCandidates)
    ∧ ∀ i c, j_items iceCandidates !! i = Some c →
        ∃ o, objs !! i = Some o
             ∧ j_find "component" o = Some (JInt 1)
             ∧ (∀ k, k ∈ ["foundation"; "ip"; "port"; "priority"; "type"] →
                     j_find k o = j_find k c ∧ is_Some (j_find k c))
             ∧ j_find "transport" o = j_find "protocol" c
             ∧ is_Some (j_find "protocol" c)
             ∧ j_find "tcptype" o = j_find "tcpType" c
             ∧ ∀ k, k ∉ ["component"; "foundation"; "ip"; "port"; "priority";
                         "transport"; "type"; "tcptype"] → j_find k o = None.
Proof.
  unfold Section.init. intros Hrun. do 4 res_step Hrun.
  apply j_set_find in Ha0 as [Hempty _].
  apply candidates_fold with (objs := []) in Ha1 as (objs & Hobjs & Hall); [|done].
  to_frames. exists objs. split; [by frame_back|].
  split; [symmetry; by eapply Forall2_length|].
  intros i c Hc.
  destruct (Forall2_lookup_l _ _ _ _ _ Hall Hc) as (o & Ho & Hmade).
  exists o. split; [done|]. by apply candidate_object_fields.
Qed.

(** Two candidates, the second over TCP. *)
Lemma init_lists_candidates_witness :
  let udp := obj_lit [ ("foundation", JStr "udpcandidate"); ("ip", JStr "10.0.0.1");
                       ("port", JInt 40000); ("priority", JInt 1076302079);
                       ("protocol", JStr "udp"); ("type", JStr "host") ] in
  let tcp := obj_lit [ ("foundation", JStr "tcpcandidate"); ("ip", JStr "10.0.0.1");
                       ("port", JInt 40001); ("priority", JInt 1076276479);
                       ("protocol", JStr "tcp"); ("type", JStr "host");
                       ("tcpType", JStr "passive") ] in
  ∃ m o1 o2,
    Section.init ex_ice (JArr [udp; tcp]) = Ok m
    ∧ j_find "candidates" m = Some (JArr [o1; o2])
    ∧ j_find "transport" o1 = Some (JStr "udp")
    ∧ j_find "tcptype" o1 = None
    ∧ j_find "transport" o2 = Some (JStr "tcp")
    ∧ j_find "tcptype" o2 = Some (JStr "passive").
Proof.
  intros udp tcp.
  destruct (Section.init ex_ice (JArr [udp; tcp])) as [m| |] eqn:Hrun;
    [|vm_compute in Hrun; discriminate Hrun..].
  destruct (init_lists_candidates _ _ _ Hrun) as (objs & Hobjs & Hlen & Hall).
  destruct objs as [|o1 [|o2 [|o3 objs]]]; try discriminate Hlen.
  destruct (Hall 0%nat udp eq_refl) as (o & Ho & _ & _ & Ht1 & _ & Htcp1 & _).
  inversion Ho; subst o.
  destruct (Hall 1%nat tcp eq_refl) as (o & Ho' & _ & _ & Ht2 & _ & Htcp2 & _).
  inversion Ho'; subst o.
  exists m, o1, o2. split; [done|]. split; [done|].
  split; [by rewrite Ht1|]. split; [by rewrite Htcp1|].
  split; [by rewrite Ht2|by rewrite Htcp2].
Defined.
(** ** The rids [Send] assigns *)

Lemma assign_rids_from_length l : ∀ s, length (assign_rids_from s l) = length l.
Proof. induction l as [|e l IH]; intros s; cbn; [done|]. by rewrite IH. Qed.

Lemma assign_rids_from_lookup l : ∀ s i e,
  0 ≤ s < 2 ^ 8 → l !! i = Some e →
  assign_rids_from s l !! i
  = Some (set_rid ("r" +:+ to_string ((s + Z.of_nat i) mod 2 ^ 8)) e).
Proof.
  induction l as [|x l IH]; intros s i e Hs Hi; [done|].
  destruct i as [|i]; cbn [assign_rids_from lookup list_lookup] in *.
  - inversion Hi; subst. rewrite Z.add_0_r, Z.mod_small by done. done.
  - rewrite (IH _ _ e) by (done || by apply Z.mod_pos_bound).
    rewrite Zplus_mod_idemp_l.
    by replace (s + 1 + Z.of_nat i) with (s + Z.of_nat (S i)) by lia.
Qed.

(** X24.  [Send] numbers the encodings of a simulcast.  With no encodings,
    or with at most one, the encodings are left as the caller gave them;
    with more than one, the encoding of index [i] gets the rid "r"
    followed by the decimal of [i mod 256] (the counter has 8 bits), whatever
    rid the caller gave it, and nothing else of it changes. *)
Theorem assign_rids_numbers_encodings (encodings : list RtpEncodingParameters) :
  assign_rids None = None
  ∧ ((length encodings ≤ 1)%nat → assign_rids (Some encodings) = Some encodings)
  ∧ ((1 < length encodings)%nat →
     ∃ numbered,
       assign_rids (Some encodings) = Some numbered
       ∧ length numbered = length encodings
       ∧ ∀ i e, encodings !! i = Some e →
           numbered !! i = Some (set_rid ("r" +:+ to_string (Z.of_nat i mod 2 ^ 8)) e)).
Proof.
  split; [done|]. unfold assign_rids. split.
  - intros Hle. rewrite decide_False by lia. done.
  - intros Hlt. rewrite decide_True by done. eexists. split; [done|].
    split; [apply assign_rids_from_length|].
    intros i e Hi. by rewrite (assign_rids_from_lookup _ 0 i e).
Qed.

(** Two encodings with rids of the caller: they become "r0" and "r1"; and
    the encoding of index 256 of a longer list is "r0" again. *)
Lemma assign_rids_numbers_encodings_witness :
  let e := mkEncoding true "high" None None None kLow in
  assign_rids (Some [e; e]) = Some [set_rid "r0" e; set_rid "r1" e]
  ∧ ∃ numbered,
      assign_rids (Some (replicate 257 e)) = Some numbered
      ∧ numbered !! 256%nat = Some (set_rid "r0" e).
Proof.
  intros e. split.
  - destruct (assign_rids_numbers_encodings [e; e]) as (_ & _ & Hmany).
    destruct Hmany as (numbered & -> & Hlen & Hnth); [cbn; lia|].
    destruct numbered as [|a [|b [|c numbered]]]; try discriminate Hlen.
    pose proof (Hnth 0%nat e eq_refl) as H0. pose proof (Hnth 1%nat e eq_refl) as H1.
    cbn in H0, H1. by inversion H0; inversion H1.
  - destruct (assign_rids_numbers_encodings (replicate 257 e)) as (_ & _ & Hmany).
    destruct Hmany as (numbered & Hrun & _ & Hnth); [rewrite length_replicate; lia|].
    exists numbered. split; [done|].
    rewrite (Hnth 256%nat e) by (apply lookup_replicate; split; [done|lia]).
    reflexivity.
Defined.
(** ** The section of the data channels *)

Section Association.
Context `{Collaborators}.

Lemma Offer_new_application ice cand sctp mid rtp streamId trackId m :
    Offer.new ice cand sctp mid "application" rtp streamId trackId = Ok m →
    application_section sctp (mkSection OfferVariant m)
    ∧ j_find "mid" m = Some (JStr mid)
    ∧ j_find "protocol" m = Some (JStr "UDP/DTLS/SCTP")
    ∧ j_find "setup" m = Some (JStr "actpass").
  Proof.
    intros Hnew. pose proof (Offer_new_fields _ _ _ _ _ _ _ _ _ Hnew)
      as (Hmid & Htype & Hport & Hsetup & Hproto & _ & Hdir & _).
    unfold Offer.new in Hnew. do 7 res_step Hnew.
    rewrite decide_False in Hnew by (by intros [|]).
    rewrite decide_True in Hnew by done. do 4 res_step Hnew.
    assert (sctp ≠ JNull) as Hsctp by (by intros ->).
    repeat match goal with
           | Hx : j_get _ sctp = Ok _ |- _ => apply j_get_find in Hx
           end.
    to_frames. unfold application_section. cbn [mediaObject].
    split; [|split; [done|]; split; [by destruct sctp|done]].
    split; [done|]. split; [by frame_back|]. split; [done|]. split; [done|].
    eexists _, _. split; [eassumption|]. split; [eassumption|].
    split; [by frame_back|done].
  Qed.

Lemma Answer_new_application ice cand dtls sctp offer off ans opts m off' ans' :
    Answer.new ice cand dtls sctp offer off ans opts = Ok (m, off', ans') →
    j_find "type" offer = Some (JStr "application") →
    application_section sctp (mkSection AnswerVariant m)
    ∧ j_find "mid" m = j_find "mid" offer
    ∧ j_find "protocol" m = j_find "protocol" offer.
  Proof.
    intros Hnew Happ. pose proof (Answer_new_fields _ _ _ _ _ _ _ _ _ _ _ Hnew)
      as (type & role & Htype & _ & Hmid & Htype' & Hproto & Hport & _ & _ & Hdir).
    rewrite Happ in Htype. inversion Htype; subst type; clear Htype.
    rewrite decide_False in Hdir by (by intros [|]).
    unfold Answer.new in Hnew. do 13 res_step Hnew.
    match goal with
    | Hx : j_get "type" offer = Ok ?t, Hy : get_string ?t = Ok ?s |- _ =>
        apply j_get_find in Hx; rewrite Happ in Hx; inversion Hx; subst t;
        cbn in Hy; inversion Hy; subst s
    end.
    rewrite decide_False in Hnew by (by intros [|]).
    rewrite decide_True in Hnew by done. do 5 res_step Hnew.
    inversion Hnew; subst; clear Hnew.
    repeat match goal with
           | Hx : j_get _ sctp = Ok _ |- _ => apply j_get_find in Hx
           end.
    to_frames. unfold application_section. cbn [mediaObject].
    split; [|done].
    split; [done|]. split; [by frame_back|]. split; [done|]. split; [done|].
    eexists _, _. split; [eassumption|]. split; [eassumption|].
    split; [by frame_back|done].
  Qed.

  (** X25.  The section of the data channels is appended, never put in a
      closed slot.  When [RecvSctpAssociation] completes, the sections are
      those from before followed by an offer section with the mid
      "datachannel", registered under this mid; when [SendSctpAssociation]
      completes for an offer media object of type "application", they are
      followed by an answer section with the mid and the protocol of that
      object.  In both cases the new section is open, has the type
      "application", the payloads "webrtc-datachannel" and no direction,
      and its "sctpPort" and "maxMessageSize" are the "port" and the
      "maxMessageSize" of the SCTP parameters of the remote description,
      which has both. *)
Theorem sctp_association_appends_section (offerMediaObject : json) (r r' : RemoteSdp) :
    (RecvSctpAssociation r = SOk tt r' →
     ∃ ms,
       mediaSections r' = (mediaSections r ++ [ms])%list
       ∧ section_variant ms = OfferVariant
       ∧ Section.GetMid ms = Ok "datachannel"
       ∧ application_section (sctpParameters r) ms
       ∧ j_find "protocol" (mediaObject ms) = Some (JStr "UDP/DTLS/SCTP")
       ∧ midToIndex r' = <["datachannel" := length (mediaSections r)]> (midToIndex r))
    ∧ (SendSctpAssociation offerMediaObject r = SOk tt r' →
       j_find "type" offerMediaObject = Some (JStr "application") →
       ∃ ms mid,
         mediaSections r' = (mediaSections r ++ [ms])%list
         ∧ section_variant ms = AnswerVariant
         ∧ j_find "mid" offerMediaObject = Some (JStr mid)
         ∧ Section.GetMid ms = Ok mid
         ∧ application_section (sctpParameters r) ms
         ∧ j_find "protocol" (mediaObject ms) = j_find "protocol" offerMediaObject
         ∧ midToIndex r' = <[mid := length (mediaSections r)]> (midToIndex r)).
  Proof.
    split.
    - unfold RecvSctpAssociation. intros Hrun. mrun in Hrun.
      destruct (Offer.new _ _ _ _ _ _ _ _) as [m| |] eqn:Hnew; mrun in Hrun; [|done..].
      apply Offer_new_application in Hnew as (Happ & Hmid & Hproto & _).
      apply AddMediaSection_exact in Hrun as (mid' & sdp' & Hmid' & -> & _).
      unfold Section.GetMid in *. cbn [mediaObject] in *.
      rewrite (j_find_get _ _ _ Hmid) in Hmid'. cbn in Hmid'. inversion Hmid'; subst mid'.
      exists (mkSection OfferVariant m). cbn [mediaObject section_variant mediaSections
        midToIndex]. rewrite (j_find_get _ _ _ Hmid). by cbn.
    - unfold SendSctpAssociation. intros Hrun Htype. mrun in Hrun.
      destruct (Answer.new _ _ _ _ _ _ _ _) as [[[m off] ans]| |] eqn:Hnew;
        mrun in Hrun; [|done..].
      apply Answer_new_application in Hnew as (Happ & Hmid & Hproto); [|done].
      apply AddMediaSection_exact in Hrun as (mid' & sdp' & Hmid' & -> & _).
      unfold Section.GetMid in *. cbn [mediaObject] in *.
      apply res_bind_inv in Hmid' as (v & Hv & Hstr).
      apply j_get_find in Hv. destruct v; try done. cbn in Hstr. inversion Hstr; subst.
      exists (mkSection AnswerVariant m), mid'.
      cbn [mediaObject section_variant mediaSections midToIndex].
      rewrite (j_find_get _ _ _ Hv). rewrite <- Hmid, Hv. by cbn.
  Qed.
End Association.

Section AssociationExamples.
#[local] Existing Instance ex_collaborators.

(** On the fresh document of the examples, whose SCTP parameters have the
    port 5000. *)
Lemma sctp_association_appends_section_witness :
  ∃ r' ms,
    RecvSctpAssociation ex_doc = SOk tt r'
    ∧ mediaSections r' = [ms]
    ∧ Section.GetMid ms = Ok "datachannel"
    ∧ j_find "sctpPort" (mediaObject ms) = Some (JInt 5000)
    ∧ midToIndex r' !! "datachannel" = Some 0%nat.
Proof.
  destruct (RecvSctpAssociation ex_doc) as [[] r'| |] eqn:Hrun;
    [|vm_compute in Hrun; discriminate Hrun..].
  destruct (sctp_association_appends_section JNull ex_doc r') as [Hrecv _].
  destruct (Hrecv Hrun) as (ms & Hsecs & _ & Hmid & Happ & _ & Hmap).
  destruct Happ as (_ & _ & _ & _ & port & size & Hport & _ & Hsctp & _).
  exists r', ms. split; [done|]. split; [exact Hsecs|]. split; [exact Hmid|].
  split; [|rewrite Hmap; apply lookup_insert_eq].
  rewrite Hsctp, <- Hport. reflexivity.
Defined.

End AssociationExamples.
(** ** The SSRC lines of an offer section *)

Lemma j_push_at_find k v m m' l :
  j_push_at k v m = Ok m' → j_find k m = Some (JArr l) →
  j_find k m' = Some (JArr (l ++ [v])) ∧ unchanged_off [k] m m'.
Proof.
  intros Hpush Hl. split; [|by eapply j_push_at_unchanged].
  unfold j_push_at in Hpush.
  apply j_upd_find in Hpush as (x & x' & Hx & Hfound & Hsame & _).
  rewrite (Hsame _ Hl) in Hx. cbn in Hx. by inversion Hx; subst.
Qed.

Section SsrcLines.
Context `{Collaborators}.

Lemma ssrc_block_lines rtp streamId trackId m m' :
    Offer.ssrc_block rtp streamId trackId m = Ok m' →
    ∃ encoding rest v ssrc rtxSsrc rtcp,
      j_find "encodings" rtp = Some (JArr (encoding :: rest))
      ∧ j_find "ssrc" encoding = Some v ∧ get_uint 32 v = Ok ssrc
      ∧ match j_find "rtx" encoding with
        | Some rtx =>
            match j_find "ssrc" rtx with
            | Some v' => get_uint 32 v' = Ok rtxSsrc
            | None => rtxSsrc = 0
            end
        | None => rtxSsrc = 0
        end
      ∧ j_find "rtcp" rtp = Some rtcp
      ∧ match j_find "cname" rtcp with
        | Some (JStr cname) =>
            let msid := streamId +:+ " " +:+ trackId in
            if rtxSsrc =? 0 then
              j_find "ssrcs" m' = Some (JArr (ssrc_lines ssrc cname msid))
              ∧ j_find "ssrcGroups" m' = Some (JArr [])
            else
              j_find "ssrcs" m'
              = Some (JArr (ssrc_lines ssrc cname msid ++ ssrc_lines rtxSsrc cname msid))
              ∧ j_find "ssrcGroups" m'
                = Some (JArr [obj_lit [("semantics", JStr "FID");
                                       ("ssrcs", JStr (to_string ssrc +:+ " "
                                                       +:+ to_string rtxSsrc))]])
        | _ => j_find "ssrcs" m' = Some (JArr []) ∧ j_find "ssrcGroups" m' = Some (JArr [])
        end.
  Proof.
    unfold Offer.ssrc_block. intros Hrun. do 8 res_step Hrun.
    apply j_get_find in Ha, Ha1, Ha6.
    assert (∃ rest, a = JArr (a0 :: rest)) as [rest ->].
    { destruct a as [| | | | |l|]; try done. cbn in Ha0.
      destruct l as [|x l]; [done|]. cbn in Ha0. inversion Ha0; subst. by eexists. }
    exists a0, rest, a1, a2, a3, a6.
    do 3 (split; [done|]). split.
    { destruct (j_find "rtx" a0) as [rtx|]; [|by inversion Ha3].
      unfold j_contains in Ha3. destruct (j_find "ssrc" rtx) as [v'|] eqn:Hv'.
      - cbn in Ha3. res_step Ha3. apply j_get_find in Ha7. congruence.
      - cbn in Ha3. by inversion Ha3. }
    split; [done|].
    assert (j_find "ssrcs" a5 = Some (JArr []) ∧ j_find "ssrcGroups" a5 = Some (JArr []))
      as [Hs Hg].
    { to_frames. split; [by frame_back|done]. }
    clear Ha4 Ha5.
    destruct (j_find "cname" a6) as [[| | | | | |]|];
      try (inversion Hrun; subst; done).
    do 2 res_step Hrun.
    pose proof (j_push_at_find _ _ _ _ _ Ha4 Hs) as [Hs1 Hf1].
    pose proof (j_push_at_find _ _ _ _ _ Ha5 Hs1) as [Hs2 Hf2].
    cbv zeta. destruct (a3 =? 0).
    - inversion Hrun; subst. split; [done|]. by frame_back.
    - do 2 res_step Hrun.
      pose proof (j_push_at_find _ _ _ _ _ Ha7 Hs2) as [Hs3 Hf3].
      pose proof (j_push_at_find _ _ _ _ _ Ha8 Hs3) as [Hs4 Hf4].
      assert (j_find "ssrcGroups" a9 = Some (JArr [])) as Hg4 by (by frame_back).
      pose proof (j_push_at_find _ _ _ _ _ Hrun Hg4) as [Hg5 Hf5].
      split; [|done]. frame_back. rewrite Hs4. by rewrite <- !app_assoc.
  Qed.

  (** X26.  An offer section for audio or video advertises the SSRC of the
      first encoding only.  When the constructor completes, the RTP
      parameters have a first encoding with an "ssrc"; the retransmission
      SSRC is the "ssrc" of its "rtx", or 0 without one.  If the "cname" of
      "rtcp" is a string, "ssrcs" has the cname and the msid (stream id,
      space, track id) of the SSRC, followed by those of the retransmission
      SSRC when that is not 0, in which case "ssrcGroups" has the one group
      "FID" of the two; with an "rtx" whose SSRC is 0 there is no group.
      If the cname is missing or not a string, both arrays are empty. *)
Theorem Offer_new_ssrc_lines (iceParameters iceCandidates sctpParameters : json)
      (mid kind : string) (offerRtpParameters : json) (streamId trackId : string)
      (m : json) :
    Offer.new iceParameters iceCandidates sctpParameters mid kind offerRtpParameters
              streamId trackId = Ok m →
    kind = "audio" ∨ kind = "video" →
    ∃ encoding rest v ssrc rtxSsrc rtcp,
      j_find "encodings" offerRtpParameters = Some (JArr (encoding :: rest))
      ∧ j_find "ssrc" encoding = Some v ∧ get_uint 32 v = Ok ssrc
      ∧ match j_find "rtx" encoding with
        | Some rtx =>
            match j_find "ssrc" rtx with
            | Some v' => get_uint 32 v' = Ok rtxSsrc
            | None => rtxSsrc = 0
            end
        | None => rtxSsrc = 0
        end
      ∧ j_find "rtcp" offerRtpParameters = Some rtcp
      ∧ match j_find "cname" rtcp with
        | Some (JStr cname) =>
            let msid := streamId +:+ " " +:+ trackId in
            if rtxSsrc =? 0 then
              j_find "ssrcs" m = Some (JArr (ssrc_lines ssrc cname msid))
              ∧ j_find "ssrcGroups" m = Some (JArr [])
            else
              j_find "ssrcs" m
              = Some (JArr (ssrc_lines ssrc cname msid ++ ssrc_lines rtxSsrc cname msid))
              ∧ j_find "ssrcGroups" m
                = Some (JArr [obj_lit [("semantics", JStr "FID");
                                       ("ssrcs", JStr (to_string ssrc +:+ " "
                                                       +:+ to_string rtxSsrc))]])
        | _ => j_find "ssrcs" m = Some (JArr []) ∧ j_find "ssrcGroups" m = Some (JArr [])
        end.
  Proof.
    unfold Offer.new. intros Hnew Hkind. do 7 res_step Hnew.
    rewrite decide_True in Hnew by done.
    unfold Offer.media_branch in Hnew. do 14 res_step Hnew.
    by apply ssrc_block_lines in Hnew.
  Qed.
End SsrcLines.

Section SsrcLinesExamples.
#[local] Existing Instance ex_collaborators.

(** An encoding with the SSRC 2222 and the retransmission SSRC 2223. *)
Lemma Offer_new_ssrc_lines_witness :
  let rtp := obj_lit
    [ ("codecs", JArr []); ("headerExtensions", JArr []);
      ("encodings", JArr [ obj_lit [ ("ssrc", JInt 2222);
                                     ("rtx", obj_lit [("ssrc", JInt 2223)]) ] ]);
      ("rtcp", obj_lit [("cname", JStr "cn")]) ] in
  ∃ m,
    Offer.new ex_ice (JArr []) JNull "0" "video" rtp "stream" "track" = Ok m
    ∧ j_find "ssrcs" m
      = Some (JArr (ssrc_lines 2222 "cn" "stream track" ++ ssrc_lines 2223 "cn" "stream track"))
    ∧ j_find "ssrcGroups" m
      = Some (JArr [obj_lit [("semantics", JStr "FID"); ("ssrcs", JStr "2222 2223")]]).
Proof.
  intros rtp.
  destruct (Offer.new ex_ice (JArr []) JNull "0" "video" rtp "stream" "track")
    as [m| |] eqn:Hnew; [|vm_compute in Hnew; discriminate Hnew..].
  destruct (Offer_new_ssrc_lines _ _ _ _ _ _ _ _ _ Hnew (or_intror eq_refl))
    as (encoding & rest & v & ssrc & rtxSsrc & rtcp & Henc & Hv & Hssrc & Hrtx & Hrtcp & Hlines).
  vm_compute in Henc. inversion Henc; subst encoding rest; clear Henc.
  vm_compute in Hv. inversion Hv; subst v; clear Hv.
  vm_compute in Hssrc. inversion Hssrc; subst ssrc; clear Hssrc.
  vm_compute in Hrtx. inversion Hrtx; subst rtxSsrc; clear Hrtx.
  vm_compute in Hrtcp. inversion Hrtcp; subst rtcp; clear Hrtcp.
  exists m. split; [done|]. exact Hlines.
Defined.

End SsrcLinesExamples.
(** ** The encodings [Send] returns *)

(** The read [j[kind]["codecs"][0]["mimeType"].get<std::string>()], when it
    returns: the first codec is there and has this mime type. *)
Lemma path_ref_mimeType kind j x j' mimeType :
  j_path_ref [Key kind; Key "codecs"; Idx 0; Key "mimeType"] j = Ok (x, j') →
  get_string x = Ok mimeType →
  ∃ codec rest,
    entry kind "codecs" j = Some (JArr (codec :: rest))
    ∧ j_find "mimeType" codec = Some (JStr mimeType).
Proof.
  intros Href Hstr. destruct x; try done. cbn in Hstr. inversion Hstr; subst; clear Hstr.
  apply path_ref_key in Href as (p & p1 & p' & Hkind & Href & _).
  apply path_ref_key in Href as (c & c1 & c' & Hcodecs & Href & _).
  change (j_path_ref [Idx 0; Key "mimeType"] c)
    with (v ← j_ref_idx 0 c;
          '(x, v) ← j_path_ref [Key "mimeType"] v;
          j ← j_set_idx 0 v c;
          Ok (x, j)) in Href.
  apply res_bind_inv in Href as (v & Hidx & Href).
  apply res_bind_inv in Href as ([x v'] & Hmime & Href).
  apply res_bind_inv in Href as (c2 & _ & Href). inversion Href; subst x c'; clear Href.
  apply path_ref_key in Hmime as (m & m1 & m' & Hmime & Hret & _).
  cbn [j_path_ref] in Hret. inversion Hret; subst m m'; clear Hret.
  apply j_ref_find in Hmime as (_ & _ & Hsome & Hnone).
  destruct (j_find "mimeType" v) as [m|] eqn:Hm; [|by specialize (Hnone eq_refl)].
  specialize (Hsome m eq_refl). subst m.
  assert (∃ rest, c = JArr (v :: rest)) as [rest ->].
  { destruct c as [| | | | |l|]; cbn in Hidx; try done.
    - by inversion Hidx; subst.
    - destruct l as [|y l]; cbn in Hidx; inversion Hidx; subst; [done|by eexists]. }
  apply j_ref_find in Hcodecs as (_ & _ & Hcsome & Hcnone).
  destruct (j_find "codecs" p) as [c0|] eqn:Hc0; [|by specialize (Hcnone eq_refl)].
  specialize (Hcsome c0 eq_refl). subst c0.
  apply j_ref_find in Hkind as (_ & _ & Hksome & Hknone).
  exists v, rest. split; [|done]. unfold entry.
  destruct (j_find kind j) as [p0|] eqn:Hp0.
  - by rewrite <- (Hksome p0 eq_refl).
  - rewrite (Hknone eq_refl) in Hc0. done.
Qed.

(** The loop of the scalability step on the elements of an array. *)
Lemma for_list_stamps l : ∀ acc acc' l',
  for_list (λ (_ : unit) encoding,
              e ← j_set "scalabilityMode" (JStr "S1T3") encoding; Ok (tt, e)) acc l
  = Ok (acc', l') →
  Forall2 (λ x x', j_find "scalabilityMode" x' = Some (JStr "S1T3")
                   ∧ ∀ k, k ≠ "scalabilityMode" → j_find k x' = j_find k x) l l'.
Proof.
  induction l as [|x l IH]; intros acc acc' l' Hfor; cbn [for_list] in Hfor.
  - inversion Hfor; subst. constructor.
  - apply res_bind_inv in Hfor as ([acc1 x'] & Hbody & Hfor).
    apply res_bind_inv in Hfor as ([acc2 l''] & Hrest & Hfor).
    inversion Hfor; subst; clear Hfor.
    apply res_bind_inv in Hbody as (e & Hset & Hret). inversion Hret; subst; clear Hret.
    apply j_set_find in Hset as [Hfound Hother].
    constructor; [by split|by eapply IH].
Qed.

Lemma stamp_scalability_array `{Collaborators} mimeType l final :
  stamp_scalability mimeType (JArr l) = Ok final →
  (1 < length l)%nat →
  tolower mimeType = "video/vp8" ∨ tolower mimeType = "video/h264" →
  ∃ l', final = JArr l'
        ∧ Forall2 (λ x x', j_find "scalabilityMode" x' = Some (JStr "S1T3")
                           ∧ ∀ k, k ≠ "scalabilityMode" → j_find k x' = j_find k x) l l'.
Proof.
  intros Hstamp Hlen Hvideo. unfold stamp_scalability in Hstamp.
  rewrite decide_True in Hstamp by (split; [by cbn|done]).
  cbn [j_for] in Hstamp.
  destruct (for_list _ tt l) as [[[] l']| |] eqn:Hfor; cbn in Hstamp; [|done..].
  inversion Hstamp; subst. exists l'. split; [done|]. by eapply for_list_stamps.
Qed.

Section SendEncodings.
Context `{Collaborators} (E : Engine).

Lemma Send_prepare_members track encodings h i t h1 :
    Send_prepare E track encodings h = SOk (i, t) h1 →
    Sdp.GetNextMediaSectionIdx (remoteSdp h) = Ok i
    ∧ ∀ f, entry (track_kind track) f (sendingRtpParametersByKind h1)
           = entry (track_kind track) f (sendingRtpParametersByKind h).
  Proof.
    unfold Send_prepare, upd_transceiver, ref_sending. intros Hrun.
    mcase Hrun. destruct (e_addTransceiver E); mrun in Hrun; [|done].
    mcase Hrun. inversion Hrun; subst; clear Hrun.
    cbn [sendingRtpParametersByKind set_pc_transceivers set_sendingRtpParametersByKind] in *.
    split; [done|]. intros f.
    match goal with
    | Href : j_path_ref [Key _] _ = Ok _ |- _ =>
        apply path_ref_top in Href as (Hfound & Hentry)
    end.
    unfold entry at 1. rewrite Hfound. apply Hentry.
  Qed.

Lemma Send_offer_members kind t h localId h1 f :
    Send_offer E kind t h = SOk localId h1 → f ≠ "mid" →
    entry kind f (sendingRtpParametersByKind h1) = entry kind f (sendingRtpParametersByKind h).
  Proof.
    unfold Send_offer, upd_transceiver, upd_sending. intros Hrun Hf.
    mcase Hrun. mrun in Hrun.
    assert (∃ x h2,
              (if transportReady h then mret (sdp_parse a)
               else SetupTransport E "server" (sdp_parse a)) h = SOk x h2
              ∧ sendingRtpParametersByKind h2 = sendingRtpParametersByKind h)
      as (x & h2 & Hsetup & Hsending).
    { destruct (transportReady h) eqn:Hr.
      - by eexists _, _.
      - destruct (SetupTransport E "server" (sdp_parse a) h) as [x h2| |] eqn:Hs; [|done..].
        apply SetupTransport_returns in Hs as (_ & _ & _ & ? & _).
        by eexists _, _. }
    rewrite Hsetup in Hrun. mcase Hrun. mrun in Hrun.
    destruct (e_mid E) as [mid|] eqn:Hmid; mrun in Hrun; [|done].
    mcase Hrun. inversion Hrun; subst; clear Hrun.
    cbn [sendingRtpParametersByKind set_pc_transceivers set_sendingRtpParametersByKind] in *.
    match goal with
    | Hset : j_path_set [Key kind; Key "mid"] _ _ = Ok _ |- _ =>
        apply path_set_entry in Hset as [_ Hother]
    end.
    rewrite Hother by done. by rewrite Hsending.
  Qed.

Lemma Send_negotiate_members track encodings h i t localId h1 :
    Send_negotiate E track encodings h = SOk (i, t, localId) h1 →
    Sdp.GetNextMediaSectionIdx (remoteSdp h) = Ok i
    ∧ ∀ f, f ≠ "mid" →
        entry (track_kind track) f (sendingRtpParametersByKind h1)
        = entry (track_kind track) f (sendingRtpParametersByKind h).
  Proof.
    unfold Send_negotiate. intros Hneg.
    apply bind_inv in Hneg as ([i0 t0] & h0 & Hprep & Hneg).
    apply Send_prepare_members in Hprep as (Hidx & Hprep).
    unfold try_catch in Hneg. rewrite run_bind in Hneg.
    destruct (Send_offer E (track_kind track) _ h0) as [lid h0'|e h0'|] eqn:Hoffer;
      [|unfold Send_undo, upd_transceiver in Hneg; mrun in Hneg; done|done].
    mrun in Hneg. inversion Hneg; subst; clear Hneg.
    split; [done|]. intros f Hf.
    rewrite (Send_offer_members _ _ _ _ _ _ Hoffer Hf). apply Hprep.
  Qed.

  (** What [Send] reads and writes between the offer and the answer. *)
Lemma Send_parameters_exact kind i encodings h offer h' :
    Send_parameters E kind i encodings h = SOk offer h' →
    ∃ localSdpObject populated codec rest mimeType final,
      j_path_ref [Key "media"; Idx (idx i)] (sdp_parse (e_localDescription E))
      = Ok (offer, localSdpObject)
      ∧ populate_encodings encodings offer = Ok populated
      ∧ entry kind "codecs" (sendingRtpParametersByKind h) = Some (JArr (codec :: rest))
      ∧ j_find "mimeType" codec = Some (JStr mimeType)
      ∧ stamp_scalability mimeType populated = Ok final
      ∧ entry kind "encodings" (sendingRtpParametersByKind h') = Some final.
  Proof.
    unfold Send_parameters, upd_sending, ref_sending. intros Hrun.
    do 9 mcase Hrun.
    inversion Hrun; subst; clear Hrun. cbn [sendingRtpParametersByKind
      set_sendingRtpParametersByKind] in *.
    match goal with
    | Href : j_path_ref [Key kind; Key "codecs"; Idx 0; Key "mimeType"] ?j = Ok (?x, _),
      Hstr : get_string ?x = Ok ?mimeType |- _ =>
        destruct (path_ref_mimeType _ _ _ _ _ Href Hstr) as (codec & rest & Hcodecs & Hmime)
    end.
    eexists _, _, codec, rest, _, _. split; [done|]. split; [done|]. split.
    { rewrite <- Hcodecs.
      repeat match goal with
             | Hset : j_path_set [Key kind; Key "encodings"] _ ?j = Ok ?j' |- context [?j'] =>
                 apply path_set_entry in Hset as [_ Hset]; rewrite Hset by done
             | Hset : j_path_set [Key kind; Key "rtcp"; Key "cname"] _ ?j = Ok ?j'
               |- context [?j'] =>
                 apply (path_set_entry3 _ _ _ _ _ _ "codecs") in Hset; [|done]; rewrite Hset
             end.
      done. }
    split; [done|]. split; [done|].
    match goal with
    | Hset : j_path_set [Key kind; Key "encodings"] _ _ = Ok ?j |- entry _ _ ?j = _ =>
        by apply path_set_entry in Hset as [? _]
    end.
  Qed.

  (** In a [Send] that returns: the section index and the media object of
      the offer, the encodings built from the caller's (with their rids
      assigned), the mime type of the first codec of the RTP parameters of
      the kind, and the encodings returned, which are those built as the
      scalability step left them. *)
Lemma Send_result_exact track encodings codecOptions h result h' :
    Send E (Some track) encodings codecOptions h = SOk result h' →
    ∃ i offer localSdpObject populated codec rest mimeType final,
      Sdp.GetNextMediaSectionIdx (remoteSdp h) = Ok i
      ∧ j_path_ref [Key "media"; Idx (idx i)] (sdp_parse (e_localDescription E))
        = Ok (offer, localSdpObject)
      ∧ populate_encodings (assign_rids encodings) offer = Ok populated
      ∧ entry (track_kind track) "codecs" (sendingRtpParametersByKind h)
        = Some (JArr (codec :: rest))
      ∧ j_find "mimeType" codec = Some (JStr mimeType)
      ∧ stamp_scalability mimeType populated = Ok final
      ∧ j_find "encodings" (send_rtpParameters result) = Some final.
  Proof.
    unfold Send. intros Hrun.
    apply bind_inv in Hrun as ([[i t] localId] & h1 & Hneg & Hrun).
    apply bind_inv in Hrun as (offer & h2 & Hparams & Hrun).
    apply bind_inv in Hrun as ([] & h3 & Hanswer & Hrun).
    apply Send_negotiate_members in Hneg as (Hidx & Hmembers).
    apply Send_parameters_exact in Hparams
      as (sdp' & populated & codec & rest & mimeType & final & Hoffer & Hpop & Hcodecs & Hmime
          & Hstamp & Hentry).
    pose proof (Send_answer_member _ _ _ _ _ _ _ "encodings" Hanswer) as (off & Hoff & Henc);
      [done|].
    unfold Send_commit in Hrun. mrun in Hrun. inversion Hrun; subst; clear Hrun.
    cbn [send_rtpParameters sendingRtpParametersByKind set_mapMidTransceiver].
    exists i, offer, sdp', populated, codec, rest, mimeType, final.
    split; [done|]. split; [done|]. split; [done|].
    split; [by rewrite <- Hmembers|]. split; [done|]. split; [done|].
    rewrite Hoff. change (default JNull (Some off)) with off. by rewrite Henc.
  Qed.
End SendEncodings.

(** C8, as amended.  In a [Send] that returns, the encodings of the RTP
    parameters returned are built in three ways, by the encodings of the
    caller.  Let
    the media object of the offer be the one the local description has at
    the section index [Send] claimed.  Without caller encodings (none, or an
    empty list) the encodings built are what [getRtpEncodings] derives from
    that object.  With exactly one, they are that derived list with the
    explicit fields of the caller's encoding ("active" and "networkPriority"
    always, "rid" if not empty, "maxBitrate", "maxFramerate" and
    "scaleResolutionDownBy" if set) laid over its first element.  With more
    than one, they are the caller's encodings alone, with the rids "r0",
    "r1", ... that [Send] assigns in place of the caller's, and nothing
    derived from the offer.  The encodings returned are the ones
    built, as the scalability step left them: themselves when they are at
    most one or the first codec is neither VP8 nor H264.  In particular one
    caller encoding with [maxBitrate = 500000] over a derived list of one
    element is returned with the ssrc of that element and
    [maxBitrate = 500000]. *)
Theorem Send_encodings_three_cases `{Collaborators} (E : Engine) (track : Track)
    (encodings : option (list RtpEncodingParameters)) (codecOptions : option json)
    (h h' : Handler) (result : SendResult) :
  Send E (Some track) encodings codecOptions h = SOk result h' →
  ∃ mediaSectionIdx offerMediaObject localSdpObject populated codec codecs mimeType final,
    Sdp.GetNextMediaSectionIdx (remoteSdp h) = Ok mediaSectionIdx
    ∧ j_path_ref [Key "media"; Idx (idx mediaSectionIdx)] (sdp_parse (e_localDescription E))
      = Ok (offerMediaObject, localSdpObject)
    ∧ ((encodings = None ∨ encodings = Some []) →
       getRtpEncodings offerMediaObject = Ok populated)
    ∧ (∀ e o rest,
         encodings = Some [e] →
         getRtpEncodings offerMediaObject = Ok (JArr (JObj o :: rest)) →
         ∃ o', populated = JArr (JObj o' :: rest) ∧ overlaid e o o')
    ∧ (∀ l, encodings = Some l → (1 < length l)%nat →
         ∃ os, populated = JArr (JObj <$> os)
               ∧ Forall2 (λ e o', overlaid e [] o') (assign_rids_from 0 l) os)
    ∧ entry (track_kind track) "codecs" (sendingRtpParametersByKind h)
      = Some (JArr (codec :: codecs))
    ∧ j_find "mimeType" codec = Some (JStr mimeType)
    ∧ stamp_scalability mimeType populated = Ok final
    ∧ j_find "encodings" (send_rtpParameters result) = Some final
    ∧ (((j_size populated ≤ 1)%nat
        ∨ ¬ (tolower mimeType = "video/vp8" ∨ tolower mimeType = "video/h264")) →
       final = populated)
    ∧ (∀ e o ssrc,
         encodings = Some [e] → max_bitrate_bps e = Some 500000 →
         getRtpEncodings offerMediaObject = Ok (JArr [JObj o]) →
         Obj.find "ssrc" o = Some ssrc →
         ∃ o', final = JArr [JObj o']
               ∧ Obj.find "ssrc" o' = Some ssrc
               ∧ Obj.find "maxBitrate" o' = Some (JInt 500000)).
Proof.
  intros Hrun.
  apply Send_result_exact in Hrun
    as (i & offer & sdp' & populated & codec & codecs & mimeType & final & Hidx & Hoffer
        & Hpop & Hcodecs & Hmime & Hstamp & Hfinal).
  exists i, offer, sdp', populated, codec, codecs, mimeType, final.
  assert (((j_size populated ≤ 1)%nat
           ∨ ¬ (tolower mimeType = "video/vp8" ∨ tolower mimeType = "video/h264")) →
          final = populated) as Hsame.
  { intros Hcase.
    destruct (stamp_scalability_simulcast mimeType populated) as [_ Hkeep].
    rewrite (Hkeep Hcase) in Hstamp. by inversion Hstamp. }
  assert (∀ e o rest,
            encodings = Some [e] →
            getRtpEncodings offer = Ok (JArr (JObj o :: rest)) →
            ∃ o', populated = JArr (JObj o' :: rest) ∧ overlaid e o o') as Hone.
  { intros e o rest -> Hderived.
    change (assign_rids (Some [e])) with (Some [e]) in Hpop.
    destruct (populate_encodings_three_cases (Some [e]) offer) as (_ & Hcase & _).
    destruct (Hcase e o rest eq_refl Hderived) as (o' & Hrun & Hov).
    rewrite Hrun in Hpop. inversion Hpop; subst. by exists o'. }
  split; [done|]. split; [done|]. split; [|split; [done|split]].
  - intros Hnone.
    assert (assign_rids encodings = None ∨ assign_rids encodings = Some []) as Hassigned
      by (destruct Hnone as [-> | ->]; auto).
    destruct (populate_encodings_three_cases (assign_rids encodings) offer) as (Hcase & _).
    by rewrite <- (Hcase Hassigned).
  - intros l -> Hlen. unfold assign_rids in Hpop. rewrite decide_True in Hpop by done.
    destruct (populate_encodings_three_cases (Some (assign_rids_from 0 l)) offer)
      as (_ & _ & Hcase & _).
    destruct (Hcase _ eq_refl) as (os & Hrun & Hall);
      [by rewrite assign_rids_from_length|].
    rewrite Hrun in Hpop. inversion Hpop; subst. by exists os.
  - do 4 (split; [done|]). split; [done|].
    intros e o ssrc He Hmb Hderived Hssrc.
    destruct (Hone e o [] He Hderived) as (o' & -> & Hov).
    exists o'. split; [apply Hsame; left; cbn; lia|]. split.
    + rewrite (ov_other _ _ _ Hov) by (rewrite !not_elem_of_cons; repeat split;
        try done; apply not_elem_of_nil). done.
    + by rewrite (ov_maxBitrate _ _ _ Hov), Hmb.
Qed.

(** C9.  In a [Send] that returns, the scalability mode is stamped by the
    first codec of the RTP parameters of the kind of the track and by the
    number of the encodings built.  The mime type read is that of
    [codecs[0]].  If it is "video/vp8" or "video/h264", in any letter case,
    and the encodings built are more than one, every encoding returned is
    the one built with the scalability mode "S1T3" added and nothing else
    changed (for a list of objects: the object with the member set); if
    the encodings built are at most one, or the first codec is any other,
    the encodings returned are the ones built, none with a member added. *)
Theorem Send_stamps_scalability `{Collaborators} (E : Engine) (track : Track)
    (encodings : option (list RtpEncodingParameters)) (codecOptions : option json)
    (h h' : Handler) (result : SendResult) :
  Send E (Some track) encodings codecOptions h = SOk result h' →
  ∃ codec codecs mimeType offerMediaObject populated final,
    entry (track_kind track) "codecs" (sendingRtpParametersByKind h)
    = Some (JArr (codec :: codecs))
    ∧ j_find "mimeType" codec = Some (JStr mimeType)
    ∧ populate_encodings (assign_rids encodings) offerMediaObject = Ok populated
    ∧ j_find "encodings" (send_rtpParameters result) = Some final
    ∧ (∀ l, populated = JArr l → (1 < length l)%nat →
         (tolower mimeType = "video/vp8" ∨ tolower mimeType = "video/h264") →
         ∃ l', final = JArr l'
               ∧ Forall2 (λ x x', j_find "scalabilityMode" x' = Some (JStr "S1T3")
                                  ∧ ∀ k, k ≠ "scalabilityMode" → j_find k x' = j_find k x)
                         l l')
    ∧ (∀ os, populated = JArr (JObj <$> os) → (1 < length os)%nat →
         (tolower mimeType = "video/vp8" ∨ tolower mimeType = "video/h264") →
         ∃ os', final = JArr (JObj <$> os') ∧ Forall2 stamped os os')
    ∧ (((j_size populated ≤ 1)%nat
        ∨ ¬ (tolower mimeType = "video/vp8" ∨ tolower mimeType = "video/h264")) →
       final = populated).
Proof.
  intros Hrun.
  apply Send_result_exact in Hrun
    as (i & offer & sdp' & populated & codec & codecs & mimeType & final & _ & _
        & Hpop & Hcodecs & Hmime & Hstamp & Hfinal).
  exists codec, codecs, mimeType, offer, populated, final.
  do 4 (split; [done|]).
  destruct (stamp_scalability_simulcast mimeType populated) as [Hmany Hkeep].
  split; [|split].
  - intros l -> Hlen Hvideo. by eapply stamp_scalability_array.
  - intros os Hos Hlen Hvideo. destruct (Hmany os Hos Hlen Hvideo) as (os' & Hrun & Hall).
    rewrite Hrun in Hstamp. inversion Hstamp; subst final. by exists os'.
  - intros Hcase. rewrite (Hkeep Hcase) in Hstamp. by inversion Hstamp.
Qed.

Section SendEncodingsExamples.
#[local] Existing Instance ex_collaborators.

(** One caller encoding with [maxBitrate = 500000]: the encodings returned
    have the ssrc the offer gave and this bit rate. *)
Lemma Send_encodings_three_cases_witness :
  ∃ result h' o',
    Send ex_engine (Some ex_track) (Some [ex_encoding (Some 500000)]) None ex_handler
    = SOk result h'
    ∧ j_find "encodings" (send_rtpParameters result) = Some (JArr [JObj o'])
    ∧ Obj.find "ssrc" o' = Some (JInt 1111)
    ∧ Obj.find "maxBitrate" o' = Some (JInt 500000).
Proof.
  destruct (Send ex_engine (Some ex_track) (Some [ex_encoding (Some 500000)]) None ex_handler)
    as [result h'| |] eqn:Hrun; [|vm_compute in Hrun; discriminate Hrun..].
  destruct (Send_encodings_three_cases ex_engine _ _ _ _ _ _ Hrun)
    as (i & offer & sdp' & populated & codec & codecs & mimeType & final & _ & _ & _ & _ & _
        & _ & _ & _ & Hfinal & _ & Hexample).
  destruct (Hexample (ex_encoding (Some 500000)) [("ssrc", JInt 1111)] (JInt 1111)
              eq_refl eq_refl eq_refl eq_refl) as (o' & -> & Hssrc & Hmb).
  by exists result, h', o'.
Defined.

(** Two caller encodings on a handler whose first video codec is
    "video/VP8": both encodings returned have the scalability mode. *)
Lemma Send_stamps_scalability_witness :
  ∃ result h' o1 o2,
    Send ex_engine (Some ex_video_track)
         (Some [ex_encoding None; ex_encoding (Some 100000)]) None ex_handler_video
    = SOk result h'
    ∧ entry "video" "codecs" (sendingRtpParametersByKind ex_handler_video)
      = j_find "codecs" ex_video_rtp
    ∧ j_find "encodings" (send_rtpParameters result) = Some (JArr [JObj o1; JObj o2])
    ∧ Obj.find "scalabilityMode" o1 = Some (JStr "S1T3")
    ∧ Obj.find "scalabilityMode" o2 = Some (JStr "S1T3")
    ∧ Obj.find "rid" o1 = Some (JStr "r0")
    ∧ Obj.find "rid" o2 = Some (JStr "r1").
Proof.
  destruct (Send ex_engine (Some ex_video_track)
              (Some [ex_encoding None; ex_encoding (Some 100000)]) None ex_handler_video)
    as [result h'| |] eqn:Hrun; [|vm_compute in Hrun; discriminate Hrun..].
  destruct (Send_stamps_scalability ex_engine _ _ _ _ _ _ Hrun)
    as (codec & codecs & mimeType & offer & populated & final & Hcodecs & Hmime & Hpop
        & Hfinal & _ & Hmany & _).
  vm_compute in Hcodecs. inversion Hcodecs; subst codec codecs; clear Hcodecs.
  vm_compute in Hmime. inversion Hmime; subst mimeType; clear Hmime.
  vm_compute in Hpop. inversion Hpop; subst populated; clear Hpop.
  destruct (Hmany [ [("active", JBool true); ("networkPriority", JInt 1);
                     ("rid", JStr "r0")];
                    [("active", JBool true); ("maxBitrate", JInt 100000);
                     ("networkPriority", JInt 1); ("rid", JStr "r1")] ])
    as (os' & -> & Hall); [reflexivity|cbn; lia|by left|].
  destruct os' as [|o1 [|o2 [|o3 os']]];
    try (apply Forall2_length in Hall; discriminate Hall).
  apply Forall2_cons in Hall as [[Hs1 Ho1] Hall].
  apply Forall2_cons in Hall as [[Hs2 Ho2] _].
  exists result, h', o1, o2. split; [done|]. split; [reflexivity|]. split; [done|].
  split; [done|]. split; [done|].
  split; [by rewrite Ho1|by rewrite Ho2].
Defined.

(** C8 as stated fails for the rids: with more than one encoding the
    caller's are not used verbatim.  [Send] overwrites the rid of each with
    "r" and its index before anything else, so two encodings given with the
    rids "hi" and "lo" are returned with "r0" and "r1". *)
Lemma Send_overwrites_rids_counterexample :
  let hi := mkEncoding true "hi" None None None kLow in
  let lo := mkEncoding true "lo" (Some 100000) None None kLow in
  ∃ result h' o1 o2,
    Send ex_engine (Some ex_track) (Some [hi; lo]) None ex_handler = SOk result h'
    ∧ j_find "encodings" (send_rtpParameters result) = Some (JArr [JObj o1; JObj o2])
    ∧ Obj.find "rid" o1 = Some (JStr "r0")
    ∧ Obj.find "rid" o2 = Some (JStr "r1")
    ∧ ¬ overlaid hi [] o1
    ∧ ¬ overlaid lo [] o2.
Proof.
  intros hi lo. eexists _, _, _, _.
  split; [vm_compute; reflexivity|]. split; [vm_compute; reflexivity|].
  split; [vm_compute; reflexivity|]. split; [vm_compute; reflexivity|].
  split; intros Hov; apply ov_rid in Hov; vm_compute in Hov; discriminate Hov.
Qed.

End SendEncodingsExamples.
